(* ===== verification/_CoqProject ===== *)
-Q . S2P
Prelude.v
RustStr.v
Enums.v
Types.v
Sdp.v
Codec.v
Float64.v
ReceiverStream.v
Interceptors.v
MediaParse.v
MediaConfig.v
Negotiation.v
Config.v
Certificate.v
Endpoint.v
Description.v
Session.v
ServerStates.v
Stable.v
Demux.v
Gateway.v
Renegotiation.v
Srtp.v
Metrics.v
DataChannel.v
InterceptorHandler.v
Dtls.v
Sctp.v
Pipeline.v
Timers.v
Room.v
Runs.v
Subscriptions.v
Loop.v
Signaling.v
Shutdown.v
AsyncShutdown.v
Media.v
Control.v
Demo.v
Witnesses.v
