(* ===== verification/Prelude.v ===== *)
(** * Verification of the SFU

    The program is a selective forwarding unit for WebRTC: peers join a
    session over HTTP signalling, connect with ICE, DTLS and SCTP, publish
    tracks by renegotiating over a data channel, and the server forwards the
    RTP and RTCP packets of each participant to the others.

    ** The parts and how they interact

    A server owns one [ServerStates] (server/states.rs): sessions, each with
    endpoints, each with transports keyed by four tuple; a table from four
    tuples to endpoints; and the candidates of peers that were given an answer
    but have not connected.  A pipeline of handlers (handlers/*.rs) shares it.
    A datagram goes through demuxer, STUN, DTLS, SCTP, data channel, SRTP,
    interceptor and gateway handler; the gateway queues what goes out, and
    polling the pipeline takes it back down to the socket.  A program starts one
    such server per media port, each on a thread of its own that runs a loop of
    writing, signalling, reading and timers; an HTTP front end hands a request
    to the thread of its session's port.

    ** Files

    - [Prelude]: the outcome of a Rust call ([outcome]: Ok, Err or a panic),
      the monad [M] of [&mut self] methods with [?], loops, iteration over a
      [HashMap] in an unspecified order ([HashOrder]), integers, tactics, hints.
    - [RustStr]: the string functions of the standard library the code calls.
    - [Enums], [Types]: enumerations, addresses, messages (types.rs,
      messages.rs, description/sdp_type.rs, rtp_transceiver_direction.rs).
    - [Sdp], [Codec]: the interface of the sdp crate ([SdpOps], [SdpLaws]),
      codecs, transceivers, fmtp matching (description/rtp_codec.rs, fmtp/).
    - [Float64], [ReceiverStream]: binary64 and the reception statistics
      (interceptors/report/receiver_stream.rs).
    - [Interceptors]: chains, builders and registry (interceptors/).
    - [MediaParse], [Description]: reading and writing of session descriptions
      (description/mod.rs).
    - [MediaConfig], [Negotiation], [Config]: configs/; what codec negotiation
      may choose is a specification of its own.
    - [Certificate]: creation and text form of certificates
      (server/certificate.rs), with the interface of the rcgen, ring, pem and
      dtls crates ([CertificateOps], [CertificateLaws]).
    - [Endpoint]: candidates, transports, endpoints (endpoint/).
    - [Session]: session/mod.rs, descriptions, offers and answers.
    - [ServerStates]: server/states.rs.
    - [Stable]: the interface between the handlers and properties of the state
      they share.  Each class ([Stable], [Removable], and [OfferStable] and
      [Visited] of [Gateway]) names a group of changes; a handler's lemma says
      of which groups its turn consists, and a property with instances of the
      classes holds through every run of the pipeline.
    - [Demux], [Gateway], [Srtp], [DataChannel], [InterceptorHandler], [Dtls],
      [Sctp]: one handler each (handlers/).
    - [Metrics]: metrics/mod.rs, and the SRTP handler with its calls on it.
    - [Renegotiation]: a peer's offer over its data channel and the offers the
      others get (handlers/gateway.rs).
    - [Pipeline]: build_pipeline, the composition of the handlers, signalling
      and the actions of the loop (examples/sync_signal/mod.rs).
    - [Timers]: the timers of all handlers as one list, against poll_timeout.
    - [Room]: the abstract specification, a room with members, open
      invitations and everyone ever invited, and the simulation.
    - [Runs]: properties of every run, by the classes of [Stable].
    - [Subscriptions]: which tracks every endpoint of a room is offered, as an
      invariant of the pipeline, followed call by call of the gateway.
    - [Loop]: the rounds of sync_run (examples/sync_signal/mod.rs).
    - [Signaling]: the HTTP front ends of examples/sync_signal and
      examples/async_signal, the workers, and the start of the two programs
      (examples/sync_chat.rs, examples/async_chat.rs, examples/util/mod.rs).
    - [Shutdown]: the threads of sync_chat as a step relation, with the stop
      channel, Ctrl-C and the waiting (examples/sync_chat.rs).
    - [AsyncShutdown]: the same for async_chat, with its broadcast channel, its
      workers and the task of the signalling server.
    - [Media]: the path of a media datagram through the whole pipeline.
    - [Control]: the path of a data-channel message through it, and of the
      answers to it.
    - [Demo], [Witnesses]: an implementation of the interfaces that satisfies
      the laws, a room with two connected endpoints, and for every property
      with hypotheses a concrete case in which they hold.

    ** How code corresponds to definitions

    A struct is a [Record] with its fields (prefixed to be unique), an enum an
    [Inductive].  A method on [&mut self] is a function in [M] or one that
    returns the new state; a handler's [handle_read] returns the new state and
    the calls it makes on its successor ([Effect]: [fire_read],
    [fire_exception]), [poll_write] takes what the successor answered.
    [Instant::now()] and random bytes are arguments ([Env]); what the socket,
    the channels and the clock do in one round of the loop is a record
    ([Round]); a worker answers a request in its next round ([worker_ask]); a moment or a
    duration is a number of nanoseconds, so that the panic of a subtraction
    below the origin of the clock does not occur.  Widths are kept where the
    code depends on them (sequence numbers, cycles, losses, identifiers).
    Arithmetic is that of a release build: [+=] on a machine integer wraps
    around (the version in [update_sdp_origin], the cycles in [process_rtp]),
    where a debug build would panic.
    Logging is left out; the metrics are threaded separately ([Metrics]).

    Other crates (sdp, stun, dtls, sctp, srtp, rtp, rtcp, serde_json, base64,
    ring, rcgen, pem, hex) are type classes: the opaque types are the fields of [ExtTypes],
    the functions those of [SdpOps], [RtpOps], [ConfigOps], [TransportOps],
    [GatewayOps], [StunCodec], [SrtpOps], [DcepOps], [DtlsOps], [SctpOps],
    [CertificateOps], [HexOps], [MeterOps] and [ChannelOps].  What the properties need of them is stated apart, in the classes
    named [...Laws]: builders append attributes, header fields have their
    width, digests and encodings have their length, polling consumes pending
    work.  A handler's turn that panics in the model ends without effects.

    ** What the theorems show

    - Media: [media_end_to_end] follows a datagram from the socket to the
      sockets of the others; [srtp_writes_only_encrypted] and
      [srtp_reads_only_decrypted] state that nothing leaves or enters in the
      clear; [rtcp_terminated], [interceptor_forwards_end_to_end] and
      [reachable_interceptor_chains] which RTCP passes, and how often.
    - State: [server_refines_room] is the refinement of the server to the room;
      [reachable_server_ok] is the invariant of every reachable state;
      [stun_opens_only_authenticated], [dtls_alert_closes_connection],
      [idle_connections_closed] and [accept_offer_keeps_connections] say which
      operations open and close connections; [connection] is the abstract view
      they are stated in.
    - Negotiation: [offer_publishes_tracks], [datachannel_open_subscribes],
      [create_answer_mirrors], [create_offer_mids], [populate_sdp_sections],
      [remote_answer_sets_current_direction], [accept_offer_initial],
      [initial_offer_is_data_only]; [renegotiation_reaches_peers] follows a new
      track from its offer to the offers of the others,
      [negotiation_end_to_end] takes the gateway's answers and offers to the
      socket, message by message, and [reachable_rooms_complete] is the
      invariant that nobody misses a track.
      [negotiated_codecs_sound] bounds what codecs are chosen.
    - Loop and signalling: [run_round_terminates], every round of the loop ends;
      [silent_peer_disconnected], the loop closes silent connections in bounded
      time; [session_on_one_worker], a session lives on one worker;
      [async_offer_agrees], the two servers serve an offer in the same way and
      differ in how they report failures;
      [poll_timeout_is_earliest], the loop waits for the earliest timer;
      [shutdown_completes] and [async_shutdown_completes], the threads wait for
      Ctrl-C, workers that fail apart, and Ctrl-C ends every thread.
    - Protocol handlers: handshake, data channel, SCTP reading and writing,
      demultiplexing.
    - Configuration and statistics: [media_config_reachable_ok],
      [proposed_extension_ids_distinct], [receiver_stream_wf],
      [lost_count_exact], [certificate_pem_roundtrip]; [srtp_metrics_account],
      the counters count what they say and change nothing.
    - Behaviour the code does not intend is stated as theorems too:
      [receiver_reports_never_sent], [loss_hidden_by_short_history],
      [loss_hidden_at_wraparound],
      [reused_four_tuple_leaks], [stale_table_entry],
      [pending_candidate_refused], [announced_track_listed_twice],
      [sdp_extension_ids_collide], [more_extensions_than_identifiers],
      [leave_changes_nothing], [no_ports_panic], [certificate_from_pem_short],
      [sendrecv_track_leaves_gap], [returning_track_not_announced],
      [failed_encryption_counted_out], [panicked_worker_blocks],
      [zero_idle_timeout_starves], [refused_message_stops_loop].

    ** Bounds

    [while let] loops over a crate's queue run for one round more than the
    crate's pending work ([dtls_pending], [assoc_pending]), which its laws say
    decreases (a measure that belongs to the interface and to no line of the
    source); the lemmas [sctp_read_rounds_enough] and [drain_complete] show that
    this is enough.  The loop that counts losses runs at most 2^16 rounds,
    the number of 16-bit values ([count_lost_terminates]).
    [write_socket_output] takes its number of polls as an argument;
    [media_end_to_end] holds for every number above that of the targets,
    [negotiation_end_to_end] for every number above that of the datagrams.
    [write_socket] and [run_round] answer [None] when their polls are not enough;
    [run_round_terminates] gives a number from which on they have a result,
    since every datagram polled shortens the queues of the handlers in the
    lexicographic order from the gateway outwards.

    ** Not modelled

    The retty crate's executor and bootstrap (a worker's [graceful_stop] is a
    step that ends), the HTTP servers' sockets (rouille's stoppable server is
    assumed to end after its cancel message, hyper's after its graceful
    shutdown is asked for), the exporter of the meter
    provider, logging; the empty modules nack and twcc.
    Code that is commented out in the source. *)

From Stdlib Require Import ZArith Lia.
From stdpp Require Import base numbers strings pretty sorting fin_maps gmap list.

(** * Errors and outcomes *)

(** The variants of [shared::error::Error] that the source names, plus
    [ErrParseInt] and [ErrUtf8] for the two standard-library errors that the
    [?] operator converts, and [ErrLib] for an error a protocol crate returns
    and the source only passes on. *)
Inductive Error : Type :=
| ErrClientTransportNotSet
| ErrAttributeNotFound
| ErrInvalidCertificate
| ErrAlertFatalOrClose
| ErrNoSuchSrtpProfile
| ErrOutboundPacketTooLarge
| ErrAssociationNotExisted
| ErrParseInt
| ErrUtf8
| ErrInvalidPEM (msg : string)
| ErrLib (code : Z)
| ErrOther (msg : string).

#[export] Instance Error_eq_dec : EqDecision Error.
Proof. solve_decision. Defined.

(** A Rust call returns [Ok] or [Err], or it panics ([unwrap] on [None], an
    index out of range). *)
Inductive outcome (A : Type) : Type :=
| Ok (a : A)
| Err (e : Error)
| Panic.
Arguments Ok {A} a.
Arguments Err {A} e.
Arguments Panic {A}.

#[export] Instance outcome_eq_dec {A} `{EqDecision A} : EqDecision (outcome A).
Proof. solve_decision. Defined.

#[export] Instance outcome_ret : MRet outcome := @Ok.
#[export] Instance outcome_bind : MBind outcome := λ A B f m,
  match m with Ok a => f a | Err e => Err e | Panic => Panic end.
#[export] Instance outcome_fmap : FMap outcome := λ A B f m,
  match m with Ok a => Ok (f a) | Err e => Err e | Panic => Panic end.

(** [Option::ok_or]. *)
Definition ok_or {A} (o : option A) (e : Error) : outcome A :=
  match o with Some a => Ok a | None => Err e end.

(** [Option::unwrap]. *)
Definition unwrap {A} (o : option A) : outcome A :=
  match o with Some a => Ok a | None => Panic end.

Definition is_Ok {A} (m : outcome A) : bool :=
  match m with Ok _ => true | _ => false end.

(** * State with errors *)

(** A method with a [&mut self] receiver of type [S]: the new state is kept
    whether the call succeeds, fails with [?] or panics half way. *)
Definition M (S A : Type) : Type := S → S * outcome A.

#[export] Instance M_ret {S} : MRet (M S) := λ A a s, (s, Ok a).
#[export] Instance M_bind {S} : MBind (M S) := λ A B f m s,
  match m s with
  | (s', Ok a) => f a s'
  | (s', Err e) => (s', Err e)
  | (s', Panic) => (s', Panic)
  end.

Definition getS {S} : M S S := λ s, (s, Ok s).
Definition putS {S} (s : S) : M S unit := λ _, (s, Ok ()).
Definition modifyS {S} (f : S → S) : M S unit := λ s, (f s, Ok ()).
(** A method that cannot fail. *)
Definition callS {S A} (f : S → S * A) : M S A := λ s, let '(s, a) := f s in (s, Ok a).
(** A method that can. *)
Definition tryS {S A} (f : S → S * outcome A) : M S A := f.
Definition liftO {S A} (m : outcome A) : M S A := λ s, (s, m).
Definition throw {S A} (e : Error) : M S A := λ s, (s, Err e).

(** [for x in l { body }] where the body may leave the function with [?]. *)
Fixpoint forM {S A} (l : list A) (body : A → M S ()) : M S () :=
  match l with
  | [] => mret ()
  | x :: l => body x ≫= λ _, forM l body
  end.

(** [while let Some(x) = s.poll() { out.push(x) }], at most [fuel] rounds. *)
Fixpoint drain {S A} (poll : S → S * option A) (fuel : nat) (s : S) : S * list A :=
  match fuel with
  | 0 => (s, [])
  | S fuel =>
      match poll s with
      | (s, Some x) => let '(s, l) := drain poll fuel s in (s, x :: l)
      | (s, None) => (s, [])
      end
  end.

(** A loop over [l] that collects what each round returns and leaves the
    function at the first error. *)
Fixpoint collectM {S A B} (l : list A) (body : A → M S B) : M S (list B) :=
  match l with
  | [] => mret []
  | x :: l => y ← body x; ys ← collectM l body; mret (y :: ys)
  end.

(** The same loop over a state that only [Ok] or [Err] leaves. *)
Fixpoint foldO {S A} (body : S → A → outcome S) (s : S) (l : list A) : outcome S :=
  match l with
  | [] => Ok s
  | x :: l => match body s x with
              | Ok s' => foldO body s' l
              | Err e => Err e
              | Panic => Panic
              end
  end.

(** [l.iter().map(f).collect::<Result<Vec<_>>>()]. *)
Fixpoint mapO {A B} (f : A → outcome B) (l : list A) : outcome (list B) :=
  match l with
  | [] => Ok []
  | x :: l => match f x with
              | Ok y => match mapO f l with
                        | Ok ys => Ok (y :: ys)
                        | Err e => Err e
                        | Panic => Panic
                        end
              | Err e => Err e
              | Panic => Panic
              end
  end.

(** * Machine integers *)

Definition u8_max : Z := 2 ^ 8 - 1.
Definition u16_max : Z := 2 ^ 16 - 1.
Definition u32_max : Z := 2 ^ 32 - 1.
Definition u64_max : Z := 2 ^ 64 - 1.
Definition as_u8 (z : Z) : Z := z mod 2 ^ 8.
Definition as_u16 (z : Z) : Z := z mod 2 ^ 16.
Definition as_u32 (z : Z) : Z := z mod 2 ^ 32.
Definition as_u64 (z : Z) : Z := z mod 2 ^ 64.

(** * Iteration order of a hash map *)

(** [std::collections::HashMap] visits its entries in an arbitrary order.
    The model keeps the map as a [gmap] and takes the order as a parameter:
    any function that lists each entry of the map exactly once. *)
Class HashOrder := {
  hm_list : ∀ {K : Type} {EK : EqDecision K} {CK : Countable K} {V : Type},
    gmap K V → list (K * V);
  hm_list_perm : ∀ {K : Type} {EK : EqDecision K} {CK : Countable K} {V : Type}
    (m : gmap K V), hm_list m ≡ₚ map_to_list m
}.

(** An order that exists, used by the witnesses. *)
Definition demo_hash_order : HashOrder :=
  {| hm_list := λ K EK CK V m, map_to_list m;
     hm_list_perm := λ K EK CK V m, reflexivity _ |}.

Definition hm_keys `{HashOrder} `{Countable K} {V} (m : gmap K V) : list K :=
  (hm_list m).*1.

Definition hm_values `{HashOrder} `{Countable K} {V} (m : gmap K V) : list V :=
  (hm_list m).*2.

Section hash_order.
Context `{HO : HashOrder} `{Countable K} {V : Type}.
Implicit Types m : gmap K V.

Lemma elem_of_hm_list m k v : (k, v) ∈ hm_list m ↔ m !! k = Some v.
Proof. rewrite hm_list_perm. apply elem_of_map_to_list. Qed.

Lemma elem_of_hm_keys m k : k ∈ hm_keys m ↔ is_Some (m !! k).
Proof.
  unfold hm_keys. rewrite list_elem_of_fmap. split.
  - intros ([k' v] & -> & Hin%elem_of_hm_list). by exists v.
  - intros [v Hv]. exists (k, v). by rewrite elem_of_hm_list.
Qed.

Lemma elem_of_hm_values m v : v ∈ hm_values m ↔ ∃ k, m !! k = Some v.
Proof.
  unfold hm_values. rewrite list_elem_of_fmap. split.
  - intros ([k v'] & -> & Hin%elem_of_hm_list). by exists k.
  - intros [k Hk]. exists (k, v). by rewrite elem_of_hm_list.
Qed.

Lemma NoDup_hm_list m : NoDup (hm_list m).
Proof. rewrite hm_list_perm. apply NoDup_map_to_list. Qed.

Lemma NoDup_hm_keys m : NoDup (hm_keys m).
Proof. unfold hm_keys. rewrite hm_list_perm. apply NoDup_fst_map_to_list. Qed.

Lemma length_hm_list m : length (hm_list m) = size m.
Proof. rewrite hm_list_perm. apply length_map_to_list. Qed.

End hash_order.

(** * Finite maps *)

(** A map without the key [k] is empty when it has no other key. *)
Lemma delete_empty_dec `{Countable K} {A} (m : gmap K A) (k : K) :
  (delete k m = ∅ ∧ ∀ k', k' ≠ k → m !! k' = None) ∨
  (delete k m ≠ ∅ ∧ ∃ k', k' ≠ k ∧ is_Some (m !! k')).
Proof.
  destruct (decide (delete k m = ∅)) as [E|E]; [left|right]; split; try done.
  - intros k' Hk. by rewrite <- (lookup_delete_ne m k k'), E, lookup_empty.
  - destruct (map_choose _ E) as (k' & x & Hk%lookup_delete_Some). exists k'. naive_solver.
Qed.

(** Changes under a key that is then deleted or overwritten are lost. *)
Lemma delete_alter_same `{Countable K} {A} (m : gmap K A) (k : K) f :
  delete k (alter f k m) = delete k m.
Proof. apply map_eq. intros j. rewrite !lookup_delete. case_decide; by simplify_map_eq. Qed.
Lemma insert_alter_same `{Countable K} {A} (m : gmap K A) (k : K) f x :
  <[k := x]> (alter f k m) = <[k := x]> m.
Proof. apply map_eq. intros j. rewrite !lookup_insert. case_decide; by simplify_map_eq. Qed.

(** * Shared tactics and hints *)

Create HintDb sfu.
Create Rewrite HintDb sfu.

(** Runs an equation between outcomes or pairs of state and outcome forward. *)
Ltac outcome_inv :=
  repeat match goal with
  | H : Ok _ = Ok _ |- _ => injection H as H; try subst
  | H : Err _ = Err _ |- _ => injection H as H; try subst
  | H : (_, _) = (_, _) |- _ => injection H as ? ?; try subst
  | H : Ok _ = Err _ |- _ => discriminate H
  | H : Err _ = Ok _ |- _ => discriminate H
  | H : Ok _ = Panic |- _ => discriminate H
  | H : Panic = Ok _ |- _ => discriminate H
  | H : Err _ = Panic |- _ => discriminate H
  | H : Panic = Err _ |- _ => discriminate H
  | H : Some _ = None |- _ => discriminate H
  | H : None = Some _ |- _ => discriminate H
  | H : Some _ = Some _ |- _ => injection H as H; try subst
  end.

(** Splits the first [match] of a hypothesis and closes the cases its equation
    refutes. *)
Ltac case_in H :=
  match type of H with
  | context [match ?x with _ => _ end] =>
      lazymatch x with
      | context [match _ with _ => _ end] => fail
      | _ => destruct x eqn:?; outcome_inv; try discriminate
      end
  end.

(** The same on the goal. *)
Ltac case_goal :=
  match goal with
  | |- context [match ?x with _ => _ end] =>
      lazymatch x with
      | context [match _ with _ => _ end] => fail
      | _ => destruct x eqn:?; outcome_inv; try discriminate
      end
  end.

(** * Laws of the two monads *)

Section monad_laws.
Context {S A B : Type}.

Lemma bind_ok_inv (m : outcome A) (f : A → outcome B) b :
  m ≫= f = Ok b → ∃ a, m = Ok a ∧ f a = Ok b.
Proof. destruct m; simpl; try discriminate. eauto. Qed.

Lemma M_bind_ok_inv (m : M S A) (f : A → M S B) s s' b :
  (m ≫= f) s = (s', Ok b) → ∃ a s1, m s = (s1, Ok a) ∧ f a s1 = (s', Ok b).
Proof.
  unfold mbind, M_bind. destruct (m s) as [s1 [a|e|]] eqn:E; intros H;
    outcome_inv; eauto.
Qed.

(** Sequencing keeps an invariant that both parts keep. *)
Lemma M_bind_inv (P : S → Prop) (m : M S A) (f : A → M S B) s :
  P (m s).1 → (∀ a s', P s' → P (f a s').1) → P ((m ≫= f) s).1.
Proof.
  unfold mbind, M_bind. intros Hm Hf. destruct (m s) as [s' [a|e|]]; [by apply Hf|done|done].
Qed.

(** The same with a stronger property of the state in between. *)
Lemma M_bind_inv2 (Q P : S → Prop) (m : M S A) (f : A → M S B) s :
  (∀ s', Q s' → P s') → Q (m s).1 → (∀ a s', Q s' → P (f a s').1) → P ((m ≫= f) s).1.
Proof.
  unfold mbind, M_bind. intros HQ Hm Hf. destruct (m s) as [s' [a|e|]]; [by apply Hf|by apply HQ..].
Qed.

Lemma ok_or_ok_inv (o : option A) e a : ok_or o e = Ok a → o = Some a.
Proof. destruct o; simpl; congruence. Qed.

(** The loop rule: an invariant every body keeps, on every exit. *)
Lemma forM_inv (P : S → Prop) (l : list A) (body : A → M S ()) s :
  (∀ x s, x ∈ l → P s → P (body x s).1) → P s → P (forM l body s).1.
Proof.
  revert s. induction l as [|x l IH]; intros s Hb Hs; simpl; [done|].
  unfold mbind, M_bind.
  assert (Hx : P (body x s).1) by (apply Hb; [left|done]).
  destruct (body x s) as [s' [[]|e|]]; simpl in *; try done.
  apply IH; [|done]. intros y t Hy. apply Hb. by right.
Qed.

(** A loop that ends well split at a point. *)
Lemma forM_app_ok (l1 l2 : list A) (body : A → M S ()) s s' :
  forM (l1 ++ l2) body s = (s', Ok ()) →
  ∃ s1, forM l1 body s = (s1, Ok ()) ∧ forM l2 body s1 = (s', Ok ()).
Proof.
  revert s. induction l1 as [|x l1 IH]; intros s; simpl; [eauto|].
  unfold mbind, M_bind. destruct (body x s) as [s1 [[]|e|]]; intros H; outcome_inv. auto.
Qed.

Lemma forM_cons_ok x (l : list A) (body : A → M S ()) s s' :
  forM (x :: l) body s = (s', Ok ()) →
  ∃ s1, body x s = (s1, Ok ()) ∧ forM l body s1 = (s', Ok ()).
Proof.
  simpl. unfold mbind, M_bind. destruct (body x s) as [s1 [[]|e|]]; intros H; outcome_inv. eauto.
Qed.

(** An invariant that the body keeps where it answers [Ok]. *)
Lemma foldO_inv (P : S → Prop) (body : S → A → outcome S) l s s' :
  (∀ x s s', x ∈ l → P s → body s x = Ok s' → P s') →
  P s → foldO body s l = Ok s' → P s'.
Proof.
  revert s. induction l as [|x l IH]; intros s Hb Hs; simpl.
  { intros [= <-]. done. }
  destruct (body s x) as [s1|e|] eqn:E; try discriminate. intros Hf.
  apply (IH s1); [|eapply Hb; [left|done|done]|done].
  intros y t t' Hy. apply Hb. by right.
Qed.

Lemma foldO_app (body : S → A → outcome S) l1 l2 s :
  foldO body s (l1 ++ l2) =
  match foldO body s l1 with
  | Ok s' => foldO body s' l2
  | Err e => Err e
  | Panic => Panic
  end.
Proof. revert s. induction l1; intros s; simpl; [done|]. by destruct (body s a). Qed.

Lemma mapO_ok_Forall2 (f : A → outcome B) l l' :
  mapO f l = Ok l' ↔ Forall2 (λ x y, f x = Ok y) l l'.
Proof.
  revert l'. induction l as [|x l IH]; intros l'; simpl.
  { split; [intros [= <-]; constructor|inversion 1; done]. }
  destruct (f x) as [y|e|] eqn:Ex.
  2,3: split; [discriminate|inversion 1; congruence].
  destruct (mapO f l) as [ys|e|]; split; intros Hm; outcome_inv.
  - constructor; [done|]. by apply IH.
  - inversion Hm as [|? y' ? l2 Hy Hl]; subst. apply IH in Hl. congruence.
  - inversion Hm as [|? y' ? l2 Hy Hl]; subst. apply IH in Hl. congruence.
  - inversion Hm as [|? y' ? l2 Hy Hl]; subst. apply IH in Hl. congruence.
Qed.

End monad_laws.

(** Enough fuel: with a measure that every answer of [poll] decreases, the loop
    ends because the source is empty. *)
Lemma drain_complete {S A} (poll : S → S * option A) (pending : S → nat) :
  (∀ s s' x, poll s = (s', Some x) → pending s' < pending s) →
  ∀ fuel s, pending s < fuel → ∃ s0, poll s0 = ((drain poll fuel s).1, None).
Proof.
  intros Hdec fuel. induction fuel as [|fuel IH]; intros s Hf; [lia|]. simpl.
  destruct (poll s) as [s' [x|]] eqn:E; [|by exists s].
  destruct (IH s') as [s0 Hs0]; [apply Hdec in E; lia|]. exists s0.
  by destruct (drain poll fuel s').
Qed.

Lemma collectM_inv {S A B} (P : S → Prop) (l : list A) (body : A → M S B) s :
  (∀ x s, x ∈ l → P s → P (body x s).1) → P s → P (collectM l body s).1.
Proof.
  revert s. induction l as [|x l IH]; intros s Hb Hs; simpl; [done|].
  apply M_bind_inv; [apply Hb; [left|done]|]. intros y s' Hs'.
  apply M_bind_inv; [|done]. apply IH; [|done]. intros z t Hz. apply Hb. by right.
Qed.

(** A loop that never fails and only appends to a list. *)
Lemma foldO_no_err {S A} (step : S → A → S) l s :
  foldO (λ s x, Ok (step s x)) s l = Ok (foldl step s l).
Proof. revert s. by induction l; intros; simpl. Qed.

(** A loop whose steps stay in a preorder. *)
Lemma foldl_preorder {A B} (R : relation B) `{!PreOrder R} (f : B → A → B) l b :
  (∀ b x, R b (f b x)) → R b (foldl f b l).
Proof.
  intros Hf. revert b. induction l as [|x l IH]; intros b; simpl; [done|].
  etrans; [apply (Hf b x)|apply IH].
Qed.

(** Two tests that agree on a list's elements filter it the same way. *)
Lemma filter_ext_in {A} (P Q : A → Prop) `{∀ x, Decision (P x)} `{∀ x, Decision (Q x)}
    (l : list A) :
  (∀ x, x ∈ l → P x ↔ Q x) → filter P l = filter Q l.
Proof.
  induction l as [|x l IH]; intros Hl; [done|]. rewrite !filter_cons.
  rewrite IH by (intros; apply Hl; by right).
  assert (Hx : P x ↔ Q x) by (apply Hl; left).
  destruct (decide (P x)), (decide (Q x)); tauto.
Qed.

(** The left elements of a relation over a filtered list passed the test. *)
Lemma Forall2_filter_impl {A B} (f : A → bool) (P Q : A → B → Prop) l k :
  (∀ x y, f x = true → P x y → Q x y) →
  Forall2 P (List.filter f l) k → Forall2 Q (List.filter f l) k.
Proof.
  intros HPQ. revert k. induction l as [|x l IH]; intros k; simpl; [by inversion 1|].
  destruct (f x) eqn:E; [|by apply IH]. inversion 1; subst. constructor; auto.
Qed.

(** A test that fails on all elements leaves nothing. *)
Lemma filter_none {A} (P : A → Prop) `{∀ x, Decision (P x)} (l : list A) :
  (∀ x, x ∈ l → ¬ P x) → filter P l = [].
Proof.
  induction l as [|x l IH]; intros Hl; [done|]. rewrite filter_cons.
  rewrite decide_False by (apply Hl; left). apply IH. intros y Hy. apply Hl. by right.
Qed.

#[export] Hint Resolve elem_of_hm_list NoDup_hm_list : sfu.
