(* ===== verification/RustStr.v ===== *)
(** * The functions of [str] and [String] the source calls

    A Rust string is modelled by its UTF-8 bytes, as a [string].  Case mapping
    and white space are those of ASCII, the characters SDP and MIME types are
    made of: [to_uppercase], [to_lowercase], [split_whitespace] and [trim]
    agree with the standard library on every ASCII string. *)

From Stdlib Require Import ZArith Lia Ascii.
From Stdlib Require Strings.Byte Strings.String.
From stdpp Require Import base strings list pretty.
From S2P Require Import Prelude.

(** ** Characters *)

Definition ascii_upper (c : ascii) : ascii :=
  let n := N_of_ascii c in
  if ((97 <=? n) && (n <=? 122))%N then ascii_of_N (n - 32) else c.

Definition ascii_lower (c : ascii) : ascii :=
  let n := N_of_ascii c in
  if ((65 <=? n) && (n <=? 90))%N then ascii_of_N (n + 32) else c.

Fixpoint string_map (f : ascii → ascii) (s : string) : string :=
  match s with
  | EmptyString => EmptyString
  | String c s => String (f c) (string_map f s)
  end.

(** [str::to_uppercase] and [str::to_lowercase]. *)
Definition to_uppercase : string → string := string_map ascii_upper.
Definition to_lowercase : string → string := string_map ascii_lower.

(** [str::len] and [str::is_empty]. *)
Definition str_len (s : string) : Z := Z.of_nat (String.length s).
Definition str_is_empty (s : string) : bool :=
  match s with EmptyString => true | _ => false end.

(** ** Splitting *)

(** The separators of the formats the source parses. *)
Definition ch_space : ascii := " ".
Definition ch_semicolon : ascii := ";".
Definition ch_colon : ascii := ":".
Definition ch_equals : ascii := "=".
Definition ch_dash : ascii := "-".
Definition ch_slash : ascii := "/".
Definition ch_newline : ascii := ascii_of_N 10.

(** [s.split(c).collect()]: never empty, [n] separators give [n + 1] parts. *)
Fixpoint str_split (c : ascii) (s : string) : list string :=
  match s with
  | EmptyString => [EmptyString]
  | String a s' =>
      if Ascii.eqb a c then EmptyString :: str_split c s'
      else match str_split c s' with
           | [] => [String a EmptyString]
           | x :: l => String a x :: l
           end
  end.

(** [s.splitn(2, c).collect()]. *)
Fixpoint str_split_once (c : ascii) (s : string) : list string :=
  match s with
  | EmptyString => [EmptyString]
  | String a s' =>
      if Ascii.eqb a c then [EmptyString; s']
      else match str_split_once c s' with
           | [] => [String a EmptyString]
           | x :: l => String a x :: l
           end
  end.

(** [s.split_whitespace().collect()]. *)
Definition split_whitespace (s : string) : list string := String.words s.

Fixpoint trim_start (s : string) : string :=
  match s with
  | String a s' => if Ascii.is_space a then trim_start s' else s
  | EmptyString => EmptyString
  end.

(** [str::trim]. *)
Definition trim (s : string) : string :=
  String.rev (trim_start (String.rev (trim_start s))).

(** [s.strip_prefix(p)]. *)
Fixpoint strip_prefix (p s : string) : option string :=
  match p, s with
  | EmptyString, _ => Some s
  | String a p', String b s' => if Ascii.eqb a b then strip_prefix p' s' else None
  | String _ _, EmptyString => None
  end.

(** [s.trim_start_matches(p)] removes the prefix [p] as often as it occurs;
    every removal shortens the string, so its length is enough fuel. *)
Fixpoint trim_start_matches_fuel (fuel : nat) (p s : string) : string :=
  match fuel with
  | O => s
  | S fuel => match strip_prefix p s with
              | Some s' => if str_is_empty p then s else trim_start_matches_fuel fuel p s'
              | None => s
              end
  end.
Definition trim_start_matches (p s : string) : string :=
  trim_start_matches_fuel (String.length s) p s.

(** [s.contains(p)]. *)
Fixpoint str_contains (p s : string) : bool :=
  match strip_prefix p s with
  | Some _ => true
  | None => match s with
            | EmptyString => false
            | String _ s' => str_contains p s'
            end
  end.

(** The first occurrence of a non-empty pattern: what is before and after it. *)
Fixpoint str_find (p s : string) : option (string * string) :=
  match strip_prefix p s with
  | Some r => Some (EmptyString, r)
  | None => match s with
            | EmptyString => None
            | String a s' => match str_find p s' with
                             | Some (l, r) => Some (String a l, r)
                             | None => None
                             end
            end
  end.

(** [s.split(p).collect()] for a non-empty pattern: every occurrence shortens
    what is left, so the length of the string is enough fuel. *)
Fixpoint str_split_pat_fuel (fuel : nat) (p s : string) : list string :=
  match fuel with
  | O => [s]
  | S fuel => match str_find p s with
              | Some (l, r) => l :: str_split_pat_fuel fuel p r
              | None => [s]
              end
  end.
Definition str_split_pat (p s : string) : list string :=
  str_split_pat_fuel (String.length s) p s.

(** [parts.join(sep)]. *)
Fixpoint str_join (sep : string) (parts : list string) : string :=
  match parts with
  | [] => EmptyString
  | [x] => x
  | x :: l => x +:+ sep +:+ str_join sep l
  end.

(** ** Bytes *)

Definition between (lo b hi : Z) : bool := ((lo <=? b) && (b <=? hi))%Z.

(** Well-formed UTF-8, the test of [String::from_utf8] (Unicode, table 3-7). *)
Fixpoint utf8_valid (l : list Z) : bool :=
  let cont b := between 128 b 191 in
  match l with
  | [] => true
  | b0 :: l1 =>
      if between 0 b0 127 then utf8_valid l1
      else match l1 with
      | [] => false
      | b1 :: l2 =>
          if between 194 b0 223 then cont b1 && utf8_valid l2
          else match l2 with
          | [] => false
          | b2 :: l3 =>
              if between 224 b0 239 then
                (if (b0 =? 224)%Z then between 160 b1 191
                 else if (b0 =? 237)%Z then between 128 b1 159 else cont b1)
                && cont b2 && utf8_valid l3
              else match l3 with
              | [] => false
              | b3 :: l4 =>
                  if between 240 b0 244 then
                    (if (b0 =? 240)%Z then between 144 b1 191
                     else if (b0 =? 244)%Z then between 128 b1 143 else cont b1)
                    && cont b2 && cont b3 && utf8_valid l4
                  else false
              end
          end
      end
  end.

(** [String::from_utf8]; a [String] is its bytes. *)
Definition from_utf8 (b : list Byte.byte) : outcome string :=
  if utf8_valid (map (λ x, Z.of_N (Byte.to_N x)) b) then Ok (String.string_of_list_byte b)
  else Err ErrUtf8.

(** [str::as_bytes]. *)
Definition as_bytes (s : string) : list Byte.byte := String.list_byte_of_string s.

(** ** Numbers *)

(** Display of an unsigned integer. *)
Definition show_u (z : Z) : string := pretty (Z.to_N z).
(** Display of a signed integer. *)
Definition show_i (z : Z) : string := pretty z.

Fixpoint parse_digits (acc : Z) (s : string) : option Z :=
  match s with
  | EmptyString => Some acc
  | String a s' => match Ascii.is_nat a with
                   | Some d => parse_digits (10 * acc + Z.of_nat d) s'
                   | None => None
                   end
  end.

(** [s.parse::<uN>()]: an optional plus sign, at least one digit, and a value
    that fits the type. *)
Definition parse_uint (max : Z) (s : string) : outcome Z :=
  let digits := match s with
                | String "+"%char s' => s'
                | _ => s
                end in
  if str_is_empty digits then Err ErrParseInt
  else match parse_digits 0 digits with
       | Some z => if z <=? max then Ok z else Err ErrParseInt
       | None => Err ErrParseInt
       end%Z.
Definition parse_u8 : string → outcome Z := parse_uint u8_max.
Definition parse_u16 : string → outcome Z := parse_uint u16_max.
Definition parse_u32 : string → outcome Z := parse_uint u32_max.
Definition parse_u64 : string → outcome Z := parse_uint u64_max.

(** [{:02x}] of a byte. *)
Definition hex_digit (n : Z) : string :=
  match n with
  | 0 => "0" | 1 => "1" | 2 => "2" | 3 => "3" | 4 => "4" | 5 => "5" | 6 => "6"
  | 7 => "7" | 8 => "8" | 9 => "9" | 10 => "a" | 11 => "b" | 12 => "c"
  | 13 => "d" | 14 => "e" | _ => "f"
  end%Z.
Definition show_02x (b : Z) : string := hex_digit (b / 16) +:+ hex_digit (b mod 16).

(** ** Lemmas *)

Section lemmas.

Lemma str_split_not_nil c s : str_split c s ≠ [].
Proof.
  destruct s as [|a s]; simpl; [done|].
  case_match; [done|]. by destruct (str_split c s).
Qed.

Fixpoint no_char (c : ascii) (s : string) : bool :=
  match s with
  | EmptyString => true
  | String a s' => negb (Ascii.eqb a c) && no_char c s'
  end.

Lemma no_char_app c s1 s2 : no_char c (s1 +:+ s2) = no_char c s1 && no_char c s2.
Proof.
  induction s1 as [|a s1 IH]; [done|].
  change (String a s1 +:+ s2) with (String a (s1 +:+ s2)). simpl.
  rewrite IH. by destruct (negb (Ascii.eqb a c)).
Qed.

(** Splitting at a character undoes joining with it. *)
Lemma str_split_no_char c s : no_char c s = true → str_split c s = [s].
Proof.
  induction s as [|a s IH]; simpl; [done|].
  intros [Ha Hs]%andb_prop. apply negb_true_iff in Ha. rewrite Ha, IH; done.
Qed.

Lemma append_String a s t : String a s +:+ t = String a (s +:+ t).
Proof. done. Qed.

Lemma str_split_app c s t :
  no_char c s = true → str_split c (s +:+ String c t) = s :: str_split c t.
Proof.
  induction s as [|a s IH]; intros Hs.
  { change ("" +:+ String c t) with (String c t). simpl. by rewrite Ascii.eqb_refl. }
  simpl in Hs. apply andb_prop in Hs as [Ha Hs]. apply negb_true_iff in Ha.
  rewrite append_String. simpl. rewrite Ha, IH; done.
Qed.

(** The separator's first occurrence fixes both sides. *)
Lemma append_sep_inj c s1 t1 s2 t2 :
  no_char c s1 = true → no_char c s2 = true →
  s1 +:+ String c t1 = s2 +:+ String c t2 → s1 = s2 ∧ t1 = t2.
Proof.
  revert s2. induction s1 as [|a s1 IH]; intros [|b s2] H1 H2 Heq; simpl in *.
  - injection Heq as ->. done.
  - injection Heq as -> Heq. by rewrite Ascii.eqb_refl in H2.
  - injection Heq as -> Heq. by rewrite Ascii.eqb_refl in H1.
  - apply andb_prop in H1 as [_ H1]. apply andb_prop in H2 as [_ H2].
    rewrite !append_String in Heq. injection Heq as -> Heq.
    destruct (IH s2 H1 H2 Heq) as [-> ->]. done.
Qed.

Lemma pretty_N_go_no_dash n s :
  no_char "-" s = true → no_char "-" (pretty_N_go n s) = true.
Proof.
  revert s. induction (N.lt_wf_0 n) as [n _ IH]; intros s Hs.
  destruct (decide (n = 0)%N) as [->|Hn].
  { by rewrite pretty_N_go_0. }
  rewrite pretty_N_go_step by lia. apply IH.
  { apply N.div_lt; lia. }
  simpl. rewrite Hs, andb_true_r.
  unfold pretty_N_char. by repeat case_match.
Qed.

(** A decimal number holds no dash. *)
Lemma show_u_no_dash z : no_char ch_dash (show_u z) = true.
Proof.
  unfold show_u, pretty, pretty_N. case_decide; [done|].
  by apply pretty_N_go_no_dash.
Qed.

Lemma show_u_inj z1 z2 : (0 ≤ z1)%Z → (0 ≤ z2)%Z → show_u z1 = show_u z2 → z1 = z2.
Proof. unfold show_u. intros H1 H2 Heq. apply (inj pretty) in Heq. lia. Qed.

Lemma from_utf8_as_bytes s b : from_utf8 b = Ok s → as_bytes s = b.
Proof.
  unfold from_utf8, as_bytes. case_match; [|done]. intros [= <-].
  apply String.list_byte_of_string_of_list_byte.
Qed.

Lemma append_assoc s1 s2 s3 : (s1 +:+ s2) +:+ s3 = s1 +:+ s2 +:+ s3.
Proof. induction s1 as [|a s1 IH]; [done|]. rewrite !append_String. by f_equal. Qed.

Lemma append_inj_l s t1 t2 : s +:+ t1 = s +:+ t2 → t1 = t2.
Proof. induction s as [|a s IH]; [done|]. rewrite !append_String. by intros [= ?%IH]. Qed.

(** Appending a separator and a word at a time is joining. *)
Lemma foldl_append_join {A} (f : A → string) sep l w :
  foldl (λ v x, v +:+ sep +:+ f x) w l = str_join sep (w :: map f l).
Proof.
  revert w. induction l as [|x l IH]; intros w; [done|]. cbn [foldl map].
  rewrite IH. cbn [map str_join]. destruct (map f l); by rewrite ?append_assoc.
Qed.

Lemma strip_prefix_Some p s r : strip_prefix p s = Some r → s = p +:+ r.
Proof.
  revert s. induction p as [|a p IH]; intros s; simpl; [by intros [= ->]|].
  destruct s as [|b s]; [done|]. destruct (Ascii.eqb_spec a b) as [->|]; [|done].
  intros ->%IH. by rewrite append_String.
Qed.

Lemma strip_prefix_app p s : strip_prefix p (p +:+ s) = Some s.
Proof. induction p as [|a p IH]; [done|]. rewrite append_String. simpl. by rewrite Ascii.eqb_refl. Qed.

Lemma str_find_Some p s l r : str_find p s = Some (l, r) → s = l +:+ p +:+ r.
Proof.
  revert l. induction s as [|a s IH]; intros l; simpl.
  - destruct (strip_prefix p "") as [r'|] eqn:E; [|done]. intros [= <- <-].
    by apply strip_prefix_Some in E.
  - destruct (strip_prefix p (String a s)) as [r'|] eqn:E.
    { intros [= <- <-]. by apply strip_prefix_Some in E. }
    destruct (str_find p s) as [[l' r']|]; [|done]. intros [= <- ->].
    rewrite append_String. f_equal. by apply IH.
Qed.

(** Joining with the pattern undoes splitting at it. *)
Lemma str_join_split_pat p s : str_join p (str_split_pat p s) = s.
Proof.
  unfold str_split_pat. generalize (String.length s) as n. intros n.
  assert (Hne : ∀ n s, str_split_pat_fuel n p s ≠ []).
  { intros [|m] t; simpl; [done|]. by destruct (str_find p t) as [[]|]. }
  revert s. induction n as [|n IH]; intros s; simpl; [done|].
  destruct (str_find p s) as [[l r]|] eqn:E; [|done]. apply str_find_Some in E as ->.
  specialize (IH r). specialize (Hne n r). cbn [str_join].
  destruct (str_split_pat_fuel n p r); [done|]. by rewrite IH.
Qed.

(** A text without an empty line, and the empty line that ends it. *)
Fixpoint no_empty_line (s : string) : bool :=
  match s with
  | EmptyString => true
  | String a s' =>
      negb (Ascii.eqb a ch_newline && match s' with
                                      | EmptyString => false
                                      | String b _ => Ascii.eqb b ch_newline
                                      end) && no_empty_line s'
  end.
Definition empty_line : string := String ch_newline (String ch_newline "").

Lemma str_find_empty_line body t :
  no_empty_line (body +:+ String ch_newline "") = true →
  str_find empty_line (body +:+ empty_line +:+ t) = Some (body, t).
Proof.
  induction body as [|a body IH]; intros H.
  { change ("" +:+ empty_line +:+ t) with (empty_line +:+ t).
    change (empty_line +:+ t) with (String ch_newline (String ch_newline t)). done. }
  rewrite append_String in H |- *. cbn [no_empty_line] in H. apply andb_prop in H as [Ha H].
  specialize (IH H). cbn [str_find].
  replace (strip_prefix empty_line (String a (body +:+ empty_line +:+ t))) with (@None string).
  { by rewrite IH. }
  symmetry. unfold empty_line at 1. cbn [strip_prefix].
  destruct (Ascii.eqb_spec ch_newline a) as [<-|]; [|done].
  destruct body as [|b body]; [done|]. rewrite append_String in Ha |- *. cbn [negb andb] in Ha.
  rewrite Ascii.eqb_refl in Ha. simpl in Ha. apply negb_true_iff in Ha.
  destruct (Ascii.eqb_spec ch_newline b) as [<-|]; [|done]. by rewrite Ascii.eqb_refl in Ha.
Qed.

Fixpoint no_space (s : string) : bool :=
  match s with
  | EmptyString => true
  | String a s' => negb (Ascii.is_space a) && no_space s'
  end.

Lemma no_space_app s1 s2 : no_space (s1 +:+ s2) = no_space s1 && no_space s2.
Proof.
  induction s1 as [|a s1 IH]; [done|]. rewrite append_String. simpl. rewrite IH.
  by destruct (negb _).
Qed.

Lemma rev_app_rev_app s c x : String.rev_app (String.rev_app s c) x = String.rev_app c (s +:+ x).
Proof. revert c. induction s as [|a s IH]; intros c; [done|]. simpl. by rewrite IH. Qed.

Lemma words_go_word s c t :
  no_space s = true → String.words_go (Some c) (s +:+ t) = String.words_go (Some (String.rev_app s c)) t.
Proof.
  revert c. induction s as [|a s IH]; intros c; [done|]. rewrite append_String. simpl.
  intros [Ha Hs]%andb_prop. apply negb_true_iff in Ha. rewrite Ha. by apply IH.
Qed.

Lemma str_length_app s t : String.length (s +:+ t) = String.length s + String.length t.
Proof. induction s as [|a s IH]; [done|]. rewrite append_String. simpl. by rewrite IH. Qed.

Lemma append_nil_r s : s +:+ "" = s.
Proof. induction s as [|a s IH]; [done|]. rewrite append_String. by f_equal. Qed.

Lemma words_single s : s ≠ "" → no_space s = true → split_whitespace s = [s].
Proof.
  destruct s as [|a s]; [done|]. intros _. simpl. intros [Ha Hs]%andb_prop.
  apply negb_true_iff in Ha. unfold split_whitespace, String.words. simpl. rewrite Ha. simpl.
  rewrite <- (append_nil_r s) at 1. rewrite words_go_word by done. simpl.
  unfold String.rev. rewrite rev_app_rev_app. simpl. by rewrite append_nil_r.
Qed.

(** Two words with a space between. *)
Lemma words_pair s t :
  s ≠ "" → no_space s = true → t ≠ "" → no_space t = true →
  split_whitespace (s +:+ String ch_space t) = [s; t].
Proof.
  destruct s as [|a s]; [done|]. intros _. rewrite append_String. simpl. intros [Ha Hs]%andb_prop.
  apply negb_true_iff in Ha. intros Ht Htn.
  unfold split_whitespace, String.words. simpl. rewrite Ha. simpl.
  rewrite words_go_word by done. simpl. f_equal; [|by apply words_single].
  unfold String.rev. rewrite rev_app_rev_app. simpl. by rewrite append_nil_r.
Qed.

(** A list of words of one length, joined with a character. *)
Lemma str_join_spec c n l :
  Ascii.is_space c = false → Forall (λ s, String.length s = n ∧ no_space s = true) l → l ≠ [] →
  no_space (str_join (String c "") l) = true ∧
  String.length (str_join (String c "") l) + 1 = length l * (n + 1).
Proof.
  intros Hc. induction 1 as [|s l [Hn Hs] Hl IH]; [done|]. intros _.
  destruct l as [|s' l]; [split; [done|simpl; lia]|]. destruct IH as [IH1 IH2]; [done|].
  change (str_join (String c "") (s :: s' :: l))
    with (s +:+ String c (str_join (String c "") (s' :: l))).
  split.
  - rewrite no_space_app. cbn [no_space]. by rewrite Hs, Hc, IH1.
  - rewrite str_length_app. cbn [String.length]. change (length (s :: s' :: l)) with (S (length (s' :: l))). lia.
Qed.

Lemma show_02x_spec b : String.length (show_02x b) = 2 ∧ no_space (show_02x b) = true.
Proof.
  assert (H : ∀ n, String.length (hex_digit n) = 1 ∧ no_space (hex_digit n) = true).
  { intros n. unfold hex_digit. repeat case_match; done. }
  unfold show_02x. destruct (H (b / 16)%Z) as [H1 H2], (H (b mod 16)%Z) as [H3 H4].
  rewrite no_space_app, str_length_app, H1, H2, H3, H4. done.
Qed.

Lemma to_uppercase_length s : String.length (to_uppercase s) = String.length s.
Proof. induction s; simpl; [done|]. by f_equal. Qed.

Lemma parse_uint_range max s z : parse_uint max s = Ok z → (z ≤ max)%Z.
Proof.
  unfold parse_uint. repeat case_match; intros Hok; outcome_inv; lia.
Qed.

End lemmas.
