(* ===== verification/Enums.v ===== *)
(** * The enumerations of the negotiation layer

    [RTCRtpTransceiverDirection], [RTCSdpType], [RTPCodecType] and [DTLSRole]
    with their conversions from and to strings.  Where two enums share the
    variant name [Unspecified] the constructor carries a prefix. *)

From Stdlib Require Import ZArith.
From stdpp Require Import base strings list.
From S2P Require Import Prelude RustStr.

(** [UNSPECIFIED_STR] of description/mod.rs. *)
Definition UNSPECIFIED_STR : string := "Unspecified".

(** ** Directions *)

Inductive RTCRtpTransceiverDirection : Type :=
| Dir_Unspecified
| Sendrecv
| Sendonly
| Recvonly
| Inactive.

#[export] Instance direction_eq_dec : EqDecision RTCRtpTransceiverDirection.
Proof. solve_decision. Defined.

(** [impl From<&str> for RTCRtpTransceiverDirection]. *)
Definition direction_from_str (raw : string) : RTCRtpTransceiverDirection :=
  if String.eqb raw "sendrecv" then Sendrecv
  else if String.eqb raw "sendonly" then Sendonly
  else if String.eqb raw "recvonly" then Recvonly
  else if String.eqb raw "inactive" then Inactive
  else Dir_Unspecified.

(** [impl From<u8> for RTCRtpTransceiverDirection]. *)
Definition direction_from_u8 (v : Z) : RTCRtpTransceiverDirection :=
  match v with
  | 1 => Sendrecv
  | 2 => Sendonly
  | 3 => Recvonly
  | 4 => Inactive
  | _ => Dir_Unspecified
  end%Z.

(** [impl Display]. *)
Definition direction_to_string (d : RTCRtpTransceiverDirection) : string :=
  match d with
  | Sendrecv => "sendrecv"
  | Sendonly => "sendonly"
  | Recvonly => "recvonly"
  | Inactive => "inactive"
  | Dir_Unspecified => UNSPECIFIED_STR
  end.

Definition reverse (d : RTCRtpTransceiverDirection) : RTCRtpTransceiverDirection :=
  match d with
  | Sendonly => Recvonly
  | Recvonly => Sendonly
  | _ => d
  end.

Definition has_send (d : RTCRtpTransceiverDirection) : bool :=
  match d with Sendrecv | Sendonly => true | _ => false end.

Definition has_recv (d : RTCRtpTransceiverDirection) : bool :=
  match d with Sendrecv | Recvonly => true | _ => false end.

Definition from_send_recv (send recv : bool) : RTCRtpTransceiverDirection :=
  match send, recv with
  | true, true => Sendrecv
  | true, false => Sendonly
  | false, true => Recvonly
  | false, false => Inactive
  end.

Definition intersect (self other : RTCRtpTransceiverDirection) : RTCRtpTransceiverDirection :=
  from_send_recv (has_send self && has_send other) (has_recv self && has_recv other).

(** ** SDP types *)

Inductive RTCSdpType : Type :=
| Sdp_Unspecified
| Offer
| Pranswer
| Answer
| Rollback.

#[export] Instance sdp_type_eq_dec : EqDecision RTCSdpType.
Proof. solve_decision. Defined.

(** [impl From<&str> for RTCSdpType]. *)
Definition sdp_type_from_str (raw : string) : RTCSdpType :=
  if String.eqb raw "offer" then Offer
  else if String.eqb raw "pranswer" then Pranswer
  else if String.eqb raw "answer" then Answer
  else if String.eqb raw "rollback" then Rollback
  else Sdp_Unspecified.

(** [impl Display for RTCSdpType]. *)
Definition sdp_type_to_string (t : RTCSdpType) : string :=
  match t with
  | Offer => "offer"
  | Pranswer => "pranswer"
  | Answer => "answer"
  | Rollback => "rollback"
  | Sdp_Unspecified => UNSPECIFIED_STR
  end.

(** ** Codec types *)

Inductive RTPCodecType : Type :=
| Codec_Unspecified
| Audio
| Video.

#[export] Instance codec_type_eq_dec : EqDecision RTPCodecType.
Proof. solve_decision. Defined.

(** [impl From<&str> for RTPCodecType]. *)
Definition codec_type_from_str (raw : string) : RTPCodecType :=
  if String.eqb raw "audio" then Audio
  else if String.eqb raw "video" then Video
  else Codec_Unspecified.

(** [impl From<u8> for RTPCodecType]. *)
Definition codec_type_from_u8 (v : Z) : RTPCodecType :=
  match v with
  | 1 => Audio
  | 2 => Video
  | _ => Codec_Unspecified
  end%Z.

(** [impl Display for RTPCodecType]. *)
Definition codec_type_to_string (t : RTPCodecType) : string :=
  match t with
  | Audio => "audio"
  | Video => "video"
  | Codec_Unspecified => UNSPECIFIED_STR
  end.

(** ** DTLS roles *)

Inductive DTLSRole : Type :=
| Role_Unspecified
| Auto
| Client
| Server.

#[export] Instance dtls_role_eq_dec : EqDecision DTLSRole.
Proof. solve_decision. Defined.

(** [impl Display for DTLSRole]. *)
Definition dtls_role_to_string (r : DTLSRole) : string :=
  match r with
  | Auto => "auto"
  | Client => "client"
  | Server => "server"
  | Role_Unspecified => UNSPECIFIED_STR
  end.

Definition DEFAULT_DTLS_ROLE_ANSWER : DTLSRole := Client.
Definition DEFAULT_DTLS_ROLE_OFFER : DTLSRole := Auto.

(** The roles of [sdp::util::ConnectionRole] the source constructs. *)
Inductive ConnectionRole : Type :=
| Conn_Unspecified
| Conn_Active
| Conn_Passive
| Conn_Actpass.

(** [DTLSRole::to_connection_role]. *)
Definition to_connection_role (r : DTLSRole) : ConnectionRole :=
  match r with
  | Client => Conn_Active
  | Server => Conn_Passive
  | Auto => Conn_Actpass
  | Role_Unspecified => Conn_Unspecified
  end.

(** ** Lemmas *)

Section lemmas.

Lemma reverse_involutive d : reverse (reverse d) = d.
Proof. by destruct d. Qed.

Lemma has_send_reverse d : has_send (reverse d) = has_recv d.
Proof. by destruct d. Qed.

Lemma has_recv_reverse d : has_recv (reverse d) = has_send d.
Proof. by destruct d. Qed.

Lemma has_send_intersect d1 d2 : has_send (intersect d1 d2) = has_send d1 && has_send d2.
Proof. by destruct d1, d2. Qed.

Lemma has_recv_intersect d1 d2 : has_recv (intersect d1 d2) = has_recv d1 && has_recv d2.
Proof. by destruct d1, d2. Qed.

Lemma intersect_comm d1 d2 : intersect d1 d2 = intersect d2 d1.
Proof. by destruct d1, d2. Qed.

Lemma direction_round_trip d : direction_from_str (direction_to_string d) = d.
Proof. by destruct d. Qed.

Lemma sdp_type_round_trip t : sdp_type_from_str (sdp_type_to_string t) = t.
Proof. by destruct t. Qed.

Lemma codec_type_round_trip t : codec_type_from_str (codec_type_to_string t) = t.
Proof. by destruct t. Qed.

(** Only the four words of RFC 8866 name a direction. *)
Lemma direction_from_str_specified raw :
  direction_from_str raw ≠ Dir_Unspecified →
  raw = direction_to_string (direction_from_str raw).
Proof.
  unfold direction_from_str.
  repeat match goal with
  | |- context [String.eqb raw ?w] => destruct (String.eqb_spec raw w) as [->|]; [done|]
  end.
  congruence.
Qed.

End lemmas.

#[export] Hint Rewrite reverse_involutive has_send_reverse has_recv_reverse
  has_send_intersect has_recv_intersect direction_round_trip : sfu.
