(* ===== verification/Types.v ===== *)
(** * Identifiers, addresses and messages (types.rs, messages.rs)

    The types of the protocol crates that the source only passes around are
    the fields of the class [ExtTypes]; a definition that uses one takes the
    class as an argument.  Types whose fields the source reads or writes are
    records. *)

From Stdlib Require Import ZArith.
From Stdlib Require Strings.Byte.
From stdpp Require Import base strings countable gmap list.
From S2P Require Import Prelude RustStr Enums.

Abbreviation SessionId := Z (only parsing).
Abbreviation EndpointId := Z (only parsing).
Abbreviation UserName := string (only parsing).
Abbreviation Mid := string (only parsing).
(** [std::time::Instant] and [Duration], in nanoseconds. *)
Abbreviation Instant := Z (only parsing).
Abbreviation Duration := Z (only parsing).
Abbreviation bytes := (list Byte.byte) (only parsing).

Definition byte_Z (b : Byte.byte) : Z := Z.of_N (Byte.to_N b).

(** ** Addresses *)

(** [std::net::IpAddr] as the integer of its bits. *)
Inductive IpAddr : Type :=
| IpV4 (bits : Z)
| IpV6 (bits : Z).

#[export] Instance IpAddr_eq_dec : EqDecision IpAddr.
Proof. solve_decision. Defined.

(** [std::net::SocketAddr]. *)
Inductive SocketAddr : Type :=
| SocketV4 (ip port : Z)
| SocketV6 (ip port flowinfo scope_id : Z).

#[export] Instance SocketAddr_eq_dec : EqDecision SocketAddr.
Proof. solve_decision. Defined.

#[export] Instance SocketAddr_countable : Countable SocketAddr.
Proof.
  apply (inj_countable'
    (λ a, match a with
          | SocketV4 i p => inl (i, p)
          | SocketV6 i p f s => inr (i, p, f, s)
          end)
    (λ x, match x with
          | inl (i, p) => SocketV4 i p
          | inr (i, p, f, s) => SocketV6 i p f s
          end)).
  by intros [].
Defined.

Definition addr_ip (a : SocketAddr) : IpAddr :=
  match a with SocketV4 i _ => IpV4 i | SocketV6 i _ _ _ => IpV6 i end.
Definition addr_port (a : SocketAddr) : Z :=
  match a with SocketV4 _ p | SocketV6 _ p _ _ => p end.

(** ** Types of the protocol crates *)

Class ExtTypes := {
  (** [retty]: the congestion code point of a datagram. *)
  EcnCodepoint : Type;
  (** [sdp]: a bandwidth line, and the fields of [Origin] and
      [SessionDescription] the source never names. *)
  SdpBandwidth : Type;
  OriginRest : Type;
  SdpRest : Type;
  (** [stun]. *)
  StunMessage : Type;
  TransactionId : Type;
  (** [rtp] and [rtcp]. *)
  RtpPacket : Type;
  RtcpPacket : Type;
  (** [dtls]. *)
  HandshakeConfig : Type;
  DtlsEndpoint : Type;
  DtlsState : Type;
  DtlsCertificate : Type;
  (** [sctp]. *)
  SctpEndpointConfig : Type;
  SctpServerConfig : Type;
  SctpEndpoint : Type;
  SctpAssociation : Type;
  SctpAssociationEvent : Type;
  SctpEndpointEvent : Type;
  SctpChunks : Type;
  (** [srtp]. *)
  SrtpContext : Type;
}.

(** ** Messages *)

(** [sctp::ReliabilityType], the variants the source constructs. *)
Inductive ReliabilityType : Type := Rel_Reliable | Rel_Rexmit | Rel_Timed.

Inductive DataChannelMessageType : Type :=
| DCM_None
| DCM_Control
| DCM_Binary
| DCM_Text.

#[export] Instance DataChannelMessageType_eq_dec : EqDecision DataChannelMessageType.
Proof. solve_decision. Defined.

Record DataChannelMessageParams := {
  unordered : bool;
  reliability_type : ReliabilityType;
  reliability_parameter : Z
}.

Inductive DataChannelEvent : Type :=
| DCE_Open
| DCE_Message (payload : bytes)
| DCE_Close.

Record DataChannelMessage := {
  dcm_association_handle : Z;
  dcm_stream_id : Z;
  data_message_type : DataChannelMessageType;
  dcm_params : option DataChannelMessageParams;
  dcm_payload : bytes
}.

Record ApplicationMessage := {
  am_association_handle : Z;
  am_stream_id : Z;
  data_channel_event : DataChannelEvent
}.

Inductive DTLSMessageEvent : Type :=
| Dtls_Raw (b : bytes)
| Dtls_Sctp (m : DataChannelMessage)
| Dtls_DataChannel (m : ApplicationMessage).

(** [FourTuple] of types.rs, the key of a transport. *)
Record FourTuple := {
  ft_local_addr : SocketAddr;
  ft_peer_addr : SocketAddr
}.

#[export] Instance FourTuple_eq_dec : EqDecision FourTuple.
Proof. solve_decision. Defined.

#[export] Instance FourTuple_countable : Countable FourTuple.
Proof.
  apply (inj_countable' (λ f, (ft_local_addr f, ft_peer_addr f))
           (λ x, {| ft_local_addr := x.1; ft_peer_addr := x.2 |})).
  by intros [].
Defined.

Section messages.
Context `{T : ExtTypes}.

(** [retty::transport::TransportContext]. *)
Record TransportContext := {
  tc_local_addr : SocketAddr;
  tc_peer_addr : SocketAddr;
  tc_ecn : option EcnCodepoint
}.

(** [retty::transport::TaggedBytesMut]. *)
Record TaggedBytesMut := {
  tb_now : Instant;
  tb_transport : TransportContext;
  tb_message : bytes
}.

(** [impl From<&TransportContext> for FourTuple]. *)
Definition four_tuple_of (value : TransportContext) : FourTuple :=
  {| ft_local_addr := tc_local_addr value; ft_peer_addr := tc_peer_addr value |}.

Inductive STUNMessageEvent : Type :=
| Stun_Raw (b : bytes)
| Stun_Stun (m : StunMessage).

Inductive RTPMessageEvent : Type :=
| Rtp_Raw (b : bytes)
| Rtp_Rtp (p : RtpPacket)
| Rtp_Rtcp (ps : list RtcpPacket).

Inductive MessageEvent : Type :=
| Ev_Stun (e : STUNMessageEvent)
| Ev_Dtls (e : DTLSMessageEvent)
| Ev_Rtp (e : RTPMessageEvent).

Record TaggedMessageEvent := {
  tm_now : Instant;
  tm_transport : TransportContext;
  tm_message : MessageEvent
}.

(** What a handler does to its neighbours through [retty]'s [Context]:
    [fire_read] hands a message on, [fire_exception] reports an error. *)
Inductive Effect : Type :=
| FireRead (m : TaggedMessageEvent)
| FireException (e : Error).

(** The context of a peer: its four tuple and the sender's code point. *)
Definition context_of (ft : FourTuple) (ecn : option EcnCodepoint) : TransportContext :=
  {| tc_local_addr := ft_local_addr ft; tc_peer_addr := ft_peer_addr ft; tc_ecn := ecn |}.

Lemma four_tuple_of_context_of ft ecn : four_tuple_of (context_of ft ecn) = ft.
Proof. by destruct ft. Qed.

End messages.

#[export] Hint Rewrite @four_tuple_of_context_of : sfu.

(** ** Display of addresses *)

(** Display of an IPv4 address. *)
Definition show_ipv4 (ip : Z) : string :=
  str_join "." (map (λ k, show_u (Z.shiftr ip k mod 256)%Z) [24; 16; 8; 0]%Z).

(** Lower-case hexadecimal of a 16-bit segment, without padding. *)
Definition show_hex16 (v : Z) : string :=
  if (v <? 16)%Z then hex_digit v
  else if (v <? 256)%Z then show_02x v
  else if (v <? 4096)%Z then hex_digit (v / 256)%Z +:+ show_02x (v mod 256)%Z
  else show_02x (v / 256)%Z +:+ show_02x (v mod 256)%Z.

Definition ipv6_segments (ip : Z) : list Z :=
  map (λ k, (Z.shiftr ip k mod 2 ^ 16)%Z) [112; 96; 80; 64; 48; 32; 16; 0]%Z.

(** The longest run of zero segments, the first one on a tie: the loop keeps
    the current run and the longest run as (start, length). *)
Fixpoint longest_zeros (i : nat) (cur best : nat * nat) (l : list Z) : nat * nat :=
  match l with
  | [] => best
  | s :: l =>
      if (s =? 0)%Z then
        let cur := (if Nat.eqb cur.2 0 then i else cur.1, S cur.2) in
        longest_zeros (S i) cur (if Nat.ltb best.2 cur.2 then cur else best) l
      else longest_zeros (S i) (0, 0) best l
  end.

(** Display of an IPv6 address. *)
Definition show_ipv6 (ip : Z) : string :=
  let segs := ipv6_segments ip in
  if (Z.shiftr ip 32 =? 65535)%Z then "::ffff:" +:+ show_ipv4 (ip mod 2 ^ 32)%Z
  else
    let z := longest_zeros 0 (0, 0) (0, 0) segs in
    if Nat.ltb 1 z.2 then
      str_join ":" (map show_hex16 (take z.1 segs)) +:+ "::" +:+
      str_join ":" (map show_hex16 (drop (z.1 + z.2) segs))
    else str_join ":" (map show_hex16 segs).

Definition show_ip (ip : IpAddr) : string :=
  match ip with IpV4 b => show_ipv4 b | IpV6 b => show_ipv6 b end.

(** Display and Debug of a socket address. *)
Definition show_addr (a : SocketAddr) : string :=
  match a with
  | SocketV4 ip port => show_ipv4 ip +:+ ":" +:+ show_u port
  | SocketV6 ip port _ scope =>
      "[" +:+ show_ipv6 ip +:+ (if (scope =? 0)%Z then "" else "%" +:+ show_u scope)
        +:+ "]:" +:+ show_u port
  end.

(** The derived [Debug] of [FourTuple]. *)
Definition show_four_tuple (ft : FourTuple) : string :=
  "FourTuple { local_addr: " +:+ show_addr (ft_local_addr ft) +:+ ", peer_addr: "
    +:+ show_addr (ft_peer_addr ft) +:+ " }".

Example show_addr_v4 : show_addr (SocketV4 2130706433 3478) = "127.0.0.1:3478".
Proof. reflexivity. Qed.

Example show_addr_v6 : show_addr (SocketV6 1 443 0 0) = "[::1]:443".
Proof. reflexivity. Qed.
