(* ===== verification/Sdp.v ===== *)
(** * The interface of the [sdp] crate and the records of the media layer

    The crate's types are records with the fields the source reads or writes.
    Its functions are the fields of the class [SdpOps]; what the source relies
    on of them is the class [SdpLaws]. *)

From Stdlib Require Import ZArith.
From stdpp Require Import base strings gmap list.
From S2P Require Import Prelude RustStr Enums Types.

(** ** Records of the crate *)

Record Attribute := { attr_key : string; attr_value : option string }.

Record RangedPort := { rp_value : Z; rp_range : option Z }.

Record MediaName := {
  mn_media : string;
  mn_port : RangedPort;
  mn_protos : list string;
  mn_formats : list string
}.

Record Address := { ad_address : string; ad_ttl : option Z; ad_range : option Z }.

Record ConnectionInformation := {
  ci_network_type : string;
  ci_address_type : string;
  ci_address : option Address
}.

(** The codec [get_codec_for_payload_type] answers. *)
Record SdpCodec := {
  sc_name : string;
  sc_clock_rate : Z;
  sc_encoding_parameters : string;
  sc_fmtp : string;
  sc_rtcp_feedback : list string
}.

Section types.
Context `{T : ExtTypes}.

Record MediaDescription := {
  md_media_name : MediaName;
  md_media_title : option string;
  md_connection_information : option ConnectionInformation;
  md_bandwidth : list SdpBandwidth;
  md_encryption_key : option string;
  md_attributes : list Attribute
}.

Record Origin := {
  origin_session_id : Z;
  origin_session_version : Z;
  origin_rest : OriginRest
}.

Record SessionDescription := {
  sd_origin : Origin;
  sd_attributes : list Attribute;
  media_descriptions : list MediaDescription;
  sd_rest : SdpRest
}.

(** [RTCSessionDescription] of description/mod.rs. *)
Record RTCSessionDescription := {
  sdp_type : RTCSdpType;
  sdp : string;
  parsed : option SessionDescription
}.

End types.

(** ** Functions of the crate *)

Class SdpOps `{T : ExtTypes} := {
  (** [MediaDescription]'s builders and its [attribute] lookup. *)
  md_new_jsep : string → list string → MediaDescription;
  md_with_value_attribute : MediaDescription → string → string → MediaDescription;
  md_with_property_attribute : MediaDescription → string → MediaDescription;
  md_with_ice_credentials : MediaDescription → string → string → MediaDescription;
  md_with_fingerprint : MediaDescription → string → string → MediaDescription;
  md_with_codec : MediaDescription → Z → string → Z → Z → string → MediaDescription;
  md_with_extmap : MediaDescription → Z → string → MediaDescription;
  md_with_media_source :
    MediaDescription → Z → string → string → string → MediaDescription;
  md_attribute : MediaDescription → string → option (option string);
  (** [SessionDescription]'s builders, lookup and codecs. *)
  sd_new_jsep : bool → SessionDescription;
  sd_default : SessionDescription;
  origin_default : Origin;
  sd_with_media : SessionDescription → MediaDescription → SessionDescription;
  sd_with_value_attribute : SessionDescription → string → string → SessionDescription;
  sd_with_property_attribute : SessionDescription → string → SessionDescription;
  sd_with_fingerprint : SessionDescription → string → string → SessionDescription;
  sd_attribute : SessionDescription → string → option string;
  sd_marshal : SessionDescription → string;
  (** The description, or the text of the parser's error. *)
  sd_unmarshal : string → SessionDescription + string;
  sd_get_codec_for_payload_type : SessionDescription → Z → sum SdpCodec string;
  (** [Attribute::to_string] followed by [ExtMap::unmarshal]: the extension's
      value and its URI, or the error's text. *)
  extmap_of_attribute : Attribute → sum (Z * option string) string;
  (** [ConnectionRole::to_string] and [url::Url::parse] with [to_string]. *)
  connection_role_to_string : ConnectionRole → string;
  url_parse : string → outcome string;
  (** [sdp::extmap::TRANSPORT_CC_URI]. *)
  TRANSPORT_CC_URI : string;
}.

(** An attribute that neither names a media section nor gives a direction. *)
Definition neutral (a : Attribute) : Prop :=
  attr_key a ≠ "mid" ∧ direction_from_str (attr_key a) = Dir_Unspecified.

(** What the source relies on: a builder returns its receiver with attributes
    appended, a value attribute [a=key:value] or a property attribute [a=key];
    the builders for credentials, fingerprints, codecs, header extensions and
    media sources append lines of their own kinds; [with_media] appends a
    section.  [attribute] finds the first attribute with the key. *)
Class SdpLaws `{O : SdpOps} := {
  md_new_jsep_name k l : mn_media (md_media_name (md_new_jsep k l)) = k;
  md_new_jsep_attributes k l : md_attributes (md_new_jsep k l) = [];
  md_with_value_attribute_eq m k v :
    md_attributes (md_with_value_attribute m k v) =
    md_attributes m ++ [{| attr_key := k; attr_value := Some v |}] ∧
    mn_media (md_media_name (md_with_value_attribute m k v)) = mn_media (md_media_name m);
  md_with_property_attribute_eq m k :
    md_attributes (md_with_property_attribute m k) =
    md_attributes m ++ [{| attr_key := k; attr_value := None |}] ∧
    mn_media (md_media_name (md_with_property_attribute m k)) = mn_media (md_media_name m);
  md_with_ice_credentials_eq m u p :
    md_attributes (md_with_ice_credentials m u p) =
    md_attributes m ++ [{| attr_key := "ice-ufrag"; attr_value := Some u |};
                        {| attr_key := "ice-pwd"; attr_value := Some p |}] ∧
    mn_media (md_media_name (md_with_ice_credentials m u p)) = mn_media (md_media_name m);
  md_with_fingerprint_eq m a v :
    md_attributes (md_with_fingerprint m a v) =
    md_attributes m ++ [{| attr_key := "fingerprint"; attr_value := Some (a +:+ " " +:+ v) |}] ∧
    mn_media (md_media_name (md_with_fingerprint m a v)) = mn_media (md_media_name m);
  md_with_codec_app m pt name rate ch fmtp : ∃ l,
    md_attributes (md_with_codec m pt name rate ch fmtp) = md_attributes m ++ l ∧
    Forall neutral l ∧
    mn_media (md_media_name (md_with_codec m pt name rate ch fmtp)) = mn_media (md_media_name m);
  md_with_extmap_app m v uri : ∃ l,
    md_attributes (md_with_extmap m v uri) = md_attributes m ++ l ∧
    Forall neutral l ∧
    mn_media (md_media_name (md_with_extmap m v uri)) = mn_media (md_media_name m);
  md_with_media_source_app m ssrc cname s t : ∃ l,
    md_attributes (md_with_media_source m ssrc cname s t) = md_attributes m ++ l ∧
    Forall neutral l ∧
    mn_media (md_media_name (md_with_media_source m ssrc cname s t)) =
    mn_media (md_media_name m);
  md_attribute_eq m k :
    md_attribute m k =
    attr_value <$> (list_find (λ a, attr_key a = k) (md_attributes m) ≫= λ p, Some p.2);
  sd_new_jsep_media b : media_descriptions (sd_new_jsep b) = [];
  sd_with_media_eq d m :
    media_descriptions (sd_with_media d m) = media_descriptions d ++ [m] ∧
    sd_attributes (sd_with_media d m) = sd_attributes d ∧
    sd_origin (sd_with_media d m) = sd_origin d;
  sd_with_value_attribute_eq d k v :
    media_descriptions (sd_with_value_attribute d k v) = media_descriptions d ∧
    sd_attributes (sd_with_value_attribute d k v) =
    sd_attributes d ++ [{| attr_key := k; attr_value := Some v |}];
  sd_with_property_attribute_eq d k :
    media_descriptions (sd_with_property_attribute d k) = media_descriptions d ∧
    sd_attributes (sd_with_property_attribute d k) =
    sd_attributes d ++ [{| attr_key := k; attr_value := None |}];
  sd_with_fingerprint_media d a v :
    media_descriptions (sd_with_fingerprint d a v) = media_descriptions d;
}.

(** The attribute keys of [sdp::description::session]. *)
Definition ATTR_KEY_MID : string := "mid".
Definition ATTR_KEY_GROUP : string := "group".
Definition ATTR_KEY_CONNECTION_SETUP : string := "setup".
Definition ATTR_KEY_EXT_MAP : string := "extmap".
Definition ATTR_KEY_ICELITE : string := "ice-lite".
Definition ATTR_KEY_RTCPMUX : string := "rtcp-mux".
Definition ATTR_KEY_RTCPRSIZE : string := "rtcp-rsize".

(** ** Records of rtp_transceiver.rs and rtp_codec.rs *)

Abbreviation SSRC := Z (only parsing).
Abbreviation PayloadType := Z (only parsing).

Record RTCPFeedback := { fb_typ : string; fb_parameter : string }.

#[export] Instance RTCPFeedback_eq_dec : EqDecision RTCPFeedback.
Proof. solve_decision. Defined.

Record MediaStreamId := { msi_stream_id : string; msi_track_id : string }.

Record SsrcGroup := { sg_name : string; sg_ssrcs : list SSRC }.

Record RTCRtpSender := {
  snd_cname : string;
  snd_msid : MediaStreamId;
  snd_ssrcs : list SSRC;
  snd_ssrc_groups : list SsrcGroup
}.

Record RTCRtpCodecCapability := {
  mime_type : string;
  clock_rate : Z;
  channels : Z;
  sdp_fmtp_line : string;
  rtcp_feedbacks : list RTCPFeedback
}.

#[export] Instance RTCRtpCodecCapability_eq_dec : EqDecision RTCRtpCodecCapability.
Proof. solve_decision. Defined.

Record RTCRtpHeaderExtensionParameters := { hep_uri : string; hep_id : Z }.

#[export] Instance hep_eq_dec : EqDecision RTCRtpHeaderExtensionParameters.
Proof. solve_decision. Defined.

Record RTCRtpCodecParameters := {
  capability : RTCRtpCodecCapability;
  payload_type : PayloadType;
  stats_id : Z
}.

#[export] Instance RTCRtpCodecParameters_eq_dec : EqDecision RTCRtpCodecParameters.
Proof. solve_decision. Defined.

Record RTCRtpParameters := {
  rp_header_extensions : list RTCRtpHeaderExtensionParameters;
  rp_codecs : list RTCRtpCodecParameters
}.

(** [RTCRtpTransceiver] of rtp_transceiver.rs. *)
Record RTCRtpTransceiver := {
  tv_mid : string;
  tv_sender : option RTCRtpSender;
  tv_direction : RTCRtpTransceiverDirection;
  tv_current_direction : RTCRtpTransceiverDirection;
  tv_rtp_params : RTCRtpParameters;
  tv_kind : RTPCodecType
}.

(** [RTCRtpTransceiver::set_current_direction]. *)
Definition set_current_direction (t : RTCRtpTransceiver) (d : RTCRtpTransceiverDirection)
  : RTCRtpTransceiver :=
  {| tv_mid := tv_mid t; tv_sender := tv_sender t; tv_direction := tv_direction t;
     tv_current_direction := d; tv_rtp_params := tv_rtp_params t; tv_kind := tv_kind t |}.

(** Assignment to the field [direction]. *)
Definition tv_with_direction (t : RTCRtpTransceiver) (d : RTCRtpTransceiverDirection)
  : RTCRtpTransceiver :=
  {| tv_mid := tv_mid t; tv_sender := tv_sender t; tv_direction := d;
     tv_current_direction := tv_current_direction t; tv_rtp_params := tv_rtp_params t;
     tv_kind := tv_kind t |}.

(** Assignment to the field [mid]. *)
Definition tv_with_mid (t : RTCRtpTransceiver) (mid : string) : RTCRtpTransceiver :=
  {| tv_mid := mid; tv_sender := tv_sender t; tv_direction := tv_direction t;
     tv_current_direction := tv_current_direction t; tv_rtp_params := tv_rtp_params t;
     tv_kind := tv_kind t |}.
