(* ===== verification/Codec.v ===== *)
(** * Codec matching (description/fmtp, description/rtp_codec.rs)

    The trait [Fmtp] has two implementations in the crate; [Fmtp] is their
    sum, [downcast_ref] a match on the constructor. *)

From Stdlib Require Import ZArith.
From stdpp Require Import base strings gmap list.
From S2P Require Import Prelude RustStr Enums Types Sdp.

(** [hex::decode] of the [hex] crate: the bytes, or [None] on an error. *)
Class HexOps := { hex_decode : string → option (list Z) }.

(** ** Format parameters *)

Inductive Fmtp : Type :=
| GenericFmtp (mime : string) (parameters : gmap string string)
| H264Fmtp (parameters : gmap string string).

Definition fmtp_parameters (f : Fmtp) : gmap string string :=
  match f with GenericFmtp _ p | H264Fmtp p => p end.

(** [Fmtp::mime_type]. *)
Definition fmtp_mime_type (f : Fmtp) : string :=
  match f with GenericFmtp m _ => m | H264Fmtp _ => "video/h264" end.

(** [Fmtp::parameter]. *)
Definition fmtp_parameter (f : Fmtp) (key : string) : option string :=
  fmtp_parameters f !! key.

(** One [key=value] part of an fmtp line. *)
Definition fmtp_entry (p : string) : string * string :=
  let pp := str_split_once ch_equals (trim p) in
  (to_lowercase (hd EmptyString pp), match pp with _ :: v :: _ => v | _ => EmptyString end).

(** The loop of [fmtp::parse]: a later part replaces an earlier one. *)
Definition fmtp_params (line : string) : gmap string string :=
  foldl (λ m p, let e := fmtp_entry p in <[e.1 := e.2]> m) ∅ (str_split ch_semicolon line).

(** [fmtp::parse]. *)
Definition fmtp_parse (mime line : string) : Fmtp :=
  if String.eqb (to_uppercase mime) (to_uppercase "video/h264")
  then H264Fmtp (fmtp_params line)
  else GenericFmtp mime (fmtp_params line).

(** [fmtp_consist] of generic.rs: two passes, each looking the keys of one map
    up in the other.  The order of the entries does not matter. *)
Definition consist_pass (a b : gmap string string) : bool :=
  forallb (λ kv, match b !! kv.1 with
                 | Some vb => String.eqb (to_uppercase vb) (to_uppercase kv.2)
                 | None => true
                 end) (map_to_list a).
Definition fmtp_consist (a b : gmap string string) : bool :=
  consist_pass a b && consist_pass b a.

Section fmtp.
Context `{HX : HexOps}.

(** [profile_level_id_matches] of h264.rs. *)
Definition profile_level_id_matches (a b : string) : bool :=
  match hex_decode a with
  | Some aa =>
      if (length aa <? 2)%nat then false
      else match hex_decode b with
           | Some bb =>
               if (length bb <? 2)%nat then false
               else match aa, bb with
                    | a0 :: a1 :: _, b0 :: b1 :: _ => Z.eqb a0 b0 && Z.eqb a1 b1
                    | _, _ => false
                    end
           | None => false
           end
  | None => false
  end.

(** [Fmtp::match_fmtp] of both implementations. *)
Definition match_fmtp (self f : Fmtp) : bool :=
  match self, f with
  | GenericFmtp m p, GenericFmtp m' p' =>
      if negb (String.eqb (to_lowercase m) (to_lowercase m')) then false
      else fmtp_consist p p'
  | H264Fmtp p, H264Fmtp p' =>
      match p !! "packetization-mode", p' !! "packetization-mode" with
      | Some hpmode, Some cpmode =>
          if negb (String.eqb hpmode cpmode) then false
          else match p !! "profile-level-id", p' !! "profile-level-id" with
               | Some hplid, Some cplid => profile_level_id_matches hplid cplid
               | _, _ => false
               end
      | _, _ => false
      end
  | _, _ => false
  end.

(** ** Fuzzy search *)

Inductive CodecMatch : Type := Match_None | Match_Partial | Match_Exact.

#[export] Instance CodecMatch_eq_dec : EqDecision CodecMatch.
Proof. solve_decision. Defined.

Definition codec_default : RTCRtpCodecParameters :=
  {| capability := {| mime_type := ""; clock_rate := 0; channels := 0;
                      sdp_fmtp_line := ""; rtcp_feedbacks := [] |};
     payload_type := 0; stats_id := 0 |}.

Definition fmtp_of (c : RTCRtpCodecParameters) : Fmtp :=
  fmtp_parse (mime_type (capability c)) (sdp_fmtp_line (capability c)).

Definition same_mime (c needle : RTCRtpCodecParameters) : bool :=
  String.eqb (to_uppercase (mime_type (capability c)))
             (to_uppercase (mime_type (capability needle))).

(** [for c in haystack { if p(c) { return Some(c) } }]. *)
Fixpoint first_such {A} (p : A → bool) (l : list A) : option A :=
  match l with
  | [] => None
  | x :: l => if p x then Some x else first_such p l
  end.

(** [codec_parameters_fuzzy_search] of rtp_codec.rs. *)
Definition codec_parameters_fuzzy_search (needle : RTCRtpCodecParameters)
    (haystack : list RTCRtpCodecParameters) : RTCRtpCodecParameters * CodecMatch :=
  let needle_fmtp := fmtp_of needle in
  match first_such (λ c, match_fmtp needle_fmtp (fmtp_of c)) haystack with
  | Some c => (c, Match_Exact)
  | None =>
      match first_such (λ c, same_mime c needle) haystack with
      | Some c => (c, Match_Partial)
      | None => (codec_default, Match_None)
      end
  end.

(** ** Payloaders *)

(** The payloaders of the [rtp] crate [payloader_for_codec] chooses from. *)
Inductive Payloader : Type :=
| H264Payloader
| Vp8Payloader (enable_picture_id : bool)
| Vp9Payloader
| OpusPayloader
| G7xxPayloader
| Av1Payloader.

Definition MIME_TYPE_H264 : string := "video/H264".
Definition MIME_TYPE_OPUS : string := "audio/opus".
Definition MIME_TYPE_VP8 : string := "video/VP8".
Definition MIME_TYPE_VP9 : string := "video/VP9".
Definition MIME_TYPE_AV1 : string := "video/AV1".
Definition MIME_TYPE_G722 : string := "audio/G722".
Definition MIME_TYPE_PCMU : string := "audio/PCMU".
Definition MIME_TYPE_PCMA : string := "audio/PCMA".
Definition MIME_TYPE_TELEPHONE_EVENT : string := "audio/telephone-event".

(** [RTCRtpCodecCapability::payloader_for_codec]. *)
Definition payloader_for_codec (self : RTCRtpCodecCapability) : outcome Payloader :=
  let m := to_lowercase (mime_type self) in
  let mime_is k := String.eqb m (to_lowercase k) in
  if mime_is MIME_TYPE_H264 then Ok H264Payloader
  else if mime_is MIME_TYPE_VP8 then Ok (Vp8Payloader true)
  else if mime_is MIME_TYPE_VP9 then Ok Vp9Payloader
  else if mime_is MIME_TYPE_OPUS then Ok OpusPayloader
  else if mime_is MIME_TYPE_G722 || mime_is MIME_TYPE_PCMU || mime_is MIME_TYPE_PCMA
          || mime_is MIME_TYPE_TELEPHONE_EVENT then Ok G7xxPayloader
  else if mime_is MIME_TYPE_AV1 then Ok Av1Payloader
  else Err (ErrOther "ErrNoPayloaderForCodec").

(** ** Lemmas *)

Lemma consist_pass_spec a b :
  consist_pass a b = true ↔
  ∀ k va vb, a !! k = Some va → b !! k = Some vb → to_uppercase vb = to_uppercase va.
Proof.
  unfold consist_pass. rewrite forallb_forall. setoid_rewrite <- list_elem_of_In. split.
  - intros Hall k va vb Ha Hb. specialize (Hall (k, va)). simpl in Hall.
    rewrite Hb in Hall. apply String.eqb_eq, Hall. by apply elem_of_map_to_list.
  - intros Hall [k va] Hin%elem_of_map_to_list. simpl.
    destruct (b !! k) as [vb|] eqn:Hb; [|done]. apply String.eqb_eq. eauto.
Qed.

Lemma fmtp_consist_sym a b : fmtp_consist a b = fmtp_consist b a.
Proof. apply andb_comm. Qed.

Lemma String_eqb_sym' (s t : string) : String.eqb s t = String.eqb t s.
Proof. destruct (String.eqb_spec s t), (String.eqb_spec t s); congruence. Qed.

Lemma profile_level_id_matches_sym a b :
  profile_level_id_matches a b = profile_level_id_matches b a.
Proof.
  unfold profile_level_id_matches.
  destruct (hex_decode a) as [[|a0 [|a1 la]]|], (hex_decode b) as [[|b0 [|b1 lb]]|];
    simpl; try done.
  by rewrite (Z.eqb_sym a0), (Z.eqb_sym a1).
Qed.

Lemma match_fmtp_comm f g : match_fmtp f g = match_fmtp g f.
Proof.
  destruct f as [m p|p], g as [m' p'|p']; simpl; try done.
  - rewrite String_eqb_sym', fmtp_consist_sym. done.
  - destruct (p !! "packetization-mode") as [s|], (p' !! "packetization-mode") as [s'|];
      try done.
    rewrite (String_eqb_sym' s). case_match; [done|].
    destruct (p !! "profile-level-id"), (p' !! "profile-level-id"); try done.
    apply profile_level_id_matches_sym.
Qed.

Lemma first_such_Some {A} (p : A → bool) l x :
  first_such p l = Some x ↔
  ∃ l1 l2, l = l1 ++ x :: l2 ∧ p x = true ∧ Forall (λ y, p y = false) l1.
Proof.
  induction l as [|y l IH]; simpl.
  { split; [done|]. intros ([|] & ? & ? & _); done. }
  destruct (p y) eqn:Hy.
  - split.
    + intros [= <-]. exists [], l. done.
    + intros ([|z l1] & l2 & Heq & Hx & Hall); simplify_eq/=; [done|].
      inversion Hall; congruence.
  - rewrite IH. split.
    + intros (l1 & l2 & -> & Hx & Hall). exists (y :: l1), l2.
      by repeat split; [|constructor].
    + intros ([|z l1] & l2 & Heq & Hx & Hall); simplify_eq/=; [congruence|].
      apply Forall_cons_iff in Hall as [_ Hall]. by exists l1, l2.
Qed.

Lemma first_such_None {A} (p : A → bool) l :
  first_such p l = None ↔ Forall (λ y, p y = false) l.
Proof.
  induction l as [|y l IH]; simpl; [by split|].
  destruct (p y) eqn:Hy.
  - split; [done|]. inversion 1; congruence.
  - rewrite IH. split; [auto|]. by inversion 1.
Qed.

Lemma first_such_In {A} (p : A → bool) l x :
  first_such p l = Some x → x ∈ l ∧ p x = true.
Proof. intros (l1 & l2 & -> & Hp & _)%first_such_Some. set_solver. Qed.

(** The specification of the search: the verdict tells which of the two rules
    chose the codec, and the codec is the first one the rule accepts. *)
Lemma fuzzy_search_spec needle haystack :
  let '(c, verdict) := codec_parameters_fuzzy_search needle haystack in
  let exact c := match_fmtp (fmtp_of needle) (fmtp_of c) in
  match verdict with
  | Match_Exact => first_such exact haystack = Some c
  | Match_Partial =>
      Forall (λ c, exact c = false) haystack ∧
      first_such (λ c, same_mime c needle) haystack = Some c
  | Match_None =>
      Forall (λ c, exact c = false) haystack ∧
      Forall (λ c, same_mime c needle = false) haystack
  end.
Proof.
  unfold codec_parameters_fuzzy_search.
  destruct (first_such _ haystack) eqn:E1; [done|].
  destruct (first_such (λ c, same_mime c needle) haystack) eqn:E2;
    rewrite first_such_None in E1; split; try done.
  by apply first_such_None.
Qed.

End fmtp.
