(* ===== verification/Float64.v ===== *)
(** * IEEE binary64 arithmetic

    The source's [f64] values, on the specification floats of the Standard
    Library: executable and free of primitive floats.  Casts follow Rust's
    [as]: an integer rounds to the nearest float, a float to an integer
    truncates and saturates, and NaN becomes 0. *)

From Stdlib Require Import ZArith Lia SpecFloat.
From stdpp Require Import base numbers.
From S2P Require Import Prelude.
Local Open Scope Z_scope.

Abbreviation f64 := spec_float (only parsing).

Definition f64_prec : Z := 53.
Definition f64_emax : Z := 1024.

(** [z as f64] for an integer [z]. *)
Definition f64_of_Z (z : Z) : f64 := binary_normalize f64_prec f64_emax z 0 false.

Definition f64_add : f64 → f64 → f64 := SFadd f64_prec f64_emax.
Definition f64_sub : f64 → f64 → f64 := SFsub f64_prec f64_emax.
Definition f64_mul : f64 → f64 → f64 := SFmul f64_prec f64_emax.
Definition f64_div : f64 → f64 → f64 := SFdiv f64_prec f64_emax.
Definition f64_abs : f64 → f64 := SFabs.

(** [x as uN] with [max] the largest value of the type. *)
Definition f64_to_uint (max : Z) (x : f64) : Z :=
  match x with
  | S754_zero _ | S754_nan => 0
  | S754_infinity s => if s then 0 else max
  | S754_finite true _ _ => 0
  | S754_finite false m e => Z.min max (Z.shiftl (Zpos m) e)
  end.

(** [Duration::as_secs_f64]: whole seconds plus the nanoseconds' share. *)
Definition as_secs_f64 (d : Z) : f64 :=
  f64_add (f64_of_Z (d / 1000000000))
          (f64_div (f64_of_Z (d mod 1000000000)) (f64_of_Z 1000000000)).

(** [Instant::duration_since] answers zero when the other instant is later. *)
Definition duration_since (now earlier : Z) : Z := Z.max 0 (now - earlier).

Lemma f64_to_uint_range max x : 0 ≤ max → 0 ≤ f64_to_uint max x ≤ max.
Proof.
  intros Hm. destruct x as [s|s| |[] m e]; simpl; try (destruct s; lia); try lia.
  assert (0 ≤ Z.shiftl (Zpos m) e) by (apply Z.shiftl_nonneg; lia). lia.
Qed.

Example one_third : f64_to_uint 255 (f64_div (f64_of_Z 256) (f64_of_Z 3)) = 85.
Proof. reflexivity. Qed.
