(* ===== verification/ReceiverStream.v ===== *)
(** * Reception statistics of one RTP stream
      (interceptors/report/receiver_stream.rs)

    [ReceiverStream] keeps a bitmap of received sequence numbers, follows the
    16-bit sequence numbers across their wrap-around and produces the fields
    of an RTCP receiver report. *)

From Stdlib Require Import ZArith Lia SpecFloat.
From stdpp Require Import base numbers list.
From S2P Require Import Prelude Types Float64.
Local Open Scope Z_scope.

(** ** The interface of the [rtp] and [rtcp] crates *)

(** [rtcp::sender_report::SenderReport], the fields the source reads. *)
Record RtcpSenderReport := { sr_ssrc : Z; sr_ntp_time : Z }.

(** [rtcp::reception_report::ReceptionReport]. *)
Record ReceptionReport := {
  rec_ssrc : Z;
  rec_last_sequence_number : Z;
  rec_last_sender_report : Z;
  rec_fraction_lost : Z;
  rec_total_lost : Z;
  rec_delay : Z;
  rec_jitter : Z
}.

(** [rtcp::receiver_report::ReceiverReport] with the default extensions. *)
Record RtcpReceiverReport := { rr_ssrc : Z; rr_reports : list ReceptionReport }.

(** [rtcp::header::PacketType]. *)
Inductive RtcpPacketType : Type :=
| Pt_SenderReport
| Pt_ReceiverReport
| Pt_TransportSpecificFeedback
| Pt_Other (v : Z).

#[export] Instance RtcpPacketType_eq_dec : EqDecision RtcpPacketType.
Proof. solve_decision. Defined.

Class RtpOps `{T : ExtTypes} := {
  rtp_ssrc : RtpPacket → Z;
  rtp_sequence_number : RtpPacket → Z;
  rtp_timestamp : RtpPacket → Z;
  rtcp_packet_type : RtcpPacket → RtcpPacketType;
  rtcp_as_sender_report : RtcpPacket → option RtcpSenderReport;
  rtcp_of_receiver_report : RtcpReceiverReport → RtcpPacket;
}.

(** The widths of the header fields. *)
Class RtpLaws `{O : RtpOps} := {
  rtp_sequence_number_range p : 0 ≤ rtp_sequence_number p < 2 ^ 16;
  rtp_timestamp_range p : 0 ≤ rtp_timestamp p < 2 ^ 32;
}.

(** ** State *)

Record ReceiverStream := {
  rs_ssrc : Z;
  rs_receiver_ssrc : Z;
  rs_clock_rate : spec_float;
  rs_packets : list Z;
  rs_started : bool;
  rs_seq_num_cycles : Z;
  rs_last_seq_num : Z;
  rs_last_report_seq_num : Z;
  rs_last_rtp_time_rtp : Z;
  rs_last_rtp_time_time : Instant;
  rs_jitter : spec_float;
  rs_last_sender_report : Z;
  rs_last_sender_report_time : Instant;
  rs_total_lost : Z
}.

(** [ReceiverStream::new]; [random] is the value of [rand::random] and [now]
    the value of [Instant::now]. *)
Definition receiver_stream_new (random : Z) (now : Instant) (ssrc clock_rate : Z)
  : ReceiverStream :=
  {| rs_ssrc := ssrc; rs_receiver_ssrc := random; rs_clock_rate := f64_of_Z clock_rate;
     rs_packets := replicate 128 0; rs_started := false; rs_seq_num_cycles := 0;
     rs_last_seq_num := 0; rs_last_report_seq_num := 0; rs_last_rtp_time_rtp := 0;
     rs_last_rtp_time_time := now; rs_jitter := f64_of_Z 0; rs_last_sender_report := 0;
     rs_last_sender_report_time := now; rs_total_lost := 0 |}.

(** ** The bitmap *)

(** [(seq as usize) % self.packets.len()]. *)
Definition packet_pos (packets : list Z) (seq : Z) : Z :=
  seq mod Z.of_nat (length packets).

(** [self.packets[i]]; the index is in range, see [packet_index_in_range]. *)
Definition packet_word (packets : list Z) (i : Z) : Z :=
  default 0 (packets !! Z.to_nat i).

Definition set_received (packets : list Z) (seq : Z) : list Z :=
  let pos := packet_pos packets seq in
  <[Z.to_nat (pos / 64) :=
      Z.lor (packet_word packets (pos / 64)) (Z.shiftl 1 (pos mod 64))]> packets.

Definition del_received (packets : list Z) (seq : Z) : list Z :=
  let pos := packet_pos packets seq in
  <[Z.to_nat (pos / 64) :=
      Z.land (packet_word packets (pos / 64))
             (Z.lxor u64_max (Z.shiftl 1 (pos mod 64)))]> packets.

Definition get_received (packets : list Z) (seq : Z) : bool :=
  let pos := packet_pos packets seq in
  negb (Z.land (packet_word packets (pos / 64)) (Z.shiftl 1 (pos mod 64)) =? 0).

(** [for i in lo..hi { self.del_received(i as u16) }]. *)
Definition del_range (packets : list Z) (lo hi : Z) : list Z :=
  foldl (λ ps i, del_received ps (as_u16 i)) packets (seqZ lo (hi - lo)).

(** ** Operations *)

Section operations.
Context `{O : RtpOps}.

(** [ReceiverStream::process_rtp].  The cycle counter wraps at 16 bits. *)
Definition process_rtp (s : ReceiverStream) (now : Instant) (pkt : RtpPacket)
  : ReceiverStream :=
  let seq := rtp_sequence_number pkt in
  let packets := set_received (rs_packets s) seq in
  if negb (rs_started s) then
    {| rs_ssrc := rs_ssrc s; rs_receiver_ssrc := rs_receiver_ssrc s;
       rs_clock_rate := rs_clock_rate s; rs_packets := packets; rs_started := true;
       rs_seq_num_cycles := rs_seq_num_cycles s; rs_last_seq_num := seq;
       rs_last_report_seq_num := seq - 1;
       rs_last_rtp_time_rtp := rtp_timestamp pkt; rs_last_rtp_time_time := now;
       rs_jitter := rs_jitter s; rs_last_sender_report := rs_last_sender_report s;
       rs_last_sender_report_time := rs_last_sender_report_time s;
       rs_total_lost := rs_total_lost s |}
  else
    let diff := seq - rs_last_seq_num s in
    let jump := negb ((-0x0FFF <=? diff) && (diff <=? 0)) in
    let d := f64_sub
               (f64_mul (as_secs_f64 (duration_since now (rs_last_rtp_time_time s)))
                        (rs_clock_rate s))
               (f64_sub (f64_of_Z (rtp_timestamp pkt))
                        (f64_of_Z (rs_last_rtp_time_rtp s))) in
    {| rs_ssrc := rs_ssrc s; rs_receiver_ssrc := rs_receiver_ssrc s;
       rs_clock_rate := rs_clock_rate s;
       rs_packets := if jump then del_range packets (rs_last_seq_num s + 1) seq else packets;
       rs_started := true;
       rs_seq_num_cycles :=
         if jump && (diff <? -0x0FFF) then as_u16 (rs_seq_num_cycles s + 1)
         else rs_seq_num_cycles s;
       rs_last_seq_num := if jump then seq else rs_last_seq_num s;
       rs_last_report_seq_num := rs_last_report_seq_num s;
       rs_last_rtp_time_rtp := rtp_timestamp pkt; rs_last_rtp_time_time := now;
       rs_jitter := f64_add (rs_jitter s)
                      (f64_div (f64_sub (f64_abs d) (rs_jitter s)) (f64_of_Z 16));
       rs_last_sender_report := rs_last_sender_report s;
       rs_last_sender_report_time := rs_last_sender_report_time s;
       rs_total_lost := rs_total_lost s |}.

End operations.

(** [ReceiverStream::process_sender_report]. *)
Definition process_sender_report (s : ReceiverStream) (now : Instant)
    (sr : RtcpSenderReport) : ReceiverStream :=
  {| rs_ssrc := rs_ssrc s; rs_receiver_ssrc := rs_receiver_ssrc s;
     rs_clock_rate := rs_clock_rate s; rs_packets := rs_packets s;
     rs_started := rs_started s; rs_seq_num_cycles := rs_seq_num_cycles s;
     rs_last_seq_num := rs_last_seq_num s;
     rs_last_report_seq_num := rs_last_report_seq_num s;
     rs_last_rtp_time_rtp := rs_last_rtp_time_rtp s;
     rs_last_rtp_time_time := rs_last_rtp_time_time s; rs_jitter := rs_jitter s;
     rs_last_sender_report := as_u32 (Z.shiftr (sr_ntp_time sr) 16);
     rs_last_sender_report_time := now; rs_total_lost := rs_total_lost s |}.

(** The loop [while i != stop { if !get_received(i) { ret += 1 }; i += 1 }] with
    [i] wrapping at 16 bits, run for [fuel] rounds; [None] when the fuel does
    not reach [stop]. *)
Fixpoint count_lost (fuel : nat) (packets : list Z) (i stop ret : Z) : option Z :=
  if i =? stop then Some ret
  else match fuel with
       | O => None
       | S fuel =>
           count_lost fuel packets (as_u16 (i + 1)) stop
             (if get_received packets i then ret else ret + 1)
       end.

(** 2^16 rounds visit every 16-bit value, see [count_lost_terminates]. *)
Definition report_fuel : nat := Z.to_nat (2 ^ 16).

(** The block that computes [total_lost_since_report]. *)
Definition lost_since_report (s : ReceiverStream) : Z :=
  if rs_last_seq_num s =? rs_last_report_seq_num s then 0
  else default 0
         (count_lost report_fuel (rs_packets s) (as_u16 (rs_last_report_seq_num s + 1))
            (as_u16 (rs_last_seq_num s)) 0).

(** [ReceiverStream::generate_report]. *)
Definition generate_report (s : ReceiverStream) (now : Instant)
  : ReceiverStream * RtcpReceiverReport :=
  let total_since_report := as_u16 (rs_last_seq_num s - rs_last_report_seq_num s) in
  let lost := lost_since_report s in
  let total_lost0 := as_u32 (rs_total_lost s + lost) in
  let lost := if 0xFFFFFF <? lost then 0xFFFFFF else lost in
  let total_lost := if 0xFFFFFF <? total_lost0 then 0xFFFFFF else total_lost0 in
  ({| rs_ssrc := rs_ssrc s; rs_receiver_ssrc := rs_receiver_ssrc s;
      rs_clock_rate := rs_clock_rate s; rs_packets := rs_packets s;
      rs_started := rs_started s; rs_seq_num_cycles := rs_seq_num_cycles s;
      rs_last_seq_num := rs_last_seq_num s;
      rs_last_report_seq_num := rs_last_seq_num s;
      rs_last_rtp_time_rtp := rs_last_rtp_time_rtp s;
      rs_last_rtp_time_time := rs_last_rtp_time_time s; rs_jitter := rs_jitter s;
      rs_last_sender_report := rs_last_sender_report s;
      rs_last_sender_report_time := rs_last_sender_report_time s;
      rs_total_lost := total_lost |},
   {| rr_ssrc := rs_receiver_ssrc s;
      rr_reports :=
        [{| rec_ssrc := rs_ssrc s;
            rec_last_sequence_number :=
              Z.lor (as_u32 (Z.shiftl (rs_seq_num_cycles s) 16))
                    (as_u32 (rs_last_seq_num s));
            rec_last_sender_report := rs_last_sender_report s;
            rec_fraction_lost :=
              f64_to_uint u8_max
                (f64_div (f64_of_Z (as_u32 (lost * 256))) (f64_of_Z total_since_report));
            rec_total_lost := total_lost;
            rec_delay :=
              f64_to_uint u32_max
                (f64_mul (as_secs_f64 (duration_since now (rs_last_sender_report_time s)))
                         (f64_of_Z 65536));
            rec_jitter := f64_to_uint u32_max (rs_jitter s) |}] |}).

(** ** The bitmap as a set of residues modulo 128 *)

Definition bitmap_ok (packets : list Z) : Prop :=
  length packets = 128%nat ∧ Forall (λ w, 0 ≤ w < 2 ^ 64) packets.

Lemma land_pow2_eqb x n :
  0 ≤ n → (Z.land x (Z.shiftl 1 n) =? 0) = negb (Z.testbit x n).
Proof.
  intros Hn. destruct (Z.testbit x n) eqn:Hx; simpl.
  - apply Z.eqb_neq. intros H0.
    apply (f_equal (λ z, Z.testbit z n)) in H0. revert H0.
    rewrite Z.land_spec, Hx, Z.shiftl_spec, Z.sub_diag, Z.bits_0 by lia. done.
  - apply Z.eqb_eq, Z.bits_inj'. intros k Hk.
    rewrite Z.land_spec, Z.shiftl_spec, Z.bits_0 by lia.
    destruct (decide (k = n)) as [->|Hne]; [by rewrite Hx|].
    destruct (decide (k < n)) as [Hlt|Hge].
    + rewrite (Z.testbit_neg_r 1) by lia. by rewrite andb_false_r.
    + rewrite (Z.bits_above_log2 1 (k - n)) by (simpl; lia). by rewrite andb_false_r.
Qed.

Lemma testbit_pow2 n k : 0 ≤ n → 0 ≤ k → Z.testbit (Z.shiftl 1 n) k = bool_decide (n = k).
Proof.
  intros Hn Hk. rewrite Z.shiftl_1_l, Z.pow2_bits_eqb by lia.
  case_bool_decide; [by apply Z.eqb_eq|by apply Z.eqb_neq].
Qed.

Lemma packet_pos_range ps seq : length ps = 128%nat → packet_pos ps seq = seq mod 128.
Proof. intros Hl. unfold packet_pos. by rewrite Hl. Qed.

(** The code's index [pos / 64] never leaves the vector. *)
Lemma packet_index_in_range ps seq :
  length ps = 128%nat → (Z.to_nat (packet_pos ps seq / 64) < length ps)%nat.
Proof.
  intros Hl. rewrite packet_pos_range, Hl by done.
  pose proof (Z.mod_pos_bound seq 128 ltac:(lia)).
  assert (seq mod 128 / 64 < 2) by (apply Z.div_lt_upper_bound; lia).
  pose proof (Z.div_pos (seq mod 128) 64). lia.
Qed.

Lemma packet_word_insert ps i j w :
  0 ≤ i → 0 ≤ j → (Z.to_nat i < length ps)%nat →
  packet_word (<[Z.to_nat i := w]> ps) j =
  if bool_decide (i = j) then w else packet_word ps j.
Proof.
  intros Hi Hj Hlt. unfold packet_word. case_bool_decide as Heq.
  - subst. by rewrite list_lookup_insert_eq.
  - rewrite list_lookup_insert_ne; [done|lia].
Qed.

Lemma get_received_testbit ps seq :
  get_received ps seq =
  Z.testbit (packet_word ps (packet_pos ps seq / 64)) (packet_pos ps seq mod 64).
Proof.
  unfold get_received. rewrite land_pow2_eqb, negb_involutive; [done|].
  apply Z.mod_pos_bound. lia.
Qed.

Lemma pos_split a b :
  a mod 128 / 64 = b mod 128 / 64 → (a mod 128) mod 64 = (b mod 128) mod 64 →
  a mod 128 = b mod 128.
Proof.
  intros H1 H2. rewrite (Z.div_mod (a mod 128) 64), (Z.div_mod (b mod 128) 64) by lia.
  congruence.
Qed.

(** A write at one position, read back at another: the shape both
    [set_received] and [del_received] have. *)
Lemma get_received_update ps a b w :
  length ps = 128%nat →
  get_received (<[Z.to_nat (packet_pos ps a / 64) := w]> ps) b =
  if bool_decide (a mod 128 / 64 = b mod 128 / 64)
  then Z.testbit w ((b mod 128) mod 64) else get_received ps b.
Proof.
  intros Hl. rewrite !get_received_testbit.
  pose proof (packet_index_in_range ps a Hl) as Hin.
  assert (Hl' : length (<[Z.to_nat (packet_pos ps a / 64):=w]> ps) = 128%nat)
    by by rewrite length_insert.
  rewrite (packet_pos_range _ b Hl'), (packet_pos_range ps b Hl).
  pose proof (Z.mod_pos_bound a 128 ltac:(lia)). pose proof (Z.mod_pos_bound b 128 ltac:(lia)).
  rewrite (packet_pos_range ps a Hl) in Hin |- *.
  rewrite packet_word_insert; [by case_bool_decide|apply Z.div_pos; lia..|done].
Qed.

Lemma get_set_received ps a b :
  length ps = 128%nat →
  get_received (set_received ps a) b =
  bool_decide (a mod 128 = b mod 128) || get_received ps b.
Proof.
  intros Hl. unfold set_received. rewrite get_received_update by done.
  pose proof (Z.mod_pos_bound (packet_pos ps a) 64 ltac:(lia)).
  pose proof (Z.mod_pos_bound (b mod 128) 64 ltac:(lia)).
  rewrite get_received_testbit, (packet_pos_range ps b Hl), (packet_pos_range ps a Hl) in *.
  rewrite Z.lor_spec, testbit_pow2 by lia.
  repeat case_bool_decide; rewrite ?orb_true_r, ?orb_false_r; cbn [orb];
    solve [done | congruence | exfalso; eauto using pos_split].
Qed.

Lemma get_del_received ps a b :
  length ps = 128%nat →
  get_received (del_received ps a) b =
  negb (bool_decide (a mod 128 = b mod 128)) && get_received ps b.
Proof.
  intros Hl. unfold del_received. rewrite get_received_update by done.
  pose proof (Z.mod_pos_bound (packet_pos ps a) 64 ltac:(lia)).
  pose proof (Z.mod_pos_bound (b mod 128) 64 ltac:(lia)) as Hb.
  rewrite get_received_testbit, (packet_pos_range ps b Hl), (packet_pos_range ps a Hl) in *.
  assert (Hones : Z.testbit u64_max ((b mod 128) mod 64) = true).
  { change u64_max with (Z.ones 64). apply Z.ones_spec_low. lia. }
  rewrite Z.land_spec, Z.lxor_spec, testbit_pow2, Hones by lia.
  repeat case_bool_decide; rewrite ?andb_false_r, ?andb_true_r; cbn [negb xorb andb];
    solve [done | congruence | exfalso; eauto using pos_split].
Qed.

Lemma length_set_received ps a : length (set_received ps a) = length ps.
Proof. apply length_insert. Qed.

Lemma length_del_received ps a : length (del_received ps a) = length ps.
Proof. apply length_insert. Qed.

Lemma as_u16_mod128 i : as_u16 i mod 128 = i mod 128.
Proof.
  unfold as_u16. change (2 ^ 16) with (128 * 512).
  rewrite Z.rem_mul_r by lia.
  rewrite (Z.mul_comm 128), Z.mod_add by lia. apply Z.mod_mod. lia.
Qed.

Lemma as_u16_small i : 0 ≤ i < 2 ^ 16 → as_u16 i = i.
Proof. apply Z.mod_small. Qed.

Lemma seqZ_succ lo n : 0 < n → seqZ lo n = lo :: seqZ (lo + 1) (n - 1).
Proof. intros. rewrite seqZ_cons by lia. repeat f_equal; lia. Qed.

Lemma length_del_range ps lo hi : length (del_range ps lo hi) = length ps.
Proof.
  unfold del_range. generalize (seqZ lo (hi - lo)). intros l. revert ps.
  induction l as [|i l IH]; intros ps; simpl; [done|].
  by rewrite IH, length_del_received.
Qed.

Lemma get_del_range ps lo hi b :
  length ps = 128%nat →
  get_received (del_range ps lo hi) b = true ↔
  get_received ps b = true ∧ ∀ i, lo ≤ i < hi → i mod 128 ≠ b mod 128.
Proof.
  intros Hl. unfold del_range.
  assert (Hgen : ∀ l ps, length ps = 128%nat →
    get_received (foldl (λ ps i, del_received ps (as_u16 i)) ps l) b = true ↔
    get_received ps b = true ∧ Forall (λ i, i mod 128 ≠ b mod 128) l).
  { induction l as [|i l IH]; intros ps' Hl'; simpl.
    { split; [intros; split; [done|constructor]|by intros []]. }
    rewrite (IH (del_received ps' (as_u16 i))) by (by rewrite length_del_received).
    rewrite get_del_received, as_u16_mod128, Forall_cons by done.
    rewrite andb_true_iff, negb_true_iff, bool_decide_eq_false. tauto. }
  rewrite Hgen by done. rewrite Forall_forall. setoid_rewrite elem_of_seqZ.
  split; intros [? Hi]; (split; [done|]); intros i ?; apply Hi; lia.
Qed.

(** ** The counting loop *)

(** How many of the [n] sequence numbers from [i] on are not marked. *)
Definition missing (ps : list Z) (i n : Z) : Z :=
  Z.of_nat (length (filter (λ j, get_received ps (as_u16 j) = false) (seqZ i n))).

Lemma missing_cons ps i n :
  0 < n →
  missing ps i n =
  (if get_received ps (as_u16 i) then 0 else 1) + missing ps (i + 1) (n - 1).
Proof.
  intros Hn. unfold missing. rewrite (seqZ_succ i n) by done.
  rewrite filter_cons. destruct (get_received ps (as_u16 i)) eqn:E.
  - rewrite decide_False by congruence. lia.
  - rewrite decide_True by done. simpl length. lia.
Qed.

Lemma as_u16_succ i : as_u16 (as_u16 i + 1) = as_u16 (i + 1).
Proof. unfold as_u16. by rewrite Z.add_mod_idemp_l by lia. Qed.

(** The loop reaches [stop] after as many rounds as [stop] is ahead of [i]
    modulo 2^16, and counts the unmarked numbers on the way. *)
Lemma count_lost_spec fuel ps i n ret :
  0 ≤ n < 2 ^ 16 → n ≤ Z.of_nat fuel →
  count_lost fuel ps (as_u16 i) (as_u16 (i + n)) ret = Some (ret + missing ps i n).
Proof.
  revert i n ret. induction fuel as [|fuel IH]; intros i n ret Hn Hf.
  - assert (n = 0) as -> by lia. simpl.
    rewrite Z.add_0_r, Z.eqb_refl. unfold missing. rewrite seqZ_nil by lia. simpl.
    f_equal. lia.
  - simpl. destruct (Z.eqb_spec (as_u16 i) (as_u16 (i + n))) as [Heq|Hne].
    + assert (n = 0) as ->.
      { unfold as_u16 in Heq. assert (Hd : (i + n - i) mod 2 ^ 16 = 0).
        { rewrite Zminus_mod, <- Heq, Z.sub_diag. done. }
        replace (i + n - i) with n in Hd by lia. rewrite Z.mod_small in Hd; lia. }
      unfold missing. rewrite seqZ_nil by lia. simpl. f_equal. lia.
    + assert (0 < n).
      { destruct (decide (n = 0)) as [->|]; [|lia]. by rewrite Z.add_0_r in Hne. }
      rewrite as_u16_succ.
      replace (as_u16 (i + n)) with (as_u16 (i + 1 + (n - 1))) by (f_equal; lia).
      rewrite IH by lia. rewrite (missing_cons ps i n) by lia.
      f_equal. destruct (get_received ps (as_u16 i)); lia.
Qed.

Lemma count_lost_terminates ps i stop ret :
  0 ≤ i < 2 ^ 16 → 0 ≤ stop < 2 ^ 16 →
  count_lost report_fuel ps i stop ret =
  Some (ret + missing ps i ((stop - i) mod 2 ^ 16)).
Proof.
  intros Hi Hs.
  pose proof (Z.mod_pos_bound (stop - i) (2 ^ 16) ltac:(lia)) as Hb.
  assert (Hstop : stop = as_u16 (i + (stop - i) mod 2 ^ 16)).
  { unfold as_u16. rewrite Z.add_mod_idemp_r by lia.
    replace (i + (stop - i)) with stop by lia. by rewrite Z.mod_small. }
  rewrite Hstop at 1. rewrite <- (as_u16_small i) at 1 by done.
  apply count_lost_spec; [done|]. unfold report_fuel. lia.
Qed.

(** ** Well-formed streams *)

Record stream_ok (s : ReceiverStream) : Prop := {
  so_bitmap : length (rs_packets s) = 128%nat;
  so_last : 0 ≤ rs_last_seq_num s < 2 ^ 16;
  so_report : -1 ≤ rs_last_report_seq_num s < 2 ^ 16;
  so_cycles : 0 ≤ rs_seq_num_cycles s < 2 ^ 16;
  so_lost : 0 ≤ rs_total_lost s ≤ 0xFFFFFF
}.

Lemma stream_ok_new random now ssrc rate :
  stream_ok (receiver_stream_new random now ssrc rate).
Proof. split; simpl; try lia. Qed.

Lemma lost_since_report_eq s :
  stream_ok s →
  lost_since_report s =
  if rs_last_seq_num s =? rs_last_report_seq_num s then 0
  else missing (rs_packets s) (as_u16 (rs_last_report_seq_num s + 1))
         ((rs_last_seq_num s - (rs_last_report_seq_num s + 1)) mod 2 ^ 16).
Proof.
  intros [_ Hl _ _ _]. unfold lost_since_report. case_match; [done|].
  rewrite count_lost_terminates.
  2,3: apply Z.mod_pos_bound; lia.
  simpl. f_equal. unfold as_u16. by rewrite Zminus_mod_idemp_l, Zminus_mod_idemp_r.
Qed.

Lemma missing_range ps i n : 0 ≤ n → 0 ≤ missing ps i n ≤ n.
Proof.
  intros Hn. unfold missing. split; [lia|].
  pose proof (length_filter (λ j, get_received ps (as_u16 j) = false) (seqZ i n)) as Hf.
  rewrite length_seqZ in Hf. lia.
Qed.

Lemma lost_since_report_range s : stream_ok s → 0 ≤ lost_since_report s < 2 ^ 16.
Proof.
  intros Hs. rewrite lost_since_report_eq by done. case_match; [lia|].
  pose proof (Z.mod_pos_bound (rs_last_seq_num s - (rs_last_report_seq_num s + 1))
                (2 ^ 16) ltac:(lia)).
  pose proof (missing_range (rs_packets s) (as_u16 (rs_last_report_seq_num s + 1))
    ((rs_last_seq_num s - (rs_last_report_seq_num s + 1)) mod 2 ^ 16)). lia.
Qed.

#[export] Hint Resolve stream_ok_new : sfu.

Section properties.
Context `{O : RtpOps} `{L : !RtpLaws}.
Implicit Types s : ReceiverStream.

Lemma process_rtp_ok s now pkt : stream_ok s → stream_ok (process_rtp s now pkt).
Proof.
  intros [Hb Hl Hr Hc Ht]. pose proof (rtp_sequence_number_range pkt).
  unfold process_rtp. destruct (rs_started s); split; simpl; try lia.
  - case_match; rewrite ?length_del_range, length_set_received; done.
  - case_match; lia.
  - case_match; [apply Z.mod_pos_bound|]; lia.
  - by rewrite length_set_received.
Qed.

Lemma process_sender_report_ok s now sr :
  stream_ok s → stream_ok (process_sender_report s now sr).
Proof. intros []. by split. Qed.

Lemma total_lost_no_overflow s :
  stream_ok s → as_u32 (rs_total_lost s + lost_since_report s) =
                rs_total_lost s + lost_since_report s.
Proof.
  intros Hs. pose proof (lost_since_report_range s Hs). destruct Hs.
  apply Z.mod_small. lia.
Qed.

Lemma generate_report_ok s now : stream_ok s → stream_ok (generate_report s now).1.
Proof.
  intros Hs. pose proof (lost_since_report_range s Hs).
  pose proof (total_lost_no_overflow s Hs) as Ht. destruct Hs.
  split; simpl; try done; [lia|]. rewrite Ht. case_match; lia.
Qed.

Lemma extended_sequence_number c l :
  0 ≤ c < 2 ^ 16 → 0 ≤ l < 2 ^ 16 →
  Z.lor (as_u32 (Z.shiftl c 16)) (as_u32 l) = c * 2 ^ 16 + l.
Proof.
  intros Hc Hl. unfold as_u32. rewrite Z.shiftl_mul_pow2 by lia.
  rewrite !Z.mod_small by lia.
  rewrite <- Z.add_lor_land. replace (Z.land (c * 2 ^ 16) l) with 0; [lia|].
  symmetry. apply Z.bits_inj'. intros k Hk. rewrite Z.land_spec, Z.bits_0.
  rewrite <- Z.shiftl_mul_pow2, Z.shiftl_spec by lia.
  destruct (decide (k < 16)) as [Hlt|Hge].
  - by rewrite Z.testbit_neg_r by lia.
  - replace l with (l mod 2 ^ 16) by by apply Z.mod_small.
    rewrite Z.mod_pow2_bits_high by lia. by rewrite andb_false_r.
Qed.

(** C33. Every operation keeps a reception statistic well formed, and a report
    made from a well-formed one is in range: the cumulative loss is the old
    sum plus the new losses, capped at 24 bits without overflowing on the way,
    the fraction fits a byte, and the extended sequence number is the number
    of cycles times 2^16 plus the last sequence number. *)
Theorem receiver_stream_wf s now pkt sr :
  stream_ok s →
  stream_ok (process_rtp s now pkt) ∧
  stream_ok (process_sender_report s now sr) ∧
  stream_ok (generate_report s now).1 ∧
  ∃ rec, rr_reports (generate_report s now).2 = [rec] ∧
    rec_last_sequence_number rec = rs_seq_num_cycles s * 2 ^ 16 + rs_last_seq_num s ∧
    rec_total_lost rec = Z.min 0xFFFFFF (rs_total_lost s + lost_since_report s) ∧
    0 ≤ rec_fraction_lost rec ≤ u8_max.
Proof.
  intros Hs. split_and!; auto using process_rtp_ok, process_sender_report_ok, generate_report_ok.
  eexists. split; [done|]. simpl.
  rewrite extended_sequence_number, total_lost_no_overflow by (done || apply Hs).
  split_and!; [done| |by apply f64_to_uint_range|by apply f64_to_uint_range].
  case_match; lia.
Qed.

(** ** In-order reception *)

(** The stream after a list of packets, each with its arrival time. *)
Definition receive (s : ReceiverStream) (pkts : list (Instant * RtpPacket)) : ReceiverStream :=
  foldl (λ s p, process_rtp s p.1 p.2) s pkts.

Definition seqs (pkts : list (Instant * RtpPacket)) : list Z :=
  map (λ p, rtp_sequence_number p.2) pkts.

(** Increasing sequence numbers, each above [r]. *)
Fixpoint increasing (r : Z) (l : list Z) : Prop :=
  match l with
  | [] => True
  | q :: l => r < q ∧ increasing q l
  end.

(** The bitmap tells which numbers in the window above [r] arrived. *)
Definition tracks (s : ReceiverStream) (r : Z) (got : list Z) : Prop :=
  ∀ j, r < j ≤ rs_last_seq_num s →
    get_received (rs_packets s) j = true ↔ j ∈ got.

Lemma mod128_ne j q : 0 < q - j < 128 → j mod 128 ≠ q mod 128.
Proof.
  intros Hd Heq. assert (Hz : (q - j) mod 128 = 0).
  { by rewrite Zminus_mod, <- Heq, Z.sub_diag. }
  rewrite Z.mod_small in Hz; lia.
Qed.

Lemma process_rtp_next s now pkt :
  rs_started s = true → rs_last_seq_num s < rtp_sequence_number pkt →
  let s' := process_rtp s now pkt in
  rs_started s' = true ∧ rs_last_seq_num s' = rtp_sequence_number pkt ∧
  rs_last_report_seq_num s' = rs_last_report_seq_num s ∧
  rs_packets s' = del_range (set_received (rs_packets s) (rtp_sequence_number pkt))
                    (rs_last_seq_num s + 1) (rtp_sequence_number pkt).
Proof.
  intros Hst Hlt. unfold process_rtp. rewrite Hst. simpl.
  replace (rtp_sequence_number pkt - rs_last_seq_num s <=? 0) with false
    by (symmetry; apply Z.leb_gt; lia).
  rewrite andb_false_r. simpl. done.
Qed.

Lemma tracks_step s now pkt r got :
  stream_ok s → rs_started s = true →
  r ≤ rs_last_seq_num s < rtp_sequence_number pkt → rtp_sequence_number pkt ≤ r + 128 →
  Forall (λ q, q ≤ rs_last_seq_num s) got →
  tracks s r got → tracks (process_rtp s now pkt) r (got ++ [rtp_sequence_number pkt]).
Proof.
  intros Hs Hst Hlt Hw Hgot Ht j Hj.
  destruct (process_rtp_next s now pkt Hst) as (_ & Hlast & _ & Hp); [lia|].
  rewrite Hlast in Hj. rewrite Hp. destruct Hs as [Hb _ _ _ _].
  rewrite get_del_range, get_set_received, orb_true_iff, bool_decide_eq_true
    by (by rewrite ?length_set_received).
  rewrite elem_of_app, list_elem_of_singleton.
  set (q := rtp_sequence_number pkt) in *.
  destruct (decide (j ≤ rs_last_seq_num s)) as [Hle|Hgt].
  - rewrite <- (Ht j) by lia. split.
    + intros [[Heq|Hg] _]; [|by left]. exfalso. apply (mod128_ne j q); [lia|done].
    + intros [Hg|Heq]; [|lia]. split; [by right|].
      intros i Hi Heq. apply (mod128_ne j i); [lia|done].
  - destruct (decide (j = q)) as [->|Hne].
    + split; [by right|]. intros _. split; [by left|].
      intros i Hi. apply mod128_ne. lia.
    + split.
      * intros [_ Hd]. exfalso. apply (Hd j); [lia|done].
      * intros [Hin|]; [|done]. rewrite Forall_forall in Hgot. apply Hgot in Hin. lia.
Qed.

Lemma receive_tracks pkts : ∀ s r got,
  stream_ok s → rs_started s = true → r ≤ rs_last_seq_num s →
  increasing (rs_last_seq_num s) (seqs pkts) →
  Forall (λ q, q ≤ r + 128) (seqs pkts) →
  Forall (λ q, q ≤ rs_last_seq_num s) got → tracks s r got →
  let s' := receive s pkts in
  stream_ok s' ∧ rs_last_report_seq_num s' = rs_last_report_seq_num s ∧
  rs_last_seq_num s' = List.last (seqs pkts) (rs_last_seq_num s) ∧
  rs_last_seq_num s ≤ rs_last_seq_num s' ∧
  tracks s' r (got ++ seqs pkts).
Proof.
  induction pkts as [|[now pkt] pkts IH]; intros s r got Hs Hst Hr Hinc Hw Hgot Ht; simpl.
  { rewrite app_nil_r. split_and!; done. }
  simpl in Hinc, Hw. destruct Hinc as [Hlt Hinc]. inversion_clear Hw as [|? ? Hq Hw'].
  destruct (process_rtp_next s now pkt Hst Hlt) as (Hst' & Hlast & Hrep & _).
  destruct (IH (process_rtp s now pkt) r (got ++ [rtp_sequence_number pkt]))
    as (Ha & Hb & Hc & Hd & He).
  - by apply process_rtp_ok.
  - done.
  - lia.
  - by rewrite Hlast.
  - done.
  - rewrite Hlast. apply Forall_app. split; [|by repeat constructor].
    eapply Forall_impl; [done|]. simpl. lia.
  - apply tracks_step; try done; lia.
  - rewrite <- app_assoc in He. rewrite Hlast in Hc, Hd. split_and!; try done.
    + by rewrite Hb.
    + simpl. rewrite Hc. destruct (seqs pkts) as [|x l]; [done|].
      clear. generalize (rtp_sequence_number pkt), (rs_last_seq_num s).
      induction l as [|y l IH] in x |- *; intros; [done|]. apply IH.
    + lia.
Qed.

(** C34. The reported loss is exact for packets that arrive in order, without a
    wrap-around of their numbers and with no more than 128 numbers between two
    reports: after a report and packets with increasing sequence numbers, the
    next report counts exactly the numbers in between that did not arrive. *)
Theorem lost_count_exact s pkts :
  stream_ok s → rs_started s = true → rs_last_report_seq_num s = rs_last_seq_num s →
  increasing (rs_last_seq_num s) (seqs pkts) →
  Forall (λ q, q ≤ rs_last_seq_num s + 128) (seqs pkts) →
  let r := rs_last_seq_num s in
  let s' := receive s pkts in
  lost_since_report s' =
  Z.of_nat (length (filter (λ j, j ∉ seqs pkts) (seqZ (r + 1) (rs_last_seq_num s' - r - 1)))).
Proof.
  intros Hs Hst Hrep Hinc Hw r s'.
  destruct (receive_tracks pkts s r [] Hs Hst) as (Hs' & Hrep' & _ & Hge & Ht); try done.
  { intros j Hj. lia. }
  fold s' in Hs', Hrep', Hge, Ht. rewrite lost_since_report_eq by done.
  rewrite Hrep', Hrep. pose proof (so_last _ Hs') as Hl'. pose proof (so_last _ Hs) as Hl.
  fold r in Hge, Hl |- *. case_match eqn:Hc.
  { apply Z.eqb_eq in Hc. rewrite seqZ_nil by lia. done. }
  apply Z.eqb_neq in Hc. rewrite Z.mod_small by lia.
  rewrite (as_u16_small (r + 1)) by lia. unfold missing.
  replace (rs_last_seq_num s' - (r + 1)) with (rs_last_seq_num s' - r - 1) by lia.
  do 2 f_equal. apply filter_ext_in. intros j Hj%elem_of_seqZ.
  rewrite as_u16_small by lia. simpl in Ht. rewrite <- (Ht j) by lia.
  by rewrite not_true_iff_false.
Qed.

(** ** The reach of the history *)

Lemma del_range_empty ps lo hi : hi ≤ lo → del_range ps lo hi = ps.
Proof. intros. unfold del_range. by rewrite seqZ_nil by lia. Qed.

(** A run without a gap only ever sets marks. *)
Lemma receive_consecutive pkts : ∀ s,
  stream_ok s → rs_started s = true →
  seqs pkts = seqZ (rs_last_seq_num s + 1) (Z.of_nat (length pkts)) →
  let s' := receive s pkts in
  stream_ok s' ∧ rs_last_report_seq_num s' = rs_last_report_seq_num s ∧
  rs_last_seq_num s' = rs_last_seq_num s + Z.of_nat (length pkts) ∧
  ∀ j, get_received (rs_packets s) j = true ∨
       (∃ q, rs_last_seq_num s < q ≤ rs_last_seq_num s' ∧ q mod 128 = j mod 128) →
       get_received (rs_packets s') j = true.
Proof.
  induction pkts as [|[now pkt] pkts IH]; intros s Hs Hst Hseq; simpl.
  { split_and!; [done..|lia|]. intros j [?|(q & Hq & _)]; [done|lia]. }
  simpl in Hseq. rewrite seqZ_succ in Hseq by lia. injection Hseq as Hq Hseq.
  destruct (process_rtp_next s now pkt Hst) as (Hst' & Hlast & Hrep & Hp); [lia|].
  rewrite del_range_empty in Hp by lia.
  destruct (IH (process_rtp s now pkt)) as (Ha & Hb & Hc & Hd);
    [by apply process_rtp_ok|done| |].
  { rewrite Hseq, Hlast. f_equal; lia. }
  fold (receive (process_rtp s now pkt) pkts).
  split_and!; [done|by rewrite Hb|lia|].
  intros j Hj. apply Hd. rewrite Hp, get_set_received, orb_true_iff, bool_decide_eq_true
    by apply Hs.
  destruct Hj as [?|(q & Hqr & Hm)]; [by left; right|].
  destruct (decide (q = rtp_sequence_number pkt)) as [->|]; [by left; left|].
  right. exists q. split; [lia|done].
Qed.

(** C35. The history reaches back 128 packets only, because the position of a
    sequence number is taken modulo the number of 64-bit words and not modulo
    the number of bits: one packet lost right after a report and followed by
    128 packets without a gap is reported as no loss at all. *)
Theorem loss_hidden_by_short_history s pkts :
  stream_ok s → rs_started s = true → rs_last_report_seq_num s = rs_last_seq_num s →
  seqs pkts = seqZ (rs_last_seq_num s + 2) 128 →
  let s' := receive s pkts in
  (rs_last_seq_num s + 1) ∉ seqs pkts ∧
  rs_last_report_seq_num s' < rs_last_seq_num s + 1 < rs_last_seq_num s' ∧
  lost_since_report s' = 0.
Proof.
  intros Hs Hst Hrep Hseq s'. subst s'.
  assert (Hnot : (rs_last_seq_num s + 1) ∉ seqs pkts)
    by (rewrite Hseq, elem_of_seqZ; lia).
  split; [done|].
  destruct pkts as [|[now pkt] pkts]; [done|].
  assert (Hlen : length pkts = 127%nat).
  { apply (f_equal length) in Hseq. unfold seqs in Hseq.
    rewrite length_map, length_seqZ in Hseq. simpl in Hseq. lia. }
  change (seqs ((now, pkt) :: pkts)) with (rtp_sequence_number pkt :: seqs pkts) in Hseq.
  rewrite seqZ_succ in Hseq by lia. injection Hseq as Hq Hseq.
  change (receive s ((now, pkt) :: pkts)) with (receive (process_rtp s now pkt) pkts).
  destruct (process_rtp_next s now pkt Hst) as (Hst' & Hlast & Hrep' & Hp); [lia|].
  pose proof (process_rtp_ok s now pkt Hs) as Hok.
  destruct (receive_consecutive pkts (process_rtp s now pkt) Hok Hst')
    as (Hs' & Hb & Hc & Hd).
  { rewrite Hseq, Hlast. f_equal; lia. }
  rewrite Hlast, Hlen in Hc. rewrite Hb, Hrep', Hrep. split; [lia|].
  set (s' := receive _ _) in *. pose proof (so_last _ Hs') as Hl'.
  pose proof (so_last _ Hs) as Hl.
  rewrite lost_since_report_eq by done. rewrite Hb, Hrep', Hrep. case_match eqn:Hz; [done|].
  rewrite Z.mod_small by lia. unfold missing.
  rewrite filter_none; [done|].
  intros j Hj%elem_of_seqZ. rewrite as_u16_small in Hj by lia.
  rewrite as_u16_small by lia. rewrite (Hd j); [done|].
  destruct (decide (j = rs_last_seq_num s + 1)) as [->|Hne].
  - right. exists (rs_last_seq_num s + 129). split; [lia|].
    replace (rs_last_seq_num s + 129) with (rs_last_seq_num s + 1 + 1 * 128) by lia.
    apply Z.mod_add. lia.
  - destruct (decide (j = rtp_sequence_number pkt)) as [->|]; [|right; exists j; split; [lia|done]].
    left. rewrite Hp, get_del_range by (rewrite length_set_received; apply Hs).
    rewrite get_set_received, bool_decide_eq_true_2 by (done || apply Hs). split; [done|].
    intros i Hi. apply mod128_ne. lia.
Qed.

(** A packet whose number wrapped around leaves the marks of the old numbers:
    the loop from the last number to the new one has no round. *)
Lemma process_rtp_wrapped s now pkt :
  rs_started s = true → rtp_sequence_number pkt - rs_last_seq_num s < - 0x0FFF →
  let s' := process_rtp s now pkt in
  rs_last_seq_num s' = rtp_sequence_number pkt ∧
  rs_last_report_seq_num s' = rs_last_report_seq_num s ∧
  rs_seq_num_cycles s' = as_u16 (rs_seq_num_cycles s + 1) ∧
  rs_total_lost s' = rs_total_lost s ∧
  rs_packets s' = set_received (rs_packets s) (rtp_sequence_number pkt).
Proof.
  intros Hst Hd. unfold process_rtp. rewrite Hst. simpl.
  replace (_ <=? rtp_sequence_number pkt - rs_last_seq_num s) with false
    by (symmetry; apply Z.leb_gt; lia).
  replace (rtp_sequence_number pkt - rs_last_seq_num s <? _) with true
    by (symmetry; apply Z.ltb_lt; lia).
  simpl. rewrite del_range_empty by lia. done.
Qed.

(** After 128 packets without a gap every mark is set. *)
Lemma receive_window s pkts :
  stream_ok s → rs_started s = true → seqs pkts = seqZ (rs_last_seq_num s + 1) 128 →
  stream_ok (receive s pkts) ∧ ∀ j, get_received (rs_packets (receive s pkts)) j = true.
Proof.
  intros Hs Hst Hseq. assert (Hlen : length pkts = 128%nat).
  { apply (f_equal length) in Hseq. unfold seqs in Hseq.
    rewrite length_map, length_seqZ in Hseq. lia. }
  destruct (receive_consecutive pkts s Hs Hst) as (Ha & _ & Hlast & H); [by rewrite Hlen|].
  split; [done|]. intros j. apply H. right. rewrite Hlast, Hlen. set (r := rs_last_seq_num s).
  exists (r + 1 + (j - (r + 1)) mod 128). pose proof (Z.mod_pos_bound (j - (r + 1)) 128).
  split; [lia|]. rewrite Z.add_mod_idemp_r by lia. f_equal. lia.
Qed.

Lemma receive_started pkts : ∀ s, rs_started s = true → rs_started (receive s pkts) = true.
Proof.
  induction pkts as [|[now pkt] pkts IH]; intros s Hs; [done|]. apply IH.
  unfold process_rtp. by rewrite Hs.
Qed.

(** C30. A loss across the wrap-around of the sequence numbers is hidden: after
    128 packets without a gap and a report, any number [lost] of packets below
    61440 is lost, and the packet after them has a number that wrapped around.
    It is counted as a new cycle, but the loop that marks the numbers in between
    as missing has no round, so that the next report counts no loss at all. *)
Theorem loss_hidden_at_wraparound s pkts t now pkt lost t' :
  stream_ok s → rs_started s = true → seqs pkts = seqZ (rs_last_seq_num s + 1) 128 →
  let s1 := (generate_report (receive s pkts) t).1 in
  0 ≤ lost < 2 ^ 16 - 0x1000 → 2 ^ 16 ≤ rs_last_seq_num s1 + 1 + lost →
  rtp_sequence_number pkt = as_u16 (rs_last_seq_num s1 + 1 + lost) →
  let s' := process_rtp s1 now pkt in
  rs_seq_num_cycles s' = as_u16 (rs_seq_num_cycles s1 + 1) ∧
  rs_last_seq_num s' = rs_last_seq_num s1 + 1 + lost - 2 ^ 16 ∧
  lost_since_report s' = 0 ∧
  rs_total_lost (generate_report s' t').1 = rs_total_lost s1.
Proof.
  intros Hs Hst Hseq s1 Hlost Hwrap Hq s'.
  destruct (receive_window s pkts Hs Hst Hseq) as [Hok Hall].
  pose proof (generate_report_ok _ t Hok) as Hok1. fold s1 in Hok1.
  pose proof (so_last _ Hok1) as Hlast.
  assert (Hq' : rtp_sequence_number pkt = rs_last_seq_num s1 + 1 + lost - 2 ^ 16).
  { rewrite Hq. unfold as_u16. rewrite <- (Z.mod_small (_ - _) (2 ^ 16)) by lia.
    rewrite <- (Z.mod_add (_ - _) 1) by lia. f_equal. lia. }
  destruct (process_rtp_wrapped s1 now pkt) as (H1 & H2 & H3 & H4 & H5);
    [by apply receive_started|lia|]. fold s' in H1, H2, H3, H4, H5.
  assert (Hok' : stream_ok s') by by apply process_rtp_ok.
  assert (Hz : lost_since_report s' = 0).
  { rewrite lost_since_report_eq by done. case_match; [done|]. unfold missing.
    rewrite filter_none; [done|]. intros j _. rewrite H5, get_set_received by apply Hok1.
    change (rs_packets s1) with (rs_packets (receive s pkts)). by rewrite Hall, orb_true_r. }
  split_and!; [done|by rewrite H1, Hq'|done|]. rewrite <- H4. pose proof (so_lost _ Hok') as Ht.
  simpl. rewrite total_lost_no_overflow, Hz, Z.add_0_r by done. case_match; lia.
Qed.

End properties.
