(* ===== verification/Interceptors.v ===== *)
(** * Interceptors (interceptors/mod.rs, interceptors/report)

    The trait [Interceptor] has three implementations in the crate: [NoOp],
    [ReceiverReport] and [SenderReport].  [Interceptor] is their sum; the
    field [next] links the chain as in the source. *)

From Stdlib Require Import ZArith Lia.
From stdpp Require Import base numbers gmap list.
From S2P Require Import Prelude Types ReceiverStream.
Local Open Scope Z_scope.

Inductive Interceptor : Type :=
| NoOp
| ReceiverReport (interval : Duration) (eto : Instant)
    (streams : gmap Z ReceiverStream) (next : option Interceptor)
| SenderReport (next : option Interceptor).

(** Induction over the chain. *)
Fixpoint Interceptor_chain_ind (P : Interceptor → Prop) (HN : P NoOp)
    (HRN : ∀ d e m, P (ReceiverReport d e m None))
    (HR : ∀ d e m n, P n → P (ReceiverReport d e m (Some n)))
    (HSN : P (SenderReport None))
    (HS : ∀ n, P n → P (SenderReport (Some n))) (i : Interceptor) : P i :=
  match i with
  | NoOp => HN
  | ReceiverReport d e m None => HRN d e m
  | ReceiverReport d e m (Some n) =>
      HR d e m n (Interceptor_chain_ind P HN HRN HR HSN HS n)
  | SenderReport None => HSN
  | SenderReport (Some n) => HS n (Interceptor_chain_ind P HN HRN HR HSN HS n)
  end.

Section interceptors.
Context `{O : RtpOps} `{HO : HashOrder}.

Inductive InterceptorEvent : Type :=
| Inbound (m : TaggedMessageEvent)
| Outbound (m : TaggedMessageEvent)
| InterceptorError (e : Error).

(** ** [ReceiverReport] *)

(** The packet loop of [ReceiverReport::read]: every sender report updates
    the stream it names. *)
Definition rr_process_rtcp (now : Instant) (ps : list RtcpPacket)
    (streams : gmap Z ReceiverStream) : gmap Z ReceiverStream :=
  foldl (λ streams p,
           match rtcp_as_sender_report p with
           | Some sr =>
               match streams !! sr_ssrc sr with
               | Some s => <[sr_ssrc sr := process_sender_report s now sr]> streams
               | None => streams
               end
           | None => streams
           end) streams ps.

(** The first half of [ReceiverReport::read]. *)
Definition rr_observe (msg : TaggedMessageEvent) (streams : gmap Z ReceiverStream)
  : gmap Z ReceiverStream :=
  match tm_message msg with
  | Ev_Rtp (Rtp_Rtcp ps) => rr_process_rtcp (tm_now msg) ps streams
  | Ev_Rtp (Rtp_Rtp p) =>
      match streams !! rtp_ssrc p with
      | Some s => <[rtp_ssrc p := process_rtp s (tm_now msg) p]> streams
      | None => streams
      end
  | _ => streams
  end.

(** The message that carries one report to one transport. *)
Definition rr_message (now : Instant) (rr : RtcpReceiverReport) (ft : FourTuple)
  : InterceptorEvent :=
  Outbound {| tm_now := now; tm_transport := context_of ft None;
              tm_message := Ev_Rtp (Rtp_Rtcp [rtcp_of_receiver_report rr]) |}.

(** The reports of a timeout: for every stream one report per transport. *)
Definition rr_reports_of (now : Instant) (fts : list FourTuple)
    (streams : gmap Z ReceiverStream) : list InterceptorEvent :=
  flat_map (λ s, map (rr_message now (generate_report s now).2) fts) (hm_values streams).

(** ** [SenderReport] *)

(** Reports that concern one hop only. *)
Definition hop_by_hop (p : RtcpPacket) : bool :=
  bool_decide (rtcp_packet_type p = Pt_ReceiverReport) ||
  bool_decide (rtcp_packet_type p = Pt_TransportSpecificFeedback).

(** The first half of [SenderReport::read]. *)
Definition sr_forward (msg : TaggedMessageEvent) : list InterceptorEvent :=
  match tm_message msg with
  | Ev_Rtp (Rtp_Rtcp ps) =>
      let inbound := List.filter (λ p, negb (hop_by_hop p)) ps in
      match inbound with
      | [] => []
      | _ => [Inbound {| tm_now := tm_now msg; tm_transport := tm_transport msg;
                         tm_message := Ev_Rtp (Rtp_Rtcp inbound) |}]
      end
  | _ => []
  end.

(** ** The trait's methods *)

Fixpoint interceptor_read (i : Interceptor) (msg : TaggedMessageEvent)
  : Interceptor * list InterceptorEvent :=
  match i with
  | NoOp => (NoOp, [])
  | ReceiverReport d eto streams next =>
      let streams := rr_observe msg streams in
      match next with
      | Some n => let '(n, es) := interceptor_read n msg in
                  (ReceiverReport d eto streams (Some n), es)
      | None => (ReceiverReport d eto streams None, [])
      end
  | SenderReport next =>
      let es := sr_forward msg in
      match next with
      | Some n => let '(n, es') := interceptor_read n msg in
                  (SenderReport (Some n), es ++ es')
      | None => (SenderReport None, es)
      end
  end.

(** No implementation overrides [write]. *)
Fixpoint interceptor_write (i : Interceptor) (msg : TaggedMessageEvent)
  : Interceptor * list InterceptorEvent :=
  match i with
  | ReceiverReport d eto streams (Some n) =>
      let '(n, es) := interceptor_write n msg in
      (ReceiverReport d eto streams (Some n), es)
  | SenderReport (Some n) =>
      let '(n, es) := interceptor_write n msg in (SenderReport (Some n), es)
  | _ => (i, [])
  end.

Fixpoint interceptor_handle_timeout (i : Interceptor) (now : Instant) (fts : list FourTuple)
  : Interceptor * list InterceptorEvent :=
  match i with
  | NoOp => (NoOp, [])
  | ReceiverReport d eto streams next =>
      let due := (eto <=? now)%Z in
      let eto' := if due then (now + d)%Z else eto in
      let es := if due then rr_reports_of now fts streams else [] in
      let streams' := if due then (λ s, (generate_report s now).1) <$> streams else streams in
      match next with
      | Some n => let '(n, es') := interceptor_handle_timeout n now fts in
                  (ReceiverReport d eto' streams' (Some n), es ++ es')
      | None => (ReceiverReport d eto' streams' None, es)
      end
  | SenderReport (Some n) =>
      let '(n, es) := interceptor_handle_timeout n now fts in (SenderReport (Some n), es)
  | SenderReport None => (SenderReport None, [])
  end.

Fixpoint interceptor_poll_timeout (i : Interceptor) (eto : Instant) : Instant :=
  match i with
  | NoOp => eto
  | ReceiverReport _ self_eto _ next =>
      let eto := if (self_eto <? eto)%Z then self_eto else eto in
      match next with Some n => interceptor_poll_timeout n eto | None => eto end
  | SenderReport (Some n) => interceptor_poll_timeout n eto
  | SenderReport None => eto
  end.

End interceptors.

(** [Interceptor::chain]. *)
Definition interceptor_chain (self next : Interceptor) : Interceptor :=
  match self with
  | NoOp => NoOp
  | ReceiverReport d e m _ => ReceiverReport d e m (Some next)
  | SenderReport _ => SenderReport (Some next)
  end.

(** ** Builders and the registry *)

Record ReportBuilder := { rb_is_rr : bool; rb_interval : option Duration }.

(** [ReportBuilder::with_interval]. *)
Definition with_interval (b : ReportBuilder) (interval : Duration) : ReportBuilder :=
  {| rb_is_rr := rb_is_rr b; rb_interval := Some interval |}.

(** [ReportBuilder::build_rr]; [now] is the value of [Instant::now]. *)
Definition build_rr (b : ReportBuilder) (now : Instant) : Interceptor :=
  ReceiverReport (default 1000000000%Z (rb_interval b)) now ∅ None.

(** [ReportBuilder::build_sr]. *)
Definition build_sr : Interceptor := SenderReport None.

(** [InterceptorBuilder::build] of [ReportBuilder]. *)
Definition builder_build (b : ReportBuilder) (now : Instant) : Interceptor :=
  if rb_is_rr b then build_rr b now else build_sr.

(** [ReceiverReport::builder] and [SenderReport::builder]. *)
Definition receiver_report_builder : ReportBuilder := {| rb_is_rr := true; rb_interval := None |}.
Definition sender_report_builder : ReportBuilder := {| rb_is_rr := false; rb_interval := None |}.

(** [Registry]: the builders in the order they were added. *)
Abbreviation Registry := (list ReportBuilder) (only parsing).

(** [Registry::add]. *)
Definition registry_add (r : Registry) (b : ReportBuilder) : Registry := r ++ [b].

(** [Registry::build]. *)
Definition registry_build (r : Registry) (now : Instant) : Interceptor :=
  foldl (λ next b, interceptor_chain (builder_build b now) next) NoOp (rev r).

(** ** What a chain forwards *)

Section forwarding.
Context `{O : RtpOps} `{HO : HashOrder}.

Lemma sr_forward_spec msg e :
  e ∈ sr_forward msg →
  ∃ ps m, tm_message msg = Ev_Rtp (Rtp_Rtcp ps) ∧ e = Inbound m ∧
    tm_now m = tm_now msg ∧ tm_transport m = tm_transport msg ∧
    tm_message m = Ev_Rtp (Rtp_Rtcp (List.filter (λ p, negb (hop_by_hop p)) ps)) ∧
    List.filter (λ p, negb (hop_by_hop p)) ps ≠ [].
Proof.
  unfold sr_forward. destruct (tm_message msg) as [| |[| |ps]]; try by intros ?%elem_of_nil.
  destruct (List.filter _ ps) as [|p l] eqn:E; [by intros ?%elem_of_nil|].
  intros ->%list_elem_of_singleton. exists ps. eexists. rewrite E. split_and!; done.
Qed.

Lemma interceptor_read_events i msg e :
  e ∈ (interceptor_read i msg).2 → e ∈ sr_forward msg.
Proof.
  induction i as [|d eto m|d eto m n IH| |n IH] using Interceptor_chain_ind; simpl;
    try destruct (interceptor_read n msg) as [n' es]; simpl in *;
    rewrite ?elem_of_nil, ?elem_of_app; tauto.
Qed.

(** What an interceptor chain lets through: every event a chain emits for
    an inbound message is an RTCP message for the next handler, with the time
    and the transport of the original; its packets are the original's without
    receiver reports and transport feedback, which concern one hop only, and
    it is never empty.  For any other message a chain emits nothing. *)
Lemma interceptor_forwards_end_to_end i msg e :
  e ∈ (interceptor_read i msg).2 →
  ∃ ps ps', tm_message msg = Ev_Rtp (Rtp_Rtcp ps) ∧
    e = Inbound {| tm_now := tm_now msg; tm_transport := tm_transport msg;
                   tm_message := Ev_Rtp (Rtp_Rtcp ps') |} ∧
    ps' ≠ [] ∧
    (∀ p, p ∈ ps' ↔ p ∈ ps ∧ rtcp_packet_type p ≠ Pt_ReceiverReport ∧
                    rtcp_packet_type p ≠ Pt_TransportSpecificFeedback).
Proof.
  intros (ps & [now t m] & Hps & -> & Hn & Ht & Hm & Hne)%interceptor_read_events%sr_forward_spec.
  simpl in *. subst. eexists ps, _. split_and!; [done..|].
  intros p. rewrite !list_elem_of_In, List.filter_In, negb_true_iff.
  unfold hop_by_hop. rewrite orb_false_iff, !bool_decide_eq_false. tauto.
Qed.

(** The chain of a registry, builder by builder. *)
Lemma registry_build_cons b r now :
  registry_build (b :: r) now = interceptor_chain (builder_build b now) (registry_build r now).
Proof. unfold registry_build. simpl. by rewrite foldl_app. Qed.

Definition sender_builders (r : list ReportBuilder) : nat :=
  length (List.filter (λ b, negb (rb_is_rr b)) r).

(** ** Reports that are never made *)

Fixpoint no_streams (i : Interceptor) : Prop :=
  match i with
  | NoOp => True
  | ReceiverReport _ _ m None => m = ∅
  | ReceiverReport _ _ m (Some n) => m = ∅ ∧ no_streams n
  | SenderReport None => True
  | SenderReport (Some n) => no_streams n
  end.

(** What the handlers do with an endpoint's interceptor. *)
Inductive interceptor_step : Interceptor → Interceptor → Prop :=
| step_read i msg : interceptor_step i (interceptor_read i msg).1
| step_write i msg : interceptor_step i (interceptor_write i msg).1
| step_timeout i now fts : interceptor_step i (interceptor_handle_timeout i now fts).1.

Lemma registry_no_streams r now : no_streams (registry_build r now).
Proof.
  induction r as [|b r IH]; [done|]. rewrite registry_build_cons.
  by destruct b as [[] iv].
Qed.

Lemma rr_observe_empty msg : rr_observe msg ∅ = ∅.
Proof.
  unfold rr_observe. destruct (tm_message msg) as [| |[|p|ps]]; try done.
  induction ps as [|p ps IH]; [done|]. simpl.
  destruct (rtcp_as_sender_report p); [rewrite lookup_empty|]; done.
Qed.

Lemma interceptor_step_no_streams i i' :
  interceptor_step i i' → no_streams i → no_streams i'.
Proof.
  intros Hstep. destruct Hstep as [i msg|i msg|i now fts];
    induction i as [|d eto m|d eto m n IH| |n IH] using Interceptor_chain_ind;
    simpl; try done;
    try (destruct (interceptor_read n msg); simpl in * );
    try (destruct (interceptor_write n msg); simpl in * );
    try (destruct (interceptor_handle_timeout n now fts); simpl in * );
    try (intros ->); try (intros [-> ?]); rewrite ?rr_observe_empty;
    try case_match; rewrite ?fmap_empty; auto.
Qed.

Lemma no_streams_no_reports i now fts :
  no_streams i → (interceptor_handle_timeout i now fts).2 = [].
Proof.
  assert (Hnil : rr_reports_of now fts ∅ = []).
  { unfold rr_reports_of, hm_values.
    assert (hm_list (∅ : gmap Z ReceiverStream) = []) as ->; [|done].
    apply Permutation_nil_r. rewrite hm_list_perm. by rewrite map_to_list_empty. }
  induction i as [|d eto m|d eto m n IH| |n IH] using Interceptor_chain_ind; simpl; try done.
  - intros ->. rewrite Hnil. by case_match.
  - intros [-> Hn]. specialize (IH Hn).
    destruct (interceptor_handle_timeout n now fts) as [n' es]; simpl in *. subst.
    rewrite Hnil. by case_match.
  - intros Hn. specialize (IH Hn).
    destruct (interceptor_handle_timeout n now fts) as [n' es]; simpl in *. by subst.
Qed.

(** No receiver report is ever sent: whatever messages and timeouts an
    interceptor built from a registry sees, a timeout emits nothing, because
    no operation registers a stream with [ReceiverReport]. *)
Lemma receiver_reports_never_sent r now0 i now fts :
  rtc interceptor_step (registry_build r now0) i →
  (interceptor_handle_timeout i now fts).2 = [].
Proof.
  intros Hrtc. apply no_streams_no_reports.
  assert (no_streams (registry_build r now0)) as Hi by apply registry_no_streams.
  induction Hrtc as [|x y z Hxy Hyz IH]; [done|].
  apply IH. eapply interceptor_step_no_streams; done.
Qed.

End forwarding.
