(* ===== verification/MediaParse.v ===== *)
(** * Reading a parsed session description (description/mod.rs)

    The functions that extract mids, directions, sources, fingerprints, codecs
    and header extensions from the sections of an SDP.  A [for] loop with an
    early [return] is a recursion on the attribute list. *)

From Stdlib Require Import ZArith Lia.
From stdpp Require Import base strings gmap list.
From S2P Require Import Prelude RustStr Enums Types Sdp.

Definition SDP_ATTRIBUTE_RID : string := "rid".
Definition MEDIA_SECTION_APPLICATION : string := "application".

Section media_parse.
Context `{O : SdpOps}.
Implicit Types (media m : MediaDescription).

(** [get_rids]. *)
Definition get_rids media : gmap string string :=
  foldl (λ rids a,
           if String.eqb (attr_key a) SDP_ATTRIBUTE_RID then
             match attr_value a with
             | Some v => <[hd EmptyString (str_split ch_space v) := v]> rids
             | None => rids
             end
           else rids) ∅ (md_attributes media).

(** [get_mid_value]: the value of the first attribute with the key, which may
    have none. *)
Definition get_mid_value media : option string :=
  (fix loop l :=
     match l with
     | [] => None
     | a :: l => if String.eqb (attr_key a) "mid" then attr_value a else loop l
     end) (md_attributes media).

(** [get_peer_direction]: the first attribute that names a direction. *)
Definition get_peer_direction media : RTCRtpTransceiverDirection :=
  (fix loop l :=
     match l with
     | [] => Dir_Unspecified
     | a :: l =>
         let direction := direction_from_str (attr_key a) in
         if bool_decide (direction ≠ Dir_Unspecified) then direction else loop l
     end) (md_attributes media).

(** [get_cname]. *)
Definition get_cname media : option string :=
  (fix loop l :=
     match l with
     | [] => None
     | a :: l =>
         if String.eqb (attr_key a) "ssrc" then
           match attr_value a with
           | Some v => if str_contains "cname" v then last (str_split ch_colon v) else loop l
           | None => loop l
           end
         else loop l
     end) (md_attributes media).

(** Two words, a stream and a track. *)
Definition msid_of_fields (fields : list string) : option MediaStreamId :=
  match fields with
  | [s; t] => Some {| msi_stream_id := s; msi_track_id := t |}
  | _ => None
  end.

(** What one attribute contributes to [get_msid]. *)
Definition msid_of_attribute (a : Attribute) : option MediaStreamId :=
  if String.eqb (attr_key a) "msid" then
    attr_value a ≫= λ v, msid_of_fields (split_whitespace v)
  else if String.eqb (attr_key a) "ssrc" then
    attr_value a ≫= λ v,
      if str_contains "msid" v then
        last (str_split ch_colon v) ≫= λ msid, msid_of_fields (split_whitespace msid)
      else None
  else None.

(** [get_msid]. *)
Definition get_msid media : option MediaStreamId :=
  (fix loop l :=
     match l with
     | [] => None
     | a :: l => match msid_of_attribute a with Some x => Some x | None => loop l end
     end) (md_attributes media).

(** [get_ssrc_groups]: a group with at least two sources. *)
Definition get_ssrc_groups media : outcome (list SsrcGroup) :=
  foldO (λ groups a,
           if String.eqb (attr_key a) "ssrc-group" then
             match attr_value a with
             | Some v =>
                 match split_whitespace v with
                 | name :: ((_ :: _ :: _) as fields) =>
                     ssrcs ← mapO parse_u32 fields;
                     Ok (groups ++ [{| sg_name := name; sg_ssrcs := ssrcs |}])
                 | _ => Ok groups
                 end
             | None => Ok groups
             end
           else Ok groups) [] (md_attributes media).

(** [get_ssrcs]: the sources in order of appearance, each once. *)
Definition get_ssrcs media : outcome (list SSRC) :=
  foldO (λ ssrcs a,
           if String.eqb (attr_key a) "ssrc" then
             match attr_value a with
             | Some v =>
                 match split_whitespace v with
                 | field :: _ =>
                     ssrc ← parse_u32 field;
                     Ok (if existsb (Z.eqb ssrc) ssrcs then ssrcs else ssrcs ++ [ssrc])
                 | [] => Ok ssrcs
                 end
             | None => Ok ssrcs
             end
           else Ok ssrcs) [] (md_attributes media).

(** [extract_fingerprint]: the hash and the algorithm all sections agree on. *)
Definition extract_fingerprint (desc : SessionDescription) : outcome (string * string) :=
  let session := match sd_attribute desc "fingerprint" with Some f => [f] | None => [] end in
  let fingerprints :=
    session ++ omap (λ m, mjoin (md_attribute m "fingerprint")) (media_descriptions desc) in
  match fingerprints with
  | [] => Err (ErrOther "ErrSessionDescriptionNoFingerprint")
  | f0 :: rest =>
      if negb (forallb (String.eqb f0) rest)
      then Err (ErrOther "ErrSessionDescriptionConflictingFingerprints")
      else match str_split ch_space f0 with
           | [p0; p1] => Ok (p1, p0)
           | _ => Err (ErrOther "ErrSessionDescriptionInvalidFingerprint")
           end
  end.

(** [have_application_media_section]. *)
Definition have_application_media_section (desc : SessionDescription) : bool :=
  existsb (λ m, String.eqb (mn_media (md_media_name m)) MEDIA_SECTION_APPLICATION)
          (media_descriptions desc).

(** [get_by_mid]. *)
Definition get_by_mid (search_mid : string) (desc : RTCSessionDescription)
  : option MediaDescription :=
  match parsed desc with
  | Some p =>
      (fix loop l :=
         match l with
         | [] => None
         | m :: l =>
             match mjoin (md_attribute m ATTR_KEY_MID) with
             | Some mid => if String.eqb mid search_mid then Some m else loop l
             | None => loop l
             end
         end) (media_descriptions p)
  | None => None
  end.

(** [have_data_channel]. *)
Definition have_data_channel (desc : RTCSessionDescription) : option MediaDescription :=
  match parsed desc with
  | Some p =>
      snd <$> list_find (λ m, mn_media (md_media_name m) = MEDIA_SECTION_APPLICATION)
                        (media_descriptions p)
  | None => None
  end.

(** One line of RTCP feedback. *)
Definition feedback_of_raw (raw : string) : RTCPFeedback :=
  match str_split ch_space raw with
  | [t; p] => {| fb_typ := t; fb_parameter := p |}
  | t :: _ => {| fb_typ := t; fb_parameter := "" |}
  | [] => {| fb_typ := ""; fb_parameter := "" |}
  end.

Definition codec_of_sdp (m : MediaDescription) (payload_type : Z) (codec : SdpCodec)
  : RTCRtpCodecParameters :=
  {| capability :=
       {| mime_type := mn_media (md_media_name m) +:+ "/" +:+ sc_name codec;
          clock_rate := sc_clock_rate codec;
          channels := match parse_u16 (sc_encoding_parameters codec) with
                      | Ok c => c
                      | _ => 0
                      end%Z;
          sdp_fmtp_line := sc_fmtp codec;
          rtcp_feedbacks := map feedback_of_raw (sc_rtcp_feedback codec) |};
     payload_type := payload_type; stats_id := 0 |}.

(** [codecs_from_media_description]; payload type 0 without a codec is
    skipped, any other one is an error. *)
Definition codecs_from_media_description m : outcome (list RTCRtpCodecParameters) :=
  let s := {| sd_origin := sd_origin sd_default; sd_attributes := sd_attributes sd_default;
              media_descriptions := [m]; sd_rest := sd_rest sd_default |} in
  foldO (λ out payload_str,
           payload_type ← parse_u8 payload_str;
           match sd_get_codec_for_payload_type s payload_type with
           | inl codec => Ok (out ++ [codec_of_sdp m payload_type codec])
           | inr err => if (payload_type =? 0)%Z then Ok out else Err (ErrOther err)
           end) [] (mn_formats (md_media_name m)).

(** [rtp_extensions_from_media_description]. *)
Definition rtp_extensions_from_media_description m
  : outcome (list RTCRtpHeaderExtensionParameters) :=
  foldO (λ out a,
           if String.eqb (attr_key a) ATTR_KEY_EXT_MAP then
             match extmap_of_attribute a with
             | inl (id, Some uri) => Ok (out ++ [{| hep_uri := uri; hep_id := id |}])
             | inl (_, None) => Ok out
             | inr err => Err (ErrOther err)
             end
           else Ok out) [] (md_attributes m).

(** [update_sdp_origin]: both arguments are [&mut]. *)
Definition update_sdp_origin (origin : Origin) (d : SessionDescription)
  : Origin * SessionDescription :=
  if (origin_session_version origin =? 0)%Z then
    ({| origin_session_id := origin_session_id (sd_origin d);
        origin_session_version := origin_session_version (sd_origin d);
        origin_rest := origin_rest origin |}, d)
  else
    ({| origin_session_id := origin_session_id origin;
        origin_session_version := as_u64 (origin_session_version origin + 1);
        origin_rest := origin_rest origin |},
     {| sd_origin :=
          {| origin_session_id := origin_session_id origin;
             origin_session_version := as_u64 (origin_session_version (sd_origin d) + 1);
             origin_rest := origin_rest (sd_origin d) |};
        sd_attributes := sd_attributes d; media_descriptions := media_descriptions d;
        sd_rest := sd_rest d |}).

(** [RTCSessionDescription::unmarshal]. *)
Definition desc_unmarshal (self : RTCSessionDescription) : outcome SessionDescription :=
  match sd_unmarshal (sdp self) with
  | inl parsed => Ok parsed
  | inr err => Err (ErrOther err)
  end.

(** The constructors [RTCSessionDescription::{answer, offer, pranswer}]. *)
Definition desc_of_type (t : RTCSdpType) (s : string) : outcome RTCSessionDescription :=
  let desc := {| sdp_type := t; sdp := s; parsed := None |} in
  parsed ← desc_unmarshal desc;
  Ok {| sdp_type := t; sdp := s; parsed := Some parsed |}.
Definition desc_answer : string → outcome RTCSessionDescription := desc_of_type Answer.
Definition desc_offer : string → outcome RTCSessionDescription := desc_of_type Offer.
Definition desc_pranswer : string → outcome RTCSessionDescription := desc_of_type Pranswer.

(** ** Lemmas *)

(** A section whose attributes before the mid carry no mid. *)
Lemma get_mid_value_app l1 v l2 m :
  md_attributes m = l1 ++ {| attr_key := "mid"; attr_value := Some v |} :: l2 →
  Forall (λ a, attr_key a ≠ "mid") l1 →
  get_mid_value m = Some v.
Proof.
  unfold get_mid_value. intros -> Hl. induction Hl as [|a l1 Ha _ IH]; [done|].
  simpl. destruct (String.eqb_spec (attr_key a) "mid"); done.
Qed.

(** A section whose attributes before the direction name none. *)
Lemma get_peer_direction_app l1 d v l2 m :
  md_attributes m = l1 ++ {| attr_key := direction_to_string d; attr_value := v |} :: l2 →
  Forall (λ a, direction_from_str (attr_key a) = Dir_Unspecified) l1 →
  d ≠ Dir_Unspecified →
  get_peer_direction m = d.
Proof.
  unfold get_peer_direction. intros -> Hl Hd. induction Hl as [|a l1 Ha _ IH].
  - simpl. rewrite direction_round_trip, bool_decide_eq_true_2; done.
  - simpl. rewrite Ha, bool_decide_eq_false_2; [done|]. by intros ?.
Qed.

Lemma existsb_eqb x (l : list Z) : existsb (Z.eqb x) l = true ↔ x ∈ l.
Proof.
  rewrite existsb_exists, list_elem_of_In. split.
  - intros (y & Hy & ->%Z.eqb_eq). done.
  - intros Hx. exists x. by rewrite Z.eqb_refl.
Qed.

(** The sources of a section are distinct 32-bit numbers. *)
Lemma get_ssrcs_NoDup media l :
  get_ssrcs media = Ok l → NoDup l ∧ Forall (λ x, (x ≤ u32_max)%Z) l.
Proof.
  unfold get_ssrcs.
  apply (foldO_inv (λ l, NoDup l ∧ Forall (λ x, (x ≤ u32_max)%Z) l)).
  - intros a l0 l1 _ [Hnd Hr] Hok. repeat case_match; outcome_inv; try done.
    apply bind_ok_inv in Hok as (x & Hx%parse_uint_range & Hok). outcome_inv.
    case_match eqn:He; [done|]. split.
    + apply NoDup_app. split_and!; [done| |apply NoDup_singleton].
      intros y Hy ->%list_elem_of_singleton.
      apply existsb_eqb in Hy. congruence.
    + apply Forall_app. split; [done|]. by repeat constructor.
  - split; [constructor|done].
Qed.

End media_parse.
