(* ===== verification/MediaConfig.v ===== *)
(** * The media configuration (configs/media_config.rs)

    The codecs and header extensions the server supports, what a remote
    description negotiates of them, and the parameters offered in an SDP. *)

From Stdlib Require Import ZArith Lia.
From stdpp Require Import base numbers strings gmap list.
From S2P Require Import Prelude RustStr Enums Types Sdp Codec ReceiverStream.
From S2P Require Import Interceptors MediaParse.

(** The half-open range [VALID_EXT_IDS]. *)
Definition VALID_EXT_IDS_start : Z := 1.
Definition VALID_EXT_IDS_end : Z := 15.

Record RTCRtpHeaderExtension := {
  he_uri : string;
  he_is_audio : bool;
  he_is_video : bool;
  he_allowed_direction : option RTCRtpTransceiverDirection
}.

(** [RTCRtpHeaderExtension::is_matching_direction]. *)
Definition is_matching_direction (e : RTCRtpHeaderExtension)
    (dir : RTCRtpTransceiverDirection) : bool :=
  match he_allowed_direction e with
  | Some allowed =>
      bool_decide (allowed = Inactive) && bool_decide (dir = Inactive)
      || has_send allowed && has_send dir
      || has_recv allowed && has_recv dir
  | None => true
  end.

Record MediaConfig := {
  mc_registry : list ReportBuilder;
  mc_negotiated_video : bool;
  mc_negotiated_audio : bool;
  mc_video_codecs : list RTCRtpCodecParameters;
  mc_audio_codecs : list RTCRtpCodecParameters;
  mc_negotiated_video_codecs : list RTCRtpCodecParameters;
  mc_negotiated_audio_codecs : list RTCRtpCodecParameters;
  mc_header_extensions : list RTCRtpHeaderExtension;
  mc_proposed_header_extensions : gmap Z RTCRtpHeaderExtension;
  mc_negotiated_header_extensions : gmap Z RTCRtpHeaderExtension
}.

(** *** Assignments to fields *)

Definition mc_with_registry (c : MediaConfig) (r : list ReportBuilder) : MediaConfig :=
  {| mc_registry := r; mc_negotiated_video := mc_negotiated_video c;
     mc_negotiated_audio := mc_negotiated_audio c; mc_video_codecs := mc_video_codecs c;
     mc_audio_codecs := mc_audio_codecs c;
     mc_negotiated_video_codecs := mc_negotiated_video_codecs c;
     mc_negotiated_audio_codecs := mc_negotiated_audio_codecs c;
     mc_header_extensions := mc_header_extensions c;
     mc_proposed_header_extensions := mc_proposed_header_extensions c;
     mc_negotiated_header_extensions := mc_negotiated_header_extensions c |}.

Definition mc_with_codecs (c : MediaConfig) (video audio : list RTCRtpCodecParameters)
  : MediaConfig :=
  {| mc_registry := mc_registry c; mc_negotiated_video := mc_negotiated_video c;
     mc_negotiated_audio := mc_negotiated_audio c; mc_video_codecs := video;
     mc_audio_codecs := audio;
     mc_negotiated_video_codecs := mc_negotiated_video_codecs c;
     mc_negotiated_audio_codecs := mc_negotiated_audio_codecs c;
     mc_header_extensions := mc_header_extensions c;
     mc_proposed_header_extensions := mc_proposed_header_extensions c;
     mc_negotiated_header_extensions := mc_negotiated_header_extensions c |}.

Definition mc_with_negotiated (c : MediaConfig) (nv na : bool)
    (video audio : list RTCRtpCodecParameters) : MediaConfig :=
  {| mc_registry := mc_registry c; mc_negotiated_video := nv;
     mc_negotiated_audio := na; mc_video_codecs := mc_video_codecs c;
     mc_audio_codecs := mc_audio_codecs c;
     mc_negotiated_video_codecs := video; mc_negotiated_audio_codecs := audio;
     mc_header_extensions := mc_header_extensions c;
     mc_proposed_header_extensions := mc_proposed_header_extensions c;
     mc_negotiated_header_extensions := mc_negotiated_header_extensions c |}.

Definition mc_with_extensions (c : MediaConfig) (local : list RTCRtpHeaderExtension)
    (proposed negotiated : gmap Z RTCRtpHeaderExtension) : MediaConfig :=
  {| mc_registry := mc_registry c; mc_negotiated_video := mc_negotiated_video c;
     mc_negotiated_audio := mc_negotiated_audio c; mc_video_codecs := mc_video_codecs c;
     mc_audio_codecs := mc_audio_codecs c;
     mc_negotiated_video_codecs := mc_negotiated_video_codecs c;
     mc_negotiated_audio_codecs := mc_negotiated_audio_codecs c;
     mc_header_extensions := local; mc_proposed_header_extensions := proposed;
     mc_negotiated_header_extensions := negotiated |}.

(** ** Codecs *)

(** [add_codec]: a codec with the same MIME type and payload type as one in the
    list is dropped. *)
Definition same_codec (c d : RTCRtpCodecParameters) : bool :=
  String.eqb (mime_type (capability c)) (mime_type (capability d)) &&
  Z.eqb (payload_type c) (payload_type d).

Definition add_codec (codecs : list RTCRtpCodecParameters) (codec : RTCRtpCodecParameters)
  : list RTCRtpCodecParameters :=
  if existsb (λ c, same_codec c codec) codecs then codecs else codecs ++ [codec].

(** [register_codec]. *)
Definition register_codec (codec : RTCRtpCodecParameters) (typ : RTPCodecType)
  : M MediaConfig () := λ c,
  match typ with
  | Audio => (mc_with_codecs c (mc_video_codecs c) (add_codec (mc_audio_codecs c) codec), Ok ())
  | Video => (mc_with_codecs c (add_codec (mc_video_codecs c) codec) (mc_audio_codecs c), Ok ())
  | Codec_Unspecified => (c, Err (ErrOther "ErrUnknownType"))
  end.

Definition mk_codec (mime : string) (rate ch : Z) (fmtp : string) (pt : Z)
  : RTCRtpCodecParameters :=
  {| capability := {| mime_type := mime; clock_rate := rate; channels := ch;
                      sdp_fmtp_line := fmtp; rtcp_feedbacks := [] |};
     payload_type := pt; stats_id := 0 |}.

(** The audio codecs [register_default_codecs] registers. *)
Definition default_audio_codecs : list RTCRtpCodecParameters :=
  [mk_codec MIME_TYPE_OPUS 48000 2 "minptime=10;useinbandfec=1" 111;
   mk_codec MIME_TYPE_G722 8000 0 "" 9;
   mk_codec MIME_TYPE_PCMU 8000 0 "" 0;
   mk_codec MIME_TYPE_PCMA 8000 0 "" 8].

(** The video codecs, with an empty feedback list. *)
Definition default_video_codecs : list RTCRtpCodecParameters :=
  [mk_codec MIME_TYPE_VP8 90000 0 "" 96;
   mk_codec MIME_TYPE_VP9 90000 0 "profile-id=0" 98;
   mk_codec MIME_TYPE_VP9 90000 0 "profile-id=1" 100;
   mk_codec MIME_TYPE_H264 90000 0
     "level-asymmetry-allowed=1;packetization-mode=1;profile-level-id=42001f" 102;
   mk_codec MIME_TYPE_H264 90000 0
     "level-asymmetry-allowed=1;packetization-mode=0;profile-level-id=42001f" 127;
   mk_codec MIME_TYPE_H264 90000 0
     "level-asymmetry-allowed=1;packetization-mode=1;profile-level-id=42e01f" 125;
   mk_codec MIME_TYPE_H264 90000 0
     "level-asymmetry-allowed=1;packetization-mode=0;profile-level-id=42e01f" 108;
   mk_codec MIME_TYPE_H264 90000 0
     "level-asymmetry-allowed=1;packetization-mode=0;profile-level-id=42001f" 127;
   mk_codec MIME_TYPE_H264 90000 0
     "level-asymmetry-allowed=1;packetization-mode=1;profile-level-id=640032" 123;
   mk_codec MIME_TYPE_AV1 90000 0 "profile-id=0" 41;
   mk_codec "video/ulpfec" 90000 0 "" 116].

(** [register_default_codecs]. *)
Definition register_default_codecs : M MediaConfig () :=
  _ ← forM default_audio_codecs (λ codec, register_codec codec Audio);
  forM default_video_codecs (λ codec, register_codec codec Video).

(** [configure_rtcp_reports] and [register_default_interceptors]. *)
Definition configure_rtcp_reports (c : MediaConfig) : MediaConfig :=
  mc_with_registry c
    (registry_add (registry_add (mc_registry c) sender_report_builder) receiver_report_builder).
Definition register_default_interceptors : M MediaConfig () := λ c,
  (configure_rtcp_reports c, Ok ()).

Definition media_config_empty : MediaConfig :=
  {| mc_registry := []; mc_negotiated_video := false; mc_negotiated_audio := false;
     mc_video_codecs := []; mc_audio_codecs := []; mc_negotiated_video_codecs := [];
     mc_negotiated_audio_codecs := []; mc_header_extensions := [];
     mc_proposed_header_extensions := ∅; mc_negotiated_header_extensions := ∅ |}.

(** [impl Default for MediaConfig]; the two results are discarded. *)
Definition media_config_default : MediaConfig :=
  (register_default_interceptors (register_default_codecs media_config_empty).1).1.

(** [clone_to]: the user's codecs and extensions, everything else default. *)
Definition clone_to (c : MediaConfig) : MediaConfig :=
  mc_with_extensions
    (mc_with_codecs media_config_default (mc_video_codecs c) (mc_audio_codecs c))
    (mc_header_extensions c)
    (mc_proposed_header_extensions media_config_default)
    (mc_negotiated_header_extensions media_config_default).

(** [register_rtcp_feedback]. *)
Definition add_feedback (fb : RTCPFeedback) (c : RTCRtpCodecParameters) : RTCRtpCodecParameters :=
  let k := capability c in
  {| capability := {| mime_type := mime_type k; clock_rate := clock_rate k;
                      channels := channels k; sdp_fmtp_line := sdp_fmtp_line k;
                      rtcp_feedbacks := rtcp_feedbacks k ++ [fb] |};
     payload_type := payload_type c; stats_id := stats_id c |}.
Definition register_rtcp_feedback (c : MediaConfig) (fb : RTCPFeedback) (typ : RTPCodecType)
  : MediaConfig :=
  match typ with
  | Video => mc_with_codecs c (map (add_feedback fb) (mc_video_codecs c)) (mc_audio_codecs c)
  | Audio => mc_with_codecs c (mc_video_codecs c) (map (add_feedback fb) (mc_audio_codecs c))
  | Codec_Unspecified => c
  end.

(** [get_codec_by_payload]. *)
Definition get_codec_by_payload (c : MediaConfig) (pt : Z)
  : outcome (RTCRtpCodecParameters * RTPCodecType) :=
  match first_such (λ k, Z.eqb (payload_type k) pt) (mc_negotiated_video_codecs c) with
  | Some k => Ok (k, Video)
  | None =>
      match first_such (λ k, Z.eqb (payload_type k) pt) (mc_negotiated_audio_codecs c) with
      | Some k => Ok (k, Audio)
      | None => Err (ErrOther "ErrCodecNotFound")
      end
  end.

(** [get_codecs_by_kind]. *)
Definition get_codecs_by_kind (c : MediaConfig) (typ : RTPCodecType)
  : list RTCRtpCodecParameters :=
  match typ with
  | Video => if mc_negotiated_video c then mc_negotiated_video_codecs c else mc_video_codecs c
  | Audio => if mc_negotiated_audio c then mc_negotiated_audio_codecs c else mc_audio_codecs c
  | Codec_Unspecified => []
  end.

(** [push_codecs]. *)
Definition push_codecs (c : MediaConfig) (codecs : list RTCRtpCodecParameters)
    (typ : RTPCodecType) : MediaConfig :=
  match typ with
  | Audio => mc_with_negotiated c (mc_negotiated_video c) (mc_negotiated_audio c)
               (mc_negotiated_video_codecs c)
               (foldl add_codec (mc_negotiated_audio_codecs c) codecs)
  | Video => mc_with_negotiated c (mc_negotiated_video c) (mc_negotiated_audio c)
               (foldl add_codec (mc_negotiated_video_codecs c) codecs)
               (mc_negotiated_audio_codecs c)
  | Codec_Unspecified => c
  end.

(** ** Header extensions *)

(** The update [register_header_extension] makes to the extension it found or
    pushed. *)
Definition mark_extension (uri : string) (typ : RTPCodecType) (e : RTCRtpHeaderExtension)
  : RTCRtpHeaderExtension :=
  {| he_uri := uri;
     he_is_audio := he_is_audio e || bool_decide (typ = Audio);
     he_is_video := he_is_video e || bool_decide (typ = Video);
     he_allowed_direction := he_allowed_direction e |}.

(** [register_header_extension].  The update stays when the direction check
    at the end fails. *)
Definition register_header_extension (uri : string) (typ : RTPCodecType)
    (allowed : option RTCRtpTransceiverDirection) : M MediaConfig () := λ c,
  let exts := mc_header_extensions c in
  let store exts := mc_with_extensions c exts (mc_proposed_header_extensions c)
                      (mc_negotiated_header_extensions c) in
  match list_find (λ e, he_uri e = uri) exts with
  | Some (i, e) =>
      (store (<[i := mark_extension uri typ e]> exts),
       if bool_decide (he_allowed_direction e ≠ allowed)
       then Err (ErrOther "ErrRegisterHeaderExtensionInvalidDirection") else Ok ())
  | None =>
      if (VALID_EXT_IDS_end <? Z.of_nat (length exts))%Z
      then (c, Err (ErrOther "ErrRegisterHeaderExtensionNoFreeID"))
      else
        let e := {| he_uri := ""; he_is_audio := false; he_is_video := false;
                    he_allowed_direction := allowed |} in
        (store (exts ++ [mark_extension uri typ e]), Ok ())
  end.

(** [configure_nack]. *)
Definition configure_nack (c : MediaConfig) : MediaConfig :=
  let c := register_rtcp_feedback c {| fb_typ := "nack"; fb_parameter := "" |} Video in
  register_rtcp_feedback c {| fb_typ := "nack"; fb_parameter := "pli" |} Video.

Definition TYPE_RTCP_FB_TRANSPORT_CC : string := "transport-cc".

Section extensions.
Context `{O : SdpOps} `{HX : HexOps} `{HO : HashOrder}.

(** [configure_twcc]. *)
Definition configure_twcc : M MediaConfig () :=
  let fb := {| fb_typ := TYPE_RTCP_FB_TRANSPORT_CC; fb_parameter := "" |} in
  _ ← modifyS (λ c, register_rtcp_feedback c fb Video);
  _ ← register_header_extension TRANSPORT_CC_URI Video None;
  _ ← modifyS (λ c, register_rtcp_feedback c fb Audio);
  register_header_extension TRANSPORT_CC_URI Audio None.

(** [configure_twcc_sender_only]. *)
Definition configure_twcc_sender_only : M MediaConfig () :=
  _ ← register_header_extension TRANSPORT_CC_URI Video None;
  register_header_extension TRANSPORT_CC_URI Audio None.

(** [configure_twcc_receiver_only] makes the calls of [configure_twcc]. *)
Definition configure_twcc_receiver_only : M MediaConfig () :=
  let fb := {| fb_typ := TYPE_RTCP_FB_TRANSPORT_CC; fb_parameter := "" |} in
  _ ← modifyS (λ c, register_rtcp_feedback c fb Video);
  _ ← register_header_extension TRANSPORT_CC_URI Video None;
  _ ← modifyS (λ c, register_rtcp_feedback c fb Audio);
  register_header_extension TRANSPORT_CC_URI Audio None.

(** [map.iter().find(|(_, ext)| ext.uri == uri)]. *)
Definition find_uri (uri : string) (m : gmap Z RTCRtpHeaderExtension)
  : option (Z * RTCRtpHeaderExtension) :=
  first_such (λ p, String.eqb (he_uri p.2) uri) (hm_list m).

(** [get_header_extension_id]. *)
Definition get_header_extension_id (c : MediaConfig) (uri : string) : Z * bool * bool :=
  match find_uri uri (mc_negotiated_header_extensions c) with
  | Some (id, h) => (id, he_is_audio h, he_is_video h)
  | None => (0%Z, false, false)
  end.

(** The body of the loop of [update_header_extension] for a local extension
    with the URI: the proposed and the negotiated extensions it leaves. *)
Definition negotiate_extension (id : Z) (uri : string) (typ : RTPCodecType)
    (local : RTCRtpHeaderExtension) (proposed negotiated : gmap Z RTCRtpHeaderExtension)
  : gmap Z RTCRtpHeaderExtension * gmap Z RTCRtpHeaderExtension :=
  let negotiated' :=
    match find_uri uri negotiated with
    | Some (nid, n_ext) =>
        if (nid =? id)%Z then
          <[nid := {| he_uri := he_uri n_ext;
                      he_is_audio := he_is_audio n_ext || bool_decide (typ = Audio);
                      he_is_video := he_is_video n_ext || bool_decide (typ = Video);
                      he_allowed_direction := he_allowed_direction n_ext |}]> negotiated
        else negotiated
    | None =>
        match negotiated !! id with
        | Some _ => negotiated
        | None =>
            <[id := {| he_uri := uri;
                       he_is_audio := he_is_audio local && bool_decide (typ = Audio);
                       he_is_video := he_is_video local && bool_decide (typ = Video);
                       he_allowed_direction := he_allowed_direction local |}]> negotiated
        end
    end in
  (delete id proposed, negotiated').

(** [update_header_extension]. *)
Definition update_header_extension (c : MediaConfig) (id : Z) (uri : string)
    (typ : RTPCodecType) : MediaConfig :=
  let '(proposed, negotiated) :=
    foldl (λ pn local,
             if String.eqb (he_uri local) uri
             then negotiate_extension id uri typ local pn.1 pn.2 else pn)
          (mc_proposed_header_extensions c, mc_negotiated_header_extensions c)
          (mc_header_extensions c) in
  mc_with_extensions c (mc_header_extensions c) proposed negotiated.

(** ** Matching a remote description *)

(** The search for the codec an [apt] parameter refers to. *)
Definition apt_match_of (payload_type_ : Z)
    (exact_matches partial_matches : list RTCRtpCodecParameters) : CodecMatch :=
  if existsb (λ k, Z.eqb (payload_type k) payload_type_) exact_matches then Match_Exact
  else if existsb (λ k, Z.eqb (payload_type k) payload_type_) partial_matches
       then Match_Partial else Match_None.

(** [match_remote_codec]. *)
Definition match_remote_codec (c : MediaConfig) (remote_codec : RTCRtpCodecParameters)
    (typ : RTPCodecType) (exact_matches partial_matches : list RTCRtpCodecParameters)
  : outcome CodecMatch :=
  let codecs := if bool_decide (typ = Audio) then mc_audio_codecs c else mc_video_codecs c in
  match fmtp_parameter (fmtp_of remote_codec) "apt" with
  | Some apt =>
      pt ← parse_u8 apt;
      match apt_match_of pt exact_matches partial_matches with
      | Match_None => Ok Match_None
      | apt_match =>
          let match_type := (codec_parameters_fuzzy_search remote_codec codecs).2 in
          Ok (if bool_decide (match_type = Match_Exact) && bool_decide (apt_match = Match_Partial)
              then Match_Partial else match_type)
      end
  | None => Ok (codec_parameters_fuzzy_search remote_codec codecs).2
  end.

(** The codec loop of [update_from_remote_description]. *)
Definition collect_matches (c : MediaConfig) (typ : RTPCodecType)
    (codecs : list RTCRtpCodecParameters)
  : outcome (list RTCRtpCodecParameters * list RTCRtpCodecParameters) :=
  foldO (λ acc codec,
           match_type ← match_remote_codec c codec typ acc.1 acc.2;
           Ok (match match_type with
               | Match_Exact => (acc.1 ++ [codec], acc.2)
               | Match_Partial => (acc.1, acc.2 ++ [codec])
               | Match_None => acc
               end)) ([], []) codecs.

(** The kind of a media section that is still to be negotiated. *)
Definition section_kind (c : MediaConfig) (media : MediaDescription) : option RTPCodecType :=
  let name := to_lowercase (mn_media (md_media_name media)) in
  if negb (mc_negotiated_audio c) && String.eqb name "audio" then Some Audio
  else if negb (mc_negotiated_video c) && String.eqb name "video" then Some Video
  else None.

Definition mark_negotiated (c : MediaConfig) (typ : RTPCodecType) : MediaConfig :=
  mc_with_negotiated c (mc_negotiated_video c || bool_decide (typ = Video))
    (mc_negotiated_audio c || bool_decide (typ = Audio))
    (mc_negotiated_video_codecs c) (mc_negotiated_audio_codecs c).

(** One round of [update_from_remote_description]. *)
Definition update_from_media (media : MediaDescription) : M MediaConfig () := λ c,
  match section_kind c media with
  | None => (c, Ok ())
  | Some typ =>
      let c := mark_negotiated c typ in
      match (codecs ← codecs_from_media_description media; collect_matches c typ codecs) with
      | Ok (exact, partial) =>
          match (match exact, partial with [], [] => None | [], _ => Some partial | _, _ => Some exact end) with
          | None => (c, Ok ())
          | Some chosen =>
              let c := push_codecs c chosen typ in
              match rtp_extensions_from_media_description media with
              | Ok exts =>
                  (foldl (λ c e, update_header_extension c (hep_id e) (hep_uri e) typ) c exts, Ok ())
              | Err e => (c, Err e)
              | Panic => (c, Panic)
              end
          end
      | Err e => (c, Err e)
      | Panic => (c, Panic)
      end
  end.

(** [update_from_remote_description]. *)
Definition update_from_remote_description (desc : SessionDescription) : M MediaConfig () :=
  forM (media_descriptions desc) update_from_media.

(** ** Parameters for an SDP *)

Definition relevant_extension (e : RTCRtpHeaderExtension) (typ : RTPCodecType)
    (direction : RTCRtpTransceiverDirection) : bool :=
  is_matching_direction e direction
  && (he_is_audio e && bool_decide (typ = Audio) || he_is_video e && bool_decide (typ = Video)).

(** The first identifier of the valid range that neither map uses. *)
Definition free_ext_id (proposed negotiated : gmap Z RTCRtpHeaderExtension) : option Z :=
  first_such (λ id, negb (bool_decide (is_Some (negotiated !! id)))
                    && negb (bool_decide (is_Some (proposed !! id))))
             (seqZ VALID_EXT_IDS_start (VALID_EXT_IDS_end - VALID_EXT_IDS_start)).

(** The parameters of the negotiated extensions, in the map's order. *)
Definition negotiated_parameters (c : MediaConfig) (typ : RTPCodecType)
    (direction : RTCRtpTransceiverDirection) : list RTCRtpHeaderExtensionParameters :=
  map (λ p, {| hep_uri := he_uri p.2; hep_id := p.1 |})
      (List.filter (λ p, relevant_extension p.2 typ direction)
                   (hm_list (mc_negotiated_header_extensions c))).

Definition kind_negotiated (c : MediaConfig) (typ : RTPCodecType) : bool :=
  mc_negotiated_video c && bool_decide (typ = Video)
  || mc_negotiated_audio c && bool_decide (typ = Audio).

(** One local extension in [get_rtp_parameters_by_kind]: an identifier already
    negotiated or proposed, or a free one. *)
Definition extension_parameter (proposed negotiated : gmap Z RTCRtpHeaderExtension)
    (e : RTCRtpHeaderExtension) : option RTCRtpHeaderExtensionParameters :=
  match find_uri (he_uri e) negotiated with
  | Some (id, n) => Some {| hep_uri := he_uri n; hep_id := id |}
  | None =>
      match find_uri (he_uri e) proposed with
      | Some (id, n) => Some {| hep_uri := he_uri n; hep_id := id |}
      | None =>
          match free_ext_id proposed negotiated with
          | Some id => Some {| hep_uri := he_uri e; hep_id := id |}
          | None => None
          end
      end
  end.

(** [get_rtp_parameters_by_kind]: [&self], so no proposal is recorded. *)
Definition get_rtp_parameters_by_kind (c : MediaConfig) (typ : RTPCodecType)
    (direction : RTCRtpTransceiverDirection) : RTCRtpParameters :=
  {| rp_header_extensions :=
       if kind_negotiated c typ then negotiated_parameters c typ direction
       else omap (extension_parameter (mc_proposed_header_extensions c)
                    (mc_negotiated_header_extensions c))
              (List.filter (λ e, relevant_extension e typ direction) (mc_header_extensions c));
     rp_codecs := get_codecs_by_kind c typ |}.

(** One local extension in [get_mut_rtp_parameters_by_kind], which records a
    new proposal and marks a negotiated extension active for the kind. *)
Definition propose_extension (typ : RTPCodecType)
    (st : gmap Z RTCRtpHeaderExtension * gmap Z RTCRtpHeaderExtension *
          list RTCRtpHeaderExtensionParameters)
    (e : RTCRtpHeaderExtension) :=
  let '(proposed, negotiated, out) := st in
  match find_uri (he_uri e) negotiated with
  | Some (id, n) =>
      (proposed,
       <[id := {| he_uri := he_uri n;
                  he_is_audio := he_is_audio n || bool_decide (typ = Audio);
                  he_is_video := he_is_video n || bool_decide (typ = Video);
                  he_allowed_direction := he_allowed_direction n |}]> negotiated,
       out ++ [{| hep_uri := he_uri n; hep_id := id |}])
  | None =>
      match find_uri (he_uri e) proposed with
      | Some (id, n) => (proposed, negotiated, out ++ [{| hep_uri := he_uri n; hep_id := id |}])
      | None =>
          match free_ext_id proposed negotiated with
          | Some id =>
              (<[id := e]> proposed, negotiated,
               out ++ [{| hep_uri := he_uri e; hep_id := id |}])
          | None => st
          end
      end
  end.

(** [get_mut_rtp_parameters_by_kind]. *)
Definition get_mut_rtp_parameters_by_kind (c : MediaConfig) (typ : RTPCodecType)
    (direction : RTCRtpTransceiverDirection) : MediaConfig * RTCRtpParameters :=
  if kind_negotiated c typ then
    (c, {| rp_header_extensions := negotiated_parameters c typ direction;
           rp_codecs := get_codecs_by_kind c typ |})
  else
    let '(proposed, negotiated, out) :=
      foldl (propose_extension typ)
        (mc_proposed_header_extensions c, mc_negotiated_header_extensions c, [])
        (List.filter (λ e, relevant_extension e typ direction) (mc_header_extensions c)) in
    (mc_with_extensions c (mc_header_extensions c) proposed negotiated,
     {| rp_header_extensions := out; rp_codecs := get_codecs_by_kind c typ |}).

(** [get_rtp_parameters_by_payload_type]. *)
Definition get_rtp_parameters_by_payload_type (c : MediaConfig) (pt : Z)
  : outcome RTCRtpParameters :=
  '(codec, typ) ← get_codec_by_payload c pt;
  Ok {| rp_header_extensions :=
          map (λ p, {| hep_uri := he_uri p.2; hep_id := p.1 |})
            (List.filter (λ p, he_is_audio p.2 && bool_decide (typ = Audio)
                               || he_is_video p.2 && bool_decide (typ = Video))
                         (hm_list (mc_negotiated_header_extensions c)));
        rp_codecs := [codec] |}.

End extensions.

(** ** Distinct codecs *)

Definition codec_key (c : RTCRtpCodecParameters) : string * Z :=
  (mime_type (capability c), payload_type c).

Definition codecs_distinct (l : list RTCRtpCodecParameters) : Prop := NoDup (map codec_key l).

Lemma same_codec_key c d : same_codec c d = true ↔ codec_key c = codec_key d.
Proof.
  unfold same_codec, codec_key. rewrite andb_true_iff, String.eqb_eq, Z.eqb_eq.
  split; [intros [-> ->]; done|by intros [= -> ->]].
Qed.

Lemma add_codec_distinct l c : codecs_distinct l → codecs_distinct (add_codec l c).
Proof.
  unfold add_codec, codecs_distinct. destruct (existsb _ l) eqn:E; [done|].
  intros Hnd. rewrite map_app. apply NoDup_app. split_and!; [done| |apply NoDup_singleton].
  intros x Hx ->%list_elem_of_singleton. apply list_elem_of_In, in_map_iff in Hx as (d & Hk & Hd).
  assert (existsb (λ c0, same_codec c0 c) l = true); [|congruence].
  apply existsb_exists. exists d. by rewrite same_codec_key.
Qed.

Lemma push_codecs_distinct l cs : codecs_distinct l → codecs_distinct (foldl add_codec l cs).
Proof.
  revert l. induction cs as [|c cs IH]; intros l Hl; simpl; [done|].
  by apply IH, add_codec_distinct.
Qed.

Record config_ok (c : MediaConfig) : Prop := {
  co_video : codecs_distinct (mc_video_codecs c);
  co_audio : codecs_distinct (mc_audio_codecs c);
  co_nvideo : codecs_distinct (mc_negotiated_video_codecs c);
  co_naudio : codecs_distinct (mc_negotiated_audio_codecs c);
  co_limit : length (mc_header_extensions c) ≤ 16;
  co_uris : NoDup (map he_uri (mc_header_extensions c));
  co_disjoint : mc_proposed_header_extensions c ##ₘ mc_negotiated_header_extensions c
}.

Lemma register_codec_ok codec typ c : config_ok c → config_ok (register_codec codec typ c).1.
Proof. intros []. destruct typ; split; simpl; auto using add_codec_distinct. Qed.

Lemma push_codecs_ok codecs typ c : config_ok c → config_ok (push_codecs c codecs typ).
Proof. intros []. destruct typ; split; simpl; auto using push_codecs_distinct. Qed.

Lemma mark_negotiated_ok c typ : config_ok c → config_ok (mark_negotiated c typ).
Proof. intros []. by split. Qed.

Lemma map_insert_same {A B} (f : A → B) l i x y :
  l !! i = Some x → f y = f x → map f (<[i := y]> l) = map f l.
Proof.
  revert i. induction l as [|a l IH]; intros [|i] Hi Hf; simplify_eq/=; f_equal; auto.
Qed.

Lemma list_find_none_uri uri l :
  list_find (λ e, he_uri e = uri) l = None → uri ∉ map he_uri l.
Proof.
  intros Hn%list_find_None. rewrite list_elem_of_In, in_map_iff. intros (e & Hu & Hin).
  rewrite Forall_forall in Hn. apply list_elem_of_In in Hin. by apply (Hn e).
Qed.

Lemma register_header_extension_ok uri typ allowed c :
  config_ok c → config_ok (register_header_extension uri typ allowed c).1.
Proof.
  intros [Hv Ha Hnv Hna Hlim Hu Hd]. unfold register_header_extension.
  destruct (list_find _ (mc_header_extensions c)) as [[i e]|] eqn:E.
  - apply list_find_Some in E as (Hi & He & _). split; simpl; try done.
    + by rewrite length_insert.
    + rewrite (map_insert_same _ _ _ e); done.
  - case_match eqn:Hl; [by split|]. apply Z.ltb_ge in Hl. unfold VALID_EXT_IDS_end in Hl.
    split; simpl; try done.
    + rewrite length_app. simpl. lia.
    + rewrite map_app. apply NoDup_app. split_and!; [done| |apply NoDup_singleton].
      intros x Hx ->%list_elem_of_singleton. by apply (list_find_none_uri _ _ E).
Qed.

Section extension_lemmas.
Context `{O : SdpOps} `{HX : HexOps} `{HO : HashOrder}.

Lemma find_uri_Some uri m id e :
  find_uri uri m = Some (id, e) → m !! id = Some e ∧ he_uri e = uri.
Proof.
  intros [Hin Hu]%first_such_In. apply elem_of_hm_list in Hin. simpl in Hu.
  by apply String.eqb_eq in Hu.
Qed.

Lemma find_uri_None uri m id e : find_uri uri m = None → m !! id = Some e → he_uri e ≠ uri.
Proof.
  intros Hn%first_such_None Hm Hu. rewrite Forall_forall in Hn.
  specialize (Hn (id, e) (proj2 (elem_of_hm_list m id e) Hm)). simpl in Hn.
  by apply String.eqb_neq in Hn.
Qed.

Lemma free_ext_id_Some proposed negotiated id :
  free_ext_id proposed negotiated = Some id →
  (VALID_EXT_IDS_start ≤ id < VALID_EXT_IDS_end)%Z ∧
  proposed !! id = None ∧ negotiated !! id = None.
Proof.
  intros [Hin Hf]%first_such_In. apply elem_of_seqZ in Hin.
  apply andb_true_iff in Hf as [H1 H2]. rewrite negb_true_iff in H1, H2.
  rewrite bool_decide_eq_false in H1, H2.
  apply eq_None_not_Some in H1, H2. split; [lia|done].
Qed.

Lemma negotiate_extension_disjoint id uri typ local p n :
  p ##ₘ n → (negotiate_extension id uri typ local p n).1 ##ₘ
            (negotiate_extension id uri typ local p n).2.
Proof.
  intros Hd. unfold negotiate_extension. simpl.
  assert (Hd' : delete id p ##ₘ n) by (by apply map_disjoint_delete_l).
  destruct (find_uri uri n) as [[nid e]|] eqn:E.
  - case_match eqn:Hid; [|done]. apply Z.eqb_eq in Hid as ->.
    apply map_disjoint_insert_r. split; [apply lookup_delete_eq|done].
  - destruct (n !! id); [done|].
    apply map_disjoint_insert_r. split; [apply lookup_delete_eq|done].
Qed.

Lemma update_header_extension_ok c id uri typ :
  config_ok c → config_ok (update_header_extension c id uri typ).
Proof.
  intros [Hv Ha Hnv Hna Hlim Hu Hd]. unfold update_header_extension.
  set (f := foldl _ _ _).
  assert (Hf : f.1 ##ₘ f.2); [|by destruct f; split].
  subst f. revert Hd. generalize (mc_proposed_header_extensions c),
    (mc_negotiated_header_extensions c). clear.
  induction (mc_header_extensions c) as [|e l IH]; intros p n Hd; simpl; [done|].
  case_match; [|by apply IH].
  pose proof (negotiate_extension_disjoint id uri typ e p n Hd).
  destruct (negotiate_extension id uri typ e p n). by apply IH.
Qed.

(** The identifier [id] stands for [uri] in one of the two maps. *)
Definition assigned (proposed negotiated : gmap Z RTCRtpHeaderExtension) (id : Z)
    (uri : string) : Prop :=
  (∃ e, negotiated !! id = Some e ∧ he_uri e = uri) ∨
  (∃ e, proposed !! id = Some e ∧ he_uri e = uri).

Lemma assigned_functional p n id u1 u2 :
  p ##ₘ n → assigned p n id u1 → assigned p n id u2 → u1 = u2.
Proof.
  intros Hd. rewrite map_disjoint_spec in Hd. unfold assigned. naive_solver.
Qed.

(** A step keeps the assignments, adds one for its extension if it answers at
    all, and keeps the maps disjoint. *)
Lemma propose_extension_step typ p n out e :
  p ##ₘ n →
  let '(p', n', out') := propose_extension typ (p, n, out) e in
  p' ##ₘ n' ∧ (∀ id u, assigned p n id u → assigned p' n' id u) ∧
  (out' = out ∨ ∃ id, out' = out ++ [{| hep_uri := he_uri e; hep_id := id |}] ∧
                      assigned p' n' id (he_uri e)).
Proof.
  intros Hd. simpl. destruct (find_uri (he_uri e) n) as [[id x]|] eqn:E1.
  { apply find_uri_Some in E1 as [Hx Hu].
    assert (Hp : p !! id = None) by (rewrite map_disjoint_spec in Hd; destruct (p !! id) eqn:?; naive_solver).
    split_and!.
    - apply map_disjoint_insert_r. done.
    - intros i u [(y & Hy & Hyu)|Hr]; [left|by right].
      destruct (decide (i = id)) as [->|Hne].
      + rewrite lookup_insert_eq. eexists. split; [done|]. simpl. congruence.
      + rewrite lookup_insert_ne by done. eauto.
    - right. exists id. rewrite Hu. split; [done|]. left. rewrite lookup_insert_eq. eauto. }
  destruct (find_uri (he_uri e) p) as [[id x]|] eqn:E2.
  { apply find_uri_Some in E2 as [Hx Hu]. split_and!; [done|done|].
    right. exists id. rewrite Hu. split; [done|]. right. eauto. }
  destruct (free_ext_id p n) as [id|] eqn:E3; [|by split_and!; auto].
  apply free_ext_id_Some in E3 as (_ & Hp & Hn). split_and!.
  - apply map_disjoint_insert_l. done.
  - intros i u [Hl|(y & Hy & Hyu)]; [by left|right].
    rewrite lookup_insert_ne by congruence. eauto.
  - right. exists id. split; [done|]. right. rewrite lookup_insert_eq. eauto.
Qed.

Lemma propose_extensions typ l : ∀ p n out p' n' out',
  p ##ₘ n → NoDup (map hep_uri out ++ map he_uri l) →
  (∀ h, h ∈ out → assigned p n (hep_id h) (hep_uri h)) →
  foldl (propose_extension typ) (p, n, out) l = (p', n', out') →
  p' ##ₘ n' ∧ NoDup (map hep_uri out') ∧
  (∀ h, h ∈ out' → assigned p' n' (hep_id h) (hep_uri h)).
Proof.
  induction l as [|e l IH]; intros p n out p' n' out' Hd Hnd Ha Hf; cbn [foldl] in Hf.
  { injection Hf as <- <- <-. simpl in Hnd. rewrite app_nil_r in Hnd. done. }
  pose proof (propose_extension_step typ p n out e Hd) as Hstep.
  destruct (propose_extension typ (p, n, out) e) as [[p1 n1] out1].
  destruct Hstep as (Hd1 & Hmono & Hout). eapply IH; [done| | |done].
  - destruct Hout as [->|(id & -> & _)].
    + eapply sublist_NoDup; [done|]. apply sublist_app; [done|]. simpl. by apply sublist_cons.
    + rewrite map_app, <- app_assoc. done.
  - intros h Hh. destruct Hout as [->|(id & -> & Hid)]; [by apply Hmono, Ha|].
    apply elem_of_app in Hh as [Hh| ->%list_elem_of_singleton]; [by apply Hmono, Ha|done].
Qed.

End extension_lemmas.

(** ** Properties *)

Section config_properties.
Context `{O : SdpOps} `{HX : HexOps} `{HO : HashOrder}.

Lemma config_ok_empty : config_ok media_config_empty.
Proof.
  split; simpl; [apply NoDup_nil_2..|lia|apply NoDup_nil_2|apply map_disjoint_empty_l].
Qed.

Lemma configure_rtcp_reports_ok c : config_ok c → config_ok (configure_rtcp_reports c).
Proof. intros []. by split. Qed.

Lemma media_config_default_ok : config_ok media_config_default.
Proof.
  apply configure_rtcp_reports_ok. unfold register_default_codecs. apply M_bind_inv.
  - apply forM_inv; [|apply config_ok_empty]. intros. by apply register_codec_ok.
  - intros _ c Hc. apply forM_inv; [|done]. intros. by apply register_codec_ok.
Qed.

Lemma clone_to_ok c : config_ok c → config_ok (clone_to c).
Proof. pose proof media_config_default_ok as []. intros []. by split. Qed.

Lemma feedback_distinct fb l : codecs_distinct l → codecs_distinct (map (add_feedback fb) l).
Proof. unfold codecs_distinct. by rewrite map_map. Qed.

Lemma register_rtcp_feedback_ok c fb typ : config_ok c → config_ok (register_rtcp_feedback c fb typ).
Proof. intros []. destruct typ; split; simpl; auto using feedback_distinct. Qed.

Lemma update_from_media_ok media c : config_ok c → config_ok (update_from_media media c).1.
Proof.
  intros Hc. unfold update_from_media. destruct (section_kind c media) as [typ|]; [|done].
  assert (Hm : config_ok (mark_negotiated c typ)) by (by apply mark_negotiated_ok).
  destruct (codecs ← _; _) as [[exact partial]|e|]; try done.
  case_match; [|done]. destruct (rtp_extensions_from_media_description media) as [exts| |];
    simpl; [|by apply push_codecs_ok..].
  assert (Hp : config_ok (push_codecs (mark_negotiated c typ) l typ)) by (by apply push_codecs_ok).
  revert Hp. generalize (push_codecs (mark_negotiated c typ) l typ). clear.
  induction exts as [|x exts IH]; intros c Hc; simpl; [done|].
  by apply IH, update_header_extension_ok.
Qed.

Lemma get_mut_rtp_parameters_ok c typ dir :
  config_ok c → config_ok (get_mut_rtp_parameters_by_kind c typ dir).1.
Proof.
  intros Hc. unfold get_mut_rtp_parameters_by_kind. case_match; [done|].
  destruct Hc as [H1 H2 H3 H4 H5 H6 H7].
  assert (Hd : ∀ l p n out, p ##ₘ n →
    let '(p', n', _) := foldl (propose_extension typ) (p, n, out) l in p' ##ₘ n').
  { induction l as [|e l IH]; intros p n out Hpn; cbn [foldl]; [done|].
    pose proof (propose_extension_step typ p n out e Hpn) as Hs.
    destruct (propose_extension typ (p, n, out) e) as [[p1 n1] out1]. by apply IH, Hs. }
  specialize (Hd (List.filter (λ e, relevant_extension e typ dir) (mc_header_extensions c))
    _ _ [] H7).
  destruct (foldl _ _ _) as [[p n] out]. by split.
Qed.

(** The operations on a media configuration. *)
Inductive config_step : MediaConfig → MediaConfig → Prop :=
| cs_codec codec typ c : config_step c (register_codec codec typ c).1
| cs_extension uri typ allowed c : config_step c (register_header_extension uri typ allowed c).1
| cs_feedback fb typ c : config_step c (register_rtcp_feedback c fb typ)
| cs_reports c : config_step c (configure_rtcp_reports c)
| cs_remote desc c : config_step c (update_from_remote_description desc c).1
| cs_update id uri typ c : config_step c (update_header_extension c id uri typ)
| cs_push codecs typ c : config_step c (push_codecs c codecs typ)
| cs_clone c : config_step c (clone_to c)
| cs_parameters typ dir c : config_step c (get_mut_rtp_parameters_by_kind c typ dir).1.

Lemma config_step_ok c c' : config_step c c' → config_ok c → config_ok c'.
Proof.
  intros Hstep Hc. destruct Hstep.
  - by apply register_codec_ok.
  - by apply register_header_extension_ok.
  - by apply register_rtcp_feedback_ok.
  - by apply configure_rtcp_reports_ok.
  - by apply (forM_inv config_ok); [intros; apply update_from_media_ok|].
  - by apply update_header_extension_ok.
  - by apply push_codecs_ok.
  - by apply clone_to_ok.
  - by apply get_mut_rtp_parameters_ok.
Qed.

Lemma media_config_reachable_aux c : rtc config_step media_config_default c → config_ok c.
Proof.
  intros H. pose proof media_config_default_ok as Hd. revert Hd.
  induction H as [|c c1 c2 Hstep _ IH]; [done|]. intros Hc. by apply IH, (config_step_ok c).
Qed.

(** C32. Whatever is registered or negotiated, a media configuration never holds
    two codecs of a kind with the same MIME type and payload type, nor two
    header extensions with the same URI, nor more than sixteen of them, and no
    extension identifier is at once proposed and negotiated. *)
Theorem media_config_reachable_ok c :
  rtc config_step media_config_default c → config_ok c.
Proof. apply media_config_reachable_aux. Qed.

(** Only identifiers of the valid range are in use. *)
Definition ids_valid (p n : gmap Z RTCRtpHeaderExtension) : Prop :=
  ∀ id u, assigned p n id u → (VALID_EXT_IDS_start ≤ id < VALID_EXT_IDS_end)%Z.

Lemma propose_extension_valid typ p n out e :
  ids_valid p n →
  let '(p', n', _) := propose_extension typ (p, n, out) e in ids_valid p' n'.
Proof.
  intros Hv. simpl. destruct (find_uri (he_uri e) n) as [[id x]|] eqn:E1.
  { apply find_uri_Some in E1 as [Hx Hu]. intros i u [(y & Hy & _)|H]; [|by apply (Hv i u); right].
    destruct (decide (i = id)) as [->|Hne]; [apply (Hv id (he_uri x)); left; eauto|].
    rewrite lookup_insert_ne in Hy by done. apply (Hv i (he_uri y)). left. eauto. }
  destruct (find_uri (he_uri e) p); [by destruct p0|].
  destruct (free_ext_id p n) as [id|] eqn:E3; [|done].
  apply free_ext_id_Some in E3 as [Hr _]. intros i u [H|(y & Hy & _)]; [by apply (Hv i u); left|].
  destruct (decide (i = id)) as [->|Hne]; [done|].
  rewrite lookup_insert_ne in Hy by done. apply (Hv i (he_uri y)). right. eauto.
Qed.

Lemma propose_extensions_valid typ l : ∀ p n out,
  ids_valid p n → let '(p', n', _) := foldl (propose_extension typ) (p, n, out) l in ids_valid p' n'.
Proof.
  induction l as [|e l IH]; intros p n out Hv; cbn [foldl]; [done|].
  pose proof (propose_extension_valid typ p n out e Hv) as Hs.
  destruct (propose_extension typ (p, n, out) e) as [[p1 n1] out1]. by apply IH.
Qed.

(** The identifiers of the parameters are distinct and valid. *)
Lemma proposed_ids c typ dir :
  config_ok c → kind_negotiated c typ = false →
  let ids := map hep_id (rp_header_extensions (get_mut_rtp_parameters_by_kind c typ dir).2) in
  NoDup ids ∧ (ids_valid (mc_proposed_header_extensions c) (mc_negotiated_header_extensions c) →
               ids ⊆ seqZ VALID_EXT_IDS_start (VALID_EXT_IDS_end - VALID_EXT_IDS_start)).
Proof.
  intros Hc Hk. unfold get_mut_rtp_parameters_by_kind. rewrite Hk.
  set (l := List.filter _ _).
  pose proof (propose_extensions_valid typ l (mc_proposed_header_extensions c)
    (mc_negotiated_header_extensions c) []) as Hval.
  destruct (foldl _ _ l) as [[p n] out] eqn:Hf. simpl.
  apply propose_extensions in Hf as (Hd & Hnd & Ha); [|apply Hc| |by intros h ?%not_elem_of_nil].
  - split.
    + apply NoDup_fmap_2_strong; [|by eapply NoDup_fmap_1].
      intros h1 h2 Hh1 Hh2 Heq. pose proof (Ha _ Hh1) as A1. pose proof (Ha _ Hh2) as A2.
      rewrite Heq in A1. pose proof (assigned_functional _ _ _ _ _ Hd A1 A2) as Hu.
      destruct h1, h2. simpl in *. by subst.
    + intros Hv id (h & -> & Hh)%list_elem_of_fmap. apply elem_of_seqZ.
      pose proof (Hval Hv _ _ (Ha _ Hh)). lia.
  - simpl. eapply sublist_NoDup; [apply (co_uris _ Hc)|]. unfold l. clear.
    induction (mc_header_extensions c) as [|e l IH]; simpl; [done|].
    case_match; simpl; by constructor.
Qed.

(** The identifiers proposed for one section are distinct: in a well-formed
    configuration the parameters computed by the recording variant give
    different identifiers to different header extensions. *)
Lemma proposed_extension_ids_distinct c typ dir :
  config_ok c → kind_negotiated c typ = false →
  NoDup (map hep_id (rp_header_extensions (get_mut_rtp_parameters_by_kind c typ dir).2)).
Proof. intros Hc Hk. by apply proposed_ids. Qed.

(** An extension whose URI is neither negotiated nor proposed yet. *)
Definition unassigned (c : MediaConfig) (e : RTCRtpHeaderExtension) : Prop :=
  ∀ id h, mc_negotiated_header_extensions c !! id = Some h ∨
          mc_proposed_header_extensions c !! id = Some h → he_uri h ≠ he_uri e.

Lemma find_uri_not_there uri m :
  (∀ id h, m !! id = Some h → he_uri h ≠ uri) → find_uri uri m = None.
Proof.
  intros H. destruct (find_uri uri m) as [[id h]|] eqn:E; [|done].
  apply find_uri_Some in E as [E Hu]. by destruct (H id h E).
Qed.

Lemma unassigned_parameter c e :
  unassigned c e →
  extension_parameter (mc_proposed_header_extensions c) (mc_negotiated_header_extensions c) e =
  (λ id, {| hep_uri := he_uri e; hep_id := id |}) <$>
    free_ext_id (mc_proposed_header_extensions c) (mc_negotiated_header_extensions c).
Proof.
  intros Hu. unfold extension_parameter.
  rewrite !find_uri_not_there by (intros id h Hh; apply (Hu id); tauto).
  by destruct (free_ext_id _ _).
Qed.

Lemma free_ext_id_exists proposed negotiated id :
  (VALID_EXT_IDS_start ≤ id < VALID_EXT_IDS_end)%Z →
  negotiated !! id = None → proposed !! id = None →
  is_Some (free_ext_id proposed negotiated).
Proof.
  intros Hid Hn Hp. destruct (free_ext_id proposed negotiated) eqn:E; [done|].
  apply first_such_None in E. rewrite Forall_forall in E. specialize (E id). exfalso.
  rewrite elem_of_seqZ, Hn, Hp, !bool_decide_eq_false_2 in E by (by intros [? ?]).
  simpl in E. by discriminate E; lia.
Qed.

(** C39. The parameters written into an SDP give one and the same identifier to
    all new header extensions: they are computed without recording what they
    propose, so that in any configuration any two extensions that are
    registered for the kind and the direction, and whose URIs are neither
    negotiated nor proposed yet, appear with the same free identifier, as long
    as there is one. *)
Theorem sdp_extension_ids_collide c typ dir e1 e2 id0 :
  kind_negotiated c typ = false →
  e1 ∈ mc_header_extensions c → e2 ∈ mc_header_extensions c → he_uri e1 ≠ he_uri e2 →
  relevant_extension e1 typ dir = true → relevant_extension e2 typ dir = true →
  unassigned c e1 → unassigned c e2 →
  (VALID_EXT_IDS_start ≤ id0 < VALID_EXT_IDS_end)%Z →
  mc_negotiated_header_extensions c !! id0 = None →
  mc_proposed_header_extensions c !! id0 = None →
  ∃ id, mc_negotiated_header_extensions c !! id = None ∧
    mc_proposed_header_extensions c !! id = None ∧
    {| hep_uri := he_uri e1; hep_id := id |}
      ∈ rp_header_extensions (get_rtp_parameters_by_kind c typ dir) ∧
    {| hep_uri := he_uri e2; hep_id := id |}
      ∈ rp_header_extensions (get_rtp_parameters_by_kind c typ dir).
Proof.
  intros Hk H1 H2 _ Hr1 Hr2 Hu1 Hu2 Hid Hn Hp.
  destruct (free_ext_id_exists _ _ _ Hid Hn Hp) as [id E]. exists id.
  destruct (free_ext_id_Some _ _ _ E) as (_ & Hpid & Hnid). split; [done|]. split; [done|].
  assert (H : ∀ e, e ∈ mc_header_extensions c → relevant_extension e typ dir = true →
    unassigned c e → {| hep_uri := he_uri e; hep_id := id |}
      ∈ rp_header_extensions (get_rtp_parameters_by_kind c typ dir)); [|eauto].
  intros e He Hr Hu. unfold get_rtp_parameters_by_kind. rewrite Hk. simpl.
  apply list_elem_of_omap. exists e. rewrite list_elem_of_In, List.filter_In, <- list_elem_of_In.
  rewrite unassigned_parameter, E by done. done.
Qed.

(** The limit on header extensions does not protect the identifiers: sixteen
    extensions can be registered, but only the identifiers 1 to 14 exist, so
    that the last two are silently left out of the parameters. *)
Lemma more_extensions_than_identifiers :
  ∃ c, rtc config_step media_config_default c ∧ length (mc_header_extensions c) = 16 ∧
    length (rp_header_extensions (get_mut_rtp_parameters_by_kind c Video Sendrecv).2) ≤ 14.
Proof.
  set (add := λ c k, (register_header_extension ("urn:" +:+ show_u k) Video None c).1).
  assert (Hr : ∀ l c, rtc config_step media_config_default c →
    rtc config_step media_config_default (foldl add c l)).
  { induction l as [|k l IH]; intros c Hc; [done|]. apply IH. eapply rtc_r; [done|].
    apply cs_extension. }
  exists (foldl add media_config_default (seqZ 1 16)). set (c := foldl add _ _).
  assert (Hc : rtc config_step media_config_default c) by (apply Hr; constructor).
  split_and!; [done|reflexivity|].
  destruct (proposed_ids c Video Sendrecv) as [Hnd Hsub];
    [apply media_config_reachable_aux, Hc|reflexivity|].
  rewrite <- (length_map hep_id).
  etrans; [apply (submseteq_length _ (seqZ 1 14)), NoDup_submseteq; [done|]|by rewrite length_seqZ].
  intros id Hid. apply Hsub; [|done].
  assert (Hm : ∀ l c, mc_proposed_header_extensions (foldl add c l) = mc_proposed_header_extensions c
    ∧ mc_negotiated_header_extensions (foldl add c l) = mc_negotiated_header_extensions c).
  { induction l as [|k l IH]; intros c0; [done|]. simpl. destruct (IH (add c0 k)) as [-> ->].
    unfold add, register_header_extension. by repeat case_match. }
  unfold c. destruct (Hm (seqZ 1 16) media_config_default) as [-> ->].
  assert (mc_proposed_header_extensions media_config_default = ∅) as -> by reflexivity.
  assert (mc_negotiated_header_extensions media_config_default = ∅) as -> by reflexivity.
  intros id' u [(e & He & _)|(e & He & _)]; by rewrite lookup_empty in He.
Qed.

End config_properties.
