(* ===== verification/Negotiation.v ===== *)
(** * Negotiation of codecs (configs/media_config.rs)

    What [update_from_remote_description] may choose of the codecs a section
    offers, and that it chooses so. *)

From Stdlib Require Import ZArith Lia.
From stdpp Require Import base numbers strings gmap list.
From S2P Require Import Prelude RustStr Enums Types Sdp Codec ReceiverStream.
From S2P Require Import Interceptors MediaParse MediaConfig.

Section negotiation.
Context `{O : SdpOps} `{HX : HexOps} `{HO : HashOrder}.

Definition registered_codecs (c : MediaConfig) (typ : RTPCodecType)
  : list RTCRtpCodecParameters :=
  match typ with
  | Audio => mc_audio_codecs c
  | Video => mc_video_codecs c
  | Codec_Unspecified => []
  end.

Definition negotiated_codecs (c : MediaConfig) (typ : RTPCodecType)
  : list RTCRtpCodecParameters :=
  match typ with
  | Audio => mc_negotiated_audio_codecs c
  | Video => mc_negotiated_video_codecs c
  | Codec_Unspecified => []
  end.

(** A registered codec has the format parameters of the remote codec, or at
    least its MIME type. *)
Definition matches_exactly (regs : list RTCRtpCodecParameters) (k : RTCRtpCodecParameters) : Prop :=
  ∃ r, r ∈ regs ∧ match_fmtp (fmtp_of k) (fmtp_of r) = true.
Definition matches_by_name (regs : list RTCRtpCodecParameters) (k : RTCRtpCodecParameters) : Prop :=
  ∃ r, r ∈ regs ∧ same_mime r k = true.

(** What an [apt] parameter of the codec refers to is in the list. *)
Definition apt_among (l : list RTCRtpCodecParameters) (k : RTCRtpCodecParameters) : Prop :=
  ∀ apt, fmtp_parameter (fmtp_of k) "apt" = Some apt →
    ∃ base, base ∈ l ∧ parse_u8 apt = Ok (payload_type base).

(** What the codecs [chosen] of those a section offers have to satisfy. *)
Record negotiation (regs offered chosen : list RTCRtpCodecParameters) : Prop := {
  ng_offered k : k ∈ chosen → k ∈ offered;
  ng_supported k : k ∈ chosen → matches_exactly regs k ∨ matches_by_name regs k;
  ng_apt k : k ∈ chosen → apt_among chosen k;
  ng_exact k : k ∈ offered → fmtp_parameter (fmtp_of k) "apt" = None → matches_exactly regs k →
    codec_key k ∈ map codec_key chosen ∧ ∀ k', k' ∈ chosen → matches_exactly regs k'
}.

Lemma fuzzy_search_matches k regs :
  match (codec_parameters_fuzzy_search k regs).2 with
  | Match_Exact => matches_exactly regs k
  | Match_Partial => matches_by_name regs k
  | Match_None => True
  end.
Proof.
  pose proof (fuzzy_search_spec k regs) as H. destruct (codec_parameters_fuzzy_search k regs) as [r []];
    simpl in *; [done| |].
  - destruct H as [_ [? ?]%first_such_In]. by exists r.
  - apply first_such_In in H as [? ?]. by exists r.
Qed.

Lemma exact_found k regs :
  matches_exactly regs k → (codec_parameters_fuzzy_search k regs).2 = Match_Exact.
Proof.
  intros (r & Hr & Hm). pose proof (fuzzy_search_spec k regs) as H.
  destruct (codec_parameters_fuzzy_search k regs) as [r' []]; simpl in *; try done;
    destruct H as [H _]; rewrite Forall_forall in H; specialize (H r Hr); congruence.
Qed.

Lemma apt_match_among pt exact partial :
  match apt_match_of pt exact partial with
  | Match_Exact => ∃ b, b ∈ exact ∧ payload_type b = pt
  | Match_Partial => ∃ b, b ∈ partial ∧ payload_type b = pt
  | Match_None => True
  end.
Proof.
  unfold apt_match_of.
  assert (Hl : ∀ l, existsb (λ k, (payload_type k =? pt)%Z) l = true →
    ∃ b, b ∈ l ∧ payload_type b = pt).
  { intros l (b & Hb & He%Z.eqb_eq)%existsb_exists. exists b. by rewrite list_elem_of_In. }
  destruct (existsb _ exact) eqn:E1; [by apply Hl|].
  destruct (existsb _ partial) eqn:E2; [by apply Hl|done].
Qed.

(** What [match_remote_codec] answers, given the matches so far. *)
Lemma match_remote_codec_spec c k typ exact partial m :
  typ ≠ Codec_Unspecified → match_remote_codec c k typ exact partial = Ok m →
  match m with
  | Match_Exact => matches_exactly (registered_codecs c typ) k ∧ apt_among exact k
  | Match_Partial =>
      (matches_exactly (registered_codecs c typ) k ∨ matches_by_name (registered_codecs c typ) k)
      ∧ apt_among (exact ++ partial) k
      ∧ (fmtp_parameter (fmtp_of k) "apt" = None → ¬ matches_exactly (registered_codecs c typ) k)
  | Match_None =>
      fmtp_parameter (fmtp_of k) "apt" = None → ¬ matches_exactly (registered_codecs c typ) k
  end.
Proof.
  intros Ht. unfold match_remote_codec.
  replace (if bool_decide (typ = Audio) then mc_audio_codecs c else mc_video_codecs c)
    with (registered_codecs c typ) by by destruct typ.
  pose proof (fuzzy_search_matches k (registered_codecs c typ)) as Hf.
  pose proof (exact_found k (registered_codecs c typ)) as Hx.
  unfold apt_among. destruct (fmtp_parameter (fmtp_of k) "apt") as [apt|].
  2:{ intros [= <-]. destruct (codec_parameters_fuzzy_search _ _).2; split_and?; auto; try done;
        intros _ H; by specialize (Hx H). }
  destruct (parse_u8 apt) as [pt| |] eqn:Ep; simpl; try done.
  pose proof (apt_match_among pt exact partial) as Ha. intros Hm.
  assert (Hin : ∀ l : list RTCRtpCodecParameters, (∃ b, b ∈ l ∧ payload_type b = pt) → ∀ apt', Some apt = Some apt' →
    ∃ b, b ∈ l ∧ parse_u8 apt' = Ok (payload_type b)).
  { intros l (b & Hb & <-) ? [= <-]. eauto. }
  assert (Hsub : apt_match_of pt exact partial ≠ Match_None →
    ∃ b, b ∈ exact ++ partial ∧ payload_type b = pt).
  { destruct (apt_match_of pt exact partial); [done| |]; destruct Ha as (b & ? & ?); intros _;
      exists b; rewrite elem_of_app; auto. }
  destruct (apt_match_of pt exact partial); [by injection Hm as <-|..];
    destruct (codec_parameters_fuzzy_search _ _).2; simpl in Hm; injection Hm as <-; split_and?; auto;
    try done; apply Hin; auto; by apply Hsub.
Qed.

(** The matches collected after a prefix [seen] of the offered codecs. *)
Record matches_ok (regs seen exact partial : list RTCRtpCodecParameters) : Prop := {
  mo_exact k : k ∈ exact → k ∈ seen ∧ matches_exactly regs k ∧ apt_among exact k;
  mo_partial k : k ∈ partial →
    k ∈ seen ∧ (matches_exactly regs k ∨ matches_by_name regs k) ∧ apt_among (exact ++ partial) k;
  mo_complete k : k ∈ seen → fmtp_parameter (fmtp_of k) "apt" = None → matches_exactly regs k →
    k ∈ exact
}.

Lemma apt_among_mono l l' k : l ⊆ l' → apt_among l k → apt_among l' k.
Proof. intros Hl Ha apt Hapt. destruct (Ha apt Hapt) as (b & Hb & ?). exists b. auto. Qed.

Lemma matches_ok_skip regs seen exact partial k :
  (fmtp_parameter (fmtp_of k) "apt" = None → ¬ matches_exactly regs k) →
  matches_ok regs seen exact partial → matches_ok regs (seen ++ [k]) exact partial.
Proof.
  intros Hk [H1 H2 H3]. split; intros k' Hk'.
  - destruct (H1 k' Hk'). rewrite elem_of_app. auto.
  - destruct (H2 k' Hk'). rewrite elem_of_app. auto.
  - apply elem_of_app in Hk' as [Hk'| ->%list_elem_of_singleton]; [auto|].
    intros Hapt Hx. by destruct (Hk Hapt).
Qed.

Lemma matches_ok_partial regs seen exact partial k :
  matches_exactly regs k ∨ matches_by_name regs k → apt_among (exact ++ partial) k →
  (fmtp_parameter (fmtp_of k) "apt" = None → ¬ matches_exactly regs k) →
  matches_ok regs seen exact partial → matches_ok regs (seen ++ [k]) exact (partial ++ [k]).
Proof.
  intros Hm Ha Hk Hok. apply (matches_ok_skip _ _ _ _ k Hk) in Hok as [H1 H2 H3].
  split; [done| |done]. rewrite app_assoc.
  assert (Hsub : exact ++ partial ⊆ (exact ++ partial) ++ [k]) by (intros x Hx; apply elem_of_app; by left).
  intros k' [Hk'| ->%list_elem_of_singleton]%elem_of_app.
  - destruct (H2 k' Hk') as (? & ? & ?). eauto using apt_among_mono.
  - split_and!; [apply elem_of_app; right; by left|done|by eapply apt_among_mono].
Qed.

Lemma matches_ok_exact regs seen exact partial k :
  matches_exactly regs k → apt_among exact k →
  matches_ok regs seen exact partial → matches_ok regs (seen ++ [k]) (exact ++ [k]) partial.
Proof.
  intros Hm Ha [H1 H2 H3].
  assert (Hsub : exact ⊆ exact ++ [k]) by (intros x Hx; apply elem_of_app; by left).
  assert (Hin : ∀ k' : RTCRtpCodecParameters, k' ∈ seen → k' ∈ seen ++ [k]) by
    (by intros; rewrite elem_of_app; left).
  split.
  - intros k' [Hk'| ->%list_elem_of_singleton]%elem_of_app.
    + destruct (H1 k' Hk') as (? & ? & ?). eauto using apt_among_mono.
    + split_and!; [apply elem_of_app; right; by left|done|by eapply apt_among_mono].
  - intros k' Hk'. destruct (H2 k' Hk') as (? & ? & ?). split_and!; [auto..|].
    eapply apt_among_mono; [|done]. intros x. rewrite !elem_of_app. tauto.
  - intros k' [Hk'| ->%list_elem_of_singleton]%elem_of_app Hapt Hx; apply elem_of_app; [auto|].
    right. by left.
Qed.

Lemma collect_matches_ok c typ codecs exact partial :
  typ ≠ Codec_Unspecified → collect_matches c typ codecs = Ok (exact, partial) →
  matches_ok (registered_codecs c typ) codecs exact partial.
Proof.
  intros Ht. unfold collect_matches.
  set (body := λ (acc : list RTCRtpCodecParameters * list RTCRtpCodecParameters) codec, _).
  assert (Hgen : ∀ l seen acc acc', matches_ok (registered_codecs c typ) seen acc.1 acc.2 →
    foldO body acc l = Ok acc' → matches_ok (registered_codecs c typ) (seen ++ l) acc'.1 acc'.2).
  2:{ intros H. apply (Hgen codecs [] ([], []) (exact, partial)); [|done].
      split; intros k Hk; by apply not_elem_of_nil in Hk. }
  induction l as [|k l IH]; intros seen [ex pa] acc' Hok; cbn [foldO].
  { intros [= <-]. by rewrite app_nil_r. }
  unfold body at 1. simpl. destruct (match_remote_codec c k typ ex pa) as [m| |] eqn:Em; simpl;
    try done.
  apply match_remote_codec_spec in Em; [|done].
  replace (seen ++ k :: l) with ((seen ++ [k]) ++ l) by by rewrite <- app_assoc.
  apply IH. destruct m; [by apply matches_ok_skip|destruct Em as (? & ? & ?)|destruct Em];
    by (apply matches_ok_partial || apply matches_ok_exact).
Qed.

(** Adding codecs to an empty list keeps one of each MIME and payload type. *)
Lemma add_codecs_elem l cs k : k ∈ foldl add_codec l cs → k ∈ l ∨ k ∈ cs.
Proof.
  revert l. induction cs as [|x cs IH]; intros l; simpl; [by left|].
  intros [Hk|Hk]%IH; [|by right; right]. revert Hk. unfold add_codec.
  destruct (existsb _ l); [by left|]. rewrite elem_of_app, list_elem_of_singleton.
  intros [?| ->]; [by left|right; left].
Qed.

Lemma add_codecs_key l cs k :
  k ∈ l ∨ k ∈ cs → codec_key k ∈ map codec_key (foldl add_codec l cs).
Proof.
  intros H. assert (Hk : codec_key k ∈ map codec_key l ∨ k ∈ cs).
  { destruct H; [left|by right]. by apply list_elem_of_fmap_2. }
  clear H. revert l Hk. induction cs as [|x cs IH]; intros l Hk; simpl.
  { destruct Hk as [|Hk]; [done|by apply not_elem_of_nil in Hk]. }
  apply IH. rewrite elem_of_cons in Hk. unfold add_codec. destruct (existsb _ l) eqn:E.
  - destruct Hk as [?|[->|?]]; [by left| |by right]. left.
    apply existsb_exists in E as (d & Hd & <-%same_codec_key). apply list_elem_of_fmap_2.
    by apply list_elem_of_In.
  - rewrite map_app, elem_of_app. destruct Hk as [?|[->|?]]; [by left; left|left; right; left|by right].
Qed.

Lemma negotiation_of_matches regs codecs exact partial chosen :
  matches_ok regs codecs exact partial →
  chosen = (match exact with [] => partial | _ => exact end) →
  negotiation regs codecs (foldl add_codec [] chosen).
Proof.
  intros [H1 H2 H3] Hch.
  assert (Hmem : ∀ k, k ∈ foldl add_codec [] chosen → k ∈ chosen).
  { intros k [Hk|?]%add_codecs_elem; [by apply not_elem_of_nil in Hk|done]. }
  assert (Hapt : ∀ k, apt_among chosen k → apt_among (foldl add_codec [] chosen) k).
  { intros k Ha apt E. destruct (Ha apt E) as (b & Hb & Hp).
    assert (Hk : codec_key b ∈ map codec_key (foldl add_codec [] chosen)) by (apply add_codecs_key; auto).
    apply list_elem_of_fmap_1 in Hk as (b' & [= _ Hpt] & Hb'). exists b'. split; congruence. }
  assert (Hin : ∀ k, k ∈ chosen → k ∈ codecs ∧
    (matches_exactly regs k ∨ matches_by_name regs k) ∧ apt_among chosen k).
  { intros k Hk. subst chosen. destruct exact as [|x exact]; [exact (H2 k Hk)|].
    destruct (H1 k Hk) as (? & ? & ?). auto. }
  split; intros k Hk.
  - by apply Hin, Hmem.
  - by apply Hin, Hmem.
  - by apply Hapt, Hin, Hmem.
  - intros Ha Hx. specialize (H3 k Hk Ha Hx). subst chosen.
    destruct exact as [|x exact]; [by apply not_elem_of_nil in H3|].
    split; [apply add_codecs_key; auto|]. intros k' Hk'%Hmem. by apply H1.
Qed.

(** What a section of another kind, or one met when the kind is negotiated
    already, leaves alone. *)
Record kind_unchanged (typ : RTPCodecType) (c c' : MediaConfig) : Prop := {
  ku_negotiated : negotiated_codecs c' typ = negotiated_codecs c typ;
  ku_registered : registered_codecs c' typ = registered_codecs c typ;
  ku_flag : kind_negotiated c' typ = kind_negotiated c typ
}.

#[export] Instance kind_unchanged_preorder typ : PreOrder (kind_unchanged typ).
Proof. split; [by split|]. intros c1 c2 c3 [] []. split; congruence. Qed.

Lemma update_header_extensions_unchanged typ typ' exts c :
  kind_unchanged typ c
    (foldl (λ c e, update_header_extension c (hep_id e) (hep_uri e) typ') c exts).
Proof.
  revert c. induction exts as [|e exts IH]; intros c; [done|]. simpl. etrans; [|apply IH].
  unfold update_header_extension. destruct (foldl _ _ _) as [p n]. split; by destruct typ.
Qed.

Definition kind_name (typ : RTPCodecType) : string :=
  match typ with Audio => "audio" | Video => "video" | Codec_Unspecified => "" end.

Definition section_name (media : MediaDescription) : string :=
  to_lowercase (mn_media (md_media_name media)).

Lemma section_kind_Some c media typ :
  typ ≠ Codec_Unspecified →
  section_kind c media = Some typ ↔ kind_negotiated c typ = false ∧ section_name media = kind_name typ.
Proof.
  intros Ht. unfold section_kind, kind_negotiated. fold (section_name media).
  assert (Hn : section_name media = "audio" ∨ section_name media = "video" ∨
    (section_name media ≠ "audio" ∧ section_name media ≠ "video")).
  { destruct (decide (section_name media = "audio")), (decide (section_name media = "video")); auto. }
  destruct typ; [done|..]; cbn [kind_name];
    (destruct Hn as [->|[->|[H1%String.eqb_neq H2%String.eqb_neq]]];
      [..|rewrite H1, H2; apply String.eqb_neq in H1; apply String.eqb_neq in H2]);
    destruct (mc_negotiated_audio c), (mc_negotiated_video c); simpl; split; try done; by intros [].
Qed.

Lemma section_kind_known c media typ : section_kind c media = Some typ → typ ≠ Codec_Unspecified.
Proof. unfold section_kind. repeat case_match; by intros [= <-]. Qed.

Lemma update_from_media_unchanged media c typ :
  section_kind c media ≠ Some typ → kind_unchanged typ c (update_from_media media c).1.
Proof.
  unfold update_from_media. destruct (section_kind c media) as [typ'|] eqn:Ek; [|done].
  intros Hne. assert (Hk : typ ≠ typ') by congruence. apply section_kind_known in Ek as Ht.
  assert (Hm : kind_unchanged typ c (mark_negotiated c typ')).
  { split; [by destruct typ|by destruct typ|]. unfold kind_negotiated, mark_negotiated; cbn.
    generalize (mc_negotiated_video c), (mc_negotiated_audio c). by destruct typ, typ'; intros [] []. }
  assert (Hp : ∀ l, kind_unchanged typ c (push_codecs (mark_negotiated c typ') l typ')).
  { intros l. etrans; [exact Hm|]. split; by destruct typ, typ'. }
  destruct (codecs ← _; _) as [[exact partial]|e|]; [|done..].
  case_match; [|done]. destruct (rtp_extensions_from_media_description media); [|apply Hp..].
  simpl. etrans; [apply Hp|apply update_header_extensions_unchanged].
Qed.

Lemma update_from_media_negotiates media c typ c' :
  section_kind c media = Some typ → negotiated_codecs c typ = [] →
  update_from_media media c = (c', Ok ()) →
  kind_negotiated c' typ = true ∧ ∃ codecs, codecs_from_media_description media = Ok codecs ∧
    negotiation (registered_codecs c typ) codecs (negotiated_codecs c' typ).
Proof.
  intros Hk Hn. apply section_kind_known in Hk as Ht. unfold update_from_media. rewrite Hk.
  assert (Hm : negotiated_codecs (mark_negotiated c typ) typ = [] ∧
    registered_codecs (mark_negotiated c typ) typ = registered_codecs c typ ∧
    kind_negotiated (mark_negotiated c typ) typ = true).
  { split_and!; [by destruct typ|by destruct typ|]. unfold kind_negotiated, mark_negotiated; cbn.
    generalize (mc_negotiated_video c), (mc_negotiated_audio c). by destruct typ; intros [] []. }
  destruct Hm as (Hm1 & Hm2 & Hm3).
  destruct (codecs_from_media_description media) as [codecs| |]; simpl; [|by intros [=]..].
  destruct (collect_matches _ typ codecs) as [[exact partial]| |] eqn:Ec; [|by intros [=]..].
  apply collect_matches_ok in Ec as Hok; [|done]. rewrite Hm2 in Hok.
  assert (Hneg := negotiation_of_matches _ _ _ _ _ Hok eq_refl).
  intros Hc. enough (kind_negotiated c' typ = true ∧ negotiated_codecs c' typ =
    foldl add_codec [] (match exact with [] => partial | _ => exact end)) as [-> ->] by eauto.
  destruct exact as [|x exact], partial as [|y partial]; [by injection Hc as <-|..];
    (destruct (rtp_extensions_from_media_description media); [|discriminate Hc..];
     injection Hc as <-;
     match goal with |- context [foldl _ ?c1 _] =>
       destruct (update_header_extensions_unchanged typ typ a c1) as [-> _ ->] end;
     split; [by destruct typ|]; rewrite <- Hm1; by destruct typ).
Qed.

(** C17. The first section of a kind in a remote description negotiates the
    codecs of that kind, and the later sections do not touch them: a negotiated
    codec is one the section lists and agrees with a registered codec in its
    format parameters or at least in its MIME type; one that repairs another
    (an [apt] parameter) is negotiated only together with it; every listed codec
    with the format parameters of a registered one is negotiated, and then no
    codec that only agrees in the MIME type is. *)
Theorem negotiated_codecs_sound desc c c' typ pre media post :
  update_from_remote_description desc c = (c', Ok ()) →
  media_descriptions desc = pre ++ media :: post →
  typ ≠ Codec_Unspecified → section_name media = kind_name typ →
  (∀ m, m ∈ pre → section_name m ≠ kind_name typ) →
  kind_negotiated c typ = false → negotiated_codecs c typ = [] →
  ∃ codecs, codecs_from_media_description media = Ok codecs ∧
    negotiation (registered_codecs c typ) codecs (negotiated_codecs c' typ).
Proof.
  unfold update_from_remote_description. intros Hu Hd Ht Hname Hpre Hk Hn. rewrite Hd in Hu.
  apply forM_app_ok in Hu as (c1 & H1 & (c2 & H2 & H3)%forM_cons_ok).
  assert (Hc1 : kind_unchanged typ c c1).
  { replace c1 with (forM pre update_from_media c).1 by by rewrite H1. clear c1 c2 H1 H2 H3 Hk Hn.
    apply (forM_inv (kind_unchanged typ c)); [|done]. intros m s Hm Hs. etrans; [exact Hs|].
    apply update_from_media_unchanged. rewrite section_kind_Some by done. intros [_ E].
    by apply (Hpre m Hm). }
  destruct Hc1 as [Hn1 Hr1 Hk1].
  apply (update_from_media_negotiates _ _ typ) in H2 as (Hk2 & codecs & Hcodecs & Hneg);
    [|rewrite section_kind_Some by done; split; congruence|congruence].
  assert (Hc3 : kind_negotiated c' typ = true ∧ negotiated_codecs c' typ = negotiated_codecs c2 typ).
  { replace c' with (forM post update_from_media c2).1 by by rewrite H3.
    apply (forM_inv (λ s, kind_negotiated s typ = true ∧ negotiated_codecs s typ = negotiated_codecs c2 typ));
      [|done].
    intros m s _ [Hs1 Hs2]. destruct (update_from_media_unchanged m s typ) as [-> _ ->]; [|done].
    rewrite section_kind_Some by done. intros [E _]. congruence. }
  exists codecs. split; [done|]. destruct Hc3 as [_ ->]. congruence.
Qed.

End negotiation.
