(* ===== verification/Config.v ===== *)
(** * Certificates and configurations

    server/certificate.rs (the fingerprint type and [get_fingerprints]),
    configs/server_config.rs and configs/session_config.rs. *)

From Stdlib Require Import ZArith Lia.
From Stdlib Require Strings.Byte.
From stdpp Require Import base numbers strings gmap list.
From S2P Require Import Prelude RustStr Enums Types Sdp Codec ReceiverStream.
From S2P Require Import Interceptors MediaConfig.

(** [RTCDtlsFingerprint]. *)
Record RTCDtlsFingerprint := { fp_algorithm : string; fp_value : string }.

(** [impl TryFrom<&str> for RTCDtlsFingerprint]. *)
Definition fingerprint_try_from (value : string) : outcome RTCDtlsFingerprint :=
  match split_whitespace value with
  | [a; v] => Ok {| fp_algorithm := a; fp_value := v |}
  | _ => Err (ErrOther "invalid fingerprint")
  end.

(** The functions of the [sha2], [base64], [dtls] and [sctp] crates that the
    configuration and the credentials use. *)
Class ConfigOps `{T : ExtTypes} := {
  sha256 : bytes → bytes;
  base64_encode : bytes → string;
  (** The DER blocks of [dtls::crypto::Certificate::certificate]. *)
  certificate_ders : DtlsCertificate → list bytes;
  sctp_endpoint_config_default : SctpEndpointConfig;
  sctp_server_config_default : SctpServerConfig;
  dtls_handshake_config_default : HandshakeConfig;
  (** [ServerConfig::transport.sctp_port()] and [max_message_size()]. *)
  sctp_port : SctpServerConfig → Z;
  sctp_max_message_size : SctpServerConfig → Z
}.

(** Documented sizes: a SHA-256 digest has 32 bytes; padded base64 has four
    characters for every three bytes begun, none of them a white space. *)
Class ConfigLaws `{O : ConfigOps} := {
  sha256_length b : length (sha256 b) = 32;
  base64_length b :
    str_len (base64_encode b) = (4 * ((Z.of_nat (length b) + 2) / 3))%Z
}.

Section config.
Context `{O : ConfigOps}.

(** [RTCCertificate]; [expires] is a [SystemTime], in nanoseconds. *)
Record RTCCertificate := { dtls_certificate : DtlsCertificate; expires : Z }.

(** [RTCCertificate::from_existing]. *)
Definition certificate_from_existing (c : DtlsCertificate) (e : Z) : RTCCertificate :=
  {| dtls_certificate := c; expires := e |}.

(** [RTCCertificate::get_fingerprints]: one SHA-256 fingerprint per DER block,
    its bytes in lower-case hexadecimal with colons between. *)
Definition get_fingerprints (c : RTCCertificate) : list RTCDtlsFingerprint :=
  map (λ der, {| fp_algorithm := "sha-256";
                 fp_value := str_join ":" (map (λ x, show_02x (byte_Z x)) (sha256 der)) |})
      (certificate_ders (dtls_certificate c)).

Record ServerConfig := {
  certificates : list RTCCertificate;
  dtls_handshake_config : HandshakeConfig;
  sctp_endpoint_config : SctpEndpointConfig;
  sctp_server_config : SctpServerConfig;
  media_config : MediaConfig;
  idle_timeout : Duration
}.

(** [ServerConfig::new]: thirty seconds of idle time. *)
Definition server_config_new (certs : list RTCCertificate) : ServerConfig :=
  {| certificates := certs;
     media_config := media_config_default;
     sctp_endpoint_config := sctp_endpoint_config_default;
     sctp_server_config := sctp_server_config_default;
     dtls_handshake_config := dtls_handshake_config_default;
     idle_timeout := 30 * 1000000000 |}%Z.

(** The builder methods [with_*]. *)
Definition with_media_config (c : ServerConfig) (m : MediaConfig) : ServerConfig :=
  {| certificates := certificates c; dtls_handshake_config := dtls_handshake_config c;
     sctp_endpoint_config := sctp_endpoint_config c;
     sctp_server_config := sctp_server_config c;
     media_config := m; idle_timeout := idle_timeout c |}.
Definition with_sctp_server_config (c : ServerConfig) (s : SctpServerConfig) : ServerConfig :=
  {| certificates := certificates c; dtls_handshake_config := dtls_handshake_config c;
     sctp_endpoint_config := sctp_endpoint_config c;
     sctp_server_config := s;
     media_config := media_config c; idle_timeout := idle_timeout c |}.
Definition with_sctp_endpoint_config (c : ServerConfig) (s : SctpEndpointConfig)
  : ServerConfig :=
  {| certificates := certificates c; dtls_handshake_config := dtls_handshake_config c;
     sctp_endpoint_config := s;
     sctp_server_config := sctp_server_config c;
     media_config := media_config c; idle_timeout := idle_timeout c |}.
Definition with_dtls_handshake_config (c : ServerConfig) (d : HandshakeConfig)
  : ServerConfig :=
  {| certificates := certificates c; dtls_handshake_config := d;
     sctp_endpoint_config := sctp_endpoint_config c;
     sctp_server_config := sctp_server_config c;
     media_config := media_config c; idle_timeout := idle_timeout c |}.
Definition with_idle_timeout (c : ServerConfig) (d : Duration) : ServerConfig :=
  {| certificates := certificates c; dtls_handshake_config := dtls_handshake_config c;
     sctp_endpoint_config := sctp_endpoint_config c;
     sctp_server_config := sctp_server_config c;
     media_config := media_config c; idle_timeout := d |}.

(** [SessionConfig] and its constructor. *)
Record SessionConfig := { server_config : ServerConfig; local_addr : SocketAddr }.
Definition session_config_new (c : ServerConfig) (a : SocketAddr) : SessionConfig :=
  {| server_config := c; local_addr := a |}.

End config.
