(* ===== verification/Certificate.v ===== *)
(** * Certificates (server/certificate.rs)

    Creation from key material, the text form with its expiry block, and the
    fingerprints a description carries.  The functions of the [rcgen], [ring],
    [pem] and [dtls] crates are an interface.  The two functions on texts are
    compiled only with the feature [pem]. *)

From Stdlib Require Import ZArith Lia Ascii.
From Stdlib Require Strings.Byte.
From stdpp Require Import base numbers strings gmap list.
From S2P Require Import Prelude RustStr Enums Types Sdp Codec ReceiverStream.
From S2P Require Import Interceptors MediaConfig Config.

(** The signature algorithms of [rcgen] the source names. *)
Inductive SignatureAlgorithm : Type :=
| PKCS_ED25519
| PKCS_ECDSA_P256_SHA256
| PKCS_RSA_SHA256.

#[export] Instance SignatureAlgorithm_eq_dec : EqDecision SignatureAlgorithm.
Proof. solve_decision. Defined.

(** A block of a PEM text. *)
Record Pem := { pem_tag : string; pem_contents : bytes }.

(** [rcgen], [ring], [pem] and [dtls::crypto].  A failing call gives the text
    of its error, or the error the [?] operator converts it to. *)
Class CertificateTypes := {
  KeyPair : Type;
  RingKeyPair : Type;
  X509Certificate : Type;
  ParamsRest : Type
}.

Class CertificateOps `{T : ExtTypes} `{KT : CertificateTypes} := {
  params_rest_default : ParamsRest;
  params_not_after_default : Z;
  is_compatible : KeyPair → SignatureAlgorithm → bool;
  serialize_key_der : KeyPair → bytes;
  (** [Ed25519KeyPair::from_pkcs8] and its kin. *)
  ring_from_pkcs8 : SignatureAlgorithm → bytes → RingKeyPair + string;
  x509_get_key_pair : X509Certificate → KeyPair;
  x509_serialize_der : X509Certificate → outcome bytes;
  (** The certificate with a list of DER blocks and a private key: its kind,
      key and serialised form. *)
  dtls_certificate_new : list bytes → SignatureAlgorithm * RingKeyPair * bytes → DtlsCertificate;
  dtls_certificate_from_pem : string → outcome DtlsCertificate;
  dtls_certificate_serialize_pem : DtlsCertificate → string;
  pem_parse : string → Pem + string;
  pem_encode : Pem → string
}.

Section certificate.
Context `{O : ConfigOps} `{KT : CertificateTypes} `{KO : !CertificateOps}.

(** [rcgen::CertificateParams], with the fields the source touches. *)
Record CertificateParams := {
  cp_alg : SignatureAlgorithm;
  cp_subject_alt_names : list string;
  cp_not_after : Z;
  cp_key_pair : option KeyPair;
  cp_rest : ParamsRest
}.

(** [CertificateParams::new]: the default algorithm is ECDSA. *)
Definition params_new (subject_alt_names : list string) : CertificateParams :=
  {| cp_alg := PKCS_ECDSA_P256_SHA256; cp_subject_alt_names := subject_alt_names;
     cp_not_after := params_not_after_default; cp_key_pair := None;
     cp_rest := params_rest_default |}.

(** [map_err] to an error with the text of the crate's error behind a prefix. *)
Definition map_err_other {A} (prefix : string) (r : A + string) : outcome A :=
  match r with inl a => Ok a | inr e => Err (ErrOther (prefix +:+ e)) end.

(** ** Little-endian words *)

(** The byte with the value of an integer modulo 256. *)
Definition byte_of_Z (z : Z) : Byte.byte :=
  match Byte.of_N (Z.to_N (z mod 256)) with Some b => b | None => Byte.x00 end.

(** [u64::to_le_bytes] for [n = 8]. *)
Fixpoint le_bytes (n : nat) (z : Z) : bytes :=
  match n with
  | 0 => []
  | S n => byte_of_Z z :: le_bytes n (z / 256)
  end.

(** [u64::from_le_bytes]. *)
Fixpoint from_le_bytes (b : bytes) : Z :=
  match b with
  | [] => 0
  | x :: b => byte_Z x + 256 * from_le_bytes b
  end%Z.

(** ** Random names *)

Definition RUNES_ALPHA : string := "abcdefghijklmnopqrstuvwxyzABCDEFGHIJKLMNOPQRSTUVWXYZ".

(** [math_rand_alpha]: one letter per number drawn from [0..52]. *)
Definition math_rand_alpha (draws : list nat) : outcome string :=
  foldO (λ s idx, match String.get idx RUNES_ALPHA with
                  | Some c => Ok (s +:+ String c "")
                  | None => Panic
                  end) "" draws.

(** ** Creation *)

(** The first of the three algorithms the key pair is compatible with. *)
Definition key_algorithm (key_pair : KeyPair) : outcome SignatureAlgorithm :=
  if is_compatible key_pair PKCS_ED25519 then Ok PKCS_ED25519
  else if is_compatible key_pair PKCS_ECDSA_P256_SHA256 then Ok PKCS_ECDSA_P256_SHA256
  else if is_compatible key_pair PKCS_RSA_SHA256 then Ok PKCS_RSA_SHA256
  else Err (ErrOther "Unsupported key_pair").

(** [rcgen::Certificate::from_params] and the time of a certificate on the ARM
    architecture are arguments. *)
Section create.
Variable x509_from_params : CertificateParams → outcome X509Certificate.
Variables (target_arm : bool) (now : Z).

(** [RTCCertificate::from_params]. *)
Definition certificate_from_params (params : CertificateParams) : outcome RTCCertificate :=
  let not_after := cp_not_after params in
  x509_cert ← x509_from_params params;
  let key_pair := x509_get_key_pair x509_cert in
  let serialized_der := serialize_key_der key_pair in
  alg ← key_algorithm key_pair;
  key ← map_err_other "" (ring_from_pkcs8 alg serialized_der);
  let expires_at := if target_arm then (now + 172800 * 1000000000)%Z else not_after in
  der ← x509_serialize_der x509_cert;
  Ok {| dtls_certificate := dtls_certificate_new [der] (alg, key, serialized_der);
        expires := expires_at |}.

(** [RTCCertificate::from_key_pair]; [draws] are the random indices of the
    sixteen letters of its name. *)
Definition certificate_from_key_pair (draws : list nat) (key_pair : KeyPair)
  : outcome RTCCertificate :=
  name ← math_rand_alpha draws;
  let params := params_new [name] in
  alg ← key_algorithm key_pair;
  certificate_from_params
    {| cp_alg := alg; cp_subject_alt_names := cp_subject_alt_names params;
       cp_not_after := cp_not_after params; cp_key_pair := Some key_pair;
       cp_rest := cp_rest params |}.
End create.

(** ** Text form *)

(** [SystemTime::UNIX_EPOCH.checked_add(Duration::from_secs(secs))]: seconds
    are kept in 64 bits with a sign. *)
Definition epoch_checked_add (secs : Z) : option Z :=
  if (secs <? 2 ^ 63)%Z then Some (secs * 1000000000)%Z else None.

(** [RTCCertificate::from_pem]. *)
Definition certificate_from_pem (pem_str : string) : outcome RTCCertificate :=
  match str_split_pat empty_line pem_str with
  | [] => Err (ErrInvalidPEM "empty PEM")
  | first_block :: pem_blocks =>
      expires_pem ← map_err_other "can't parse PEM: " (pem_parse first_block);
      if negb (String.eqb (pem_tag expires_pem) "EXPIRES") then
        Err (ErrInvalidPEM ("invalid tag (expected: 'EXPIRES', got '" +:+ pem_tag expires_pem +:+ "')"))
      else if (length (pem_contents expires_pem) <? 8)%nat then Panic
      else
        match epoch_checked_add (from_le_bytes (take 8 (pem_contents expires_pem))) with
        | None => Err (ErrInvalidPEM "failed to calculate SystemTime")
        | Some expires =>
            dtls_certificate ← dtls_certificate_from_pem (str_join empty_line pem_blocks);
            Ok (certificate_from_existing dtls_certificate expires)
        end
  end.

(** [RTCCertificate::serialize_pem]: panics for a time before the epoch. *)
Definition certificate_serialize_pem (c : RTCCertificate) : outcome string :=
  if (expires c <? 0)%Z then Panic
  else
    let expires_pem :=
      {| pem_tag := "EXPIRES"; pem_contents := le_bytes 8 (expires c / 1000000000) |} in
    Ok (pem_encode expires_pem +:+ String ch_newline ""
        +:+ dtls_certificate_serialize_pem (dtls_certificate c)).

End certificate.

(** A tag of capital letters. *)
Fixpoint capitals (s : string) : bool :=
  match s with
  | EmptyString => true
  | String a s => (64 <? N_of_ascii a)%N && (N_of_ascii a <? 91)%N && capitals s
  end.

(** Documented behaviour: an encoded block is a text without an empty line that
    ends with a line break, parsing it gives the block back whether the last
    line break is there or not; a DTLS certificate has the blocks it was made
    of, and its text parses to itself. *)
Class CertificateLaws `{O : ConfigOps} `{KT : CertificateTypes} `{KO : !CertificateOps} := {
  pem_encode_lines p : capitals (pem_tag p) = true → ∃ body,
    pem_encode p = body +:+ String ch_newline "" ∧
    no_empty_line (body +:+ String ch_newline "") = true ∧ pem_parse body = inl p;
  dtls_certificate_ders l k : certificate_ders (dtls_certificate_new l k) = l;
  dtls_certificate_pem c :
    dtls_certificate_from_pem (dtls_certificate_serialize_pem c) = Ok c
}.

(** ** Properties *)

Section properties.
Context `{O : ConfigOps} `{KT : CertificateTypes} `{KO : !CertificateOps}.

Lemma byte_of_Z_value z : byte_Z (byte_of_Z z) = (z mod 256)%Z.
Proof.
  unfold byte_Z, byte_of_Z. pose proof (Z.mod_pos_bound z 256 ltac:(lia)) as Hz.
  destruct (Byte.of_N (Z.to_N (z mod 256))) as [b|] eqn:E.
  - apply Byte.to_of_N in E. rewrite E. lia.
  - exfalso. apply Byte.of_N_None_iff in E. lia.
Qed.

Lemma from_le_bytes_le_bytes n z : from_le_bytes (le_bytes n z) = (z mod 256 ^ Z.of_nat n)%Z.
Proof.
  revert z. induction n as [|n IH]; intros z; cbn [le_bytes from_le_bytes].
  { by rewrite Z.pow_0_r, Z.mod_1_r. }
  rewrite IH, byte_of_Z_value, Nat2Z.inj_succ, Z.pow_succ_r by lia.
  rewrite Z.rem_mul_r by lia. done.
Qed.

Lemma le_bytes_length n z : length (le_bytes n z) = n.
Proof. revert z. induction n; intros z; simpl; [done|]. by f_equal. Qed.

(** An occurrence of the pattern is found on the first round. *)
Lemma str_split_pat_found p s l r :
  str_find p s = Some (l, r) → p ≠ "" → ∃ rest,
    str_split_pat p s = l :: rest ∧ str_join p rest = r.
Proof.
  intros Hf Hp. pose proof (str_find_Some _ _ _ _ Hf) as Hs.
  pose proof (str_join_split_pat p s) as Hj. unfold str_split_pat in Hj |- *.
  assert (Hlen : ∃ n, String.length s = S n).
  { rewrite Hs. destruct p as [|a p]; [done|]. destruct l as [|b l]; simpl; eauto. }
  destruct Hlen as [n Hn]. rewrite Hn in Hj |- *. simpl in Hj |- *. rewrite Hf in Hj |- *.
  eexists. split; [done|]. destruct n as [|n]; [done|]. simpl.
  destruct (str_find p r) as [[l' r']|] eqn:E; [|done].
  cbn [str_join] in Hj |- *. simpl in Hj. rewrite E in Hj.
  rewrite Hs in Hj. by apply append_inj_l, append_inj_l in Hj.
Qed.

Context `{KL : !CertificateLaws} `{CL : !ConfigLaws}.

(** C40. A certificate's text form can be read back: for a time of expiry
    between the epoch and the largest time of the system the text exists, and
    reading it gives the same certificate, which expires at the same whole
    second. *)
Theorem certificate_pem_roundtrip c :
  (0 ≤ expires c < 2 ^ 63 * 1000000000)%Z →
  ∃ text, certificate_serialize_pem c = Ok text ∧
    certificate_from_pem text =
      Ok {| dtls_certificate := dtls_certificate c;
            expires := expires c / 1000000000 * 1000000000 |}%Z.
Proof.
  intros Hexp. unfold certificate_serialize_pem.
  destruct (Z.ltb_spec (expires c) 0) as [|_]; [lia|]. eexists. split; [done|].
  set (p := {| pem_tag := "EXPIRES"; pem_contents := le_bytes 8 (expires c / 1000000000) |}).
  destruct (pem_encode_lines p eq_refl) as (body & -> & Hline & Hparse).
  set (t := dtls_certificate_serialize_pem (dtls_certificate c)).
  replace ((body +:+ String ch_newline "") +:+ String ch_newline "" +:+ t)
    with (body +:+ empty_line +:+ t) by (by rewrite append_assoc).
  pose proof (str_find_empty_line body t Hline) as Hf.
  destruct (str_split_pat_found empty_line _ _ _ Hf) as (rest & Hsplit & Hjoin); [done|].
  unfold certificate_from_pem. rewrite Hsplit, Hparse, Hjoin.
  cbn [mbind outcome_bind map_err_other p pem_tag pem_contents]. rewrite le_bytes_length.
  rewrite take_ge by (by rewrite le_bytes_length). rewrite from_le_bytes_le_bytes.
  assert (Hs : (0 ≤ expires c / 1000000000 < 2 ^ 63)%Z).
  { split; [apply Z.div_pos; lia|apply Z.div_lt_upper_bound; lia]. }
  rewrite Z.mod_small by (split; [lia|]; etrans; [apply Hs|done]).
  unfold epoch_checked_add. destruct (Z.ltb_spec (expires c / 1000000000) (2 ^ 63)); [|lia].
  cbn -[Z.mul Z.div]. unfold t. by rewrite dtls_certificate_pem.
Qed.

(** A certificate made from a key pair has one DER block, so one fingerprint,
    and only the three named algorithms are accepted. *)
Lemma certificate_from_key_pair_spec x509_from_params arm now draws key_pair c :
  certificate_from_key_pair x509_from_params arm now draws key_pair = Ok c →
  length (get_fingerprints c) = 1 ∧
  ∃ alg, key_algorithm key_pair = Ok alg ∧ is_compatible key_pair alg = true.
Proof.
  unfold certificate_from_key_pair, certificate_from_params. intros H.
  destruct (math_rand_alpha draws); [|discriminate H..]. simpl in H.
  destruct (key_algorithm key_pair) as [alg| |] eqn:Ea; [|discriminate H..]. simpl in H.
  destruct (x509_from_params _) as [x| |]; [|discriminate H..]. simpl in H.
  destruct (key_algorithm (x509_get_key_pair x)); [|discriminate H..]. simpl in H.
  destruct (ring_from_pkcs8 _ _); [|discriminate H]. simpl in H.
  destruct (x509_serialize_der x) as [der| |]; [|discriminate H..]. injection H as <-. split.
  - unfold get_fingerprints. cbn [dtls_certificate]. by rewrite dtls_certificate_ders.
  - exists alg. split; [done|]. unfold key_algorithm in Ea. by repeat case_match; outcome_inv.
Qed.

(** Every fingerprint of a certificate is a SHA-256 fingerprint of 95
    characters, and reading the text it is written as in a description, the
    algorithm and the value with a space between, gives it back. *)
Lemma certificate_fingerprint_roundtrip c fp :
  fp ∈ get_fingerprints c →
  fp_algorithm fp = "sha-256" ∧ String.length (fp_value fp) = 95 ∧
  fingerprint_try_from (fp_algorithm fp +:+ String ch_space (fp_value fp)) = Ok fp.
Proof.
  unfold get_fingerprints. intros (der & -> & _)%list_elem_of_fmap_1. cbn [fp_algorithm fp_value].
  pose proof (sha256_length der) as Hlen.
  destruct (str_join_spec ":" 2 (map (λ x, show_02x (byte_Z x)) (sha256 der))) as [Hn Hl]; [done| | |].
  { apply Forall_forall. intros s (x & -> & _)%list_elem_of_fmap_1. apply show_02x_spec. }
  { by destruct (sha256 der). }
  rewrite length_map, Hlen in Hl. split_and!; [done|lia|].
  unfold fingerprint_try_from. rewrite words_pair; [done..| |done].
  intros E. rewrite E in Hl. simpl in Hl. lia.
Qed.

(** Reading a text with a short expiry block panics. *)
Lemma certificate_from_pem_short body rest p :
  no_empty_line (body +:+ String ch_newline "") = true → pem_parse body = inl p →
  pem_tag p = "EXPIRES" → length (pem_contents p) < 8 →
  certificate_from_pem (body +:+ empty_line +:+ rest) = Panic.
Proof.
  intros Hline Hparse Htag Hlen. pose proof (str_find_empty_line body rest Hline) as Hf.
  destruct (str_split_pat_found empty_line _ _ _ Hf) as (blocks & Hsplit & _); [done|].
  unfold certificate_from_pem. rewrite Hsplit, Hparse. simpl. rewrite Htag. simpl.
  by destruct (Nat.ltb_spec (length (pem_contents p)) 8); [|lia].
Qed.

End properties.
