(* ===== verification/Endpoint.v ===== *)
(** * Credentials, candidates, transports and endpoints

    endpoint/candidate.rs, endpoint/transport.rs and endpoint/mod.rs. *)

From Stdlib Require Import ZArith Lia.
From Stdlib Require Strings.Byte.
From stdpp Require Import base numbers strings gmap list.
From S2P Require Import Prelude RustStr Enums Types Sdp Codec ReceiverStream.
From S2P Require Import Interceptors MediaParse MediaConfig Config.

(** ** Credentials *)

Record RTCIceParameters := { username_fragment : string; password : string }.

Record DTLSParameters := { dp_role : DTLSRole; dp_fingerprints : list RTCDtlsFingerprint }.

Record ConnectionCredentials := {
  ice_params : RTCIceParameters;
  dtls_params : DTLSParameters
}.

(** [ConnectionCredentials::valid]: the lengths of RFC 8445, section 5.3. *)
Definition credentials_valid (c : ConnectionCredentials) : bool :=
  let u := str_len (username_fragment (ice_params c)) in
  let p := str_len (password (ice_params c)) in
  ((4 <=? u) && (u <=? 256) && (22 <=? p) && (p <=? 256))%Z.

Section credentials.
Context `{O : SdpOps} `{CO : !ConfigOps}.

(** [ConnectionCredentials::new]; [user] and [pass] are the nine and eighteen
    bytes the random generator filled in. *)
Definition credentials_new (user pass : bytes) (fingerprints : list RTCDtlsFingerprint)
    (remote_role : DTLSRole) : ConnectionCredentials :=
  {| ice_params := {| username_fragment := base64_encode user;
                      password := base64_encode pass |};
     dtls_params := {| dp_fingerprints := fingerprints;
                       dp_role := if bool_decide (remote_role = Server)
                                  then Client else Server |} |}.

(** The inner loop of [DTLSRole::from(&SessionDescription)]: the role of the
    first [setup] attribute of a section. *)
Fixpoint setup_role (l : list Attribute) : option DTLSRole :=
  match l with
  | [] => None
  | a :: l =>
      if String.eqb (attr_key a) "setup" then
        Some (match attr_value a with
              | Some v => if String.eqb v "active" then Client
                          else if String.eqb v "passive" then Server
                          else Auto
              | None => Auto
              end)
      else setup_role l
  end.

(** [impl From<&SessionDescription> for DTLSRole]. *)
Definition role_from_sdp (d : SessionDescription) : DTLSRole :=
  (fix loop l :=
     match l with
     | [] => Auto
     | m :: l => match setup_role (md_attributes m) with Some r => r | None => loop l end
     end) (media_descriptions d).

(** [sdp.media_descriptions.iter().find_map(|m| m.attribute(key))], then the
    two [ok_or(ErrAttributeNotFound)?]. *)
Fixpoint find_attribute (key : string) (l : list MediaDescription) : option (option string) :=
  match l with
  | [] => None
  | m :: l => match md_attribute m key with Some v => Some v | None => find_attribute key l end
  end.
Definition required_attribute (key : string) (d : SessionDescription) : outcome string :=
  v ← ok_or (find_attribute key (media_descriptions d)) ErrAttributeNotFound;
  ok_or v ErrAttributeNotFound.

(** [ConnectionCredentials::from_sdp]. *)
Definition credentials_from_sdp (d : SessionDescription) : outcome ConnectionCredentials :=
  ufrag ← required_attribute "ice-ufrag" d;
  pwd ← required_attribute "ice-pwd" d;
  fingerprint ←
    match sd_attribute d "fingerprint" with
    | Some f => fingerprint_try_from f
    | None => f ← required_attribute "fingerprint" d; fingerprint_try_from f
    end;
  Ok {| ice_params := {| username_fragment := ufrag; password := pwd |};
        dtls_params := {| dp_role := role_from_sdp d; dp_fingerprints := [fingerprint] |} |}.

(** Base64 of nine and of eighteen bytes has twelve and twenty-four
    characters, inside the limits. *)
Lemma credentials_new_valid `{CL : !ConfigLaws} user pass fps role :
  length user = 9 → length pass = 18 → credentials_valid (credentials_new user pass fps role) = true.
Proof.
  intros Hu Hp. unfold credentials_valid. simpl. rewrite !base64_length, Hu, Hp. reflexivity.
Qed.

(** The two ends never take the same DTLS role. *)
Lemma credentials_new_role user pass fps role :
  dp_role (dtls_params (credentials_new user pass fps role)) ≠ role ∨ role = Role_Unspecified
  ∨ role = Auto.
Proof. simpl. destruct role; auto; case_bool_decide; left; congruence. Qed.

End credentials.

(** The constructors of [dtls::endpoint::Endpoint] and [sctp::Endpoint]. *)
Class TransportOps `{T : ExtTypes} := {
  dtls_endpoint_new : option HandshakeConfig → DtlsEndpoint;
  sctp_endpoint_new : SctpEndpointConfig → option SctpServerConfig → SctpEndpoint
}.

(** ** Candidates *)

Section endpoint.
Context `{T : ExtTypes} `{TO : !TransportOps}.

(** [Candidate], behind an [Rc] and never changed. *)
Record Candidate := {
  cand_session_id : SessionId;
  cand_endpoint_id : EndpointId;
  remote_conn_cred : ConnectionCredentials;
  local_conn_cred : ConnectionCredentials;
  cand_remote_description : RTCSessionDescription;
  cand_local_description : RTCSessionDescription;
  expired_time : Instant
}.

(** [Candidate::new]. *)
Definition candidate_new (sid : SessionId) (eid : EndpointId)
    (remote local : ConnectionCredentials) (rd ld : RTCSessionDescription)
    (expired : Instant) : Candidate :=
  {| cand_session_id := sid; cand_endpoint_id := eid; local_conn_cred := local;
     remote_conn_cred := remote; cand_remote_description := rd;
     cand_local_description := ld; expired_time := expired |}.

(** [get_remote_parameters] and [get_local_parameters]. *)
Definition get_remote_parameters (c : Candidate) : RTCIceParameters :=
  ice_params (remote_conn_cred c).
Definition get_local_parameters (c : Candidate) : RTCIceParameters :=
  ice_params (local_conn_cred c).

(** [Candidate::username]. *)
Definition cand_username (c : Candidate) : UserName :=
  username_fragment (ice_params (local_conn_cred c)) +:+ ":" +:+
  username_fragment (ice_params (remote_conn_cred c)).

(** ** Transports *)

Record Transport := {
  tr_four_tuple : FourTuple;
  tr_last_activity : Instant;
  tr_candidate : Candidate;
  tr_dtls_endpoint : DtlsEndpoint;
  tr_sctp_endpoint : SctpEndpoint;
  tr_sctp_associations : gmap Z SctpAssociation;
  tr_association_handle : option Z;
  tr_stream_id : option Z;
  tr_local_srtp_context : option SrtpContext;
  tr_remote_srtp_context : option SrtpContext
}.

(** [Transport::new]; [now] is [Instant::now()]. *)
Definition transport_new (now : Instant) (ft : FourTuple) (c : Candidate)
    (dtls : HandshakeConfig) (sctp : SctpEndpointConfig) (sctp_server : SctpServerConfig)
  : Transport :=
  {| tr_four_tuple := ft; tr_last_activity := now; tr_candidate := c;
     tr_dtls_endpoint := dtls_endpoint_new (Some dtls);
     tr_sctp_endpoint := sctp_endpoint_new sctp (Some sctp_server);
     tr_sctp_associations := ∅; tr_association_handle := None; tr_stream_id := None;
     tr_local_srtp_context := None; tr_remote_srtp_context := None |}.

(** Assignments to the fields of a transport. *)
Definition set_dtls_endpoint (t : Transport) (e : DtlsEndpoint) : Transport :=
  {| tr_four_tuple := tr_four_tuple t; tr_last_activity := tr_last_activity t;
     tr_candidate := tr_candidate t; tr_dtls_endpoint := e;
     tr_sctp_endpoint := tr_sctp_endpoint t; tr_sctp_associations := tr_sctp_associations t;
     tr_association_handle := tr_association_handle t; tr_stream_id := tr_stream_id t;
     tr_local_srtp_context := tr_local_srtp_context t;
     tr_remote_srtp_context := tr_remote_srtp_context t |}.
Definition set_sctp (t : Transport) (e : SctpEndpoint) (a : gmap Z SctpAssociation)
  : Transport :=
  {| tr_four_tuple := tr_four_tuple t; tr_last_activity := tr_last_activity t;
     tr_candidate := tr_candidate t; tr_dtls_endpoint := tr_dtls_endpoint t;
     tr_sctp_endpoint := e; tr_sctp_associations := a;
     tr_association_handle := tr_association_handle t; tr_stream_id := tr_stream_id t;
     tr_local_srtp_context := tr_local_srtp_context t;
     tr_remote_srtp_context := tr_remote_srtp_context t |}.
Definition set_srtp (t : Transport) (l r : option SrtpContext) : Transport :=
  {| tr_four_tuple := tr_four_tuple t; tr_last_activity := tr_last_activity t;
     tr_candidate := tr_candidate t; tr_dtls_endpoint := tr_dtls_endpoint t;
     tr_sctp_endpoint := tr_sctp_endpoint t; tr_sctp_associations := tr_sctp_associations t;
     tr_association_handle := tr_association_handle t; tr_stream_id := tr_stream_id t;
     tr_local_srtp_context := l; tr_remote_srtp_context := r |}.

(** [set_local_srtp_context] and [set_remote_srtp_context]. *)
Definition set_local_srtp_context (t : Transport) (c : SrtpContext) : Transport :=
  set_srtp t (Some c) (tr_remote_srtp_context t).
Definition set_remote_srtp_context (t : Transport) (c : SrtpContext) : Transport :=
  set_srtp t (tr_local_srtp_context t) (Some c).

(** [set_association_handle_and_stream_id]. *)
Definition set_association_handle_and_stream_id (t : Transport) (ah sid : Z) : Transport :=
  {| tr_four_tuple := tr_four_tuple t; tr_last_activity := tr_last_activity t;
     tr_candidate := tr_candidate t; tr_dtls_endpoint := tr_dtls_endpoint t;
     tr_sctp_endpoint := tr_sctp_endpoint t; tr_sctp_associations := tr_sctp_associations t;
     tr_association_handle := Some ah; tr_stream_id := Some sid;
     tr_local_srtp_context := tr_local_srtp_context t;
     tr_remote_srtp_context := tr_remote_srtp_context t |}.

(** [association_handle_and_stream_id]. *)
Definition association_handle_and_stream_id (t : Transport) : option Z * option Z :=
  (tr_association_handle t, tr_stream_id t).

(** [is_local_srtp_context_ready]. *)
Definition is_local_srtp_context_ready (t : Transport) : bool :=
  match tr_local_srtp_context t with Some _ => true | None => false end.

(** [keep_alive]; [now] is [Instant::now()]. *)
Definition keep_alive (now : Instant) (t : Transport) : Transport :=
  {| tr_four_tuple := tr_four_tuple t; tr_last_activity := now;
     tr_candidate := tr_candidate t; tr_dtls_endpoint := tr_dtls_endpoint t;
     tr_sctp_endpoint := tr_sctp_endpoint t; tr_sctp_associations := tr_sctp_associations t;
     tr_association_handle := tr_association_handle t; tr_stream_id := tr_stream_id t;
     tr_local_srtp_context := tr_local_srtp_context t;
     tr_remote_srtp_context := tr_remote_srtp_context t |}.

(** ** Endpoints *)

Record Endpoint := {
  ep_endpoint_id : EndpointId;
  ep_interceptor : Interceptor;
  ep_is_renegotiation_needed : bool;
  ep_remote_description : option RTCSessionDescription;
  ep_local_description : option RTCSessionDescription;
  ep_transports : gmap FourTuple Transport;
  ep_mids : list Mid;
  ep_transceivers : gmap Mid RTCRtpTransceiver
}.

(** [Endpoint::new]. *)
Definition endpoint_new (eid : EndpointId) (i : Interceptor) : Endpoint :=
  {| ep_endpoint_id := eid; ep_interceptor := i; ep_is_renegotiation_needed := false;
     ep_remote_description := None; ep_local_description := None;
     ep_transports := ∅; ep_mids := []; ep_transceivers := ∅ |}.

(** Assignments through the [get_mut_*] methods. *)
Definition ep_with_transports (e : Endpoint) (ts : gmap FourTuple Transport) : Endpoint :=
  {| ep_endpoint_id := ep_endpoint_id e; ep_interceptor := ep_interceptor e;
     ep_is_renegotiation_needed := ep_is_renegotiation_needed e;
     ep_remote_description := ep_remote_description e;
     ep_local_description := ep_local_description e;
     ep_transports := ts; ep_mids := ep_mids e; ep_transceivers := ep_transceivers e |}.
Definition ep_with_interceptor (e : Endpoint) (i : Interceptor) : Endpoint :=
  {| ep_endpoint_id := ep_endpoint_id e; ep_interceptor := i;
     ep_is_renegotiation_needed := ep_is_renegotiation_needed e;
     ep_remote_description := ep_remote_description e;
     ep_local_description := ep_local_description e;
     ep_transports := ep_transports e; ep_mids := ep_mids e;
     ep_transceivers := ep_transceivers e |}.
Definition ep_with_media (e : Endpoint) (mids : list Mid)
    (tvs : gmap Mid RTCRtpTransceiver) : Endpoint :=
  {| ep_endpoint_id := ep_endpoint_id e; ep_interceptor := ep_interceptor e;
     ep_is_renegotiation_needed := ep_is_renegotiation_needed e;
     ep_remote_description := ep_remote_description e;
     ep_local_description := ep_local_description e;
     ep_transports := ep_transports e; ep_mids := mids; ep_transceivers := tvs |}.

(** [set_remote_description], [set_local_description] and
    [set_renegotiation_needed] of [Endpoint]. *)
Definition ep_set_remote_description (e : Endpoint) (d : RTCSessionDescription) : Endpoint :=
  {| ep_endpoint_id := ep_endpoint_id e; ep_interceptor := ep_interceptor e;
     ep_is_renegotiation_needed := ep_is_renegotiation_needed e;
     ep_remote_description := Some d; ep_local_description := ep_local_description e;
     ep_transports := ep_transports e; ep_mids := ep_mids e;
     ep_transceivers := ep_transceivers e |}.
Definition ep_set_local_description (e : Endpoint) (d : RTCSessionDescription) : Endpoint :=
  {| ep_endpoint_id := ep_endpoint_id e; ep_interceptor := ep_interceptor e;
     ep_is_renegotiation_needed := ep_is_renegotiation_needed e;
     ep_remote_description := ep_remote_description e; ep_local_description := Some d;
     ep_transports := ep_transports e; ep_mids := ep_mids e;
     ep_transceivers := ep_transceivers e |}.
Definition set_renegotiation_needed (e : Endpoint) (b : bool) : Endpoint :=
  {| ep_endpoint_id := ep_endpoint_id e; ep_interceptor := ep_interceptor e;
     ep_is_renegotiation_needed := b;
     ep_remote_description := ep_remote_description e;
     ep_local_description := ep_local_description e;
     ep_transports := ep_transports e; ep_mids := ep_mids e;
     ep_transceivers := ep_transceivers e |}.

(** [add_transport], [remove_transport] and [has_transport]. *)
Definition add_transport (e : Endpoint) (t : Transport) : Endpoint :=
  ep_with_transports e (<[tr_four_tuple t := t]> (ep_transports e)).
Definition ep_remove_transport (e : Endpoint) (ft : FourTuple) : Endpoint * option Transport :=
  (ep_with_transports e (delete ft (ep_transports e)), ep_transports e !! ft).
Definition has_transport (e : Endpoint) (ft : FourTuple) : bool :=
  bool_decide (is_Some (ep_transports e !! ft)).

End endpoint.
