(* ===== verification/Description.v ===== *)
(** * Writing a session description (description/mod.rs)

    The functions that turn a list of media sections and the transceivers of
    an endpoint into an SDP.  A builder call [m = m.with_...] is a [let]. *)

From Stdlib Require Import ZArith Lia.
From stdpp Require Import base numbers strings gmap list.
From S2P Require Import Prelude RustStr Enums Types Sdp Codec ReceiverStream.
From S2P Require Import Interceptors MediaParse MediaConfig Config Endpoint.

Inductive RTCIceGatheringState : Type :=
| Ice_Unspecified
| Ice_New
| Ice_Gathering
| Ice_Complete.

#[export] Instance ice_gathering_eq_dec : EqDecision RTCIceGatheringState.
Proof. solve_decision. Defined.

(** [MediaSection]; its [Default] has an empty mid and no direction. *)
Record MediaSection := {
  ms_mid : Mid;
  ms_data : bool;
  ms_rid_map : gmap string string;
  ms_offered_direction : option RTCRtpTransceiverDirection
}.

Record AddDataMediaSectionParams := {
  adm_should_add_candidates : bool;
  adm_mid_value : string;
  adm_ice_params : RTCIceParameters;
  adm_dtls_role : ConnectionRole;
  adm_ice_gathering_state : RTCIceGatheringState
}.

Record AddTransceiverSdpParams := {
  ats_should_add_candidates : bool;
  ats_mid_value : string;
  ats_dtls_role : ConnectionRole;
  ats_ice_gathering_state : RTCIceGatheringState;
  ats_offered_direction : option RTCRtpTransceiverDirection
}.

(** The direction of a section of the SDP: the [match] on the offered
    direction in [add_transceiver_sdp]. *)
Definition section_direction (offered : option RTCRtpTransceiverDirection)
    (transceiver_direction : RTCRtpTransceiverDirection) : RTCRtpTransceiverDirection :=
  match offered with
  | Some offered_direction =>
      match offered_direction with
      | Sendonly | Recvonly => intersect (reverse offered_direction) transceiver_direction
      | Sendrecv | Dir_Unspecified => transceiver_direction
      | Inactive => Inactive
      end
  | None => transceiver_direction
  end.

Section writing.
Context `{O : SdpOps} `{CO : !ConfigOps} `{HO : HashOrder}.
Implicit Types (d : SessionDescription) (m media : MediaDescription).

(** [append_candidate_if_new]. *)
Definition append_candidate_if_new (c : SocketAddr) (component : Z) m : MediaDescription :=
  let marshaled := "1 " +:+ show_u component +:+ " UDP 1 " +:+ show_ip (addr_ip c) +:+ " "
                     +:+ show_u (addr_port c) +:+ " typ host" in
  if existsb (λ a, match attr_value a with Some v => String.eqb marshaled v | None => false end)
       (md_attributes m)
  then m
  else md_with_value_attribute m "candidate" marshaled.

(** [add_candidate_to_media_descriptions]; the result is always [Ok]. *)
Definition add_candidate_to_media_descriptions (candidate : SocketAddr) m
    (ice_gathering_state : RTCIceGatheringState) : outcome MediaDescription :=
  let m := append_candidate_if_new candidate 1 m in
  if bool_decide (ice_gathering_state ≠ Ice_Complete) then Ok m
  else if existsb (λ a, String.eqb (attr_key a) "end-of-candidates") (md_attributes m) then Ok m
  else Ok (md_with_property_attribute m "end-of-candidates").

(** The loop that adds the fingerprints to a section. *)
Definition with_fingerprints (fps : list RTCDtlsFingerprint) m : MediaDescription :=
  foldl (λ m f, md_with_fingerprint m (fp_algorithm f) (to_uppercase (fp_value f))) m fps.

Definition data_media_description : MediaDescription :=
  {| md_media_name :=
       {| mn_media := MEDIA_SECTION_APPLICATION;
          mn_port := {| rp_value := 9; rp_range := None |};
          mn_protos := ["UDP"; "DTLS"; "SCTP"];
          mn_formats := ["webrtc-datachannel"] |};
     md_media_title := None;
     md_connection_information :=
       Some {| ci_network_type := "IN"; ci_address_type := "IP4";
               ci_address := Some {| ad_address := "0.0.0.0"; ad_ttl := None;
                                     ad_range := None |} |};
     md_bandwidth := []; md_encryption_key := None; md_attributes := [] |}%Z.

(** [add_data_media_section]. *)
Definition add_data_media_section d (dtls_fingerprints : list RTCDtlsFingerprint)
    (session_config : SessionConfig) (params : AddDataMediaSectionParams)
  : outcome SessionDescription :=
  let sctp := sctp_server_config (server_config session_config) in
  let media := data_media_description in
  let media := md_with_value_attribute media ATTR_KEY_CONNECTION_SETUP
                 (connection_role_to_string (adm_dtls_role params)) in
  let media := md_with_value_attribute media ATTR_KEY_MID (adm_mid_value params) in
  let media := md_with_property_attribute media (direction_to_string Sendrecv) in
  let media := md_with_value_attribute media "sctp-port" (show_u (sctp_port sctp)) in
  let media := md_with_value_attribute media "max-message-size"
                 (show_u (sctp_max_message_size sctp)) in
  let media := md_with_ice_credentials media (username_fragment (adm_ice_params params))
                 (password (adm_ice_params params)) in
  let media := with_fingerprints dtls_fingerprints media in
  media ← (if adm_should_add_candidates params
           then add_candidate_to_media_descriptions (local_addr session_config) media
                  (adm_ice_gathering_state params)
           else Ok media);
  Ok (sd_with_media d media).

(** One codec of [add_transceiver_sdp] with its feedback lines. *)
Definition with_codec_lines (codec : RTCRtpCodecParameters) media : MediaDescription :=
  let k := capability codec in
  let name := trim_start_matches "video/" (trim_start_matches "audio/" (mime_type k)) in
  let media := md_with_codec media (payload_type codec) name (clock_rate k) (channels k)
                 (sdp_fmtp_line k) in
  foldl (λ media fb,
           md_with_value_attribute media "rtcp-fb"
             (show_u (payload_type codec) +:+ " " +:+ fb_typ fb +:+ " " +:+ fb_parameter fb))
        media (rtcp_feedbacks k).

(** The rid lines and the simulcast line. *)
Definition with_rids (rid_map : gmap string string) media : MediaDescription :=
  if bool_decide (rid_map = ∅) then media
  else
    let rids := hm_keys rid_map in
    let media := foldl (λ media rid,
                          md_with_value_attribute media SDP_ATTRIBUTE_RID (rid +:+ " recv"))
                       media rids in
    md_with_value_attribute media "simulcast" ("recv " +:+ str_join ";" rids).

(** The lines that announce what the server sends in a section. *)
Definition with_sender (sender : RTCRtpSender) media : MediaDescription :=
  let media := md_with_property_attribute media
                 ("msid:" +:+ msi_stream_id (snd_msid sender) +:+ " "
                    +:+ msi_track_id (snd_msid sender)) in
  let media := foldl (λ media g,
                        md_with_property_attribute media
                          ("ssrc-group:" +:+ sg_name g +:+ " "
                             +:+ str_join " " (map show_u (sg_ssrcs g))))
                     media (snd_ssrc_groups sender) in
  foldl (λ media ssrc,
           md_with_media_source media ssrc (snd_cname sender)
             (msi_stream_id (snd_msid sender)) (msi_track_id (snd_msid sender)))
        media (snd_ssrcs sender).

(** [add_transceiver_sdp]. *)
Definition add_transceiver_sdp d (dtls_fingerprints : list RTCDtlsFingerprint)
    (ice : RTCIceParameters) (session_config : SessionConfig)
    (media_section : MediaSection) (transceiver : RTCRtpTransceiver)
    (params : AddTransceiverSdpParams) : outcome (SessionDescription * bool) :=
  let mc := media_config (server_config session_config) in
  let media := md_new_jsep (codec_type_to_string (tv_kind transceiver)) [] in
  let media := md_with_value_attribute media ATTR_KEY_CONNECTION_SETUP
                 (connection_role_to_string (ats_dtls_role params)) in
  let media := md_with_value_attribute media ATTR_KEY_MID (ats_mid_value params) in
  let media := md_with_ice_credentials media (username_fragment ice) (password ice) in
  let media := md_with_property_attribute media ATTR_KEY_RTCPMUX in
  let media := md_with_property_attribute media ATTR_KEY_RTCPRSIZE in
  let media := with_fingerprints dtls_fingerprints media in
  media ← (if ats_should_add_candidates params
           then add_candidate_to_media_descriptions (local_addr session_config) media
                  (ats_ice_gathering_state params)
           else Ok media);
  let media := foldl (λ media codec, with_codec_lines codec media) media
                 (get_codecs_by_kind mc (tv_kind transceiver)) in
  let parameters := get_rtp_parameters_by_kind mc (tv_kind transceiver)
                      (tv_direction transceiver) in
  media ← foldO (λ media ext,
                   ext_url ← url_parse (hep_uri ext);
                   Ok (md_with_extmap media (hep_id ext) ext_url))
                media (rp_header_extensions parameters);
  let media := with_rids (ms_rid_map media_section) media in
  let direction := section_direction (ats_offered_direction params)
                     (tv_direction transceiver) in
  let media := md_with_property_attribute media (direction_to_string direction) in
  media ← (if bool_decide (direction = Sendonly) then
             match tv_sender transceiver with
             | Some sender => Ok (with_sender sender media)
             | None => Err (ErrOther "Sendonly transceiver doesn't have sender set")
             end
           else Ok media);
  Ok (sd_with_media d media, true).

(** One section of [populate_sdp]: the SDP and the bundle value. *)
Definition populate_section (fps : list RTCDtlsFingerprint) (session_config : SessionConfig)
    (ice : RTCIceParameters) (connection_role : ConnectionRole)
    (transceivers : gmap Mid RTCRtpTransceiver) (st : SessionDescription * string)
    (im : nat * MediaSection) : outcome (SessionDescription * string) :=
  let '(d, bundle_value) := st in
  let '(i, m) := im in
  if ms_data m && bool_decide (is_Some (transceivers !! ms_mid m))
  then Err (ErrOther "ErrSDPMediaSectionMediaDataChanInvalid")
  else
    let should_add_candidates := Nat.eqb i 0 in
    r ←
      (if ms_data m then
         d ← add_data_media_section d fps session_config
               {| adm_should_add_candidates := should_add_candidates;
                  adm_mid_value := ms_mid m; adm_ice_params := ice;
                  adm_dtls_role := connection_role;
                  adm_ice_gathering_state := Ice_Complete |};
         Ok (d, true)
       else
         t ← ok_or (transceivers !! ms_mid m) (ErrOther "ErrSDPZeroTransceivers");
         add_transceiver_sdp d fps ice session_config m t
           {| ats_should_add_candidates := should_add_candidates;
              ats_mid_value := ms_mid m; ats_dtls_role := connection_role;
              ats_ice_gathering_state := Ice_Complete;
              ats_offered_direction := ms_offered_direction m |});
    let '(d, should_add_id) := (r : SessionDescription * bool) in
    Ok (d, if should_add_id then bundle_value +:+ " " +:+ ms_mid m else bundle_value).

(** [populate_sdp]. *)
Definition populate_sdp d (dtls_fingerprints : list RTCDtlsFingerprint)
    (session_config : SessionConfig) (ice : RTCIceParameters)
    (connection_role : ConnectionRole) (media_sections : list MediaSection)
    (transceivers : gmap Mid RTCRtpTransceiver) (media_description_fingerprint : bool)
  : outcome SessionDescription :=
  let media_dtls_fingerprints :=
    if media_description_fingerprint then dtls_fingerprints else [] in
  r ←
    foldO (populate_section media_dtls_fingerprints session_config ice connection_role
             transceivers)
          (d, "BUNDLE") (imap pair media_sections);
  let '(d, bundle_value) := (r : SessionDescription * string) in
  let d := if negb media_description_fingerprint then
             foldl (λ d f, sd_with_fingerprint d (fp_algorithm f) (to_uppercase (fp_value f)))
                   d dtls_fingerprints
           else d in
  let d := sd_with_property_attribute d ATTR_KEY_ICELITE in
  Ok (sd_with_value_attribute d ATTR_KEY_GROUP bundle_value).

End writing.

(** ** The direction of an answer *)

(** RFC 3264, section 6.1: the answerer sends only where the offerer receives
    and receives only where the offerer sends, and never more than its own
    transceiver allows; an inactive stream stays inactive. *)
Definition answers (offered answer : RTCRtpTransceiverDirection) : Prop :=
  (has_send answer = true → has_recv offered = true) ∧
  (has_recv answer = true → has_send offered = true).

Lemma section_direction_answers offered dir :
  offered ≠ Dir_Unspecified → answers offered (section_direction (Some offered) dir).
Proof. by destruct offered, dir. Qed.

Lemma section_direction_within offered dir :
  has_send (section_direction offered dir) = true → has_send dir = true.
Proof. by destruct offered as [[]|], dir. Qed.

Lemma section_direction_specified offered dir :
  dir ≠ Dir_Unspecified → section_direction offered dir ≠ Dir_Unspecified.
Proof. by destruct offered as [[]|], dir. Qed.

(** ** What the builders add *)

Section lemmas.
Context `{L : SdpLaws} `{CO : !ConfigOps} `{HO : HashOrder}.
Implicit Types (d : SessionDescription) (m media : MediaDescription).

(** [m'] is [m] with attributes appended that name no mid and no direction. *)
Definition extends m m' : Prop :=
  ∃ l, md_attributes m' = md_attributes m ++ l ∧ Forall neutral l ∧
       mn_media (md_media_name m') = mn_media (md_media_name m).

#[local] Instance extends_preorder : PreOrder extends.
Proof.
  split.
  - intros m. exists []. by rewrite app_nil_r.
  - intros m1 m2 m3 (l1 & H1 & N1 & M1) (l2 & H2 & N2 & M2). exists (l1 ++ l2).
    rewrite H2, H1, app_assoc, Forall_app. split_and!; congruence.
Qed.

Lemma extends_value m k v :
  neutral {| attr_key := k; attr_value := Some v |} → extends m (md_with_value_attribute m k v).
Proof.
  destruct (md_with_value_attribute_eq m k v) as [Ha Hm]. intros Hn. eexists.
  split_and!; [exact Ha|by constructor|done].
Qed.

Lemma extends_property m k :
  neutral {| attr_key := k; attr_value := None |} → extends m (md_with_property_attribute m k).
Proof.
  destruct (md_with_property_attribute_eq m k) as [Ha Hm]. intros Hn. eexists.
  split_and!; [exact Ha|by constructor|done].
Qed.

Lemma extends_ice m u p : extends m (md_with_ice_credentials m u p).
Proof.
  destruct (md_with_ice_credentials_eq m u p) as [Ha Hm]. eexists.
  split_and!; [exact Ha| |done]. by repeat constructor.
Qed.

Lemma extends_fingerprints fps m : extends m (with_fingerprints fps m).
Proof.
  apply (foldl_preorder extends). intros m' f.
  destruct (md_with_fingerprint_eq m' (fp_algorithm f) (to_uppercase (fp_value f))) as [Ha Hm].
  eexists. split_and!; [exact Ha| |done]. by repeat constructor.
Qed.

Lemma extends_candidate addr m st m' :
  add_candidate_to_media_descriptions addr m st = Ok m' → extends m m'.
Proof.
  unfold add_candidate_to_media_descriptions.
  assert (extends m (append_candidate_if_new addr 1 m)).
  { unfold append_candidate_if_new. case_match; [done|]. by apply extends_value. }
  case_bool_decide; [|case_match]; intros [= <-]; [done|done|].
  etrans; [done|]. by apply extends_property.
Qed.

Lemma extends_codec_lines codec m : extends m (with_codec_lines codec m).
Proof.
  unfold with_codec_lines. etrans; [|apply (foldl_preorder extends)].
  - unfold extends. apply md_with_codec_app.
  - intros. by apply extends_value.
Qed.

Lemma extends_rids rids m : extends m (with_rids rids m).
Proof.
  unfold with_rids. case_match; [done|]. etrans; [|by apply extends_value].
  apply (foldl_preorder extends). intros. by apply extends_value.
Qed.

Lemma extends_extmaps l m m' :
  foldO (λ media ext, ext_url ← url_parse (hep_uri ext);
                      Ok (md_with_extmap media (hep_id ext) ext_url)) m l = Ok m' →
  extends m m'.
Proof.
  apply (foldO_inv (extends m)); [|done]. intros ext m1 m2 _ Hm1 Hok.
  apply bind_ok_inv in Hok as (url & _ & [= <-]). etrans; [done|].
  unfold extends. apply md_with_extmap_app.
Qed.

(** What a reader finds in a section the server wrote. *)
Definition section_reads (media : MediaDescription) (mid kind : string)
    (dir : RTCRtpTransceiverDirection) : Prop :=
  get_mid_value media = Some mid ∧ mn_media (md_media_name media) = kind ∧
  get_peer_direction media = dir.

(** A section written as: setup, mid, neutral lines, direction, anything. *)
Lemma section_reads_intro m0 m1 m2 role mid kind dir v rest :
  md_attributes m0 = [{| attr_key := "setup"; attr_value := Some role |};
                      {| attr_key := "mid"; attr_value := Some mid |}] →
  mn_media (md_media_name m0) = kind →
  extends m0 m1 →
  md_attributes m2 =
    md_attributes m1 ++ {| attr_key := direction_to_string dir; attr_value := v |} :: rest →
  mn_media (md_media_name m2) = mn_media (md_media_name m1) →
  dir ≠ Dir_Unspecified →
  section_reads m2 mid kind dir.
Proof.
  intros H0 Hk (l & Hl & Hn & Hm) H2 Hm2 Hd. rewrite Hl, H0 in H2. simpl in H2.
  split_and!; [|congruence|].
  - eapply (get_mid_value_app [_]); [exact H2|]. by repeat constructor.
  - eapply (get_peer_direction_app (_ :: _ :: l)); [exact H2| |done].
    repeat (constructor; [done|]). eapply Forall_impl; [exact Hn|]. by intros a [_ Ha].
Qed.

(** [m'] is [m] with any attributes appended. *)
Definition appends m m' : Prop :=
  ∃ l, md_attributes m' = md_attributes m ++ l ∧
       mn_media (md_media_name m') = mn_media (md_media_name m).

#[local] Instance appends_preorder : PreOrder appends.
Proof.
  split.
  - intros m. exists []. by rewrite app_nil_r.
  - intros m1 m2 m3 (l1 & H1 & M1) (l2 & H2 & M2). exists (l1 ++ l2).
    rewrite H2, H1, app_assoc. split; congruence.
Qed.

Lemma with_sender_appends sender m : appends m (with_sender sender m).
Proof.
  assert (Hp : ∀ m k, appends m (md_with_property_attribute m k)).
  { intros. eexists. apply md_with_property_attribute_eq. }
  unfold with_sender. etrans; [|apply (foldl_preorder appends)].
  - etrans; [|apply (foldl_preorder appends)]; auto.
  - intros m' ssrc.
    edestruct md_with_media_source_app as (l & Hl & _ & Hm). exists l. eauto.
Qed.

Lemma add_data_media_section_ok d fps cfg params d' :
  add_data_media_section d fps cfg params = Ok d' → ∃ media,
  media_descriptions d' = media_descriptions d ++ [media] ∧
  sd_attributes d' = sd_attributes d ∧
  section_reads media (adm_mid_value params) MEDIA_SECTION_APPLICATION Sendrecv.
Proof.
  unfold add_data_media_section. intros (media & Hc & [= <-])%bind_ok_inv.
  exists media. edestruct sd_with_media_eq as (-> & -> & _). split_and!; [done|done|].
  set (m0 := md_with_value_attribute _ ATTR_KEY_MID _) in Hc.
  assert (He : extends (md_with_property_attribute m0 (direction_to_string Sendrecv)) media).
  { etrans; [|destruct (adm_should_add_candidates params);
      [by eapply extends_candidate|by injection Hc as <-]].
    etrans; [|apply extends_fingerprints]. etrans; [|apply extends_ice].
    etrans; [|by apply extends_value]. by apply extends_value. }
  destruct He as (l & Hl & _ & Hm).
  edestruct md_with_property_attribute_eq as [Hp Hpm]. rewrite Hp, <- app_assoc in Hl.
  eapply (section_reads_intro m0 m0); [| |done|exact Hl|congruence|done].
  - unfold m0. do 2 (edestruct md_with_value_attribute_eq as [-> _]). done.
  - unfold m0. do 2 (edestruct md_with_value_attribute_eq as [_ ->]). done.
Qed.

Lemma add_transceiver_sdp_ok d fps ice cfg ms t params d' b :
  add_transceiver_sdp d fps ice cfg ms t params = Ok (d', b) →
  tv_direction t ≠ Dir_Unspecified → b = true ∧ ∃ media,
  media_descriptions d' = media_descriptions d ++ [media] ∧
  sd_attributes d' = sd_attributes d ∧
  section_reads media (ats_mid_value params) (codec_type_to_string (tv_kind t))
    (section_direction (ats_offered_direction params) (tv_direction t)).
Proof.
  unfold add_transceiver_sdp. intros Hok Hdir.
  apply bind_ok_inv in Hok as (m1 & H1 & Hok). apply bind_ok_inv in Hok as (m2 & H2 & Hok).
  set (m0 := md_with_value_attribute _ ATTR_KEY_MID _) in H1.
  assert (He : extends m0 (with_rids (ms_rid_map ms) m2)).
  { etrans; [|apply extends_rids]. etrans; [|by eapply extends_extmaps].
    etrans; [|apply (foldl_preorder extends); intros; apply extends_codec_lines].
    etrans; [|destruct (ats_should_add_candidates params);
      [by eapply extends_candidate|by injection H1 as <-]].
    etrans; [|apply extends_fingerprints]. etrans; [|by apply extends_property].
    etrans; [|by apply extends_property]. apply extends_ice. }
  clear H1 H2. set (m3 := with_rids _ m2) in *.
  set (dir := section_direction _ _) in *.
  destruct (md_with_property_attribute_eq m3 (direction_to_string dir)) as [Hp Hpm].
  set (m4 := md_with_property_attribute m3 _) in *.
  apply bind_ok_inv in Hok as (m5 & H5 & [= <- <-]). split; [done|]. exists m5.
  edestruct sd_with_media_eq as (-> & -> & _). split_and!; [done|done|].
  assert (appends m4 m5) as (l & Hl & Hm).
  { case_match; [destruct (tv_sender t); [|done]; injection H5 as <-;
      apply with_sender_appends|by injection H5 as <-]. }
  rewrite Hp, <- app_assoc in Hl.
  eapply (section_reads_intro m0 m3); [| |done|exact Hl|congruence|by apply section_direction_specified].
  - unfold m0. do 2 (edestruct md_with_value_attribute_eq as [-> _]).
    by rewrite md_new_jsep_attributes.
  - unfold m0. do 2 (edestruct md_with_value_attribute_eq as [_ ->]). apply md_new_jsep_name.
Qed.

(** What [populate_sdp] promises for one section. *)
Definition section_spec (tvs : gmap Mid RTCRtpTransceiver) (ms : MediaSection)
    (media : MediaDescription) : Prop :=
  if ms_data ms then
    tvs !! ms_mid ms = None ∧
    section_reads media (ms_mid ms) MEDIA_SECTION_APPLICATION Sendrecv
  else ∃ t, tvs !! ms_mid ms = Some t ∧
    section_reads media (ms_mid ms) (codec_type_to_string (tv_kind t))
      (section_direction (ms_offered_direction ms) (tv_direction t)).

(** Every transceiver of an endpoint has a direction. *)
Definition directions_specified (tvs : gmap Mid RTCRtpTransceiver) : Prop :=
  map_Forall (λ _ t, tv_direction t ≠ Dir_Unspecified) tvs.

Lemma populate_section_ok fps cfg ice role tvs d v i ms d' v' :
  directions_specified tvs →
  populate_section fps cfg ice role tvs (d, v) (i, ms) = Ok (d', v') →
  v' = v +:+ " " +:+ ms_mid ms ∧ ∃ media,
    media_descriptions d' = media_descriptions d ++ [media] ∧ section_spec tvs ms media.
Proof.
  intros Hd. unfold populate_section, section_spec.
  destruct (ms_data ms) eqn:Hdata; simpl.
  - case_bool_decide as Hs; [done|]. intros ([d1 b] & H1 & Hok)%bind_ok_inv.
    apply bind_ok_inv in H1 as (d2 & H2 & [= -> <-]). injection Hok as <- <-.
    split; [done|]. apply add_data_media_section_ok in H2 as (media & Hm & _ & Hr).
    exists media. split_and!; [done|by apply eq_None_not_Some|done].
  - intros ([d1 b] & H1 & Hok)%bind_ok_inv.
    apply bind_ok_inv in H1 as (t & Ht%ok_or_ok_inv & H1).
    apply add_transceiver_sdp_ok in H1 as (-> & media & Hm & _ & Hr); [|by apply (Hd _ _ Ht)].
    injection Hok as <- <-. eauto 6.
Qed.

Lemma populate_sections_ok fps cfg ice role tvs : ∀ mss k d v d' v',
  directions_specified tvs →
  foldO (populate_section fps cfg ice role tvs) (d, v) (imap (λ i, pair (k + i)) mss) = Ok (d', v') →
  v' = foldl (λ v ms, v +:+ " " +:+ ms_mid ms) v mss ∧ ∃ medias,
    media_descriptions d' = media_descriptions d ++ medias ∧
    Forall2 (section_spec tvs) mss medias.
Proof.
  induction mss as [|ms mss IH]; intros k d v d' v' Hd Hf; cbn [imap foldO foldl] in *.
  { injection Hf as <- <-. split; [done|]. exists []. by rewrite app_nil_r. }
  destruct (populate_section _ _ _ _ _ (d, v) (k + 0, ms)) as [[d1 v1]|e|] eqn:E; try done.
  apply populate_section_ok in E as (-> & media & Hm & Hs); [|done].
  rewrite (imap_ext _ (λ i, pair (S k + i))) in Hf
    by (intros; unfold compose; f_equal; lia).
  apply IH in Hf as (-> & medias & Hms & Hss); [|done].
  split; [done|]. exists (media :: medias). split; [|by constructor].
  by rewrite Hms, Hm, <- app_assoc.
Qed.

(** C23. A successful [populate_sdp] appends exactly one section per media
    section, in order: a data section reads back as a sendrecv application
    section, any other one with the kind of its transceiver and the direction
    [section_direction] gives, each under its own mid; the last session
    attribute is the BUNDLE group with all the mids in the same order. *)
Theorem populate_sdp_sections d fps cfg ice role mss tvs b d' :
  directions_specified tvs →
  populate_sdp d fps cfg ice role mss tvs b = Ok d' →
  ∃ medias attrs,
    media_descriptions d' = media_descriptions d ++ medias ∧
    Forall2 (section_spec tvs) mss medias ∧
    sd_attributes d' = attrs ++ [{| attr_key := "group";
      attr_value := Some (str_join " " ("BUNDLE" :: map ms_mid mss)) |}].
Proof.
  intros Hd. unfold populate_sdp. intros ([d1 v] & Hf & Hok)%bind_ok_inv.
  apply (populate_sections_ok _ _ _ _ _ _ 0) in Hf as (-> & medias & Hm & Hs); [|done].
  injection Hok as <-. rewrite foldl_append_join.
  edestruct sd_with_value_attribute_eq as [-> ->].
  edestruct sd_with_property_attribute_eq as [-> ->].
  eexists medias, _. split_and!; [|done|done]. rewrite <- Hm. destruct b; [done|]. simpl.
  clear - L. revert d1. induction fps as [|f fps IH]; intros d1; [done|]. simpl. rewrite IH.
  apply sd_with_fingerprint_media.
Qed.

End lemmas.
