(* ===== verification/Session.v ===== *)
(** * Sessions (session/mod.rs)

    A session holds the endpoints of one room and negotiates their media.  A
    method with a [&mut self] receiver runs in the monad [M Session]: what it
    changed before an error stays changed. *)

From Stdlib Require Import ZArith Lia.
From stdpp Require Import base numbers strings fin_maps gmap list.
From S2P Require Import Prelude RustStr Enums Types Sdp Codec ReceiverStream.
From S2P Require Import Interceptors MediaParse MediaConfig Config Endpoint.
From S2P Require Import Description.

Section session.
Context `{O : SdpOps} `{CO : !ConfigOps} `{TO : !TransportOps} `{HO : HashOrder}.

Record Session := {
  ss_session_config : SessionConfig;
  ss_session_id : SessionId;
  ss_endpoints : gmap EndpointId Endpoint
}.

(** [Session::new]. *)
Definition session_new (cfg : SessionConfig) (sid : SessionId) : Session :=
  {| ss_session_config := cfg; ss_session_id := sid; ss_endpoints := ∅ |}.

(** Assignment through [get_mut_endpoints]. *)
Definition ss_with_endpoints (s : Session) (es : gmap EndpointId Endpoint) : Session :=
  {| ss_session_config := ss_session_config s; ss_session_id := ss_session_id s;
     ss_endpoints := es |}.

(** [has_endpoint] and [remove_endpoint]. *)
Definition has_endpoint (s : Session) (eid : EndpointId) : bool :=
  bool_decide (is_Some (ss_endpoints s !! eid)).
Definition ss_remove_endpoint (s : Session) (eid : EndpointId) : Session :=
  ss_with_endpoints s (delete eid (ss_endpoints s)).

(** [Session::add_endpoint]; the answer says whether the endpoint was known. *)
Definition ss_add_endpoint (now : Instant) (candidate : Candidate)
    (transport_context : TransportContext) : M Session bool := λ s,
  let config := server_config (ss_session_config s) in
  let endpoint_id := cand_endpoint_id candidate in
  let four_tuple := four_tuple_of transport_context in
  let transport := transport_new now four_tuple candidate (dtls_handshake_config config)
                     (sctp_endpoint_config config) (sctp_server_config config) in
  match ss_endpoints s !! endpoint_id with
  | Some endpoint =>
      if has_transport endpoint four_tuple then (s, Ok true)
      else (ss_with_endpoints s
              (<[endpoint_id := add_transport endpoint transport]> (ss_endpoints s)), Ok true)
  | None =>
      let interceptor := registry_build (mc_registry (media_config config)) now in
      let endpoint := endpoint_new endpoint_id interceptor in
      let endpoint := add_transport endpoint transport in
      let endpoint := ep_set_local_description endpoint (cand_local_description candidate) in
      let endpoint := ep_set_remote_description endpoint (cand_remote_description candidate) in
      (ss_with_endpoints s (<[endpoint_id := endpoint]> (ss_endpoints s)), Ok false)
  end.

(** ** Applying a remote description *)

Definition can_t_find_endpoint (eid : EndpointId) : Error :=
  ErrOther ("can't find endpoint id " +:+ show_u eid).

(** The guards at the head of both media loops: the kind, the direction and
    the mid of a section to negotiate, or [None] for [continue]. *)
Definition negotiable (media : MediaDescription)
  : outcome (option (RTPCodecType * RTCRtpTransceiverDirection * string)) :=
  if String.eqb (mn_media (md_media_name media)) MEDIA_SECTION_APPLICATION then Ok None
  else
    let kind := codec_type_from_str (mn_media (md_media_name media)) in
    let direction := get_peer_direction media in
    if bool_decide (kind = Codec_Unspecified) || bool_decide (direction = Dir_Unspecified)
    then Ok None
    else match get_mid_value media with
         | Some mid =>
             if str_is_empty mid
             then Err (ErrOther "ErrPeerConnRemoteDescriptionWithoutMidValue")
             else Ok (Some (kind, direction, mid))
         | None => Ok None
         end.

(** The transceiver a new remote section gives to its own endpoint. *)
Definition remote_transceiver (media : MediaDescription) (kind : RTPCodecType)
    (direction : RTCRtpTransceiverDirection) (mid : string) : outcome RTCRtpTransceiver :=
  let cname := get_cname media in
  let msid := get_msid media in
  ssrc_groups ← get_ssrc_groups media;
  ssrcs ← get_ssrcs media;
  codecs ← codecs_from_media_description media;
  header_extensions ← rtp_extensions_from_media_description media;
  Ok {| tv_mid := mid;
        tv_sender := match cname, msid with
                     | Some cname, Some msid =>
                         Some {| snd_cname := cname; snd_msid := msid; snd_ssrcs := ssrcs;
                                 snd_ssrc_groups := ssrc_groups |}
                     | _, _ => None
                     end;
        tv_direction := if bool_decide (direction = Recvonly) then Sendonly else Recvonly;
        tv_current_direction := Dir_Unspecified;
        tv_rtp_params := {| rp_header_extensions := header_extensions; rp_codecs := codecs |};
        tv_kind := kind |}.

(** [format!("{}-{}", endpoint_id, mid_value)]. *)
Definition other_mid (eid : EndpointId) (mid : string) : Mid := show_u eid +:+ "-" +:+ mid.

(** The loop body over the other endpoints: the new track of [eid] as seen by
    another endpoint. *)
Definition propagate_track (eid : EndpointId) (direction : RTCRtpTransceiverDirection)
    (t : RTCRtpTransceiver) (other_id : EndpointId) (e : Endpoint) : Endpoint :=
  if bool_decide (other_id = eid) then e
  else
    let mid := other_mid eid (tv_mid t) in
    match ep_transceivers e !! mid with
    | Some o =>
        if bool_decide (tv_direction o ≠ direction) then
          set_renegotiation_needed
            (ep_with_media e (ep_mids e)
               (<[mid := tv_with_direction o direction]> (ep_transceivers e))) true
        else e
    | None =>
        if bool_decide (direction = Sendonly) then
          let o := {| tv_mid := mid; tv_sender := tv_sender t; tv_direction := direction;
                      tv_current_direction := Dir_Unspecified;
                      tv_rtp_params := tv_rtp_params t; tv_kind := tv_kind t |} in
          set_renegotiation_needed
            (ep_with_media e (ep_mids e ++ [mid]) (<[mid := o]> (ep_transceivers e))) true
        else e
    end.

(** [endpoint.get_mut_mids().push(..)] and [get_mut_transceivers().insert(..)]. *)
Definition push_transceiver (e : Endpoint) (t : RTCRtpTransceiver) : Endpoint :=
  ep_with_media e (ep_mids e ++ [tv_mid t]) (<[tv_mid t := t]> (ep_transceivers e)).

(** A new track of an endpoint: its own transceiver, then the other
    endpoints.  The updates of the others are independent of each other, so
    the order of the iteration does not matter. *)
Definition publish_track (s : Session) (eid : EndpointId) (e : Endpoint)
    (direction : RTCRtpTransceiverDirection) (t : RTCRtpTransceiver) : Session :=
  let endpoints := <[eid := push_transceiver e t]> (ss_endpoints s) in
  ss_with_endpoints s
    (map_imap (λ oid e, Some (propagate_track eid direction t oid e)) endpoints).

(** One section of a remote offer. *)
Definition remote_offer_media (eid : EndpointId) (media : MediaDescription) : M Session () :=
  target ← liftO (negotiable media);
  match target with
  | None => mret ()
  | Some (kind, direction, mid) =>
      s ← getS;
      e ← liftO (unwrap (ss_endpoints s !! eid));
      if bool_decide (is_Some (ep_transceivers e !! mid)) then mret ()
      else
        t ← liftO (remote_transceiver media kind direction mid);
        putS (publish_track s eid e direction t)
  end.

(** The end of both answer loops: the transceiver with the section's mid takes
    [f direction] as its current direction. *)
Definition answer_media (f : RTCRtpTransceiverDirection → RTCRtpTransceiverDirection)
    (eid : EndpointId) (media : MediaDescription) : M Session () :=
  target ← liftO (negotiable media);
  match target with
  | None => mret ()
  | Some (_, direction, mid) =>
      s ← getS;
      e ← liftO (unwrap (ss_endpoints s !! eid));
      match ep_transceivers e !! mid with
      | Some t =>
          let t := set_current_direction t (f direction) in
          putS (ss_with_endpoints s
                  (<[eid := ep_with_media e (ep_mids e) (<[mid := t]> (ep_transceivers e))]>
                     (ss_endpoints s)))
      | None => mret ()
      end
  end.

(** One section of a remote answer: the direction from this side's point of
    view. *)
Definition remote_answer_media : EndpointId → MediaDescription → M Session () :=
  answer_media reverse.

(** [Session::set_remote_description]. *)
Definition ss_set_remote_description (eid : EndpointId) (remote : RTCSessionDescription)
  : M Session () :=
  s ← getS;
  if negb (has_endpoint s eid) then throw (can_t_find_endpoint eid)
  else
    d ← liftO (ok_or (parsed remote) (ErrOther "Unparsed remote description"));
    let we_offer := bool_decide (sdp_type remote = Answer) in
    forM (media_descriptions d)
      (if we_offer then remote_answer_media eid else remote_offer_media eid).

(** ** Applying a local description *)

(** One section of a local answer. *)
Definition local_answer_media : EndpointId → MediaDescription → M Session () :=
  answer_media (λ direction, direction).

(** [Session::set_local_description].  The source borrows the transceivers of
    the endpoint once, so the [unwrap] of [local_answer_media] cannot fail. *)
Definition ss_set_local_description (eid : EndpointId) (local : RTCSessionDescription)
  : M Session () :=
  d ← liftO (ok_or (parsed local) (ErrOther "Unparsed local description"));
  s ← getS;
  if negb (has_endpoint s eid) then throw (can_t_find_endpoint eid)
  else if bool_decide (sdp_type local = Answer)
       then forM (media_descriptions d) (local_answer_media eid)
       else mret ().

(** ** Offers and answers *)

(** The state of the loop over the remote sections: the media sections, the
    flag [already_have_application_media_section] and the matched mids. *)
Definition matched_state : Type := list MediaSection * bool * list Mid.

Definition match_remote_media (transceivers : gmap Mid RTCRtpTransceiver)
    (include_unmatched : bool) (st : matched_state) (media : MediaDescription)
  : outcome matched_state :=
  let '(sections, have_app, matched) := st in
  match get_mid_value media with
  | Some mid =>
      if str_is_empty mid then Err (ErrOther "ErrPeerConnRemoteDescriptionWithoutMidValue")
      else if String.eqb (mn_media (md_media_name media)) MEDIA_SECTION_APPLICATION then
        Ok (sections ++ [{| ms_mid := mid; ms_data := true; ms_rid_map := ∅;
                            ms_offered_direction := None |}], true, matched)
      else
        let kind := codec_type_from_str (mn_media (md_media_name media)) in
        let direction := get_peer_direction media in
        if bool_decide (kind = Codec_Unspecified) || bool_decide (direction = Dir_Unspecified)
        then Ok st
        else if bool_decide (is_Some (transceivers !! mid)) then
          Ok (sections ++ [{| ms_mid := mid; ms_data := false; ms_rid_map := get_rids media;
                              ms_offered_direction :=
                                if include_unmatched then None else Some direction |}],
              have_app, matched ++ [mid])
        else Err (ErrOther "ErrPeerConnTransceiverMidNil")
  | None => Ok st
  end.

(** The sections of the SDP to write. *)
Definition matched_sections (mids : list Mid) (transceivers : gmap Mid RTCRtpTransceiver)
    (remote : RTCSessionDescription) (include_unmatched : bool) : outcome (list MediaSection) :=
  st ← match parsed remote with
       | Some d => foldO (match_remote_media transceivers include_unmatched) ([], false, [])
                     (media_descriptions d)
       | None => Ok ([], false, [])
       end;
  let '(sections, have_app, matched) := (st : matched_state) in
  if include_unmatched then
    let unmatched := filter (λ mid, mid ∉ matched) mids in
    let sections := sections ++
      map (λ mid, {| ms_mid := mid; ms_data := false; ms_rid_map := ∅;
                     ms_offered_direction := None |}) unmatched in
    Ok (if have_app then sections
        else sections ++ [{| ms_mid := show_u (Z.of_nat (length sections)); ms_data := true;
                             ms_rid_map := ∅; ms_offered_direction := None |}])
  else Ok sections.

(** The mids and the transceivers of an endpoint, empty when it is unknown. *)
Definition mids_of (s : Session) (eid : EndpointId) : list Mid :=
  match ss_endpoints s !! eid with Some e => ep_mids e | None => [] end.
Definition transceivers_of (s : Session) (eid : EndpointId) : gmap Mid RTCRtpTransceiver :=
  match ss_endpoints s !! eid with Some e => ep_transceivers e | None => ∅ end.

(** [Session::generate_matched_sdp]. *)
Definition generate_matched_sdp (s : Session) (eid : EndpointId)
    (remote : RTCSessionDescription) (ice : RTCIceParameters)
    (use_identity include_unmatched : bool) (connection_role : ConnectionRole)
  : outcome SessionDescription :=
  let d := sd_new_jsep use_identity in
  sections ← matched_sections (mids_of s eid) (transceivers_of s eid) remote include_unmatched;
  match certificates (server_config (ss_session_config s)) with
  | cert :: _ =>
      populate_sdp d (get_fingerprints cert) (ss_session_config s) ice connection_role sections
        (transceivers_of s eid) true
  | [] => Err (ErrOther "ErrNonCertificate")
  end.

(** The shared end of [create_offer] and [create_answer]. *)
Definition finish_description (t : RTCSdpType) (d : SessionDescription)
  : RTCSessionDescription :=
  let d := (update_sdp_origin origin_default d).2 in
  {| sdp_type := t; sdp := sd_marshal d; parsed := Some d |}.

(** [Session::create_offer]. *)
Definition create_offer (s : Session) (eid : EndpointId) (remote : RTCSessionDescription)
    (ice : RTCIceParameters) : outcome RTCSessionDescription :=
  d ← generate_matched_sdp s eid remote ice false true
        (to_connection_role DEFAULT_DTLS_ROLE_OFFER);
  Ok (finish_description Offer d).

(** [Session::create_answer]. *)
Definition create_answer (s : Session) (eid : EndpointId) (remote : RTCSessionDescription)
    (ice : RTCIceParameters) : outcome RTCSessionDescription :=
  d ← generate_matched_sdp s eid remote ice false false (to_connection_role Server);
  Ok (finish_description Answer d).

End session.

(** ** Well-formed endpoints and sessions *)

Section invariant.
Context `{O : SdpOps} `{CO : !ConfigOps} `{TO : !TransportOps} `{HO : HashOrder}.

(** The media of an endpoint: transceivers are stored under their mid, have a
    direction, and the list of mids names exactly the transceivers. *)
Record media_ok (e : Endpoint) : Prop := {
  mk_keys : ∀ mid t, ep_transceivers e !! mid = Some t → tv_mid t = mid;
  mk_dirs : directions_specified (ep_transceivers e);
  mk_mids : ∀ mid, mid ∈ ep_mids e ↔ is_Some (ep_transceivers e !! mid)
}.

(** An endpoint of session [sid] stored under [eid]: it has a transport and
    an initial remote description; its transports are stored under their four
    tuple and were opened with a candidate of the same endpoint. *)
Record endpoint_ok (sid : SessionId) (eid : EndpointId) (e : Endpoint) : Prop := {
  eo_id : ep_endpoint_id e = eid;
  eo_media : media_ok e;
  eo_transports : ep_transports e ≠ ∅;
  eo_keys : ∀ ft t, ep_transports e !! ft = Some t → tr_four_tuple t = ft;
  eo_cands : ∀ ft t, ep_transports e !! ft = Some t →
    cand_session_id (tr_candidate t) = sid ∧ cand_endpoint_id (tr_candidate t) = eid;
  eo_remote : is_Some (ep_remote_description e)
}.

(** A session stored under [sid] with the configuration [cfg]. *)
Record session_ok (cfg : SessionConfig) (sid : SessionId) (s : Session) : Prop := {
  so_config : ss_session_config s = cfg;
  so_id : ss_session_id s = sid;
  so_endpoints : ∀ eid e, ss_endpoints s !! eid = Some e → endpoint_ok sid eid e
}.

Lemma endpoint_ok_media sid eid e mids tvs :
  endpoint_ok sid eid e → media_ok (ep_with_media e mids tvs) →
  endpoint_ok sid eid (ep_with_media e mids tvs).
Proof. intros [] ?. by split. Qed.

Lemma endpoint_ok_renegotiation sid eid e b :
  endpoint_ok sid eid e → endpoint_ok sid eid (set_renegotiation_needed e b).
Proof. intros [? [] ? ? ? ?]. by split. Qed.

(** Storing a transceiver under a mid that the list of mids names. *)
Lemma media_ok_insert e mids mid t :
  media_ok e → tv_mid t = mid → tv_direction t ≠ Dir_Unspecified →
  (∀ x, x ∈ mids ↔ x ∈ ep_mids e ∨ x = mid) →
  media_ok (ep_with_media e mids (<[mid := t]> (ep_transceivers e))).
Proof.
  intros [Hk Hd Hm] Ht Hdir Hmids. split; simpl.
  - intros x u. rewrite lookup_insert_Some. intros [[<- <-]|[_ Hu]]; [done|by apply Hk].
  - apply map_Forall_insert_2; done.
  - intros x. rewrite Hmids, Hm. destruct (decide (x = mid)) as [->|Hne].
    + rewrite lookup_insert_eq. naive_solver.
    + rewrite lookup_insert_ne by done. naive_solver.
Qed.

Lemma push_transceiver_ok sid eid e t :
  endpoint_ok sid eid e → tv_direction t ≠ Dir_Unspecified →
  endpoint_ok sid eid (push_transceiver e t).
Proof.
  intros He Hd. apply endpoint_ok_media; [done|].
  apply media_ok_insert; [by destruct He|done|done|set_solver].
Qed.

Lemma propagate_track_ok sid eid dir t oid e :
  endpoint_ok sid oid e → dir ≠ Dir_Unspecified →
  endpoint_ok sid oid (propagate_track eid dir t oid e).
Proof.
  intros He Hd. unfold propagate_track. case_bool_decide; [done|].
  pose proof (eo_media _ _ _ He) as Hm.
  destruct (ep_transceivers e !! _) as [o|] eqn:Eo; case_bool_decide; try done;
    apply endpoint_ok_renegotiation, endpoint_ok_media; try done.
  - apply media_ok_insert; [done| |done|].
    + by apply (mk_keys _ Hm) in Eo.
    + intros x. split; [by left|]. intros [Hx| ->]; [done|]. apply (mk_mids _ Hm). eauto.
  - apply media_ok_insert; [done|done|done|set_solver].
Qed.

Context (cfg : SessionConfig) (sid : SessionId).

Lemma lookup_publish_track s eid e dir t oid :
  ss_endpoints (publish_track s eid e dir t) !! oid =
  if decide (oid = eid) then Some (push_transceiver e t)
  else propagate_track eid dir t oid <$> ss_endpoints s !! oid.
Proof.
  simpl. rewrite map_lookup_imap. case_decide as Hoid; subst.
  - rewrite lookup_insert_eq. simpl. unfold propagate_track.
    by rewrite bool_decide_eq_true_2.
  - rewrite lookup_insert_ne by done. by destruct (ss_endpoints s !! oid).
Qed.

Lemma publish_track_ok s eid e dir t :
  session_ok cfg sid s → ss_endpoints s !! eid = Some e → dir ≠ Dir_Unspecified →
  tv_direction t ≠ Dir_Unspecified → session_ok cfg sid (publish_track s eid e dir t).
Proof.
  intros [Hc Hi Hs] He Hdir Ht. split; [done|done|]. intros oid e'. rewrite lookup_publish_track. simpl.
  case_decide as Hoid; subst.
  - intros [= <-]. by apply push_transceiver_ok; [apply Hs|].
  - intros (e0 & He0 & ->)%fmap_Some. apply propagate_track_ok; [by apply Hs|done].
Qed.

(** What one section of a remote offer can do. *)
Lemma remote_offer_media_cases eid media s s' r :
  remote_offer_media eid media s = (s', r) →
  s' = s ∨ ∃ kind dir mid e t,
    negotiable media = Ok (Some (kind, dir, mid)) ∧ ss_endpoints s !! eid = Some e ∧
    ep_transceivers e !! mid = None ∧ remote_transceiver media kind dir mid = Ok t ∧
    s' = publish_track s eid e dir t.
Proof.
  unfold remote_offer_media, mbind, M_bind, liftO, getS, putS, mret, M_ret. intros H.
  destruct (negotiable media) as [[[[kind dir] mid]|]|e|] eqn:En;
    try (left; congruence).
  destruct (ss_endpoints s !! eid) as [e|] eqn:Ee; simpl in H; [|left; congruence].
  case_bool_decide as Hs; [left; congruence|].
  destruct (remote_transceiver media kind dir mid) as [t|e'|] eqn:Et;
    injection H as <- <-; [|by left|by left].
  right. exists kind, dir, mid, e, t. split_and!; try done. by apply eq_None_not_Some.
Qed.

Lemma negotiable_direction media kind dir mid :
  negotiable media = Ok (Some (kind, dir, mid)) → dir ≠ Dir_Unspecified.
Proof.
  unfold negotiable. repeat case_match; try done. intros [= <- <- <-].
  rewrite orb_false_iff, !bool_decide_eq_false in *. tauto.
Qed.

Lemma remote_transceiver_ok media kind dir mid t :
  remote_transceiver media kind dir mid = Ok t →
  tv_mid t = mid ∧ tv_kind t = kind ∧ tv_current_direction t = Dir_Unspecified ∧
  tv_direction t = (if bool_decide (dir = Recvonly) then Sendonly else Recvonly).
Proof.
  unfold remote_transceiver. intros H. do 4 (apply bind_ok_inv in H as (? & _ & H)).
  by injection H as <-.
Qed.

Lemma remote_offer_media_ok eid media s :
  session_ok cfg sid s → session_ok cfg sid (remote_offer_media eid media s).1.
Proof.
  intros Hs. destruct (remote_offer_media eid media s) as [s' r] eqn:E. simpl.
  apply remote_offer_media_cases in E as [->|(k & dir & mid & e & t & Hn & He & _ & Ht & ->)];
    [done|].
  apply publish_track_ok; [done|done|by eapply negotiable_direction|].
  apply remote_transceiver_ok in Ht as (_ & _ & _ & ->). by case_bool_decide.
Qed.

Lemma answer_media_cases f eid media s s' r :
  answer_media f eid media s = (s', r) →
  s' = s ∨ ∃ kind dir mid e t,
    negotiable media = Ok (Some (kind, dir, mid)) ∧ ss_endpoints s !! eid = Some e ∧
    ep_transceivers e !! mid = Some t ∧
    s' = ss_with_endpoints s
           (<[eid := ep_with_media e (ep_mids e)
                (<[mid := set_current_direction t (f dir)]> (ep_transceivers e))]>
              (ss_endpoints s)).
Proof.
  unfold answer_media, mbind, M_bind, liftO, getS, putS, mret, M_ret. intros H.
  destruct (negotiable media) as [[[[kind dir] mid]|]|e|] eqn:En;
    try (left; congruence).
  destruct (ss_endpoints s !! eid) as [e|] eqn:Ee; simpl in H; [|left; congruence].
  destruct (ep_transceivers e !! mid) as [t|] eqn:Et; injection H as <- <-; [|by left].
  right. eauto 10.
Qed.

Lemma answer_media_ok f eid media s :
  session_ok cfg sid s → session_ok cfg sid (answer_media f eid media s).1.
Proof.
  intros Hs. destruct (answer_media f eid media s) as [s' r] eqn:E. simpl.
  apply answer_media_cases in E as [->|(k & dir & mid & e & t & _ & He & Ht & ->)]; [done|].
  destruct Hs as [Hc Hi Hs]. split; [done|done|]. simpl. intros oid e'. rewrite lookup_insert_Some.
  intros [[<- <-]|[_ He']]; [|by apply Hs]. pose proof (Hs _ _ He) as Hok.
  apply endpoint_ok_media; [done|]. pose proof (eo_media _ _ _ Hok) as Hm.
  apply media_ok_insert; [done| | |].
  - by apply (mk_keys _ Hm) in Ht.
  - by apply (mk_dirs _ Hm) in Ht.
  - intros x. split; [by left|]. intros [Hx| ->]; [done|]. apply (mk_mids _ Hm). eauto.
Qed.

Lemma ss_set_remote_description_ok eid remote s :
  session_ok cfg sid s → session_ok cfg sid (ss_set_remote_description eid remote s).1.
Proof.
  intros Hs. unfold ss_set_remote_description, mbind, M_bind, getS, throw, liftO.
  destruct (negb (has_endpoint s eid)); [done|].
  destruct (parsed remote); [|done]. simpl. apply (forM_inv (session_ok cfg sid)); [|done].
  intros media s1 _ Hs1. case_match; [by apply answer_media_ok|by apply remote_offer_media_ok].
Qed.

Lemma ss_set_local_description_ok eid local s :
  session_ok cfg sid s → session_ok cfg sid (ss_set_local_description eid local s).1.
Proof.
  intros Hs. unfold ss_set_local_description, mbind, M_bind, getS, throw, liftO.
  destruct (parsed local); [|done]. simpl.
  destruct (negb (has_endpoint s eid)); [done|]. case_match; [|done].
  apply (forM_inv (session_ok cfg sid)); [|done]. intros. by apply answer_media_ok.
Qed.

Lemma ss_add_endpoint_ok now candidate tc s :
  session_ok cfg sid s → cand_session_id candidate = sid →
  session_ok cfg sid (ss_add_endpoint now candidate tc s).1.
Proof.
  intros [Hcf Hi Hs] Hc. unfold ss_add_endpoint.
  destruct (ss_endpoints s !! cand_endpoint_id candidate) as [e|] eqn:E.
  - case_match; [done|]. split; [done|done|]. simpl. intros eid e'. rewrite lookup_insert_Some.
    intros [[<- <-]|[_ He']]; [|by apply Hs]. destruct (Hs _ _ E) as [H1 H2 H3 H4 H5 H6].
    split; simpl; try done; try by destruct H2.
    + apply insert_non_empty.
    + intros ft t. rewrite lookup_insert_Some. intros [[<- <-]|[_ Ht]]; [done|by apply H4].
    + intros ft t. rewrite lookup_insert_Some. intros [[<- <-]|[_ Ht]]; [done|by eapply H5].
  - split; [done|done|]. simpl. intros eid e'. rewrite lookup_insert_Some.
    intros [[<- <-]|[_ He']]; [|by apply Hs]. split; simpl; try done.
    + split; simpl; [done|done|]. intros mid. rewrite lookup_empty. split; [set_solver|].
      by intros [].
    + intros ft t. rewrite lookup_insert_Some. intros [[<- <-]|[_ Ht]]; [done|by rewrite lookup_empty in Ht].
    + intros ft t. rewrite lookup_insert_Some. intros [[<- <-]|[_ Ht]]; [done|by rewrite lookup_empty in Ht].
Qed.

End invariant.

#[export] Hint Resolve ss_set_remote_description_ok ss_set_local_description_ok : sfu.

(** ** Publishing tracks *)

Section publishing.
Context `{O : SdpOps} `{CO : !ConfigOps} `{TO : !TransportOps} `{HO : HashOrder}.
Implicit Types (s : Session) (e : Endpoint).

Lemma other_mid_inj eid1 mid1 eid2 mid2 :
  (0 ≤ eid1)%Z → (0 ≤ eid2)%Z → other_mid eid1 mid1 = other_mid eid2 mid2 →
  eid1 = eid2 ∧ mid1 = mid2.
Proof.
  unfold other_mid. intros H1 H2 Heq.
  apply (append_sep_inj ch_dash) in Heq as [Hs ->]; [|apply show_u_no_dash|apply show_u_no_dash].
  split; [by apply show_u_inj|done].
Qed.

Lemma other_mid_inj_mid eid mid1 mid2 :
  other_mid eid mid1 = other_mid eid mid2 → mid1 = mid2.
Proof.
  unfold other_mid. intros Heq.
  by apply (append_sep_inj ch_dash) in Heq as [_ ->]; [|apply show_u_no_dash|apply show_u_no_dash].
Qed.

(** Endpoint [oid] carries the track [mid] of [eid] as a sendonly transceiver;
    when the track is [fresh], the endpoint waits for a new offer. *)
Definition carries s (eid : EndpointId) (mid : string) (oid : EndpointId) (fresh : Prop) : Prop :=
  ∃ e t, ss_endpoints s !! oid = Some e ∧
    ep_transceivers e !! other_mid eid mid = Some t ∧ tv_direction t = Sendonly ∧
    (fresh → ep_is_renegotiation_needed e = true).

(** The endpoint [eid] knows the mid. *)
Definition knows_mid s (eid : EndpointId) (mid : string) : Prop :=
  ∃ e, ss_endpoints s !! eid = Some e ∧ is_Some (ep_transceivers e !! mid).

Lemma propagate_track_other eid dir t oid e om :
  om ≠ other_mid eid (tv_mid t) →
  ep_transceivers (propagate_track eid dir t oid e) !! om = ep_transceivers e !! om ∧
  (ep_is_renegotiation_needed e = true →
   ep_is_renegotiation_needed (propagate_track eid dir t oid e) = true).
Proof.
  intros Hne. unfold propagate_track. case_bool_decide; [done|].
  destruct (ep_transceivers e !! other_mid _ _); case_bool_decide; simpl; try done;
    by rewrite lookup_insert_ne.
Qed.

Lemma propagate_track_sendonly eid t oid e :
  oid ≠ eid → ∃ u,
  ep_transceivers (propagate_track eid Sendonly t oid e) !! other_mid eid (tv_mid t) = Some u ∧
  tv_direction u = Sendonly ∧
  (ep_transceivers e !! other_mid eid (tv_mid t) = None →
   ep_is_renegotiation_needed (propagate_track eid Sendonly t oid e) = true).
Proof.
  intros Hne. unfold propagate_track. rewrite bool_decide_eq_false_2 by done.
  destruct (ep_transceivers e !! other_mid _ _) as [o|] eqn:Eo.
  - case_bool_decide as Hd; simpl.
    + rewrite lookup_insert_eq. eexists. split_and!; [done|done|done].
    + rewrite Eo. exists o. split_and!; [done| |done].
      destruct (decide (tv_direction o = Sendonly)); [done|by destruct Hd].
  - rewrite bool_decide_eq_true_2 by done. simpl. rewrite lookup_insert_eq. eauto.
Qed.

(** A section with another mid does not touch the track. *)
Lemma remote_offer_media_frame eid media mid oid s :
  oid ≠ eid → (∀ k d, negotiable media ≠ Ok (Some (k, d, mid))) →
  (knows_mid s eid mid ↔ knows_mid (remote_offer_media eid media s).1 eid mid) ∧
  (∀ fresh, carries s eid mid oid fresh →
            carries (remote_offer_media eid media s).1 eid mid oid fresh) ∧
  (∀ e, ss_endpoints s !! oid = Some e → ∃ e',
     ss_endpoints (remote_offer_media eid media s).1 !! oid = Some e' ∧
     ep_transceivers e' !! other_mid eid mid = ep_transceivers e !! other_mid eid mid).
Proof.
  intros Hoid Hn. destruct (remote_offer_media eid media s) as [s' r] eqn:E. simpl.
  apply remote_offer_media_cases in E as [->|(k & dir & mid' & e & t & Hm & He & _ & Ht & ->)].
  { split_and!; [done|done|eauto]. }
  apply remote_transceiver_ok in Ht as (Ht & _).
  assert (Hne : mid ≠ mid') by (intros <-; by eapply Hn).
  assert (Hom : other_mid eid mid ≠ other_mid eid (tv_mid t)).
  { rewrite Ht. by intros ?%other_mid_inj_mid. }
  split_and!.
  - unfold knows_mid. rewrite lookup_publish_track, decide_True by done. simpl.
    split; intros (e' & He' & H').
    + exists (push_transceiver e t). split; [done|]. simpl. rewrite Ht, lookup_insert_ne by done.
      congruence.
    + exists e. split; [done|]. injection He' as <-. simpl in H'.
      by rewrite Ht, lookup_insert_ne in H'.
  - intros fresh (e1 & u & H1 & Hu & Hd & Hr). unfold carries.
    rewrite lookup_publish_track, decide_False, H1 by done. simpl.
    destruct (propagate_track_other eid dir t oid e1 _ Hom) as [Heq Hreneg].
    eexists _, u. rewrite Heq. split_and!; [done|done|done|by auto].
  - intros e1 H1. rewrite lookup_publish_track, decide_False, H1 by done. simpl.
    eexists. split; [done|]. by apply propagate_track_other.
Qed.

(** A section whose mid is known changes nothing. *)
Lemma remote_offer_media_known eid media s k d mid :
  negotiable media = Ok (Some (k, d, mid)) → knows_mid s eid mid →
  remote_offer_media eid media s = (s, Ok ()).
Proof.
  intros Hn (e & He & Hk). unfold remote_offer_media, mbind, M_bind, liftO, getS.
  rewrite Hn, He. simpl. by rewrite bool_decide_eq_true_2.
Qed.

(** The remaining sections keep what one section published. *)
Lemma remote_offer_suffix eid mid oid fresh l s :
  oid ≠ eid → knows_mid s eid mid → carries s eid mid oid fresh →
  knows_mid (forM l (remote_offer_media eid) s).1 eid mid ∧
  carries (forM l (remote_offer_media eid) s).1 eid mid oid fresh.
Proof.
  intros Hoid Hk Hc.
  apply (forM_inv (λ s, knows_mid s eid mid ∧ carries s eid mid oid fresh)); [|done].
  intros media s1 _ [Hk1 Hc1].
  destruct (negotiable media) as [[[[k d] mid']|]|e|] eqn:En;
    [destruct (decide (mid' = mid)) as [->|Hne]; [by erewrite remote_offer_media_known|]|..];
    (destruct (remote_offer_media_frame eid media mid oid s1) as (Hk2 & Hc2 & _);
      [done|congruence|split; [by apply Hk2|by apply Hc2]]).
Qed.

(** The earlier sections, none of which has the mid. *)
Lemma remote_offer_prefix eid mid oid l s e :
  oid ≠ eid → (∀ media, media ∈ l → ∀ k d, negotiable media ≠ Ok (Some (k, d, mid))) →
  ¬ knows_mid s eid mid → ss_endpoints s !! oid = Some e →
  ¬ knows_mid (forM l (remote_offer_media eid) s).1 eid mid ∧
  ∃ e', ss_endpoints (forM l (remote_offer_media eid) s).1 !! oid = Some e' ∧
        ep_transceivers e' !! other_mid eid mid = ep_transceivers e !! other_mid eid mid.
Proof.
  intros Hoid Hl Hk He.
  apply (forM_inv (λ s, ¬ knows_mid s eid mid ∧ ∃ e', ss_endpoints s !! oid = Some e' ∧
    ep_transceivers e' !! other_mid eid mid = ep_transceivers e !! other_mid eid mid)); [|eauto].
  intros media s1 Hin [Hk1 (e1 & He1 & Heq)].
  destruct (remote_offer_media_frame eid media mid oid s1 Hoid (Hl _ Hin)) as (Hk2 & _ & Hf).
  split; [by rewrite <- Hk2|]. destruct (Hf _ He1) as (e2 & He2 & Heq2). exists e2.
  split; [done|congruence].
Qed.

(** The section that publishes. *)
Lemma remote_offer_publishes eid media k mid oid s s' e :
  oid ≠ eid → negotiable media = Ok (Some (k, Sendonly, mid)) →
  ¬ knows_mid s eid mid → ss_endpoints s !! oid = Some e →
  remote_offer_media eid media s = (s', Ok ()) →
  knows_mid s' eid mid ∧
  carries s' eid mid oid (ep_transceivers e !! other_mid eid mid = None).
Proof.
  intros Hoid Hn Hk He H. unfold remote_offer_media, mbind, M_bind, liftO, getS, putS in H.
  rewrite Hn in H. destruct (ss_endpoints s !! eid) as [e0|] eqn:E0; [|done]. simpl in H.
  case_bool_decide as Hs; [exfalso; apply Hk; by exists e0|].
  destruct (remote_transceiver media k Sendonly mid) as [t|?|] eqn:Et; try done.
  injection H as <-. apply remote_transceiver_ok in Et as (Ht & _). split.
  - exists (push_transceiver e0 t). rewrite lookup_publish_track, decide_True by done.
    split; [done|]. simpl. rewrite Ht, lookup_insert_eq. eauto.
  - destruct (propagate_track_sendonly eid t oid e Hoid) as (u & Hu & Hd & Hr).
    unfold carries. rewrite lookup_publish_track, decide_False, He by done. simpl.
    rewrite Ht in *. eauto 10.
Qed.

(** The effect of a remote offer that is applied without error. *)
Lemma offer_publishes_aux s eid remote d l1 media l2 k mid oid e s' :
  parsed remote = Some d → sdp_type remote ≠ Answer →
  media_descriptions d = l1 ++ media :: l2 →
  negotiable media = Ok (Some (k, Sendonly, mid)) →
  (∀ m, m ∈ l1 → ∀ k d, negotiable m ≠ Ok (Some (k, d, mid))) →
  ¬ knows_mid s eid mid →
  oid ≠ eid → ss_endpoints s !! oid = Some e →
  ss_set_remote_description eid remote s = (s', Ok ()) →
  knows_mid s' eid mid ∧
  carries s' eid mid oid (ep_transceivers e !! other_mid eid mid = None).
Proof.
  intros Hp Hty Hl Hn Hpre Hk Hoid He H.
  unfold ss_set_remote_description, mbind, M_bind, getS, throw, liftO in H.
  destruct (negb (has_endpoint s eid)); [done|]. rewrite Hp in H. simpl in H.
  rewrite bool_decide_eq_false_2, Hl in H by done.
  apply forM_app_ok in H as (s1 & H1 & H). apply forM_cons_ok in H as (s2 & H2 & H3).
  pose proof (remote_offer_prefix eid mid oid l1 s e Hoid Hpre Hk He) as [Hk1 (e1 & He1 & Heq)].
  rewrite H1 in Hk1, He1. simpl in *.
  destruct (remote_offer_publishes eid media k mid oid s1 s2 e1) as [Hk2 Hc2]; try done.
  rewrite Heq in Hc2.
  pose proof (remote_offer_suffix eid mid oid _ l2 s2 Hoid Hk2 Hc2) as Hend.
  by rewrite H3 in Hend.
Qed.

(** C11. Publishing: when a remote offer of endpoint [eid] is applied without
    error, the first section of every mid the endpoint did not know, if it
    is sendonly, becomes a sendonly transceiver of every other endpoint of
    the session under the mid "<eid>-<mid>", and an endpoint that did not
    have that transceiver is marked for renegotiation. *)
Theorem offer_publishes_tracks s eid remote d l1 media l2 k mid oid e s' :
  parsed remote = Some d → sdp_type remote ≠ Answer →
  media_descriptions d = l1 ++ media :: l2 →
  negotiable media = Ok (Some (k, Sendonly, mid)) →
  (∀ m, m ∈ l1 → ∀ k d, negotiable m ≠ Ok (Some (k, d, mid))) →
  ¬ knows_mid s eid mid →
  oid ≠ eid → ss_endpoints s !! oid = Some e →
  ss_set_remote_description eid remote s = (s', Ok ()) →
  knows_mid s' eid mid ∧
  carries s' eid mid oid (ep_transceivers e !! other_mid eid mid = None).
Proof. apply offer_publishes_aux. Qed.

End publishing.

(** ** What offers and answers contain *)

Section matching.
Context `{L : SdpLaws} `{CO : !ConfigOps} `{TO : !TransportOps} `{HO : HashOrder}.
Implicit Types (m media : MediaDescription).

Definition is_application media : bool :=
  String.eqb (mn_media (md_media_name media)) MEDIA_SECTION_APPLICATION.

(** The remote sections that get a section of their own in the reply: those
    with a mid that are application sections, or audio or video sections with
    a direction. *)
Definition answered media : bool :=
  bool_decide (is_Some (get_mid_value media)) &&
  (is_application media ||
   negb (bool_decide (codec_type_from_str (mn_media (md_media_name media)) = Codec_Unspecified)
         || bool_decide (get_peer_direction media = Dir_Unspecified))).

Definition mid_of media : Mid := default "" (get_mid_value media).

Definition section_for (include_unmatched : bool) media : MediaSection :=
  if is_application media then
    {| ms_mid := mid_of media; ms_data := true; ms_rid_map := ∅; ms_offered_direction := None |}
  else
    {| ms_mid := mid_of media; ms_data := false; ms_rid_map := get_rids media;
       ms_offered_direction :=
         if include_unmatched then None else Some (get_peer_direction media) |}.

(** The mids of the audio and video sections among the answered ones. *)
Definition media_mids (l : list MediaDescription) : list Mid :=
  map mid_of (List.filter (λ m, negb (is_application m)) (List.filter answered l)).

Lemma match_remote_media_ok tvs inc secs app mt media st :
  match_remote_media tvs inc (secs, app, mt) media = Ok st →
  st = (secs ++ map (section_for inc) (List.filter answered [media]),
        app || existsb is_application (List.filter answered [media]),
        mt ++ media_mids [media]) ∧
  Forall (λ mid, is_Some (tvs !! mid)) (media_mids [media]).
Proof.
  unfold match_remote_media, media_mids, answered, section_for, is_application, mid_of. simpl.
  destruct (get_mid_value media) as [mid|] eqn:Hm; simpl.
  2:{ intros [= <-]. by rewrite !app_nil_r, orb_false_r. }
  destruct (str_is_empty mid); [done|].
  destruct (String.eqb (mn_media (md_media_name media)) MEDIA_SECTION_APPLICATION) eqn:Ha; simpl.
  - intros [= <-]. rewrite Ha, Hm. simpl. by rewrite app_nil_r, orb_true_r.
  - destruct (_ || _); simpl.
    + intros [= <-]. by rewrite !app_nil_r, orb_false_r.
    + case_bool_decide as Hs; [|done]. intros [= <-]. rewrite Ha, Hm. simpl.
      rewrite orb_false_r, Hm. simpl. split; [done|]. by constructor.
Qed.

Lemma matched_remote tvs inc l : ∀ secs app mt st,
  foldO (match_remote_media tvs inc) (secs, app, mt) l = Ok st →
  st = (secs ++ map (section_for inc) (List.filter answered l),
        app || existsb is_application (List.filter answered l), mt ++ media_mids l) ∧
  Forall (λ mid, is_Some (tvs !! mid)) (media_mids l).
Proof.
  induction l as [|m l IH]; intros secs app mt st; cbn [foldO].
  { intros [= <-]. simpl. by rewrite !app_nil_r, orb_false_r. }
  destruct (match_remote_media tvs inc (secs, app, mt) m) as [st1|e|] eqn:E; try done.
  apply match_remote_media_ok in E as [-> Hf]. intros [-> Hf']%IH.
  assert (Happ : List.filter answered (m :: l) = List.filter answered [m] ++ List.filter answered l).
  { simpl. by destruct (answered m). }
  assert (Hmm : media_mids (m :: l) = media_mids [m] ++ media_mids l).
  { unfold media_mids. by rewrite Happ, List.filter_app, map_app. }
  rewrite Happ, Hmm, Forall_app, map_app, existsb_app, !app_assoc, orb_assoc. done.
Qed.

(** The parsed description of what [create_offer] and [create_answer] return. *)
Lemma generate_matched_sdp_ok s eid remote ice uid inc role d :
  directions_specified (transceivers_of s eid) →
  generate_matched_sdp s eid remote ice uid inc role = Ok d →
  ∃ sections, Forall2 (section_spec (transceivers_of s eid)) sections (media_descriptions d) ∧
    matched_sections (mids_of s eid) (transceivers_of s eid) remote inc = Ok sections.
Proof.
  intros Hd. unfold generate_matched_sdp. intros (secs & Hs & Hok)%bind_ok_inv.
  exists secs. split; [|done]. destruct (certificates _) as [|cert ?]; [done|].
  apply bind_ok_inv in Hok as ([d1 v] & Hf & Hok).
  apply (populate_sections_ok _ _ _ _ _ _ 0) in Hf as (_ & medias & Hm & Hss); [|done].
  injection Hok as <-. edestruct sd_with_value_attribute_eq as [-> _].
  edestruct sd_with_property_attribute_eq as [-> _].
  rewrite Hm, sd_new_jsep_media. done.
Qed.

Lemma finish_description_media t d : ∃ d', parsed (finish_description t d) = Some d' ∧
  sdp (finish_description t d) = sd_marshal d' ∧ media_descriptions d' = media_descriptions d.
Proof.
  eexists. split_and!; [done|done|]. unfold update_sdp_origin. by case_match.
Qed.

(** [a] answers the remote section [m]. *)
Definition mirrors (tvs : gmap Mid RTCRtpTransceiver) m (a : MediaDescription) : Prop :=
  get_mid_value a = get_mid_value m ∧
  if is_application m then is_application a = true
  else ∃ t, tvs !! mid_of m = Some t ∧
    mn_media (md_media_name a) = codec_type_to_string (tv_kind t) ∧
    get_peer_direction a = section_direction (Some (get_peer_direction m)) (tv_direction t) ∧
    answers (get_peer_direction m) (get_peer_direction a).

Lemma section_spec_mirrors tvs m a :
  answered m = true → section_spec tvs (section_for false m) a → mirrors tvs m a.
Proof.
  unfold answered, section_spec, section_for, mirrors, is_application, section_reads, mid_of.
  rewrite andb_true_iff. intros [[mid Hm]%bool_decide_eq_true Hk].
  destruct (String.eqb (mn_media (md_media_name m)) MEDIA_SECTION_APPLICATION); simpl in *.
  - intros (_ & Hmid & Hn & _). rewrite Hmid, Hm. split; [done|]. rewrite Hn. done.
  - intros (t & Ht & Hmid & Hn & Hdir). rewrite Hmid, Hm. split; [done|]. rewrite Hm in Ht.
    exists t. split_and!; [done|done|done|]. rewrite Hdir. apply section_direction_answers.
    apply negb_true_iff, orb_false_iff in Hk as [_ Hk]. by apply bool_decide_eq_false in Hk.
Qed.

(** C10. An answer mirrors its offer: it is an SDP of type answer whose
    sections correspond one to one and in order to the answered sections of
    the remote description, with the same mid; an application section is
    answered by one, a media section by one with the kind of its transceiver
    and a direction that RFC 3264 allows for the offered one. *)
Theorem create_answer_mirrors s eid remote rd ice ans :
  directions_specified (transceivers_of s eid) → parsed remote = Some rd →
  create_answer s eid remote ice = Ok ans →
  ∃ d, sdp_type ans = Answer ∧ parsed ans = Some d ∧ sdp ans = sd_marshal d ∧
    Forall2 (mirrors (transceivers_of s eid))
      (List.filter answered (media_descriptions rd)) (media_descriptions d).
Proof.
  intros Hd Hp. unfold create_answer. intros (d & Hg & [= <-])%bind_ok_inv.
  destruct (finish_description_media Answer d) as (d' & H1 & H2 & H3). exists d'.
  split_and!; [done|done|done|]. rewrite H3.
  apply generate_matched_sdp_ok in Hg as (secs & Hss & Hms); [|done].
  unfold matched_sections in Hms. rewrite Hp in Hms.
  apply bind_ok_inv in Hms as (st & Hf & Hms). apply matched_remote in Hf as [-> _].
  injection Hms as <-. simpl in Hss. apply (Forall2_fmap_l (section_for false)) in Hss.
  eapply Forall2_filter_impl; [|exact Hss]. apply section_spec_mirrors.
Qed.

(** The mids of an offer: the answered sections of the remote description
    first, then the transceivers it does not mention, and a data section at
    the end when there is none yet. *)
Definition offer_mids (rd : SessionDescription) (mids : list Mid) : list Mid :=
  let old := List.filter answered (media_descriptions rd) in
  let new := filter (λ mid, mid ∉ media_mids (media_descriptions rd)) mids in
  map mid_of old ++ new ++
  (if existsb is_application old then []
   else [show_u (Z.of_nat (length old + length new))]).

Lemma section_spec_mid tvs ms a : section_spec tvs ms a → get_mid_value a = Some (ms_mid ms).
Proof. unfold section_spec. case_match; [by intros (_ & ? & _)|by intros (t & _ & ? & _)]. Qed.

Lemma matched_sections_offer mids tvs remote rd sections :
  parsed remote = Some rd → matched_sections mids tvs remote true = Ok sections →
  map ms_mid sections = offer_mids rd mids.
Proof.
  intros Hp. unfold matched_sections. rewrite Hp. intros (st & Hf & Hms)%bind_ok_inv.
  apply matched_remote in Hf as [-> _]. simpl in Hms. injection Hms as <-.
  assert (Hmap : map ms_mid (map (section_for true) (List.filter answered (media_descriptions rd)))
                 = map mid_of (List.filter answered (media_descriptions rd))).
  { rewrite map_map. apply map_ext. intros m. unfold section_for. by case_match. }
  unfold offer_mids.
  case_match; rewrite ?map_app, Hmap, map_map; simpl; rewrite map_id, <- ?app_assoc.
  - by rewrite app_nil_r.
  - simpl. by rewrite length_app, !length_map.
Qed.

(** C18. The sections of an offer are, in order, those of the remote
    description, then the transceivers it does not mention in the order of
    the endpoint's list of mids, then a data section if there was none: every
    section can be read back with its mid. *)
Theorem create_offer_mids s eid remote rd ice offer :
  directions_specified (transceivers_of s eid) → parsed remote = Some rd →
  create_offer s eid remote ice = Ok offer →
  ∃ d, sdp_type offer = Offer ∧ parsed offer = Some d ∧ sdp offer = sd_marshal d ∧
    map get_mid_value (media_descriptions d) = map Some (offer_mids rd (mids_of s eid)).
Proof.
  intros Hd Hp. unfold create_offer. intros (d & Hg & [= <-])%bind_ok_inv.
  destruct (finish_description_media Offer d) as (d' & H1 & H2 & H3). exists d'.
  split_and!; [done|done|done|]. rewrite H3.
  apply generate_matched_sdp_ok in Hg as (secs & Hss & Hms); [|done].
  rewrite <- (matched_sections_offer _ _ _ _ _ Hp Hms), map_map.
  clear -Hss. induction Hss as [|ms a l1 l2 Hma _ IH]; [done|]. simpl.
  by rewrite (section_spec_mid _ _ _ Hma), IH.
Qed.

(** Later offers of an endpoint keep the sections of the earlier ones in
    place and append the new ones, when the remote description has a data
    section. *)
Lemma offer_mids_extend rd mids new :
  existsb is_application (List.filter answered (media_descriptions rd)) = true →
  ∃ l, offer_mids rd (mids ++ new) = offer_mids rd mids ++ l.
Proof.
  unfold offer_mids. intros ->. rewrite filter_app, !app_nil_r, app_assoc. eauto.
Qed.

(** Only a data-only offer can open a connection: for an endpoint the
    session does not know, an answer exists only if no answered section of the
    offer is audio or video. *)
Lemma initial_offer_is_data_only s eid remote rd ice ans :
  ss_endpoints s !! eid = None → parsed remote = Some rd →
  create_answer s eid remote ice = Ok ans →
  Forall (λ m, is_application m = true) (List.filter answered (media_descriptions rd)).
Proof.
  intros He Hp. unfold create_answer. intros (d & Hg & _)%bind_ok_inv.
  unfold generate_matched_sdp in Hg. apply bind_ok_inv in Hg as (secs & Hms & _).
  unfold matched_sections in Hms. rewrite Hp in Hms.
  apply bind_ok_inv in Hms as (st & Hf & _). apply matched_remote in Hf as [_ Hf].
  unfold transceivers_of in Hf. rewrite He in Hf. unfold media_mids in Hf.
  rewrite Forall_map in Hf. rewrite Forall_forall. intros m Hm.
  destruct (is_application m) eqn:Ha; [done|]. rewrite Forall_forall in Hf.
  destruct (Hf m) as [t Ht]; [|by rewrite lookup_empty in Ht].
  apply list_elem_of_In, filter_In. split; [by apply list_elem_of_In|by rewrite Ha].
Qed.

End matching.

(** ** Applying an answer *)

Section answering.
Context `{O : SdpOps} `{CO : !ConfigOps} `{TO : !TransportOps} `{HO : HashOrder}.

(** The direction of the last section for [mid] among those that count. *)
Definition last_direction (sections : list MediaDescription) (mid : Mid)
  : option RTCRtpTransceiverDirection :=
  last (omap (λ media, match negotiable media with
                       | Ok (Some (_, dir, mid')) => if decide (mid' = mid) then Some dir else None
                       | _ => None
                       end) sections).

(** A transceiver after an answer with these sections. *)
Definition after_answer f (sections : list MediaDescription) (mid : Mid) (t : RTCRtpTransceiver)
  : RTCRtpTransceiver :=
  match last_direction sections mid with
  | Some dir => set_current_direction t (f dir)
  | None => t
  end.

(** The session in which [eid] has these transceivers. *)
Definition with_transceivers (s : Session) (eid : EndpointId) (e : Endpoint)
    (tvs : gmap Mid RTCRtpTransceiver) : Session :=
  ss_with_endpoints s (<[eid := ep_with_media e (ep_mids e) tvs]> (ss_endpoints s)).

Lemma last_direction_cons media sections mid :
  last_direction (media :: sections) mid =
  match last_direction sections mid with
  | Some dir => Some dir
  | None => match negotiable media with
            | Ok (Some (_, dir, mid')) => if decide (mid' = mid) then Some dir else None
            | _ => None
            end
  end.
Proof.
  unfold last_direction. simpl. destruct (negotiable media) as [[[[k dir] mid']|]|?|]; simpl;
    [case_decide| | |]; try by destruct (last _).
  by rewrite last_cons.
Qed.

Lemma answered_nil f tvs : map_imap (λ mid t, Some (after_answer f [] mid t)) tvs = tvs.
Proof.
  apply map_eq. intros mid. rewrite map_lookup_imap. by destruct (tvs !! mid).
Qed.

(** One more section in front. *)
Lemma answered_cons f media sections tvs :
  map_imap (λ mid t, Some (after_answer f (media :: sections) mid t)) tvs =
  map_imap (λ mid t, Some (after_answer f sections mid t))
    match negotiable media with
    | Ok (Some (_, dir, mid)) => alter (λ t, set_current_direction t (f dir)) mid tvs
    | _ => tvs
    end.
Proof.
  apply map_eq. intros mid. rewrite !map_lookup_imap. unfold after_answer. rewrite last_direction_cons.
  destruct (negotiable media) as [[[[k dir] mid']|]|?|];
    try (destruct (tvs !! mid); simpl; by destruct (last_direction sections mid)).
  rewrite lookup_alter. case_decide as Hd; [subst mid'|]; destruct (tvs !! mid); simpl;
    by destruct (last_direction sections mid).
Qed.

(** The loop over the sections of an answer. *)
Lemma answer_sections f eid sections : ∀ s s' e,
  ss_endpoints s !! eid = Some e → forM sections (answer_media f eid) s = (s', Ok ()) →
  s' = with_transceivers s eid e
         (map_imap (λ mid t, Some (after_answer f sections mid t)) (ep_transceivers e)).
Proof.
  induction sections as [|media sections IH]; intros s s' e He H.
  - injection H as <-. rewrite answered_nil. unfold with_transceivers.
    rewrite insert_id by (by destruct e). by destruct s.
  - apply forM_cons_ok in H as (s1 & H1 & H). rewrite answered_cons.
    unfold answer_media, mbind, M_bind, liftO, getS, putS, mret, M_ret in H1.
    destruct (negotiable media) as [[[[k dir] mid]|]|?|]; simpl in H1; try done;
      [|injection H1 as <-; by apply IH].
    rewrite He in H1. simpl in H1. destruct (ep_transceivers e !! mid) as [t|] eqn:Et.
    + injection H1 as <-.
      apply (IH _ s' (ep_with_media e (ep_mids e)
        (<[mid := set_current_direction t (f dir)]> (ep_transceivers e)))) in H as ->;
        [|apply lookup_insert_eq].
      unfold with_transceivers, ss_with_endpoints. simpl. rewrite insert_insert_eq. repeat f_equal.
      apply map_eq. intros mid'. rewrite lookup_insert, lookup_alter.
      case_decide; [subst|done]. by rewrite Et.
    + injection H1 as <-. rewrite alter_id by (intros; congruence). by apply IH.
Qed.

(** C19. A remote answer, exactly: if it is applied without error, the session
    is as before except that each transceiver of the endpoint whose mid has an
    audio or video section with a direction in the answer has the reverse of
    that direction as its current direction (the last section of a mid decides).  The directions the
    server wants, the other transceivers, the list of mids, the flag, the
    transports and descriptions of the endpoint and the other endpoints stay
    as they are. *)
Theorem remote_answer_sets_current_direction s eid remote d e s' :
  parsed remote = Some d → sdp_type remote = Answer → ss_endpoints s !! eid = Some e →
  ss_set_remote_description eid remote s = (s', Ok ()) →
  s' = with_transceivers s eid e
         (map_imap (λ mid t, Some (after_answer reverse (media_descriptions d) mid t)) (ep_transceivers e)).
Proof.
  intros Hp Hty He H. unfold ss_set_remote_description, mbind, M_bind, getS, throw, liftO in H.
  destruct (negb (has_endpoint s eid)); [done|]. rewrite Hp in H. simpl in H.
  rewrite bool_decide_eq_true_2 in H by done. by apply answer_sections.
Qed.

End answering.
