(* ===== verification/ServerStates.v ===== *)
(** * The state of the server (server/states.rs)

    [ServerStates] owns the sessions, the table from four tuples to endpoints
    and the candidates that wait for their first STUN message.  The metrics
    it holds are threaded separately, in [Metrics.v]. *)

From Stdlib Require Import ZArith Lia.
From stdpp Require Import base numbers strings fin_maps gmap list.
From S2P Require Import Prelude RustStr Enums Types Sdp Codec ReceiverStream.
From S2P Require Import Interceptors MediaParse MediaConfig Config Endpoint.
From S2P Require Import Description Session.

Section states.
Context `{O : SdpOps} `{CO : !ConfigOps} `{TO : !TransportOps} `{HO : HashOrder}.

Record ServerStates := {
  st_server_config : ServerConfig;
  st_local_addr : SocketAddr;
  st_sessions : gmap SessionId Session;
  st_endpoints : gmap FourTuple (SessionId * EndpointId);
  st_candidates : gmap UserName Candidate
}.

(** [ServerStates::new]: there must be a certificate with a fingerprint. *)
Definition server_states_new (config : ServerConfig) (addr : SocketAddr)
  : outcome ServerStates :=
  cert ← ok_or (head (certificates config)) ErrInvalidCertificate;
  _ ← ok_or (head (get_fingerprints cert)) ErrInvalidCertificate;
  Ok {| st_server_config := config; st_local_addr := addr; st_sessions := ∅;
        st_endpoints := ∅; st_candidates := ∅ |}.

(** Assignments to the three tables. *)
Definition st_with_sessions (st : ServerStates) (ss : gmap SessionId Session) : ServerStates :=
  {| st_server_config := st_server_config st; st_local_addr := st_local_addr st;
     st_sessions := ss; st_endpoints := st_endpoints st; st_candidates := st_candidates st |}.
Definition st_with_endpoints (st : ServerStates) (es : gmap FourTuple (SessionId * EndpointId))
  : ServerStates :=
  {| st_server_config := st_server_config st; st_local_addr := st_local_addr st;
     st_sessions := st_sessions st; st_endpoints := es; st_candidates := st_candidates st |}.
Definition st_with_candidates (st : ServerStates) (cs : gmap UserName Candidate)
  : ServerStates :=
  {| st_server_config := st_server_config st; st_local_addr := st_local_addr st;
     st_sessions := st_sessions st; st_endpoints := st_endpoints st; st_candidates := cs |}.

(** [create_or_get_mut_session]. *)
Definition create_or_get_mut_session (sid : SessionId) : M ServerStates Session := λ st,
  match st_sessions st !! sid with
  | Some s => (st, Ok s)
  | None =>
      let s := session_new (session_config_new (st_server_config st) (st_local_addr st)) sid in
      (st_with_sessions st (<[sid := s]> (st_sessions st)), Ok s)
  end.

(** A [&mut Session] method on the session stored under [sid]. *)
Definition on_session {A} (sid : SessionId) (m : M Session A) : M ServerStates A := λ st,
  match st_sessions st !! sid with
  | Some s => let '(s', r) := m s in
              (st_with_sessions st (<[sid := s']> (st_sessions st)), r)
  | None => (st, Panic)
  end.

(** [add_candidate], [remove_candidate] and [find_candidate]. *)
Definition add_candidate (st : ServerStates) (c : Candidate) : ServerStates :=
  st_with_candidates st (<[cand_username c := c]> (st_candidates st)).
Definition remove_candidate (st : ServerStates) (u : UserName) : ServerStates :=
  st_with_candidates st (delete u (st_candidates st)).
Definition find_candidate (st : ServerStates) (u : UserName) : option Candidate :=
  st_candidates st !! u.

(** [add_endpoint], [remove_endpoint] and [find_endpoint]. *)
Definition st_add_endpoint (st : ServerStates) (ft : FourTuple) (sid : SessionId)
    (eid : EndpointId) : ServerStates :=
  st_with_endpoints st (<[ft := (sid, eid)]> (st_endpoints st)).
Definition st_remove_endpoint (st : ServerStates) (ft : FourTuple) : ServerStates :=
  st_with_endpoints st (delete ft (st_endpoints st)).
Definition find_endpoint (st : ServerStates) (ft : FourTuple)
  : option (SessionId * EndpointId) := st_endpoints st !! ft.

(** [remove_session]. *)
Definition remove_session (st : ServerStates) (sid : SessionId) : ServerStates :=
  st_with_sessions st (delete sid (st_sessions st)).

(** The two texts of a missing session or endpoint. *)
Definition no_session (sid : SessionId) : Error :=
  ErrOther ("can't find session id " +:+ show_u sid).
Definition no_transport_for (eid : EndpointId) (ft : FourTuple) : Error :=
  ErrOther ("can't find transport for endpoint id " +:+ show_u eid +:+ " with "
              +:+ show_four_tuple ft).

(** [get_mut_endpoint]: where the endpoint of a four tuple is stored, and the
    endpoint. *)
Definition get_mut_endpoint (st : ServerStates) (ft : FourTuple)
  : outcome (SessionId * EndpointId * Endpoint) :=
  p ← ok_or (find_endpoint st ft)
        (ErrOther ("can't find endpoint with four_tuple " +:+ show_four_tuple ft));
  s ← ok_or (st_sessions st !! (p : Z * Z).1) (no_session (p : Z * Z).1);
  e ← ok_or (ss_endpoints s !! (p : Z * Z).2) (can_t_find_endpoint (p : Z * Z).2);
  Ok (p.1, p.2, e).

(** [get_mut_transport]. *)
Definition get_mut_transport (st : ServerStates) (ft : FourTuple)
  : outcome (SessionId * EndpointId * Transport) :=
  p ← get_mut_endpoint st ft;
  let '(sid, eid, e) := (p : Z * Z * Endpoint) in
  t ← ok_or (ep_transports e !! ft)
        (ErrOther ("can't find transport with four_tuple " +:+ show_four_tuple ft
                     +:+ " for endpoint id " +:+ show_u eid));
  Ok (sid, eid, t).

(** Assignments through the references those two return. *)
Definition update_endpoint (st : ServerStates) (sid : SessionId) (eid : EndpointId)
    (f : Endpoint → Endpoint) : ServerStates :=
  st_with_sessions st
    (alter (λ s, ss_with_endpoints s (alter f eid (ss_endpoints s))) sid (st_sessions st)).
Definition update_transport (st : ServerStates) (sid : SessionId) (eid : EndpointId)
    (ft : FourTuple) (f : Transport → Transport) : ServerStates :=
  update_endpoint st sid eid (λ e, ep_with_transports e (alter f ft (ep_transports e))).

(** [for session in sessions.values_mut() { for endpoint in .. { for transport
    in .. } } }]: the transports in the order of the three loops, and the state
    when each of them is changed by [f]. *)
Definition all_transports (st : ServerStates) : list Transport :=
  flat_map (λ s, flat_map (λ e, hm_values (ep_transports e)) (hm_values (ss_endpoints s)))
    (hm_values (st_sessions st)).
Definition map_transports (f : Transport → Transport) (st : ServerStates) : ServerStates :=
  st_with_sessions st
    ((λ s, ss_with_endpoints s
             ((λ e, ep_with_transports e (f <$> ep_transports e)) <$> ss_endpoints s))
       <$> st_sessions st).

(** [remove_transport]. *)
Definition st_remove_transport (st : ServerStates) (ft : FourTuple) : ServerStates :=
  match find_endpoint st ft with
  | None => st
  | Some (sid, eid) =>
  match st_sessions st !! sid with
  | None => st
  | Some s =>
  match ss_endpoints s !! eid with
  | None => st
  | Some e =>
      let '(e', transport) := ep_remove_transport e ft in
      let st1 :=
        if bool_decide (ep_transports e' = ∅) then
          let s' := ss_remove_endpoint s eid in
          let st1 := if bool_decide (ss_endpoints s' = ∅) then remove_session st sid
                     else st_with_sessions st (<[sid := s']> (st_sessions st)) in
          st_remove_endpoint st1 ft
        else
          st_with_sessions st
            (<[sid := ss_with_endpoints s (<[eid := e']> (ss_endpoints s))]> (st_sessions st)) in
      match transport with
      | Some t => remove_candidate st1 (cand_username (tr_candidate t))
      | None => st1
      end
  end end end.

(** ** Offers and answers *)

(** [offer.parsed = Some(parsed)]. *)
Definition with_parsed (d : RTCSessionDescription) (p : SessionDescription)
  : RTCSessionDescription :=
  {| sdp_type := sdp_type d; sdp := sdp d; parsed := Some p |}.

(** The local credentials for the answer to a known endpoint: those of the
    candidate its transport was opened with. *)
Definition local_credentials (s : Session) (eid : EndpointId) (four_tuple : option FourTuple)
  : outcome ConnectionCredentials :=
  endpoint ← ok_or (ss_endpoints s !! eid) (can_t_find_endpoint eid);
  ft ← ok_or four_tuple (ErrOther "missing FourTuple");
  transport ← ok_or (ep_transports endpoint !! ft) (no_transport_for eid ft);
  Ok (local_conn_cred (tr_candidate transport)).

(** [accept_offer]; [now] is [Instant::now()], [user] and [pass] the random
    bytes of new credentials. *)
Definition accept_offer (now : Instant) (user pass : bytes) (sid : SessionId)
    (eid : EndpointId) (four_tuple : option FourTuple) (offer : RTCSessionDescription)
  : M ServerStates RTCSessionDescription :=
  d ← liftO (desc_unmarshal offer);
  remote_conn_cred ← liftO (credentials_from_sdp d);
  let offer := with_parsed offer d in
  st ← getS;
  cert ← liftO (unwrap (head (certificates (st_server_config st))));
  let fingerprints := get_fingerprints cert in
  session ← create_or_get_mut_session sid;
  if has_endpoint session eid then
    _ ← on_session sid (ss_set_remote_description eid offer);
    local_conn_cred ← on_session sid (λ s, (s, local_credentials s eid four_tuple));
    answer ← on_session sid (λ s, (s, create_answer s eid offer (ice_params local_conn_cred)));
    _ ← on_session sid (ss_set_local_description eid answer);
    mret answer
  else
    let local_conn_cred :=
      credentials_new user pass fingerprints (dp_role (dtls_params remote_conn_cred)) in
    answer ← on_session sid (λ s, (s, create_answer s eid offer (ice_params local_conn_cred)));
    _ ← modifyS (λ st,
          add_candidate st
            (candidate_new sid eid remote_conn_cred local_conn_cred offer answer
               (now + idle_timeout (st_server_config st))%Z));
    mret answer.

(** [accept_answer]. *)
Definition accept_answer (sid : SessionId) (eid : EndpointId) (answer : RTCSessionDescription)
  : M ServerStates () :=
  d ← liftO (desc_unmarshal answer);
  let answer := with_parsed answer d in
  session ← create_or_get_mut_session sid;
  if has_endpoint session eid then on_session sid (ss_set_remote_description eid answer)
  else mret ().

End states.

(** ** The invariant *)

Section invariant.
Context `{O : SdpOps} `{CO : !ConfigOps} `{TO : !TransportOps} `{HO : HashOrder}.
Implicit Types (st : ServerStates) (s : Session) (e : Endpoint).

(** A well-formed server: it has a certificate; sessions, endpoints,
    transports and transceivers are stored under their own identifiers; every
    endpoint has a transport, and each transport was opened with a candidate
    of that very endpoint; candidates are stored under their user name. *)
Record server_ok st : Prop := {
  sv_cert : certificates (st_server_config st) ≠ [];
  sv_sessions : ∀ sid s, st_sessions st !! sid = Some s →
    session_ok (session_config_new (st_server_config st) (st_local_addr st)) sid s;
  sv_cands : ∀ u c, st_candidates st !! u = Some c → cand_username c = u
}.

Lemma server_states_new_ok config addr st :
  server_states_new config addr = Ok st → server_ok st.
Proof.
  unfold server_states_new. intros (cert & Hc%ok_or_ok_inv & H)%bind_ok_inv.
  apply bind_ok_inv in H as (fp & _ & [= <-]). split; simpl; [by intros Hn; rewrite Hn in Hc|..];
    intros ? ?; by rewrite lookup_empty.
Qed.

Lemma with_session_ok st sid s :
  server_ok st → session_ok (session_config_new (st_server_config st) (st_local_addr st)) sid s →
  server_ok (st_with_sessions st (<[sid := s]> (st_sessions st))).
Proof.
  intros [H1 H2 H3] Hs. split; [done| |done]. simpl. intros sid' s'. rewrite lookup_insert_Some.
  intros [[<- <-]|[_ ?]]; [done|by apply H2].
Qed.

Lemma remove_session_ok st sid : server_ok st → server_ok (remove_session st sid).
Proof.
  intros [H1 H2 H3]. split; [done| |done]. simpl. intros sid' s'. rewrite lookup_delete_Some.
  intros [_ ?]. by apply H2.
Qed.

Lemma with_endpoints_ok st es : server_ok st → server_ok (st_with_endpoints st es).
Proof. intros []. by split. Qed.

Lemma add_candidate_ok st c : server_ok st → server_ok (add_candidate st c).
Proof.
  intros [H1 H2 H3]. split; [done|done|]. simpl. intros u c'. rewrite lookup_insert_Some.
  intros [[<- <-]|[_ ?]]; [done|by apply H3].
Qed.

Lemma remove_candidate_ok st u : server_ok st → server_ok (remove_candidate st u).
Proof.
  intros [H1 H2 H3]. split; [done|done|]. simpl. intros u' c'. rewrite lookup_delete_Some.
  intros [_ ?]. by apply H3.
Qed.

Lemma session_new_ok cfg sid : session_ok cfg sid (session_new cfg sid).
Proof. split; [done|done|]. simpl. intros ? ?. by rewrite lookup_empty. Qed.

Lemma create_or_get_mut_session_ok sid st :
  server_ok st → server_ok (create_or_get_mut_session sid st).1.
Proof.
  intros Hst. unfold create_or_get_mut_session. case_match; [done|]. simpl.
  apply with_session_ok; [done|]. apply session_new_ok.
Qed.

Lemma on_session_ok {A} sid (m : M Session A) st :
  (∀ cfg s, session_ok cfg sid s → session_ok cfg sid (m s).1) →
  server_ok st → server_ok (on_session sid m st).1.
Proof.
  intros Hm Hst. unfold on_session. destruct (st_sessions st !! sid) as [s|] eqn:E; [|done].
  destruct (m s) as [s' r] eqn:Es. simpl. apply with_session_ok; [done|].
  pose proof (Hm _ _ (sv_sessions _ Hst _ _ E)) as Hs. by rewrite Es in Hs.
Qed.

(** Changing an endpoint in place. *)
Lemma update_endpoint_ok st sid eid f :
  (∀ e, endpoint_ok sid eid e → endpoint_ok sid eid (f e)) →
  server_ok st → server_ok (update_endpoint st sid eid f).
Proof.
  intros Hf [H1 H2 H3]. split; [done| |done]. simpl. intros sid' s'.
  destruct (decide (sid' = sid)) as [->|Hne]; [|rewrite lookup_alter_ne by done; apply H2].
  rewrite lookup_alter_eq. intros (s & Hs & ->)%fmap_Some.
  destruct (H2 _ _ Hs) as [Hc Hi He]. split; [done|done|]. simpl. intros eid' e'.
  destruct (decide (eid' = eid)) as [->|Hne]; [|rewrite lookup_alter_ne by done; apply He].
  rewrite lookup_alter_eq. intros (e & Hee & ->)%fmap_Some. by apply Hf, He.
Qed.

(** A change of a transport that leaves its address and its candidate. *)
Definition keeps_identity (f : Transport → Transport) : Prop :=
  ∀ t, tr_four_tuple (f t) = tr_four_tuple t ∧ tr_candidate (f t) = tr_candidate t.

Lemma alter_transports_ok sid eid e ft f :
  keeps_identity f → endpoint_ok sid eid e →
  endpoint_ok sid eid (ep_with_transports e (alter f ft (ep_transports e))).
Proof.
  intros Hf [H1 H2 H3 H4 H5 H6]. split; simpl; try done; try by destruct H2.
  - intros Hn. apply H3, map_eq. intros i. apply (f_equal (lookup i)) in Hn.
    rewrite lookup_alter, lookup_empty in Hn. rewrite lookup_empty.
    case_decide; subst; [by eapply fmap_None|done].
  - intros i t. destruct (decide (i = ft)) as [->|Hne].
    + rewrite lookup_alter_eq. intros (t0 & Ht & ->)%fmap_Some.
      rewrite (proj1 (Hf t0)). by apply H4.
    + rewrite lookup_alter_ne by done. apply H4.
  - intros i t. destruct (decide (i = ft)) as [->|Hne].
    + rewrite lookup_alter_eq. intros (t0 & Ht & ->)%fmap_Some.
      rewrite (proj2 (Hf t0)). by eapply H5.
    + rewrite lookup_alter_ne by done. apply H5.
Qed.

Lemma update_transport_ok st sid eid ft f :
  keeps_identity f → server_ok st → server_ok (update_transport st sid eid ft f).
Proof. intros Hf. apply update_endpoint_ok. intros. by apply alter_transports_ok. Qed.

Lemma map_transports_ok f st :
  keeps_identity f → server_ok st → server_ok (map_transports f st).
Proof.
  intros Hf [H1 H2 H3]. split; [done| |done]. simpl. intros sid s'.
  rewrite lookup_fmap, fmap_Some. intros (s & Hs & ->). destruct (H2 _ _ Hs) as [Hc Hi He].
  split; [done|done|]. simpl. intros eid e'. rewrite lookup_fmap, fmap_Some.
  intros (e & Hee & ->). destruct (He _ _ Hee) as [K1 K2 K3 K4 K5 K6].
  split; simpl; try done; try by destruct K2.
  - by rewrite fmap_empty_iff.
  - intros ft t. rewrite lookup_fmap, fmap_Some. intros (t0 & Ht & ->).
    rewrite (proj1 (Hf t0)). by apply K4.
  - intros ft t. rewrite lookup_fmap, fmap_Some. intros (t0 & Ht & ->).
    rewrite (proj2 (Hf t0)). by eapply K5.
Qed.

Lemma keep_alive_identity now : keeps_identity (keep_alive now).
Proof. done. Qed.

Lemma st_remove_transport_ok st ft : server_ok st → server_ok (st_remove_transport st ft).
Proof.
  intros Hst. unfold st_remove_transport. destruct (find_endpoint st ft) as [[sid eid]|]; [|done].
  destruct (st_sessions st !! sid) as [s|] eqn:Es; [|done].
  destruct (ss_endpoints s !! eid) as [e|] eqn:Ee; [|done]. simpl.
  pose proof (sv_sessions _ Hst _ _ Es) as [Hc Hi Hs].
  set (st1 := if bool_decide _ then _ else _). assert (Hst1 : server_ok st1).
  { unfold st1. case_bool_decide as Hemp.
    - apply with_endpoints_ok. case_bool_decide; [by apply remove_session_ok|].
      apply with_session_ok; [done|]. split; [done|done|]. simpl. intros eid' e'.
      rewrite lookup_delete_Some. intros [_ ?]. by apply Hs.
    - apply with_session_ok; [done|]. split; [done|done|]. simpl. intros eid' e'.
      rewrite lookup_insert_Some. intros [[<- <-]|[_ ?]]; [|by apply Hs].
      destruct (Hs _ _ Ee) as [H1 H2 H3 H4 H5 H6]. split; simpl; try done; try by destruct H2.
      + intros ft' t. rewrite lookup_delete_Some. intros [_ ?]. by apply H4.
      + intros ft' t. rewrite lookup_delete_Some. intros [_ ?]. by eapply H5. }
  destruct (ep_transports e !! ft); [by apply remove_candidate_ok|done].
Qed.

End invariant.

#[export] Hint Resolve st_remove_transport_ok update_transport_ok keep_alive_identity : sfu.

(** ** Connections *)

Section connections.
Context `{O : SdpOps} `{CO : !ConfigOps} `{TO : !TransportOps} `{HO : HashOrder}.
Implicit Types (st : ServerStates) (s : Session) (e : Endpoint).

(** The transport at [ft] of endpoint [eid] of a session, and of endpoint
    [eid] of session [sid] of the server: the abstract content of the
    server, without the bookkeeping tables. *)
Definition transport_at s (eid : EndpointId) (ft : FourTuple) : option Transport :=
  ss_endpoints s !! eid ≫= λ e, ep_transports e !! ft.
Definition connection st (sid : SessionId) (eid : EndpointId) (ft : FourTuple)
  : option Transport :=
  st_sessions st !! sid ≫= λ s, transport_at s eid ft.

Lemma transport_at_insert s eid0 e eid ft :
  transport_at (ss_with_endpoints s (<[eid0 := e]> (ss_endpoints s))) eid ft =
  if decide (eid = eid0) then ep_transports e !! ft else transport_at s eid ft.
Proof.
  unfold transport_at. simpl. case_decide; subst;
    [by rewrite lookup_insert_eq|by rewrite lookup_insert_ne].
Qed.

Lemma transport_at_delete s eid0 eid ft :
  transport_at (ss_remove_endpoint s eid0) eid ft =
  if decide (eid = eid0) then None else transport_at s eid ft.
Proof.
  unfold transport_at. simpl. case_decide; subst;
    [by rewrite lookup_delete_eq|by rewrite lookup_delete_ne].
Qed.

Lemma connection_insert st sid0 s sid eid ft :
  connection (st_with_sessions st (<[sid0 := s]> (st_sessions st))) sid eid ft =
  if decide (sid = sid0) then transport_at s eid ft else connection st sid eid ft.
Proof.
  unfold connection. simpl. case_decide; subst;
    [by rewrite lookup_insert_eq|by rewrite lookup_insert_ne].
Qed.

Lemma connection_update_transport st sid0 eid0 ft0 f sid eid ft :
  connection (update_transport st sid0 eid0 ft0 f) sid eid ft =
  if decide (sid = sid0 ∧ eid = eid0 ∧ ft = ft0) then f <$> connection st sid eid ft
  else connection st sid eid ft.
Proof.
  unfold connection, transport_at. simpl. rewrite lookup_alter.
  destruct (decide (sid0 = sid)) as [->|]; [|by rewrite decide_False by naive_solver].
  destruct (st_sessions st !! sid) as [s|]; simpl; [|by case_decide]. rewrite lookup_alter.
  destruct (decide (eid0 = eid)) as [->|]; [|by rewrite decide_False by naive_solver].
  destruct (ss_endpoints s !! eid) as [e|]; simpl; [|by case_decide]. rewrite lookup_alter.
  destruct (decide (ft0 = ft)) as [->|]; [by rewrite decide_True|by rewrite decide_False by naive_solver].
Qed.

(** A session without endpoints can be dropped without losing a connection. *)
Lemma connection_remove_session st sid0 s sid eid ft :
  ss_endpoints s = ∅ →
  connection (remove_session st sid0) sid eid ft =
  connection (st_with_sessions st (<[sid0 := s]> (st_sessions st))) sid eid ft.
Proof.
  intros Hs. rewrite connection_insert. unfold connection. simpl. case_decide; subst.
  - rewrite lookup_delete_eq. unfold transport_at. by rewrite Hs, lookup_empty.
  - by rewrite lookup_delete_ne.
Qed.

(** Dropping the transport [ft] of endpoint [eid0], and the endpoint when it
    was the last one. *)
Lemma transport_at_removed s eid0 e ft s' eid ft' :
  ss_endpoints s !! eid0 = Some e →
  s' = (let e' := ep_with_transports e (delete ft (ep_transports e)) in
        if bool_decide (ep_transports e' = ∅) then ss_remove_endpoint s eid0
        else ss_with_endpoints s (<[eid0 := e']> (ss_endpoints s))) →
  transport_at s' eid ft' = if decide (eid = eid0 ∧ ft' = ft) then None
                            else transport_at s eid ft'.
Proof.
  intros He ->. simpl. case_bool_decide as Hemp.
  - rewrite transport_at_delete. repeat case_decide; subst; try tauto. unfold transport_at.
    rewrite He. simpl. apply (f_equal (lookup ft')) in Hemp.
    rewrite lookup_delete_ne, lookup_empty in Hemp; naive_solver.
  - rewrite transport_at_insert. unfold transport_at. simpl. repeat case_decide; subst; try tauto.
    + destruct_and!; subst. apply lookup_delete_eq.
    + rewrite He. simpl. rewrite lookup_delete_ne; naive_solver.
Qed.

(** The connections after removing a transport. *)
Lemma connection_removed st ft sid eid ft' :
  connection (st_remove_transport st ft) sid eid ft' =
  if decide (find_endpoint st ft = Some (sid, eid) ∧ ft' = ft) then None
  else connection st sid eid ft'.
Proof.
  unfold st_remove_transport. destruct (find_endpoint st ft) as [[sid0 eid0]|] eqn:Ef.
  2:{ rewrite decide_False; naive_solver. }
  assert (Hnone : connection st sid0 eid0 ft = None →
    connection st sid eid ft' = if decide (Some (sid0, eid0) = Some (sid, eid) ∧ ft' = ft)
                                then None else connection st sid eid ft').
  { intros Hn. case_decide; [|done]. destruct_and!. by simplify_eq. }
  destruct (st_sessions st !! sid0) as [s|] eqn:Es; [|apply Hnone; by unfold connection; rewrite Es].
  destruct (ss_endpoints s !! eid0) as [e|] eqn:Ee;
    [|apply Hnone; unfold connection, transport_at; rewrite Es; simpl; by rewrite Ee].
  simpl. set (st1 := if bool_decide _ then _ else _).
  transitivity (connection st1 sid eid ft'); [by destruct (ep_transports e !! ft)|].
  pose proof (transport_at_removed s eid0 e ft _ eid ft' Ee eq_refl) as Hs.
  transitivity (if decide (sid = sid0)
                then if decide (eid = eid0 ∧ ft' = ft) then None else transport_at s eid ft'
                else connection st sid eid ft').
  { rewrite <- Hs, <- connection_insert. unfold st1. clear. simpl.
    case_bool_decide; [|done]. case_bool_decide; [|done].
    by apply (connection_remove_session st sid0 (ss_remove_endpoint s eid0)). }
  unfold connection. repeat case_decide; subst; rewrite ?Es; naive_solver.
Qed.

(** What closing the connection [t] of an endpoint does to the server: its
    candidate is dropped and no other; the endpoint stays when it has another
    transport (and so does the table entry of the four tuple); with its last
    transport the endpoint and the table entry go, and with the last endpoint
    the session; every other session, endpoint and table entry is as before. *)
Record connection_closed st sid eid (ft : FourTuple) (t : Transport) st' : Prop := {
  cc_config : st_server_config st' = st_server_config st;
  cc_addr : st_local_addr st' = st_local_addr st;
  cc_candidates : st_candidates st' = delete (cand_username (tr_candidate t)) (st_candidates st);
  cc_sessions : ∀ sid', sid' ≠ sid → st_sessions st' !! sid' = st_sessions st !! sid';
  cc_session : ∃ s e, st_sessions st !! sid = Some s ∧ ss_endpoints s !! eid = Some e ∧
    ((∃ ft', ft' ≠ ft ∧ is_Some (ep_transports e !! ft')) ∧
       st_sessions st' !! sid = Some (ss_with_endpoints s
         (<[eid := ep_with_transports e (delete ft (ep_transports e))]> (ss_endpoints s))) ∧
       st_endpoints st' = st_endpoints st
     ∨ (∀ ft', ft' ≠ ft → ep_transports e !! ft' = None) ∧
       (∃ eid', eid' ≠ eid ∧ is_Some (ss_endpoints s !! eid')) ∧
       st_sessions st' !! sid = Some (ss_with_endpoints s (delete eid (ss_endpoints s))) ∧
       st_endpoints st' = delete ft (st_endpoints st)
     ∨ (∀ ft', ft' ≠ ft → ep_transports e !! ft' = None) ∧
       (∀ eid', eid' ≠ eid → ss_endpoints s !! eid' = None) ∧
       st_sessions st' !! sid = None ∧
       st_endpoints st' = delete ft (st_endpoints st))
}.

Lemma remove_transport_closed st ft sid eid t :
  find_endpoint st ft = Some (sid, eid) → connection st sid eid ft = Some t →
  connection_closed st sid eid ft t (st_remove_transport st ft).
Proof.
  intros Hf Hc. unfold st_remove_transport. rewrite Hf. unfold connection, transport_at in Hc.
  destruct (st_sessions st !! sid) as [s|] eqn:Es; [|done]. simpl in Hc.
  destruct (ss_endpoints s !! eid) as [e|] eqn:Ee; [|done]. simpl in Hc. simpl. rewrite Hc.
  destruct (delete_empty_dec (ep_transports e) ft) as [[-> Ht]|[Ht Ht']].
  - rewrite bool_decide_eq_true_2 by done.
    destruct (delete_empty_dec (ss_endpoints s) eid) as [[-> Hs]|[Hs Hs']].
    + rewrite bool_decide_eq_true_2 by done. split; [done..| |]; simpl.
      * intros sid' Hn. by apply lookup_delete_ne.
      * exists s, e. do 2 (split; [done|]). right. right. by rewrite lookup_delete_eq.
    + rewrite bool_decide_eq_false_2 by done. split; [done..| |]; simpl.
      * intros sid' Hn. by apply lookup_insert_ne.
      * exists s, e. do 2 (split; [done|]). right. left. by rewrite lookup_insert_eq.
  - rewrite bool_decide_eq_false_2 by done. split; [done..| |]; simpl.
    + intros sid' Hn. by apply lookup_insert_ne.
    + exists s, e. do 2 (split; [done|]). left. by rewrite lookup_insert_eq.
Qed.

(** Changes to a transport other than to its candidate are lost with it. *)
Lemma remove_updated_transport st ft sid eid t f :
  find_endpoint st ft = Some (sid, eid) → connection st sid eid ft = Some t →
  tr_candidate (f t) = tr_candidate t →
  st_remove_transport (update_transport st sid eid ft f) ft = st_remove_transport st ft.
Proof.
  intros Hf Hc Ht. unfold st_remove_transport, update_transport, update_endpoint.
  unfold find_endpoint in *. simpl. rewrite Hf, lookup_alter_eq.
  unfold connection, transport_at in Hc. destruct (st_sessions st !! sid) as [s|] eqn:Es; [|done].
  simpl in *. rewrite lookup_alter_eq. destruct (ss_endpoints s !! eid) as [e|] eqn:Ee; [|done].
  simpl in *. rewrite lookup_alter_eq, Hc. simpl. rewrite Ht, !delete_alter_same.
  unfold ss_remove_endpoint, remove_session, st_remove_endpoint. simpl.
  rewrite !insert_alter_same, !delete_alter_same. done.
Qed.

(** ** Signalling and connections *)

(** Two states with the same connections, the same table and the same
    configuration. *)
Definition same_connections st st' : Prop :=
  (∀ sid eid ft, connection st' sid eid ft = connection st sid eid ft) ∧
  st_endpoints st' = st_endpoints st ∧ st_server_config st' = st_server_config st ∧
  st_local_addr st' = st_local_addr st.

#[local] Instance same_connections_preorder : PreOrder same_connections.
Proof.
  split; [done|]. intros st1 st2 st3 (H1 & H2 & H3 & H4) (K1 & K2 & K3 & K4).
  split_and!; [|congruence..]. intros. by rewrite K1, H1.
Qed.

Definition same_transports s s' : Prop :=
  ∀ eid ft, transport_at s' eid ft = transport_at s eid ft.

#[local] Instance same_transports_preorder : PreOrder same_transports.
Proof. split; [done|]. intros s1 s2 s3 H K eid ft. by rewrite K, H. Qed.

Lemma ep_transports_propagate eid dir t oid e :
  ep_transports (propagate_track eid dir t oid e) = ep_transports e.
Proof. unfold propagate_track. repeat case_match; done. Qed.

Lemma remote_offer_media_transports eid media s :
  same_transports s (remote_offer_media eid media s).1.
Proof.
  destruct (remote_offer_media eid media s) as [s' r] eqn:E. simpl.
  apply remote_offer_media_cases in E as [->|(k & dir & mid & e & t & Hn & He & _ & Ht & ->)];
    [done|].
  intros oid ft. unfold transport_at. rewrite lookup_publish_track. case_decide; subst.
  - by rewrite He.
  - destruct (ss_endpoints s !! oid); [|done]. simpl. by rewrite ep_transports_propagate.
Qed.

Lemma answer_media_transports f eid media s : same_transports s (answer_media f eid media s).1.
Proof.
  destruct (answer_media f eid media s) as [s' r] eqn:E. simpl.
  apply answer_media_cases in E as [->|(k & dir & mid & e & t & _ & He & Ht & ->)]; [done|].
  intros oid ft. rewrite transport_at_insert. unfold transport_at. simpl.
  case_decide; subst; [by rewrite He|done].
Qed.

Lemma ss_set_remote_description_transports eid remote s :
  same_transports s (ss_set_remote_description eid remote s).1.
Proof.
  unfold ss_set_remote_description, mbind, M_bind, getS, throw, liftO.
  destruct (negb (has_endpoint s eid)); [done|]. destruct (parsed remote); [|done]. simpl.
  apply (forM_inv (same_transports s)); [|done]. intros media s1 _ Hs1. etrans; [exact Hs1|].
  case_match; [apply answer_media_transports|apply remote_offer_media_transports].
Qed.

Lemma ss_set_local_description_transports eid local s :
  same_transports s (ss_set_local_description eid local s).1.
Proof.
  unfold ss_set_local_description, mbind, M_bind, getS, throw, liftO.
  destruct (parsed local); [|done]. simpl. destruct (negb (has_endpoint s eid)); [done|].
  case_match; [|done]. apply (forM_inv (same_transports s)); [|done].
  intros media s1 _ Hs1. etrans; [exact Hs1|]. apply answer_media_transports.
Qed.

Lemma create_or_get_mut_session_connections sid st :
  same_connections st (create_or_get_mut_session sid st).1.
Proof.
  unfold create_or_get_mut_session. case_match eqn:Es; [done|]. simpl. split_and!; try done.
  intros sid' eid ft. rewrite connection_insert. case_decide; subst; [|done].
  unfold connection. by rewrite Es.
Qed.

Lemma on_session_connections {A} sid (m : M Session A) st :
  (∀ s, same_transports s (m s).1) → same_connections st (on_session sid m st).1.
Proof.
  intros Hm. unfold on_session. destruct (st_sessions st !! sid) as [s|] eqn:Es; [|done].
  specialize (Hm s). destruct (m s) as [s' r]. simpl in *. split_and!; try done.
  intros sid' eid ft. rewrite connection_insert. case_decide; subst; [|done].
  unfold connection. rewrite Es. apply Hm.
Qed.

Lemma M_bind_connections {A B} (m : M ServerStates A) (f : A → M ServerStates B) st :
  same_connections st (m st).1 → (∀ a st', same_connections st' (f a st').1) →
  same_connections st ((m ≫= f) st).1.
Proof.
  intros Hm Hf. apply M_bind_inv; [done|]. intros a st' Hst'. by etrans; [|apply Hf].
Qed.

#[local] Hint Resolve ss_set_remote_description_transports ss_set_local_description_transports
  create_or_get_mut_session_connections : sfu.

(** C21. Signalling is not connectivity: accepting an offer never opens, closes
    or changes a transport of any endpoint and leaves the four-tuple table
    alone, whether it succeeds or fails. *)
Theorem accept_offer_keeps_connections now user pass sid eid ft offer st :
  same_connections st (accept_offer now user pass sid eid ft offer st).1.
Proof.
  unfold accept_offer. do 4 (apply M_bind_connections; [done|]; clear st; intros ? st).
  apply M_bind_connections; [auto with sfu|]. clear st. intros s st.
  destruct (has_endpoint s eid).
  - do 4 (apply M_bind_connections; [apply on_session_connections; intros; simpl; (done || auto with sfu)|];
          clear st; intros ? st).
    done.
  - apply M_bind_connections; [by apply on_session_connections|]. clear st. intros ? st.
    apply M_bind_connections; [done|]. done.
Qed.

(** C20. The first offer of an endpoint leaves exactly one trace: after a
    success the state is the old one (with the session created if it was
    missing) plus one candidate under the user name "local:remote", which
    belongs to the session and the endpoint, holds the offer and the answer
    that is returned, and has credentials within the limits of ICE. *)
Theorem accept_offer_initial `{CL : !ConfigLaws} now user pass sid eid ft offer st st' ans :
  (∀ s, st_sessions st !! sid = Some s → has_endpoint s eid = false) →
  length user = 9 → length pass = 18 →
  accept_offer now user pass sid eid ft offer st = (st', Ok ans) →
  ∃ c, st' = add_candidate (create_or_get_mut_session sid st).1 c ∧
    cand_session_id c = sid ∧ cand_endpoint_id c = eid ∧
    cand_local_description c = ans ∧ sdp_type ans = Answer ∧
    sdp (cand_remote_description c) = sdp offer ∧
    credentials_valid (local_conn_cred c) = true ∧
    expired_time c = (now + idle_timeout (st_server_config st))%Z.
Proof.
  intros Hnew Hu Hp H. unfold accept_offer in H.
  do 4 (apply M_bind_ok_inv in H as (? & ? & Hx & H); unfold liftO, getS in Hx;
        injection Hx; clear Hx; intros ? <-).
  apply M_bind_ok_inv in H as (s & st1 & Hc & H).
  assert (Hs : st_sessions st1 !! sid = Some s ∧ has_endpoint s eid = false ∧
               st_server_config st1 = st_server_config st).
  { unfold create_or_get_mut_session in Hc. destruct (st_sessions _ !! sid) eqn:Es;
      injection Hc as <- <-; simpl.
    - split_and!; [done|by apply Hnew|done].
    - rewrite lookup_insert_eq. split_and!; [done| |done]. unfold has_endpoint. simpl.
      by rewrite lookup_empty, bool_decide_eq_false_2 by (by intros []). }
  destruct Hs as (Hs & Hh & Hcfg). rewrite Hh in H.
  apply M_bind_ok_inv in H as (ans' & st2 & Ha & H). unfold on_session in Ha.
  rewrite Hs in Ha. injection Ha as <- Ha. rewrite insert_id in H by done.
  unfold mbind, M_bind, modifyS, mret, M_ret in H. injection H as <- <-.
  eexists. split_and!; [by rewrite Hc|..]; try done; simpl.
  - apply bind_ok_inv in Ha as (d & _ & [= <-]). done.
  - by apply credentials_new_valid.
  - by rewrite Hcfg.
Qed.

End connections.
