(* ===== verification/Stable.v ===== *)
(** * What the handlers do to the shared state

    The handlers share one [ServerStates].  The classes of this file are the
    interface between them and the properties of that state: each names a group
    of changes, a handler's lemma says which groups its turn consists of, and a
    property that is proved stable under the groups holds through every run of
    the pipeline.  [server_ok] is the first instance. *)

From Stdlib Require Import ZArith Lia.
From stdpp Require Import base numbers strings fin_maps gmap list.
From S2P Require Import Prelude RustStr Enums Types Sdp Codec ReceiverStream.
From S2P Require Import Interceptors MediaParse MediaConfig Config Endpoint.
From S2P Require Import Description Session ServerStates.

Section stable.
Context `{O : SdpOps} `{CO : !ConfigOps} `{TO : !TransportOps} `{RO : !RtpOps} `{HO : HashOrder}.
Implicit Types (st : ServerStates) (s : Session) (e : Endpoint).

(** A change of a transport that is no sign of life: it leaves the address, the
    candidate, the time of the last activity and the data channel. *)
Record keeps_activity (f : Transport → Transport) : Prop := {
  ka_identity : keeps_identity f;
  ka_activity t : tr_last_activity (f t) = tr_last_activity t;
  ka_channel t : association_handle_and_stream_id (f t) = association_handle_and_stream_id t
}.

(** The changes of every handler below the gateway: to the protocol state of
    transports and to interceptors, by the interceptors' own methods. *)
Class Stable (P : ServerStates → Prop) : Prop := {
  stable_transport st sid eid ft f :
    keeps_activity f → P st → P (update_transport st sid eid ft f);
  stable_transports st f : keeps_activity f → P st → P (map_transports f st);
  stable_interceptor st sid eid i :
    (∀ s e, st_sessions st !! sid = Some s → ss_endpoints s !! eid = Some e →
            interceptor_step (ep_interceptor e) i) →
    P st → P (update_endpoint st sid eid (λ e, ep_with_interceptor e i));
  stable_interceptors st g :
    (∀ e, interceptor_step (ep_interceptor e) (g e)) → P st →
    P (st_with_sessions st
         ((λ s, ss_with_endpoints s ((λ e, ep_with_interceptor e (g e)) <$> ss_endpoints s))
            <$> st_sessions st))
}.

(** The removal of a connection, by a DTLS alert or the idle timer. *)
Class Removable (P : ServerStates → Prop) : Prop :=
  stable_remove st ft : P st → P (st_remove_transport st ft).

(** The effects of a handler's turn on a message concern the same transport. *)
Definition fires_from (tc : TransportContext) (effects : list Effect) : Prop :=
  Forall (λ x, match x with FireRead m => tm_transport m = tc | FireException _ => True end)
    effects.

(** The state of an endpoint found through the table. *)
Lemma get_mut_endpoint_lookup st ft sid eid e :
  get_mut_endpoint st ft = Ok (sid, eid, e) →
  find_endpoint st ft = Some (sid, eid) ∧
  ∃ s, st_sessions st !! sid = Some s ∧ ss_endpoints s !! eid = Some e.
Proof.
  unfold get_mut_endpoint. intros ([sid0 eid0] & Hf%ok_or_ok_inv & H)%bind_ok_inv.
  apply bind_ok_inv in H as (s & Hs%ok_or_ok_inv & H).
  apply bind_ok_inv in H as (e' & He%ok_or_ok_inv & [= -> -> ->]). simpl in *. eauto.
Qed.

#[export] Instance server_ok_stable : Stable server_ok.
Proof.
  assert (Hi : ∀ sid eid e i, endpoint_ok sid eid e → endpoint_ok sid eid (ep_with_interceptor e i)).
  { intros sid eid e i [? [] ? ? ? ?]. by split. }
  split.
  - intros st sid eid ft f [Hf _ _]. by apply update_transport_ok.
  - intros st f [Hf _ _]. by apply map_transports_ok.
  - intros st sid eid i _. apply update_endpoint_ok. auto.
  - intros st g _ [H1 H2 H3]. split; [done| |done]. simpl. intros sid s'.
    rewrite lookup_fmap, fmap_Some. intros (s & Hs & ->). destruct (H2 _ _ Hs) as [Hc Hid He].
    split; [done|done|]. simpl. intros eid e'. rewrite lookup_fmap, fmap_Some.
    intros (e & Hee & ->). by apply Hi, He.
Qed.

#[export] Instance server_ok_removable : Removable server_ok.
Proof. intros st ft. apply st_remove_transport_ok. Qed.

End stable.
