(* ===== verification/Demux.v ===== *)
(** * Demultiplexing, STUN framing and exceptions

    handlers/demuxer.rs, handlers/stun.rs and handlers/exception.rs.  A
    handler's [handle_read] is a function to the calls it makes on the next
    handler, in order; [poll_write] takes what the next handler answered. *)

From Stdlib Require Import ZArith Lia.
From Stdlib Require Strings.Byte.
From stdpp Require Import base numbers list.
From S2P Require Import Prelude Types.

(** ** The demultiplexer *)

(** [match_range]. *)
Definition match_range (lower upper : Z) (buf : bytes) : bool :=
  match buf with
  | [] => false
  | b :: _ => ((lower <=? byte_Z b) && (byte_Z b <=? upper))%Z
  end.

(** [match_dtls] and [match_srtp]. *)
Definition match_dtls (b : bytes) : bool := match_range 20 63 b.
Definition match_srtp (b : bytes) : bool := match_range 128 191 b.

Section demux.
Context `{T : ExtTypes}.

(** [DemuxerHandler::handle_read]. *)
Definition demux_handle_read (msg : TaggedBytesMut) : list Effect :=
  let fire e := [FireRead {| tm_now := tb_now msg; tm_transport := tb_transport msg;
                             tm_message := e |}] in
  let b := tb_message msg in
  match b with
  | [] => []
  | _ => if match_dtls b then fire (Ev_Dtls (Dtls_Raw b))
         else if match_srtp b then fire (Ev_Rtp (Rtp_Raw b))
         else fire (Ev_Stun (Stun_Raw b))
  end.

(** [DemuxerHandler::poll_write]. *)
Definition demux_poll_write (below : option TaggedMessageEvent) : option TaggedBytesMut :=
  match below with
  | Some msg =>
      match tm_message msg with
      | Ev_Stun (Stun_Raw b) | Ev_Dtls (Dtls_Raw b) | Ev_Rtp (Rtp_Raw b) =>
          Some {| tb_now := tm_now msg; tb_transport := tm_transport msg; tb_message := b |}
      | _ => None
      end
  | None => None
  end.

(** ** The exception handler *)

(** [ExceptionHandler]: reads, exceptions and writes pass through. *)
Definition exception_handle_read (msg : TaggedMessageEvent) : list Effect := [FireRead msg].
Definition exception_handle_exception (e : Error) : list Effect := [FireException e].
Definition exception_poll_write (below : option TaggedMessageEvent)
  : option TaggedMessageEvent := below.

(** ** STUN framing *)

(** [stun::message::Message::{decode, encode}]. *)
Class StunCodec := {
  stun_decode : bytes → outcome StunMessage;
  stun_encode : StunMessage → bytes
}.

Context `{SC : StunCodec}.

(** [StunHandler::handle_read]. *)
Definition stun_handle_read (msg : TaggedMessageEvent) : list Effect :=
  match tm_message msg with
  | Ev_Stun (Stun_Raw message) =>
      match stun_decode message with
      | Ok stun_message =>
          [FireRead {| tm_now := tm_now msg; tm_transport := tm_transport msg;
                       tm_message := Ev_Stun (Stun_Stun stun_message) |}]
      | Err e => [FireException e]
      | Panic => []
      end
  | _ => [FireRead msg]
  end.

(** [StunHandler::poll_write]. *)
Definition stun_poll_write (below : option TaggedMessageEvent) : option TaggedMessageEvent :=
  match below with
  | Some msg =>
      match tm_message msg with
      | Ev_Stun (Stun_Stun stun_message) =>
          Some {| tm_now := tm_now msg; tm_transport := tm_transport msg;
                  tm_message := Ev_Stun (Stun_Raw (stun_encode stun_message)) |}
      | _ => Some msg
      end
  | None => None
  end.

(** ** Properties *)

(** The protocol of a datagram, from its first byte. *)
Inductive Protocol := Proto_Stun | Proto_Dtls | Proto_Rtp.

Definition protocol_of (b0 : Z) : Protocol :=
  if decide (20 ≤ b0 ≤ 63)%Z then Proto_Dtls
  else if decide (128 ≤ b0 ≤ 191)%Z then Proto_Rtp else Proto_Stun.

Definition raw_event (p : Protocol) (b : bytes) : MessageEvent :=
  match p with
  | Proto_Stun => Ev_Stun (Stun_Raw b)
  | Proto_Dtls => Ev_Dtls (Dtls_Raw b)
  | Proto_Rtp => Ev_Rtp (Rtp_Raw b)
  end.

Lemma match_range_spec lo hi b0 b :
  match_range lo hi (b0 :: b) = true ↔ (lo ≤ byte_Z b0 ≤ hi)%Z.
Proof. simpl. rewrite andb_true_iff, !Z.leb_le. done. Qed.

(** C31. Demultiplexing follows RFC 7983 for the three protocols of the server:
    a non-empty datagram is handed on exactly once, with its time, its
    addresses and its bytes unchanged, as DTLS for a first byte in 20..63, as
    RTP/RTCP in 128..191 and as STUN otherwise; and what was handed on raw
    goes out as the same datagram. *)
Theorem demux_by_first_byte now tc b0 b :
  let msg := {| tb_now := now; tb_transport := tc; tb_message := b0 :: b |} in
  let ev := {| tm_now := now; tm_transport := tc;
               tm_message := raw_event (protocol_of (byte_Z b0)) (b0 :: b) |} in
  demux_handle_read msg = [FireRead ev] ∧ demux_poll_write (Some ev) = Some msg.
Proof.
  simpl. unfold demux_handle_read. cbn [tb_message tb_now tb_transport].
  unfold match_dtls, match_srtp, protocol_of.
  pose proof (match_range_spec 20 63 b0 b) as H1. pose proof (match_range_spec 128 191 b0 b) as H2.
  destruct (decide (20 ≤ byte_Z b0 ≤ 63)%Z) as [D1|D1]; [by rewrite (proj2 H1 D1)|].
  rewrite (not_true_is_false _ (λ E, D1 (proj1 H1 E))).
  destruct (decide (128 ≤ byte_Z b0 ≤ 191)%Z) as [D2|D2]; [by rewrite (proj2 H2 D2)|].
  by rewrite (not_true_is_false _ (λ E, D2 (proj1 H2 E))).
Qed.

End demux.
