(* ===== verification/Gateway.v ===== *)
(** * The gateway (handlers/gateway.rs)

    The handler that authenticates STUN requests, opens and closes
    connections, drives the negotiation over the data channel and forwards
    media.  The server state behind [Rc<RefCell<_>>] is passed explicitly. *)

From Stdlib Require Import ZArith Lia.
From stdpp Require Import base numbers strings fin_maps gmap list.
From S2P Require Import Prelude RustStr Enums Types Sdp Codec ReceiverStream.
From S2P Require Import Interceptors MediaParse MediaConfig Config Endpoint.
From S2P Require Import Description Session ServerStates Stable.

(** The STUN attributes the gateway asks for. *)
Inductive StunAttribute : Type :=
| ATTR_PRIORITY
| ATTR_ICE_CONTROLLING
| ATTR_ICE_CONTROLLED
| ATTR_USE_CANDIDATE
| ATTR_NETWORK_COST.

(** The functions of the [stun] and [serde_json] crates. *)
Class GatewayOps `{T : ExtTypes} := {
  (** [TextAttribute::get_from_as(request, ATTR_USERNAME)], the text if any. *)
  stun_username : StunMessage → option string;
  stun_contains : StunMessage → StunAttribute → bool;
  stun_transaction_id : StunMessage → TransactionId;
  (** [MessageIntegrity::new_short_term_integrity(password).check(&mut m)]. *)
  stun_check_integrity : string → StunMessage → StunMessage * outcome ();
  (** A new message with the setters [BINDING_SUCCESS], the transaction id and
      [XorMappedAddress]. *)
  stun_binding_success : TransactionId → IpAddr → Z → outcome StunMessage;
  (** [integrity.add_to(&mut m)] and [FINGERPRINT.add_to(&mut m)]. *)
  stun_add_integrity : string → StunMessage → outcome StunMessage;
  stun_add_fingerprint : StunMessage → outcome StunMessage;
  (** [serde_json] on [RTCSessionDescription], with the text of an error. *)
  json_to_description : string → sum RTCSessionDescription string;
  json_of_description : RTCSessionDescription → sum string string
}.

(** What the environment supplies during one call: [Instant::now()] and the
    random bytes for new credentials. *)
Record Env := { env_now : Instant; env_user : bytes; env_pass : bytes }.

Section gateway.
Context `{O : SdpOps} `{CO : !ConfigOps} `{TO : !TransportOps} `{GO : !GatewayOps}
  `{HO : HashOrder}.
Implicit Types (st : ServerStates) (tc : TransportContext).

Record GatewayHandler := {
  gw_transmits : list TaggedMessageEvent;
  gw_next_timeout : Instant;
  gw_idle_timeout : Duration
}.

(** [GatewayHandler::new]. *)
Definition gateway_new (now : Instant) st : GatewayHandler :=
  let idle := idle_timeout (st_server_config st) in
  {| gw_transmits := []; gw_next_timeout := (now + idle)%Z; gw_idle_timeout := idle |}.

(** ** STUN *)

(** [check_stun_message]: the candidate of an authenticated request, [None]
    for a request without a user name and without ICE attributes. *)
Definition check_stun_message st (request : StunMessage)
  : StunMessage * outcome (option Candidate) :=
  match stun_username request with
  | Some username =>
      if negb (stun_contains request ATTR_PRIORITY)
      then (request, Err (ErrOther "invalid STUN message without ATTR_PRIORITY"))
      else
        let roles :=
          if stun_contains request ATTR_ICE_CONTROLLING then
            if stun_contains request ATTR_ICE_CONTROLLED
            then Err (ErrOther "invalid STUN message with both ATTR_ICE_CONTROLLING and ATTR_ICE_CONTROLLED")
            else Ok ()
          else if stun_contains request ATTR_ICE_CONTROLLED then
            if stun_contains request ATTR_USE_CANDIDATE
            then Err (ErrOther "invalid STUN message with both ATTR_USE_CANDIDATE and ATTR_ICE_CONTROLLED")
            else Ok ()
          else Err (ErrOther "invalid STUN message without ATTR_ICE_CONTROLLING or ATTR_ICE_CONTROLLED")
        in
        match roles with
        | Ok _ =>
            match find_candidate st username with
            | Some candidate =>
                let '(request, r) :=
                  stun_check_integrity (password (get_local_parameters candidate)) request in
                (request, _ ← r; Ok (Some candidate))
            | None => (request, Err (ErrOther "username not found"))
            end
        | Err e => (request, Err e)
        | Panic => (request, Panic)
        end
  | None =>
      (request,
       if stun_contains request ATTR_ICE_CONTROLLED
          || stun_contains request ATTR_ICE_CONTROLLING
          || stun_contains request ATTR_NETWORK_COST
          || stun_contains request ATTR_PRIORITY
          || stun_contains request ATTR_USE_CANDIDATE
       then Err (ErrOther "unexpected attribute")
       else Ok None)
  end.

(** [create_server_reflective_address_message_event]. *)
Definition create_server_reflective_address_message_event (now : Instant) tc
    (transaction_id : TransactionId) : outcome (list TaggedMessageEvent) :=
  response ← stun_binding_success transaction_id (addr_ip (tc_peer_addr tc))
               (addr_port (tc_peer_addr tc));
  Ok [{| tm_now := now; tm_transport := tc; tm_message := Ev_Stun (Stun_Stun response) |}].

(** [GatewayHandler::add_endpoint]: a new transport for an authenticated
    request with [ATTR_USE_CANDIDATE]. *)
Definition gw_add_endpoint (env : Env) (request : StunMessage) (candidate : Candidate) tc
  : M ServerStates bool :=
  let session_id := cand_session_id candidate in
  let endpoint_id := cand_endpoint_id candidate in
  let four_tuple := four_tuple_of tc in
  st ← getS;
  session ← liftO (ok_or (st_sessions st !! session_id)
                     (ErrOther ("session " +:+ show_u session_id +:+ " not found")));
  let '(has_transport, is_new_endpoint) :=
    match ss_endpoints session !! endpoint_id with
    | Some endpoint => (has_transport endpoint four_tuple, false)
    | None => (false, true)
    end in
  if negb (stun_contains request ATTR_USE_CANDIDATE) || has_transport
  then mret is_new_endpoint
  else
    is_new_endpoint ← on_session session_id (ss_add_endpoint (env_now env) candidate tc);
    _ ← modifyS (λ st, st_add_endpoint st four_tuple session_id endpoint_id);
    mret is_new_endpoint.

(** [handle_stun_message]. *)
Definition handle_stun_message (env : Env) (now : Instant) tc (request : StunMessage)
  : M ServerStates (list TaggedMessageEvent) :=
  st ← getS;
  let '(request, r) := check_stun_message st request in
  found ← liftO r;
  match found with
  | None => liftO (create_server_reflective_address_message_event now tc
                     (stun_transaction_id request))
  | Some candidate =>
      _ ← gw_add_endpoint env request candidate tc;
      liftO (response ← stun_binding_success (stun_transaction_id request)
                          (addr_ip (tc_peer_addr tc)) (addr_port (tc_peer_addr tc));
             response ← stun_add_integrity (password (get_local_parameters candidate)) response;
             response ← stun_add_fingerprint response;
             Ok [{| tm_now := now; tm_transport := tc;
                    tm_message := Ev_Stun (Stun_Stun response) |}])
  end.

(** ** Peers *)

(** The transports of the other endpoints of the sender's session, in the
    order of the two nested loops. *)
Definition other_transports (session : Session) (eid : EndpointId)
  : list (FourTuple * (Endpoint * Transport)) :=
  flat_map (λ p : Z * Endpoint,
              if bool_decide (p.1 = eid) then []
              else map (λ q : FourTuple * Transport, (q.1, (p.2, q.2)))
                       (hm_list (ep_transports p.2)))
    (hm_list (ss_endpoints session)).

(** The sender's session and endpoint. *)
Definition sender_session st tc : outcome (Session * EndpointId) :=
  p ← ok_or (find_endpoint st (four_tuple_of tc)) ErrClientTransportNotSet;
  s ← ok_or (st_sessions st !! (p : Z * Z).1) (no_session (p : Z * Z).1);
  Ok (s, p.2).

(** [get_other_media_transport_contexts]. *)
Definition get_other_media_transport_contexts st tc : outcome (list TransportContext) :=
  p ← sender_session st tc;
  let '(s, eid) := (p : Session * Z) in
  Ok (omap (λ q : FourTuple * (Endpoint * Transport),
              if is_local_srtp_context_ready q.2.2
              then Some (context_of q.1 (tc_ecn tc)) else None)
        (other_transports s eid)).

(** [get_other_datachannel_transport_contexts]. *)
Definition get_other_datachannel_transport_contexts st tc
  : outcome (list (TransportContext * Z * Z * bool)) :=
  p ← sender_session st tc;
  let '(s, eid) := (p : Session * Z) in
  Ok (omap (λ q : FourTuple * (Endpoint * Transport),
              match association_handle_and_stream_id q.2.2 with
              | (Some ah, Some sid) =>
                  Some (context_of q.1 (tc_ecn tc), ah, sid, ep_is_renegotiation_needed q.2.1)
              | _ => None
              end)
        (other_transports s eid)).

(** ** Media *)

(** [get_mut_transport(..)?.keep_alive()]. *)
Definition touch_transport (env : Env) tc : M ServerStates () :=
  st ← getS;
  p ← liftO (get_mut_transport st (four_tuple_of tc));
  let '(sid, eid, _) := (p : Z * Z * Transport) in
  putS (update_transport st sid eid (four_tuple_of tc) (keep_alive (env_now env))).

(** The common body of [handle_rtp_message] and [handle_rtcp_message]. *)
Definition forward_media (env : Env) (now : Instant) tc (message : MessageEvent)
  : M ServerStates (list TaggedMessageEvent) :=
  _ ← touch_transport env tc;
  st ← getS;
  peers ← liftO (get_other_media_transport_contexts st tc);
  mret (map (λ transport, {| tm_now := now; tm_transport := transport; tm_message := message |})
            peers).

(** [handle_rtp_message]. *)
Definition handle_rtp_message (env : Env) (now : Instant) tc (p : RtpPacket)
  : M ServerStates (list TaggedMessageEvent) :=
  forward_media env now tc (Ev_Rtp (Rtp_Rtp p)).

(** [handle_rtcp_message]. *)
Definition handle_rtcp_message (env : Env) (now : Instant) tc (ps : list RtcpPacket)
  : M ServerStates (list TaggedMessageEvent) :=
  forward_media env now tc (Ev_Rtp (Rtp_Rtcp ps)).

(** ** Data channels *)

(** The message that carries a description on a data channel. *)
Definition description_message (now : Instant) tc (ah sid : Z) (text : string)
  : TaggedMessageEvent :=
  {| tm_now := now; tm_transport := tc;
     tm_message := Ev_Dtls (Dtls_DataChannel
       {| am_association_handle := ah; am_stream_id := sid;
          data_channel_event := DCE_Message (as_bytes text) |}) |}.

Definition json_print (d : RTCSessionDescription) : outcome string :=
  match json_of_description d with inl s => Ok s | inr e => Err (ErrOther e) end.

(** The part of [create_offer_message_event] inside the session. *)
Definition create_offer_in_session (eid : EndpointId) (ft : FourTuple)
  : M Session RTCSessionDescription :=
  s ← getS;
  endpoint ← liftO (ok_or (ss_endpoints s !! eid) (can_t_find_endpoint eid));
  let endpoint := set_renegotiation_needed endpoint false in
  _ ← putS (ss_with_endpoints s (<[eid := endpoint]> (ss_endpoints s)));
  remote ← liftO (ok_or (ep_remote_description endpoint)
                    (ErrOther "remote_description is not set"));
  transport ← liftO (ok_or (ep_transports endpoint !! ft) (no_transport_for eid ft));
  s ← getS;
  offer ← liftO (create_offer s eid remote
                   (ice_params (local_conn_cred (tr_candidate transport))));
  _ ← ss_set_local_description eid offer;
  mret offer.

(** [create_offer_message_event]. *)
Definition create_offer_message_event (now : Instant) tc (ah sid : Z)
  : M ServerStates TaggedMessageEvent :=
  st ← getS;
  let ft := four_tuple_of tc in
  p ← liftO (ok_or (find_endpoint st ft) ErrClientTransportNotSet);
  let '(session_id, endpoint_id) := (p : Z * Z) in
  _ ← liftO (ok_or (st_sessions st !! session_id) (no_session session_id));
  offer ← on_session session_id (create_offer_in_session endpoint_id ft);
  offer_str ← liftO (json_print offer);
  mret (description_message now tc ah sid offer_str).

(** The tracks the other endpoints publish, as transceivers of a newcomer. *)
Definition tracks_of_others (s : Session) (eid : EndpointId) : list RTCRtpTransceiver :=
  flat_map (λ p : Z * Endpoint,
              if bool_decide (p.1 = eid) then []
              else omap (λ q : string * RTCRtpTransceiver,
                           if bool_decide (tv_direction q.2 = Recvonly)
                           then Some (tv_with_direction
                                        (tv_with_mid q.2 (other_mid p.1 q.1)) Sendonly)
                           else None)
                        (hm_list (ep_transceivers p.2)))
    (hm_list (ss_endpoints s)).

(** The part of [handle_datachannel_open] inside the session: whether the
    endpoint needs a new offer. *)
Definition open_in_session (eid : EndpointId) (ft : FourTuple) (ah sid : Z)
  : M Session bool :=
  s ← getS;
  let new_transceivers := tracks_of_others s eid in
  endpoint ← liftO (ok_or (ss_endpoints s !! eid) (can_t_find_endpoint eid));
  transport ← liftO (ok_or (ep_transports endpoint !! ft) (no_transport_for eid ft));
  let transport := set_association_handle_and_stream_id transport ah sid in
  let endpoint := ep_with_transports endpoint (<[ft := transport]> (ep_transports endpoint)) in
  let needed := match new_transceivers with [] => false | _ => true end in
  let endpoint := set_renegotiation_needed endpoint needed in
  let endpoint := foldl push_transceiver endpoint new_transceivers in
  _ ← putS (ss_with_endpoints s (<[eid := endpoint]> (ss_endpoints s)));
  mret (ep_is_renegotiation_needed endpoint).

(** [handle_datachannel_open]. *)
Definition handle_datachannel_open (now : Instant) tc (ah sid : Z)
  : M ServerStates (list TaggedMessageEvent) :=
  st ← getS;
  let ft := four_tuple_of tc in
  p ← liftO (ok_or (find_endpoint st ft) ErrClientTransportNotSet);
  let '(session_id, endpoint_id) := (p : Z * Z) in
  _ ← liftO (ok_or (st_sessions st !! session_id) (no_session session_id));
  needed ← on_session session_id (open_in_session endpoint_id ft ah sid);
  if (needed : bool) then
    m ← create_offer_message_event now tc ah sid; mret [m]
  else mret [].

(** [handle_datachannel_close]. *)
Definition handle_datachannel_close : M ServerStates (list TaggedMessageEvent) := mret [].

(** The loop that offers to the peers waiting for a renegotiation. *)
Fixpoint offer_to_peers (now : Instant) (peers : list (TransportContext * Z * Z * bool))
  : M ServerStates (list TaggedMessageEvent) :=
  match peers with
  | [] => mret []
  | (tc, ah, sid, needed) :: peers =>
      if (needed : bool) then
        m ← create_offer_message_event now tc ah sid;
        ms ← offer_to_peers now peers;
        mret (m :: ms)
      else offer_to_peers now peers
  end.

(** [handle_datachannel_message]. *)
Definition handle_datachannel_message (env : Env) (now : Instant) tc (ah sid : Z)
    (payload : bytes) : M ServerStates (list TaggedMessageEvent) :=
  request_sdp_str ← liftO (from_utf8 payload);
  request_sdp ← liftO (match json_to_description request_sdp_str with
                       | inl d => Ok d
                       | inr e => Err (ErrOther e)
                       end);
  st ← getS;
  let ft := four_tuple_of tc in
  p ← liftO (ok_or (find_endpoint st ft) ErrClientTransportNotSet);
  let '(session_id, endpoint_id) := (p : Z * Z) in
  match sdp_type request_sdp with
  | Offer =>
      answer ← accept_offer (env_now env) (env_user env) (env_pass env) session_id endpoint_id
                 (Some ft) request_sdp;
      answer_str ← liftO (json_print answer);
      st ← getS;
      peers ← liftO (get_other_datachannel_transport_contexts st tc);
      offers ← offer_to_peers now peers;
      mret (description_message now tc ah sid answer_str :: offers)
  | Answer => _ ← accept_answer session_id endpoint_id request_sdp; mret []
  | t => throw (ErrOther ("Unsupported SDP type " +:+ sdp_type_to_string t))
  end.

(** [handle_dtls_message]. *)
Definition handle_dtls_message (env : Env) (now : Instant) tc (message : ApplicationMessage)
  : M ServerStates (list TaggedMessageEvent) :=
  let ah := am_association_handle message in
  let sid := am_stream_id message in
  match data_channel_event message with
  | DCE_Open => handle_datachannel_open now tc ah sid
  | DCE_Message payload => handle_datachannel_message env now tc ah sid payload
  | DCE_Close => handle_datachannel_close
  end.

(** ** The handler *)

(** The closure [try_read] of [handle_read]. *)
Definition gw_try_read (env : Env) (msg : TaggedMessageEvent)
  : M ServerStates (list TaggedMessageEvent) :=
  match tm_message msg with
  | Ev_Stun (Stun_Stun message) =>
      handle_stun_message env (tm_now msg) (tm_transport msg) message
  | Ev_Dtls (Dtls_DataChannel message) =>
      handle_dtls_message env (tm_now msg) (tm_transport msg) message
  | Ev_Rtp (Rtp_Rtp message) => handle_rtp_message env (tm_now msg) (tm_transport msg) message
  | Ev_Rtp (Rtp_Rtcp message) => handle_rtcp_message env (tm_now msg) (tm_transport msg) message
  | _ => mret []
  end.

Definition gw_push (gw : GatewayHandler) (ms : list TaggedMessageEvent) : GatewayHandler :=
  {| gw_transmits := gw_transmits gw ++ ms; gw_next_timeout := gw_next_timeout gw;
     gw_idle_timeout := gw_idle_timeout gw |}.

(** [handle_read]. *)
Definition gw_handle_read (env : Env) (gw : GatewayHandler) st (msg : TaggedMessageEvent)
  : GatewayHandler * ServerStates * outcome (list Effect) :=
  match gw_try_read env msg st with
  | (st, Ok messages) => (gw_push gw messages, st, Ok [])
  | (st, Err e) => (gw, st, Ok [FireException e])
  | (st, Panic) => (gw, st, Panic)
  end.

(** The four tuples of the transports that were idle too long. *)
Definition idle_four_tuples (gw : GatewayHandler) (now : Instant) st : list FourTuple :=
  flat_map (λ s, flat_map (λ e,
      omap (λ t, if (tr_last_activity t <=? now - gw_idle_timeout gw)%Z
                 then Some (tr_four_tuple t) else None)
           (hm_values (ep_transports e)))
    (hm_values (ss_endpoints s)))
  (hm_values (st_sessions st)).

(** [handle_timeout]. *)
Definition gw_handle_timeout (gw : GatewayHandler) st (now : Instant)
  : GatewayHandler * ServerStates :=
  if (gw_next_timeout gw <=? now)%Z then
    ({| gw_transmits := gw_transmits gw;
        gw_next_timeout := (gw_next_timeout gw + gw_idle_timeout gw)%Z;
        gw_idle_timeout := gw_idle_timeout gw |},
     foldl st_remove_transport st (idle_four_tuples gw now st))
  else (gw, st).

(** [poll_timeout], before the call to the next handler. *)
Definition gw_poll_timeout (gw : GatewayHandler) (eto : Instant) : Instant :=
  if (gw_next_timeout gw <? eto)%Z then gw_next_timeout gw else eto.

(** [poll_write]; [below] is what [ctx.fire_poll_write()] answers. *)
Definition gw_poll_write (gw : GatewayHandler) (below : option TaggedMessageEvent)
  : GatewayHandler * option TaggedMessageEvent :=
  let gw := match below with Some m => gw_push gw [m] | None => gw end in
  match gw_transmits gw with
  | [] => (gw, None)
  | m :: ms => ({| gw_transmits := ms; gw_next_timeout := gw_next_timeout gw;
                   gw_idle_timeout := gw_idle_timeout gw |}, Some m)
  end.

(** The counts [transport_inactive] logs: sessions, endpoints, table entries
    and candidates. *)
Definition gw_transport_inactive st : nat * nat * nat * nat :=
  (size (st_sessions st),
   foldl (λ n s, n + size (ss_endpoints s)) 0 (hm_values (st_sessions st)),
   size (st_endpoints st), size (st_candidates st)).

End gateway.

(** ** What the gateway does to the state *)

Section stable.
Context `{O : SdpOps} `{CO : !ConfigOps} `{TO : !TransportOps} `{GO : !GatewayOps}
  `{RO : !RtpOps} `{HO : HashOrder}.
Implicit Types (st : ServerStates) (tc : TransportContext).

(** The changes of a session by descriptions and data channels. *)
Inductive session_change : Session → Session → Prop :=
| change_none s : session_change s s
| change_remote eid d s : session_change s (ss_set_remote_description eid d s).1
| change_local eid d s : session_change s (ss_set_local_description eid d s).1
| change_offer eid ft s : session_change s (create_offer_in_session eid ft s).1
| change_open eid ft ah stream s : session_change s (open_in_session eid ft ah stream s).1.

(** The changes by signalling: a session is created on demand, a session's
    descriptions change, and a candidate is filed for an endpoint of it.  The
    session is one that was asked for or that the table names. *)
Definition named_session (asked : SessionId → Prop) st (sid : SessionId) : Prop :=
  asked sid ∨ ∃ ft eid, find_endpoint st ft = Some (sid, eid).

Class OfferStable (asked : SessionId → Prop) (P : ServerStates → Prop) : Prop := {
  stable_create st sid :
    named_session asked st sid → P st → P (create_or_get_mut_session sid st).1;
  stable_session st sid s s' :
    st_sessions st !! sid = Some s → session_change s s' → P st →
    P (st_with_sessions st (<[sid := s']> (st_sessions st)));
  stable_invite st c :
    is_Some (st_sessions st !! cand_session_id c) → P st → P (add_candidate st c)
}.

(** The changes by a datagram from a four tuple: media refreshes its transport,
    an authenticated STUN request admits it. *)
Class Visited (ft : FourTuple) (P : ServerStates → Prop) : Prop := {
  stable_touch st sid eid now :
    find_endpoint st ft = Some (sid, eid) → P st →
    P (update_transport st sid eid ft (keep_alive now));
  stable_admit env request u c tc st :
    four_tuple_of tc = ft → find_candidate st u = Some c → P st →
    P (gw_add_endpoint env request c tc st).1
}.

(** ** The gateway's turn consists of these changes *)

Section offers.
Context (asked : SessionId → Prop) (P : ServerStates → Prop) `{OP : !OfferStable asked P}.

Lemma on_session_stable {A} sid (m : M Session A) st :
  (∀ s, session_change s (m s).1) → P st → P (on_session sid m st).1.
Proof.
  intros Hm Hst. unfold on_session. destruct (st_sessions st !! sid) as [s|] eqn:E; [|done].
  specialize (Hm s). destruct (m s) as [s' r]. by eapply stable_session.
Qed.

(** The session a call answered or left behind exists. *)
Lemma create_or_get_mut_session_exists sid st :
  is_Some (st_sessions (create_or_get_mut_session sid st).1 !! sid).
Proof.
  unfold create_or_get_mut_session. case_match eqn:E; simpl; [by rewrite E|].
  rewrite lookup_insert_eq. by eexists.
Qed.

Lemma on_session_exists {A} sid (m : M Session A) st sid' :
  is_Some (st_sessions st !! sid') → is_Some (st_sessions (on_session sid m st).1 !! sid').
Proof.
  intros Hs. unfold on_session. destruct (st_sessions st !! sid) as [s|]; [|done].
  destruct (m s) as [s' r]. simpl. rewrite lookup_insert. case_decide; [by eexists|done].
Qed.

Lemma accept_offer_stable now user pass sid eid ft offer st :
  named_session asked st sid → P st → P (accept_offer now user pass sid eid ft offer st).1.
Proof.
  intros Hn Hst. unfold accept_offer.
  do 4 (apply (M_bind_inv2 (λ st, named_session asked st sid ∧ P st)); [by intros ? []|done|];
        clear st Hn Hst; intros ? st [Hn Hst]).
  apply (M_bind_inv2 (λ st, P st ∧ is_Some (st_sessions st !! sid)) P).
  - intros st' [H _]. done.
  - split; [by eapply stable_create|apply create_or_get_mut_session_exists].
  - clear st Hn Hst. intros s st [Hst Hs]. destruct (has_endpoint s eid).
    + apply M_bind_inv; [apply on_session_stable; [intros s0; exact (change_remote _ _ s0)|done]|].
      clear st Hst Hs. intros ? st Hst.
      do 2 (apply M_bind_inv; [apply on_session_stable; [intros s0; exact (change_none s0)|done]|];
            clear st Hst; intros ? st Hst).
      apply M_bind_inv; [apply on_session_stable; [intros s0; exact (change_local _ _ s0)|done]|done].
    + apply (M_bind_inv2 (λ st, P st ∧ is_Some (st_sessions st !! sid)) P).
      * by intros st' [].
      * split; [apply on_session_stable; [constructor|done]|by apply on_session_exists].
      * intros ? ? []. apply M_bind_inv; [by apply stable_invite|done].
Qed.

Lemma accept_answer_stable sid eid answer st :
  named_session asked st sid → P st → P (accept_answer sid eid answer st).1.
Proof.
  intros Hn Hst. unfold accept_answer.
  apply (M_bind_inv2 (λ st, named_session asked st sid ∧ P st)); [by intros ? []|done|].
  clear st Hn Hst. intros ? st [Hn Hst].
  apply M_bind_inv; [by eapply stable_create|]. clear st Hn Hst. intros s st Hst.
  destruct (has_endpoint s eid); [|done]. apply on_session_stable; [constructor|done].
Qed.

Lemma create_offer_message_event_stable now tc ah sid st :
  P st → P (create_offer_message_event now tc ah sid st).1.
Proof.
  intros Hst. unfold create_offer_message_event.
  do 2 (apply M_bind_inv; [done|]; clear st Hst; intros ? st Hst). destruct a0 as [session_id eid].
  apply M_bind_inv; [done|]. clear st Hst. intros ? st Hst.
  apply M_bind_inv; [|intros; by apply M_bind_inv].
  apply on_session_stable; [constructor|done].
Qed.

Lemma handle_datachannel_open_stable now tc ah sid st :
  P st → P (handle_datachannel_open now tc ah sid st).1.
Proof.
  intros Hst. unfold handle_datachannel_open.
  do 2 (apply M_bind_inv; [done|]; clear st Hst; intros ? st Hst). destruct a0 as [session_id eid].
  apply M_bind_inv; [done|]. clear st Hst. intros ? st Hst.
  apply M_bind_inv; [apply on_session_stable; [constructor|done]|].
  clear st Hst. intros [] st Hst; [|done].
  apply M_bind_inv; [by apply create_offer_message_event_stable|done].
Qed.

Lemma offer_to_peers_stable now peers st : P st → P (offer_to_peers now peers st).1.
Proof.
  revert st. induction peers as [|[[[tc ah] sid] []] peers IH]; intros st Hst; simpl;
    [done| |by apply IH].
  apply M_bind_inv; [by apply create_offer_message_event_stable|]. intros.
  apply M_bind_inv; [by apply IH|done].
Qed.

Lemma handle_datachannel_message_stable env now tc ah sid payload st :
  P st → P (handle_datachannel_message env now tc ah sid payload st).1.
Proof.
  intros Hst. unfold handle_datachannel_message.
  do 2 (apply M_bind_inv; [done|]; clear st Hst; intros ? st Hst).
  unfold mbind at 1, M_bind at 1, getS at 1. unfold mbind at 1, M_bind at 1, liftO at 1.
  destruct (find_endpoint st (four_tuple_of tc)) as [[session_id eid]|] eqn:Ef; [|done].
  assert (Hn : named_session asked st session_id) by (right; eauto). cbn [ok_or].
  destruct (sdp_type a0); try done.
  - apply M_bind_inv; [by apply accept_offer_stable|]. clear st Hst Ef Hn. intros ? st Hst.
    do 3 (apply M_bind_inv; [done|]; clear st Hst; intros ? st Hst).
    apply M_bind_inv; [by apply offer_to_peers_stable|done].
  - apply M_bind_inv; [by apply accept_answer_stable|done].
Qed.
End offers.

(** The candidate of an authenticated request is a pending one. *)
Lemma check_stun_message_candidate st request request' c :
  check_stun_message st request = (request', Ok (Some c)) → ∃ u, find_candidate st u = Some c.
Proof.
  unfold check_stun_message. destruct (stun_username request) as [u|]; [|case_match; intros [= <-]].
  destruct (negb _); [done|]. case_match; try done.
  destruct (find_candidate st u) as [c'|] eqn:Hf; [|done].
  destruct (stun_check_integrity _ request) as [req [[]|e|]]; intros [= <- <-]. eauto.
Qed.

Section turn.
Context (asked : SessionId → Prop) (P : ServerStates → Prop).
Context `{SP : !Stable P} `{OP : !OfferStable asked P}.

Lemma handle_stun_message_stable env now tc request st :
  Visited (four_tuple_of tc) P → P st → P (handle_stun_message env now tc request st).1.
Proof.
  intros VP Hst. unfold handle_stun_message. unfold mbind at 1, M_bind at 1, getS at 1.
  destruct (check_stun_message st request) as [request' r] eqn:Hc.
  unfold mbind at 1, M_bind at 1, liftO at 1. destruct r as [[c|]|e|]; try done.
  apply check_stun_message_candidate in Hc as [u Hu].
  apply M_bind_inv; [by eapply stable_admit|done].
Qed.

Lemma forward_media_stable env now tc message st :
  Visited (four_tuple_of tc) P → P st → P (forward_media env now tc message st).1.
Proof.
  intros VP Hst. unfold forward_media. apply M_bind_inv.
  - unfold touch_transport, mbind, M_bind, getS, liftO, putS.
    destruct (get_mut_transport st _) as [[[sid eid] t]|e|] eqn:E; [|done|done].
    apply stable_touch; [|done]. unfold get_mut_transport in E.
    apply bind_ok_inv in E as ([[sid' eid'] e] & [Hf _]%get_mut_endpoint_lookup & E).
    apply bind_ok_inv in E as (t' & _ & [= -> -> ->]). done.
  - clear. intros [] st Hst. apply M_bind_inv; [done|]. clear st Hst. intros ? st Hst.
    by apply M_bind_inv.
Qed.

Lemma gw_handle_read_stable env gw st msg :
  Visited (four_tuple_of (tm_transport msg)) P → P st → P (gw_handle_read env gw st msg).1.2.
Proof.
  intros VP Hst. unfold gw_handle_read.
  assert (H : P (gw_try_read env msg st).1); [|by destruct (gw_try_read env msg st) as [st' [|e|]]].
  unfold gw_try_read. destruct (tm_message msg) as [[]|[]|[]]; try done.
  - by apply handle_stun_message_stable.
  - unfold handle_dtls_message. case_match; [by eapply handle_datachannel_open_stable| |done].
    by eapply handle_datachannel_message_stable.
  - by apply forward_media_stable.
  - by apply forward_media_stable.
Qed.
End turn.

Lemma gw_handle_timeout_stable P `{RP : !Removable P} gw st now :
  P st → P (gw_handle_timeout gw st now).2.
Proof.
  intros Hst. unfold gw_handle_timeout. case_match; [|done]. simpl. clear H.
  generalize (idle_four_tuples gw now st). intros l. revert st Hst.
  induction l; intros st Hst; simpl; [done|]. by apply IHl, stable_remove.
Qed.

End stable.

(** ** The invariant of the server is kept *)

Section invariant.
Context `{O : SdpOps} `{CO : !ConfigOps} `{TO : !TransportOps} `{GO : !GatewayOps}
  `{HO : HashOrder}.
Implicit Types (st : ServerStates) (tc : TransportContext).

Lemma create_offer_in_session_ok cfg sid eid ft s :
  session_ok cfg sid s → session_ok cfg sid (create_offer_in_session eid ft s).1.
Proof.
  intros Hs. unfold create_offer_in_session.
  unfold mbind at 1, M_bind at 1, getS at 1.
  unfold mbind at 1, M_bind at 1, liftO at 1.
  destruct (ss_endpoints s !! eid) as [e|] eqn:Ee; [|done]. simpl.
  apply M_bind_inv.
  - destruct Hs as [Hc Hi He]. split; [done|done|]. simpl. intros eid' e'.
    rewrite lookup_insert_Some. intros [[<- <-]|[_ ?]]; [|by apply He].
    by apply endpoint_ok_renegotiation, He.
  - clear s Hs Ee. intros _ s Hs. do 4 (apply M_bind_inv; [done|]; clear s Hs; intros ? s Hs).
    apply M_bind_inv; [by apply ss_set_local_description_ok|done].
Qed.

Lemma tracks_of_others_sendonly s eid t :
  t ∈ tracks_of_others s eid → tv_direction t = Sendonly.
Proof.
  unfold tracks_of_others. rewrite list_elem_of_In, in_flat_map.
  intros ([oid e] & _ & Hin). case_bool_decide; [done|].
  apply list_elem_of_In, list_elem_of_omap in Hin as ([mid u] & _ & Hu). simpl in Hu.
  case_bool_decide; [|done]. by injection Hu as <-.
Qed.

Lemma push_transceivers_ok sid eid l e :
  (∀ t, t ∈ l → tv_direction t ≠ Dir_Unspecified) →
  endpoint_ok sid eid e → endpoint_ok sid eid (foldl push_transceiver e l).
Proof.
  revert e. induction l as [|t l IH]; intros e Hl He; simpl; [done|].
  apply IH; [intros; apply Hl; by right|]. apply push_transceiver_ok; [done|]. apply Hl. left.
Qed.

Lemma open_in_session_ok cfg sid eid ft ah stream s :
  session_ok cfg sid s → session_ok cfg sid (open_in_session eid ft ah stream s).1.
Proof.
  intros Hs. unfold open_in_session, mbind, M_bind, getS, liftO, putS.
  destruct (ss_endpoints s !! eid) as [e|] eqn:Ee; [|done]. simpl.
  destruct (ep_transports e !! ft) as [t|] eqn:Et; [|done]. simpl.
  destruct Hs as [Hc Hi He]. split; [done|done|]. simpl. intros eid' e'.
  rewrite lookup_insert_Some. intros [[<- <-]|[_ ?]]; [|by apply He].
  apply push_transceivers_ok; [by intros u ->%tracks_of_others_sendonly|].
  apply endpoint_ok_renegotiation.
  replace (<[ft := set_association_handle_and_stream_id t ah stream]> (ep_transports e))
    with (alter (λ t, set_association_handle_and_stream_id t ah stream) ft (ep_transports e)).
  - apply alter_transports_ok; [done|by apply He].
  - apply map_eq. intros i. rewrite lookup_alter, lookup_insert. case_decide; [|done].
    subst. by rewrite Et.
Qed.

#[export] Instance server_ok_offer_stable asked : OfferStable asked server_ok.
Proof.
  split.
  - intros st sid _. apply create_or_get_mut_session_ok.
  - intros st sid s s' Hs Hch Hst. apply with_session_ok; [done|].
    pose proof (sv_sessions _ Hst _ _ Hs) as Hok. destruct Hch; eauto using create_offer_in_session_ok,
      open_in_session_ok, ss_set_remote_description_ok, ss_set_local_description_ok.
  - intros st c _. apply add_candidate_ok.
Qed.

#[export] Instance server_ok_visited ft : Visited ft server_ok.
Proof.
  split.
  - intros st sid eid now _. apply update_transport_ok, keep_alive_identity.
  - intros env request u candidate tc st _ _ Hst.
    unfold gw_add_endpoint. apply M_bind_inv; [done|]. clear st Hst. intros ? st Hst.
    apply M_bind_inv; [done|]. clear st Hst. intros s st Hst.
    destruct (match _ with Some _ => _ | None => _ end) as [ht new]. case_match; [done|].
    apply M_bind_inv; [|intros; apply M_bind_inv; [by apply with_endpoints_ok|done]].
    apply on_session_ok; [|done]. intros. by apply ss_add_endpoint_ok.
Qed.

End invariant.

(** ** Forwarding *)

Section forwarding.
Context `{O : SdpOps} `{CO : !ConfigOps} `{TO : !TransportOps} `{GO : !GatewayOps}
  `{HO : HashOrder}.
Implicit Types (st : ServerStates) (tc : TransportContext).

(** The other transports of a session with the endpoint they belong to. *)
Definition other_keys (s : Session) (eid : EndpointId) : list (EndpointId * FourTuple) :=
  flat_map (λ p : Z * Endpoint,
              if bool_decide (p.1 = eid) then []
              else map (pair p.1) (hm_keys (ep_transports p.2)))
    (hm_list (ss_endpoints s)).

Lemma elem_of_other_keys s eid oid ft :
  (oid, ft) ∈ other_keys s eid ↔ oid ≠ eid ∧ is_Some (transport_at s oid ft).
Proof.
  unfold other_keys, transport_at. rewrite list_elem_of_In, in_flat_map. split.
  - intros ([o e] & Hin & Hft). apply list_elem_of_In, elem_of_hm_list in Hin. simpl in Hft.
    case_bool_decide as Ho; [done|]. apply in_map_iff in Hft as (ft' & [= -> ->] & Hft).
    apply list_elem_of_In, elem_of_hm_keys in Hft. split; [done|]. by rewrite Hin.
  - intros (Ho & t & Ht). destruct (ss_endpoints s !! oid) as [e|] eqn:Ee; [|done].
    exists (oid, e). split; [by apply list_elem_of_In, elem_of_hm_list|]. simpl.
    rewrite bool_decide_eq_false_2 by done. apply in_map_iff. exists ft. split; [done|].
    apply list_elem_of_In, elem_of_hm_keys. simpl in Ht. eauto.
Qed.

Lemma NoDup_other_keys s eid : NoDup (other_keys s eid).
Proof.
  unfold other_keys. pose proof (NoDup_hm_keys (ss_endpoints s)) as Hnd. unfold hm_keys in Hnd.
  induction (hm_list (ss_endpoints s)) as [|[oid e] l IH]; simpl; [constructor|].
  inversion Hnd as [|? ? Hnin Hnd']; subst. apply NoDup_app. split_and!; [| |by apply IH].
  - case_bool_decide; [constructor|]. apply NoDup_fmap; [by intros ?? [=]|apply NoDup_hm_keys].
  - intros [o ft] H1 H2. case_bool_decide; [by apply not_elem_of_nil in H1|].
    apply list_elem_of_fmap in H1 as (? & [= -> ->] & _).
    apply list_elem_of_In, in_flat_map in H2 as ([o' e'] & Hin & H2). simpl in H2.
    case_bool_decide; [done|]. apply in_map_iff in H2 as (? & [= -> ->] & _).
    apply Hnin, list_elem_of_fmap. exists (oid, e'). split; [done|by apply list_elem_of_In].
Qed.

(** The nested loops visit the transports of the other endpoints. *)
Lemma other_transports_keys s eid f :
  omap (λ q : FourTuple * (Endpoint * Transport),
          if is_local_srtp_context_ready q.2.2 then Some (f q.1) else None)
    (other_transports s eid) =
  omap (λ k : EndpointId * FourTuple,
          match transport_at s k.1 k.2 with
          | Some t => if is_local_srtp_context_ready t then Some (f k.2) else None
          | None => None
          end) (other_keys s eid) :> list TransportContext.
Proof.
  unfold other_transports, other_keys.
  assert (Hl : ∀ p, p ∈ hm_list (ss_endpoints s) → ss_endpoints s !! p.1 = Some p.2).
  { intros [o e]. apply elem_of_hm_list. }
  induction (hm_list (ss_endpoints s)) as [|[oid e] l IH]; [done|]. simpl.
  rewrite !omap_app, IH by (intros; apply Hl; by right). f_equal.
  case_bool_decide; [done|]. unfold hm_keys.
  assert (He : ss_endpoints s !! oid = Some e) by (apply (Hl (oid, e)); left).
  assert (Ht : ∀ q, q ∈ hm_list (ep_transports e) → ep_transports e !! q.1 = Some q.2).
  { intros [ft t]. apply elem_of_hm_list. }
  induction (hm_list (ep_transports e)) as [|[ft t] l2 IH2]; [done|]. simpl.
  assert (Hft : transport_at s oid ft = Some t).
  { unfold transport_at. rewrite He. apply (Ht (ft, t)). left. }
  rewrite Hft. destruct (is_local_srtp_context_ready t); [f_equal|];
    apply IH2; intros; apply Ht; by right.
Qed.

(** The peers are the ready ones among those keys. *)
Definition ready_in (s : Session) (k : EndpointId * FourTuple) : Prop :=
  is_local_srtp_context_ready <$> transport_at s k.1 k.2 = Some true.

#[local] Instance ready_in_decision s k : Decision (ready_in s k).
Proof. unfold ready_in. apply _. Defined.

Lemma other_transports_ready s eid f :
  omap (λ q : FourTuple * (Endpoint * Transport),
          if is_local_srtp_context_ready q.2.2 then Some (f q.1) else None)
    (other_transports s eid) =
  map (λ k, f k.2) (filter (ready_in s) (other_keys s eid)) :> list TransportContext.
Proof.
  rewrite other_transports_keys.
  induction (other_keys s eid) as [|[oid ft] l IH]; [done|]. rewrite filter_cons. simpl.
  case_decide as Hr; unfold ready_in in Hr; simpl in Hr;
    destruct (transport_at s oid ft) as [t|]; simpl in Hr; try done.
  - injection Hr as ->. simpl. f_equal. apply IH.
  - destruct (is_local_srtp_context_ready t); [by destruct Hr|done].
Qed.

Lemma transport_ready_update sid eid ft now st oid ft' :
  is_local_srtp_context_ready <$>
    connection (update_transport st sid eid ft (keep_alive now)) sid oid ft' =
  is_local_srtp_context_ready <$> connection st sid oid ft'.
Proof.
  unfold connection, transport_at. simpl. rewrite lookup_alter_eq.
  destruct (st_sessions st !! sid) as [s|]; [|done]. simpl. rewrite lookup_alter.
  case_decide as Hd; [|done]. subst oid. destruct (ss_endpoints s !! eid) as [e|]; [|done]. simpl.
  rewrite lookup_alter. case_decide; [|done]. subst. by destruct (ep_transports e !! ft').
Qed.

Lemma get_mut_transport_connection st ft sid eid t :
  get_mut_transport st ft = Ok (sid, eid, t) ↔
  find_endpoint st ft = Some (sid, eid) ∧ connection st sid eid ft = Some t.
Proof.
  unfold get_mut_transport, get_mut_endpoint, connection, transport_at. split.
  - intros ([[sid' eid'] e] & H & Ht)%bind_ok_inv.
    apply bind_ok_inv in H as ([sid0 eid0] & Hf%ok_or_ok_inv & H).
    apply bind_ok_inv in H as (s & Hs%ok_or_ok_inv & H).
    apply bind_ok_inv in H as (e' & He%ok_or_ok_inv & [= -> -> ->]). simpl in *.
    apply bind_ok_inv in Ht as (t' & Ht'%ok_or_ok_inv & [= -> -> ->]).
    rewrite Hs. simpl. by rewrite He.
  - intros [Hf Hc]. rewrite Hf. simpl. destruct (st_sessions st !! sid) as [s|]; [|done].
    simpl in *. destruct (ss_endpoints s !! eid) as [e|]; [|done]. simpl in *. by rewrite Hc.
Qed.

(** Selective forwarding: an RTP packet or a list of RTCP packets from a
    connected transport refreshes that transport and goes out, unchanged and
    with the sender's time and code point, exactly once to each transport of
    the other endpoints of the same session whose SRTP context is ready, and
    to nothing else, in particular to no transport of the sender's endpoint. *)
Lemma forward_media_targets env now tc message st sid eid t :
  find_endpoint st (four_tuple_of tc) = Some (sid, eid) →
  connection st sid eid (four_tuple_of tc) = Some t →
  ∃ targets : list (EndpointId * FourTuple),
    NoDup targets ∧
    (∀ oid ft, (oid, ft) ∈ targets ↔
       oid ≠ eid ∧ ∃ t', connection st sid oid ft = Some t' ∧
                         is_local_srtp_context_ready t' = true) ∧
    forward_media env now tc message st =
      (update_transport st sid eid (four_tuple_of tc) (keep_alive (env_now env)),
       Ok (map (λ k, {| tm_now := now; tm_transport := context_of k.2 (tc_ecn tc);
                        tm_message := message |}) targets)).
Proof.
  intros Hf Hc. set (ft := four_tuple_of tc) in *.
  set (st' := update_transport st sid eid ft (keep_alive (env_now env))).
  assert (Hs : ∃ s', st_sessions st' !! sid = Some s').
  { unfold connection in Hc. destruct (st_sessions st !! sid) as [s|] eqn:Es; [|done].
    unfold st'. simpl. rewrite lookup_alter_eq, Es. simpl. eauto. }
  destruct Hs as [s' Hs'].
  exists (filter (ready_in s') (other_keys s' eid)). split_and!.
  - apply NoDup_filter, NoDup_other_keys.
  - intros oid ft'. rewrite list_elem_of_filter, elem_of_other_keys. unfold ready_in. simpl.
    pose proof (transport_ready_update sid eid ft (env_now env) st oid ft') as Hr.
    fold st' in Hr. unfold connection in Hr at 1. rewrite Hs' in Hr. simpl in Hr. rewrite Hr.
    destruct (transport_at s' oid ft') as [t1|], (connection st sid oid ft') as [t2|];
      simpl in Hr |- *; [|naive_solver..].
    split; [by intros ([= H1] & H2 & _); eauto|].
    intros (H2 & t3 & [= <-] & H3). rewrite H3. eauto.
  - unfold forward_media, touch_transport, mbind, M_bind, getS, liftO, putS, mret, M_ret.
    fold ft. rewrite (proj2 (get_mut_transport_connection st ft sid eid t)) by done. fold st'.
    unfold get_other_media_transport_contexts, sender_session. fold ft.
    change (find_endpoint st' ft) with (find_endpoint st ft). rewrite Hf.
    cbn [mbind outcome_bind ok_or fst snd]. rewrite Hs'. cbn [mbind outcome_bind ok_or fst snd].
    by rewrite (other_transports_ready s' eid (λ f, context_of f (tc_ecn tc))), map_map.
Qed.

(** Media from an unknown four tuple is refused: when the table has no
    entry, or the entry leads to no transport, forwarding fails, sends nothing
    and leaves the state as it is. *)
Lemma media_from_stranger_refused env now tc message st :
  (∀ sid eid, find_endpoint st (four_tuple_of tc) = Some (sid, eid) →
              connection st sid eid (four_tuple_of tc) = None) →
  ∃ e, forward_media env now tc message st = (st, Err e).
Proof.
  intros Hno. unfold forward_media, touch_transport, mbind, M_bind, getS, liftO.
  destruct (get_mut_transport st (four_tuple_of tc)) as [[[sid eid] t]|e|] eqn:E.
  - apply get_mut_transport_connection in E as [Hf Hc]. by rewrite (Hno _ _ Hf) in Hc.
  - eauto.
  - exfalso. revert E. unfold get_mut_transport, get_mut_endpoint.
    destruct (find_endpoint st _) as [[sid eid]|]; [|done]. simpl.
    destruct (st_sessions st !! sid) as [s|]; [|done]. simpl.
    destruct (ss_endpoints s !! eid) as [e|]; [|done]. simpl.
    by destruct (ep_transports e !! _).
Qed.

End forwarding.

(** ** Opening connections *)

(** Documented behaviour of [MessageIntegrity::check]: the message it borrows
    mutably is as before when it returns. *)
Class StunLaws `{GO : GatewayOps} := {
  stun_check_restores p m : (stun_check_integrity p m).1 = m
}.

Section opening.
Context `{O : SdpOps} `{CO : !ConfigOps} `{TO : !TransportOps} `{GO : !GatewayOps}
  `{GL : !StunLaws} `{HO : HashOrder}.
Implicit Types (st : ServerStates) (tc : TransportContext).

(** What [ss_add_endpoint] does to the transports of a session. *)
Lemma transport_at_add now c tc s eid ft :
  transport_at s (cand_endpoint_id c) (four_tuple_of tc) = None →
  let cfg := server_config (ss_session_config s) in
  transport_at (ss_add_endpoint now c tc s).1 eid ft =
  if decide (eid = cand_endpoint_id c ∧ ft = four_tuple_of tc)
  then Some (transport_new now (four_tuple_of tc) c (dtls_handshake_config cfg)
               (sctp_endpoint_config cfg) (sctp_server_config cfg))
  else transport_at s eid ft.
Proof.
  intros Hnone cfg. unfold ss_add_endpoint. fold cfg. unfold transport_at in Hnone.
  destruct (ss_endpoints s !! cand_endpoint_id c) as [e|] eqn:Ee; simpl in *.
  - unfold has_transport. rewrite Hnone, bool_decide_eq_false_2 by (by intros []).
    simpl. rewrite transport_at_insert. repeat case_decide; destruct_and?; subst; try tauto; simpl.
    + by rewrite lookup_insert_eq.
    + rewrite lookup_insert_ne by naive_solver. unfold transport_at. by rewrite Ee.
  - rewrite transport_at_insert. repeat case_decide; destruct_and?; subst; try tauto; simpl.
    + by rewrite lookup_insert_eq.
    + rewrite lookup_insert_ne, lookup_empty by naive_solver. unfold transport_at. by rewrite Ee.
Qed.

Lemma check_stun_message_some st request request' c :
  check_stun_message st request = (request', Ok (Some c)) →
  request' = request ∧ ∃ u, stun_username request = Some u ∧ find_candidate st u = Some c ∧
    stun_contains request ATTR_PRIORITY = true ∧
    stun_contains request ATTR_ICE_CONTROLLING ≠ stun_contains request ATTR_ICE_CONTROLLED ∧
    (stun_check_integrity (password (get_local_parameters c)) request).2 = Ok ().
Proof.
  unfold check_stun_message. destruct (stun_username request) as [u|] eqn:Hu.
  2:{ case_match; intros [= <-]. }
  destruct (stun_contains request ATTR_PRIORITY) eqn:Hp; simpl; [|done].
  set (roles := if stun_contains request ATTR_ICE_CONTROLLING then _ else _).
  destruct roles as [[]|e|] eqn:Hr; try done.
  destruct (find_candidate st u) as [c'|] eqn:Hf; [|done].
  pose proof (stun_check_restores (password (get_local_parameters c')) request) as Hrest.
  destruct (stun_check_integrity _ request) as [req r] eqn:Hi. simpl in Hrest. subst req.
  destruct r as [[]|e|]; intros [= <- <-]. split; [done|]. exists u.
  split_and!; try done; [|by rewrite Hi]. unfold roles in Hr.
  destruct (stun_contains request ATTR_ICE_CONTROLLING),
    (stun_contains request ATTR_ICE_CONTROLLED); congruence.
Qed.

(** The connections, the table and the candidates after opening one. *)
Definition opened st st' (c : Candidate) (ft : FourTuple) (t : Transport) : Prop :=
  connection st (cand_session_id c) (cand_endpoint_id c) ft = None ∧
  (∀ sid eid ft', connection st' sid eid ft' =
     if decide (sid = cand_session_id c ∧ eid = cand_endpoint_id c ∧ ft' = ft)
     then Some t else connection st sid eid ft') ∧
  st_endpoints st' = <[ft := (cand_session_id c, cand_endpoint_id c)]> (st_endpoints st) ∧
  st_candidates st' = st_candidates st.

Lemma gw_add_endpoint_opens env request c tc st st' r :
  gw_add_endpoint env request c tc st = (st', r) →
  st' = st ∨ stun_contains request ATTR_USE_CANDIDATE = true ∧
    ∃ t, tr_candidate t = c ∧ tr_last_activity t = env_now env ∧
         opened st st' c (four_tuple_of tc) t.
Proof.
  unfold gw_add_endpoint, mbind, M_bind, getS, liftO, mret, M_ret. intros H.
  destruct (st_sessions st !! cand_session_id c) as [s|] eqn:Es;
    simpl in H; [|left; congruence].
  set (p := match ss_endpoints s !! _ with Some _ => _ | None => _ end) in H.
  destruct p as [ht new] eqn:Hp.
  destruct (stun_contains request ATTR_USE_CANDIDATE) eqn:Hu; simpl in H; [|left; congruence].
  destruct ht eqn:Hht; [left; congruence|]. right. split; [done|].
  assert (Hnone : transport_at s (cand_endpoint_id c) (four_tuple_of tc) = None).
  { unfold transport_at. unfold p in Hp. destruct (ss_endpoints s !! _) as [e|]; [|done].
    simpl. unfold has_transport in Hp. apply eq_None_not_Some. intros Hs.
    rewrite bool_decide_eq_true_2 in Hp by done. congruence. }
  pose proof (λ eid ft, transport_at_add (env_now env) c tc s eid ft Hnone) as Hadd.
  unfold on_session in H. rewrite Es in H.
  assert (Hok : ∃ b, (ss_add_endpoint (env_now env) c tc s).2 = Ok b).
  { unfold ss_add_endpoint. repeat case_match; simpl; eauto. }
  destruct Hok as [b Hok]. destruct (ss_add_endpoint (env_now env) c tc s) as [s' rb].
  simpl in *. subst rb. injection H as <- _.
  eexists (transport_new _ _ _ _ _ _). split_and!; [| |split_and!]; [| | | |done|done].
  3:{ unfold connection. by rewrite Es. }
  3:{ intros sid eid ft'. transitivity (connection (st_with_sessions st
        (<[cand_session_id c := s']> (st_sessions st))) sid eid ft'); [done|].
      rewrite connection_insert. case_decide; subst.
      - rewrite Hadd. unfold connection. rewrite Es. simpl. repeat case_decide; naive_solver.
      - rewrite decide_False by naive_solver. done. }
  all: done.
Qed.

(** C7. Only an authenticated peer gets in: a STUN request leaves the server as
    it is unless it carries the user name of a pending candidate, a valid
    message integrity under that candidate's local password, a priority,
    exactly one ICE role and USE-CANDIDATE, and comes from a four tuple that
    is not yet a transport of the candidate's endpoint; then it opens exactly
    that one transport, files it in the table, and changes nothing else. *)
Theorem stun_opens_only_authenticated env now tc request st st' r :
  handle_stun_message env now tc request st = (st', r) →
  st' = st ∨
  ∃ u c t, stun_username request = Some u ∧ find_candidate st u = Some c ∧
    (stun_check_integrity (password (get_local_parameters c)) request).2 = Ok () ∧
    stun_contains request ATTR_PRIORITY = true ∧
    stun_contains request ATTR_ICE_CONTROLLING ≠ stun_contains request ATTR_ICE_CONTROLLED ∧
    stun_contains request ATTR_USE_CANDIDATE = true ∧
    tr_candidate t = c ∧ tr_last_activity t = env_now env ∧
    opened st st' c (four_tuple_of tc) t.
Proof.
  unfold handle_stun_message. unfold mbind at 1, M_bind at 1, getS at 1.
  destruct (check_stun_message st request) as [req [[c|]|e|]] eqn:Hc;
    unfold mbind at 1, M_bind at 1, liftO at 1; intros H; try (left; congruence);
    [|unfold liftO in H; left; congruence].
  apply check_stun_message_some in Hc as (-> & u & Hu & Hf & Hp & Hr & Hi).
  unfold mbind at 1, M_bind at 1 in H.
  destruct (gw_add_endpoint env request c tc st) as [st1 r1] eqn:Ha.
  assert (st' = st1) as -> by (destruct r1; [unfold liftO in H|..]; congruence).
  apply gw_add_endpoint_opens in Ha as [->|(Huc & t & Ht & Hl & Ho)]; [by left|].
  right. exists u, c, t. done.
Qed.

End opening.

(** ** Closing idle connections *)

Section closing.
Context `{O : SdpOps} `{CO : !ConfigOps} `{TO : !TransportOps} `{GO : !GatewayOps}
  `{HO : HashOrder}.
Implicit Types (st : ServerStates) (tc : TransportContext).

(** Removing a transport never redirects a table entry. *)
Lemma find_endpoint_removed st ft ft' p :
  find_endpoint (st_remove_transport st ft) ft' = Some p → find_endpoint st ft' = Some p.
Proof.
  unfold st_remove_transport. destruct (find_endpoint st ft) as [[sid eid]|] eqn:Ef; [|done].
  destruct (st_sessions st !! sid) as [s|]; [|done].
  destruct (ss_endpoints s !! eid) as [e|]; [|done]. simpl.
  set (st1 := if bool_decide _ then _ else _). intros H.
  assert (H1 : find_endpoint st1 ft' = Some p) by (by destruct (ep_transports e !! ft)).
  revert H1. unfold st1. case_bool_decide; [|done]. unfold find_endpoint. simpl.
  rewrite lookup_delete_Some. intros [_ H1]. by case_bool_decide.
Qed.

(** Entries of other four tuples stay. *)
Lemma find_endpoint_removed_other st ft ft' :
  ft' ≠ ft → find_endpoint (st_remove_transport st ft) ft' = find_endpoint st ft'.
Proof.
  intros Hne. unfold st_remove_transport.
  destruct (find_endpoint st ft) as [[sid eid]|] eqn:Ef; [|done].
  destruct (st_sessions st !! sid) as [s|]; [|done].
  destruct (ss_endpoints s !! eid) as [e|]; [|done]. simpl.
  set (st1 := if bool_decide _ then _ else _).
  transitivity (find_endpoint st1 ft'); [by destruct (ep_transports e !! ft)|].
  unfold st1. case_bool_decide; [|done]. unfold find_endpoint. simpl.
  rewrite lookup_delete_ne by done. by case_bool_decide.
Qed.

(** Removing a list of four tuples. *)
Lemma remove_transports_exact l : ∀ st sid eid ft,
  connection (foldl st_remove_transport st l) sid eid ft =
  if decide (ft ∈ l ∧ find_endpoint st ft = Some (sid, eid)) then None
  else connection st sid eid ft.
Proof.
  induction l as [|x l IH]; intros st sid eid ft; cbn [foldl].
  { rewrite decide_False; [done|]. by intros [?%not_elem_of_nil _]. }
  rewrite IH, connection_removed.
  destruct (decide (ft = x)) as [->|Hne].
  - assert (Hr := find_endpoint_removed st x x (sid, eid)).
    repeat case_decide; destruct_and?; try done; exfalso; rewrite elem_of_cons in *; naive_solver.
  - rewrite find_endpoint_removed_other by done.
    repeat case_decide; destruct_and?; try done; exfalso; rewrite elem_of_cons in *; naive_solver.
Qed.

(** Every connection is filed in the table under its own endpoint. *)
Definition table_ok st : Prop :=
  ∀ sid eid ft t, connection st sid eid ft = Some t → find_endpoint st ft = Some (sid, eid).

Lemma elem_of_idle_four_tuples gw now st ft :
  server_ok st →
  ft ∈ idle_four_tuples gw now st ↔
  ∃ sid eid t, connection st sid eid ft = Some t ∧
               (tr_last_activity t ≤ now - gw_idle_timeout gw)%Z.
Proof.
  intros Hst. unfold idle_four_tuples, connection, transport_at.
  rewrite list_elem_of_In, in_flat_map. split.
  - intros (s & Hs%list_elem_of_In & Hin). apply elem_of_hm_values in Hs as [sid Hs].
    apply in_flat_map in Hin as (e & He%list_elem_of_In & Hin).
    apply elem_of_hm_values in He as [eid He].
    apply list_elem_of_In, list_elem_of_omap in Hin as (t & Ht & Hx).
    apply elem_of_hm_values in Ht as [ft' Ht]. case_match eqn:Hle; [|done]. injection Hx as <-.
    pose proof (so_endpoints _ _ _ (sv_sessions _ Hst _ _ Hs) _ _ He) as Hok.
    rewrite (eo_keys _ _ _ Hok _ _ Ht). exists sid, eid, t. rewrite Hs. simpl. rewrite He.
    split; [done|]. by apply Z.leb_le.
  - intros (sid & eid & t & Hc & Hle). destruct (st_sessions st !! sid) as [s|] eqn:Hs; [|done].
    simpl in Hc. destruct (ss_endpoints s !! eid) as [e|] eqn:He; [|done]. simpl in Hc.
    pose proof (so_endpoints _ _ _ (sv_sessions _ Hst _ _ Hs) _ _ He) as Hok.
    exists s. split; [apply list_elem_of_In, elem_of_hm_values; eauto|]. apply in_flat_map.
    exists e. split; [apply list_elem_of_In, elem_of_hm_values; eauto|].
    apply list_elem_of_In, list_elem_of_omap. exists t.
    split; [apply elem_of_hm_values; eauto|]. apply Z.leb_le in Hle.
    rewrite Hle, (eo_keys _ _ _ Hok _ _ Hc). done.
Qed.

(** Idle timeout: when the timer fires in a well-formed server whose table
    files every connection, exactly the connections without activity for the
    idle time are closed, all others stay as they are, and the timer is set
    one idle time later; before its time the timer does nothing. *)
Lemma idle_connections_closed gw st now gw' st' :
  server_ok st → table_ok st → gw_handle_timeout gw st now = (gw', st') →
  if decide (gw_next_timeout gw ≤ now)%Z then
    (∀ sid eid ft, connection st' sid eid ft =
       match connection st sid eid ft with
       | Some t => if (tr_last_activity t <=? now - gw_idle_timeout gw)%Z then None else Some t
       | None => None
       end) ∧
    gw_next_timeout gw' = (gw_next_timeout gw + gw_idle_timeout gw)%Z ∧
    gw_transmits gw' = gw_transmits gw
  else gw' = gw ∧ st' = st.
Proof.
  intros Hst Htab. unfold gw_handle_timeout. case_decide as Hd.
  - rewrite (proj2 (Z.leb_le _ _) Hd). intros [= <- <-]. split_and!; [|done|done].
    intros sid eid ft. rewrite remove_transports_exact.
    pose proof (elem_of_idle_four_tuples gw now st ft Hst) as Hidle.
    destruct (connection st sid eid ft) as [t|] eqn:Hc; [|by case_decide].
    pose proof (Htab _ _ _ _ Hc) as Hf. destruct (_ <=? _)%Z eqn:Hle; case_decide as Hx;
      rewrite Hidle in Hx; try done.
    + exfalso. apply Hx. split; [|done]. exists sid, eid, t. split; [done|]. by apply Z.leb_le.
    + exfalso. destruct Hx as [(sid' & eid' & t' & Hc' & Hle') _].
      pose proof (Htab _ _ _ _ Hc') as Hf'. assert (t' = t) as -> by congruence.
      apply Z.leb_gt in Hle. lia.
  - rewrite (proj2 (Z.leb_gt _ _)) by lia. by intros [= <- <-].
Qed.

End closing.

(** ** A four tuple used twice *)

Section reuse.
Context `{O : SdpOps} `{CO : !ConfigOps} `{TO : !TransportOps} `{GO : !GatewayOps}
  `{HO : HashOrder}.
Implicit Types (st : ServerStates) (tc : TransportContext).

(** The table stays exact when a connection is opened at an unused four tuple. *)
Lemma opened_table_ok st st' c ft t :
  opened st st' c ft t → (∀ sid eid, connection st sid eid ft = None) →
  table_ok st → table_ok st'.
Proof.
  intros (Hn & Hc & He & _) Hu Ht sid eid ft' t'. rewrite Hc. unfold find_endpoint. rewrite He.
  case_decide as Hd.
  - destruct Hd as (-> & -> & ->). intros _. by rewrite lookup_insert_eq.
  - intros H. rewrite lookup_insert_ne by (intros <-; by rewrite Hu in H).
    by apply (Ht sid eid ft' t').
Qed.

(** A table entry can outlive its transport: when an endpoint has two
    transports and one is removed, the four tuple of the removed one keeps
    its entry, which now leads to no transport. *)
Lemma stale_table_entry st ft ft2 sid eid t2 :
  find_endpoint st ft = Some (sid, eid) → ft2 ≠ ft → connection st sid eid ft2 = Some t2 →
  find_endpoint (st_remove_transport st ft) ft = Some (sid, eid) ∧
  connection (st_remove_transport st ft) sid eid ft = None.
Proof.
  intros Hf Hne Hc. split; [|by rewrite connection_removed, decide_True].
  unfold st_remove_transport. rewrite Hf. unfold connection, transport_at in Hc.
  destruct (st_sessions st !! sid) as [s|]; [|done]. simpl in *.
  destruct (ss_endpoints s !! eid) as [e|]; [|done]. simpl in *.
  rewrite bool_decide_eq_false_2; [by destruct (ep_transports e !! ft)|].
  intros Hemp. apply (f_equal (lookup ft2)) in Hemp.
  rewrite lookup_delete_ne, Hc, lookup_empty in Hemp by done. done.
Qed.

(** C37. A session disappears under a pending candidate: removing the last
    transport of the last endpoint deletes the session, and from then on every
    valid STUN request for a candidate of that session that has not connected
    yet is refused with an error. *)
Theorem pending_candidate_refused st ft sid eid t env now tc request c req' :
  find_endpoint st ft = Some (sid, eid) → connection st sid eid ft = Some t →
  (∀ eid' ft', (eid', ft') ≠ (eid, ft) → connection st sid eid' ft' = None) → server_ok st →
  cand_session_id c = sid →
  check_stun_message (st_remove_transport st ft) request = (req', Ok (Some c)) →
  handle_stun_message env now tc request (st_remove_transport st ft) =
    (st_remove_transport st ft,
     Err (ErrOther ("session " +:+ show_u sid +:+ " not found"))).
Proof.
  intros Hf Hc Hlast Hok <- Hchk. unfold handle_stun_message.
  unfold mbind at 1, M_bind at 1, getS at 1. rewrite Hchk.
  unfold mbind at 1, M_bind at 1, liftO at 1. unfold gw_add_endpoint.
  unfold mbind, M_bind, getS, liftO.
  assert (Hs : st_sessions (st_remove_transport st ft) !! cand_session_id c = None);
    [|by rewrite Hs].
  unfold st_remove_transport. rewrite Hf. unfold connection, transport_at in *.
  destruct (st_sessions st !! cand_session_id c) as [s|] eqn:Es; [|done]. simpl in *.
  destruct (ss_endpoints s !! eid) as [e|] eqn:Ee; [|done]. simpl in *. rewrite Hc.
  rewrite bool_decide_eq_true_2; [rewrite bool_decide_eq_true_2|].
  - simpl. apply lookup_delete_eq.
  - apply map_eq. intros eid'. rewrite lookup_empty.
    destruct (decide (eid' = eid)) as [->|Hne]; [apply lookup_delete_eq|].
    rewrite lookup_delete_ne by done. destruct (ss_endpoints s !! eid') as [e'|] eqn:Ee'; [|done].
    exfalso. apply (eo_transports _ _ _ (so_endpoints _ _ _ (sv_sessions _ Hok _ _ Es) _ _ Ee')).
    apply map_eq. intros ft'. rewrite lookup_empty. specialize (Hlast eid' ft').
    rewrite Ee' in Hlast. apply Hlast. congruence.
  - apply map_eq. intros ft'. rewrite lookup_empty.
    destruct (decide (ft' = ft)) as [->|Hne]; [apply lookup_delete_eq|].
    rewrite lookup_delete_ne by done. specialize (Hlast eid ft'). rewrite Ee in Hlast.
    apply Hlast. congruence.
Qed.

End reuse.

(** ** Data channels *)

Section datachannel.
Context `{O : SdpOps} `{CO : !ConfigOps} `{TO : !TransportOps} `{GO : !GatewayOps}
  `{HO : HashOrder}.
Implicit Types (st : ServerStates) (tc : TransportContext).

Lemma elem_of_tracks_of_others s eid t :
  t ∈ tracks_of_others s eid ↔
  ∃ oid o mid u, oid ≠ eid ∧ ss_endpoints s !! oid = Some o ∧
    ep_transceivers o !! mid = Some u ∧ tv_direction u = Recvonly ∧
    t = tv_with_direction (tv_with_mid u (other_mid oid mid)) Sendonly.
Proof.
  unfold tracks_of_others. rewrite list_elem_of_In, in_flat_map. split.
  - intros ([oid o] & Hin%list_elem_of_In & Ht). apply elem_of_hm_list in Hin.
    case_bool_decide as Ho; [done|].
    apply list_elem_of_In, list_elem_of_omap in Ht as ([mid u] & Hu & Heq).
    apply elem_of_hm_list in Hu. simpl in *. case_bool_decide; [|done].
    injection Heq as <-. eauto 10.
  - intros (oid & o & mid & u & Ho & Hlo & Hu & Hd & ->). exists (oid, o).
    split; [by apply list_elem_of_In, elem_of_hm_list|]. simpl.
    rewrite bool_decide_eq_false_2 by done. apply list_elem_of_In, list_elem_of_omap.
    exists (mid, u). split; [by apply elem_of_hm_list|]. simpl. by rewrite bool_decide_eq_true_2.
Qed.

Lemma push_transceivers_media l e :
  ep_mids (foldl push_transceiver e l) = ep_mids e ++ map tv_mid l ∧
  ep_transports (foldl push_transceiver e l) = ep_transports e ∧
  ep_is_renegotiation_needed (foldl push_transceiver e l) = ep_is_renegotiation_needed e ∧
  (∀ t, t ∈ l → ∃ u, ep_transceivers (foldl push_transceiver e l) !! tv_mid t = Some u ∧ u ∈ l) ∧
  (∀ mid, mid ∉ map tv_mid l →
          ep_transceivers (foldl push_transceiver e l) !! mid = ep_transceivers e !! mid).
Proof.
  revert e. induction l as [|t l IH]; intros e; simpl.
  { rewrite app_nil_r. split_and!; try done. by intros t ?%not_elem_of_nil. }
  destruct (IH (push_transceiver e t)) as (H1 & H2 & H3 & H4 & H5). split_and!.
  - rewrite H1. simpl. by rewrite <- app_assoc.
  - by rewrite H2.
  - by rewrite H3.
  - intros u [->|Hu]%elem_of_cons.
    + destruct (decide (tv_mid t ∈ map tv_mid l)) as [Hin|Hin].
      * apply list_elem_of_fmap in Hin as (v & -> & Hv).
        destruct (H4 v Hv) as (w & Hw & Hwl). exists w. split; [done|by right].
      * exists t. rewrite H5 by done. simpl. rewrite lookup_insert_eq. split; [done|left].
    + destruct (H4 u Hu) as (w & Hw & Hwl). exists w. split; [done|by right].
  - intros mid Hmid. rewrite not_elem_of_cons in Hmid. destruct Hmid as [Hne Hmid].
    rewrite H5 by done. simpl. by rewrite lookup_insert_ne.
Qed.

(** Creating an offer only clears the renegotiation flag. *)
Lemma create_offer_in_session_frame eid ft s s' offer :
  create_offer_in_session eid ft s = (s', Ok offer) →
  ∃ e, ss_endpoints s !! eid = Some e ∧
       s' = ss_with_endpoints s (<[eid := set_renegotiation_needed e false]> (ss_endpoints s)).
Proof.
  unfold create_offer_in_session. intros H.
  apply M_bind_ok_inv in H as (s0 & s1 & [= <- <-] & H).
  apply M_bind_ok_inv in H as (e & s1 & Hx & H). injection Hx as <- He%ok_or_ok_inv.
  apply M_bind_ok_inv in H as ([] & s1 & [= <-] & H).
  do 2 (apply M_bind_ok_inv in H as (? & ? & Hx & H); injection Hx; clear Hx; intros _ <-).
  apply M_bind_ok_inv in H as (s0 & s1 & [= <- <-] & H).
  apply M_bind_ok_inv in H as (off & s1 & Hx & H). injection Hx as <- Hoff.
  apply M_bind_ok_inv in H as ([] & s2 & Hl & [= <- <-]).
  exists e. split; [done|]. apply bind_ok_inv in Hoff as (d & _ & [= <-]).
  unfold ss_set_local_description in Hl.
  apply M_bind_ok_inv in Hl as (d' & s3 & Hx & Hl). injection Hx as <- _.
  apply M_bind_ok_inv in Hl as (s0 & s3 & [= <- <-] & Hl).
  destruct (negb _); [done|]. by injection Hl as <-.
Qed.

Lemma create_offer_message_event_frame now tc ah stream st st' m sid eid :
  find_endpoint st (four_tuple_of tc) = Some (sid, eid) →
  create_offer_message_event now tc ah stream st = (st', Ok m) →
  ∃ s e text, st_sessions st !! sid = Some s ∧ ss_endpoints s !! eid = Some e ∧
    st' = st_with_sessions st (<[sid := ss_with_endpoints s
            (<[eid := set_renegotiation_needed e false]> (ss_endpoints s))]> (st_sessions st)) ∧
    m = description_message now tc ah stream text.
Proof.
  intros Hf H. unfold create_offer_message_event in H.
  apply M_bind_ok_inv in H as (st0 & st1 & [= <- <-] & H).
  apply M_bind_ok_inv in H as (p & st1 & Hx & H). injection Hx as <- Hp%ok_or_ok_inv.
  rewrite Hf in Hp. injection Hp as <-.
  apply M_bind_ok_inv in H as (s & st1 & Hx & H). injection Hx as <- Hs%ok_or_ok_inv.
  apply M_bind_ok_inv in H as (offer & st1 & Ho & H). unfold on_session in Ho. rewrite Hs in Ho.
  destruct (create_offer_in_session eid (four_tuple_of tc) s) as [s1 r] eqn:Hc.
  injection Ho as <- ->. apply create_offer_in_session_frame in Hc as (e & He & ->).
  apply M_bind_ok_inv in H as (text & st2 & Hx & [= <- <-]). injection Hx as <- _.
  by exists s, e, text.
Qed.

(** [e'] is [e] with the channel recorded at [ft] and a sendonly transceiver
    for every track of the others. *)
Definition subscribed (s : Session) (eid : EndpointId) (ft : FourTuple) (t : Transport)
    (ah stream : Z) (e e' : Endpoint) : Prop :=
  ep_transports e' !! ft = Some (set_association_handle_and_stream_id t ah stream) ∧
  ep_mids e' = ep_mids e ++ map tv_mid (tracks_of_others s eid) ∧
  (∀ oid o mid u, oid ≠ eid → ss_endpoints s !! oid = Some o →
     ep_transceivers o !! mid = Some u → tv_direction u = Recvonly →
     ∃ v, ep_transceivers e' !! other_mid oid mid = Some v ∧ tv_direction v = Sendonly).

Lemma open_in_session_subscribes s eid ft ah stream e t :
  ss_endpoints s !! eid = Some e → ep_transports e !! ft = Some t →
  let needed := match tracks_of_others s eid with [] => false | _ => true end in
  ∃ e', open_in_session eid ft ah stream s =
          (ss_with_endpoints s (<[eid := e']> (ss_endpoints s)), Ok needed) ∧
        ep_is_renegotiation_needed e' = needed ∧ subscribed s eid ft t ah stream e e'.
Proof.
  intros He Ht needed. unfold open_in_session, mbind, M_bind, getS, liftO, putS, mret, M_ret.
  rewrite He. simpl. rewrite Ht. simpl. fold needed.
  set (e0 := set_renegotiation_needed _ _).
  destruct (push_transceivers_media (tracks_of_others s eid) e0) as (Hm & Htr & Hr & Hin & _).
  eexists. split_and!; [by rewrite Hr|by rewrite Hr|split_and!].
  - rewrite Htr. apply lookup_insert_eq.
  - by rewrite Hm.
  - intros oid o mid u Hoid Hlo Hu Hd.
    destruct (Hin (tv_with_direction (tv_with_mid u (other_mid oid mid)) Sendonly)) as (v & Hv & Hvl).
    { apply elem_of_tracks_of_others. eauto 10. }
    exists v. split; [done|]. by eapply tracks_of_others_sendonly.
Qed.

(** The effect of a successful [handle_datachannel_open]. *)
Lemma datachannel_open_subscribes_aux now tc ah stream st st' msgs sid eid s e t :
  find_endpoint st (four_tuple_of tc) = Some (sid, eid) →
  st_sessions st !! sid = Some s → ss_endpoints s !! eid = Some e →
  ep_transports e !! four_tuple_of tc = Some t →
  handle_datachannel_open now tc ah stream st = (st', Ok msgs) →
  ∃ s' e', st_sessions st' !! sid = Some s' ∧ ss_endpoints s' !! eid = Some e' ∧
    subscribed s eid (four_tuple_of tc) t ah stream e e' ∧
    ep_is_renegotiation_needed e' = false ∧
    (if decide (tracks_of_others s eid = []) then msgs = []
     else ∃ st1 s1 e1 m, msgs = [m] ∧
       st1 = (on_session sid (open_in_session eid (four_tuple_of tc) ah stream) st).1 ∧
       find_endpoint st1 (four_tuple_of tc) = Some (sid, eid) ∧
       st_sessions st1 !! sid = Some s1 ∧ ss_endpoints s1 !! eid = Some e1 ∧
       ep_transceivers e1 = ep_transceivers e' ∧
       create_offer_message_event now tc ah stream st1 = (st', Ok m)).
Proof.
  intros Hf Hs He Ht H. unfold handle_datachannel_open in H.
  apply M_bind_ok_inv in H as (st0 & st1 & [= <- <-] & H).
  apply M_bind_ok_inv in H as (p & st1 & Hx & H). injection Hx as <- Hp%ok_or_ok_inv.
  rewrite Hf in Hp. injection Hp as <-.
  apply M_bind_ok_inv in H as (s1 & st1 & Hx & H). injection Hx as <- Hs1%ok_or_ok_inv.
  apply M_bind_ok_inv in H as (needed & st1 & Ho & H). unfold on_session in Ho. rewrite Hs in Ho.
  destruct (open_in_session_subscribes s eid _ ah stream e t He Ht) as (e1 & Hopen & Hr & Hsub).
  rewrite Hopen in Ho. injection Ho as <- Hn.
  destruct (tracks_of_others s eid) as [|tr l] eqn:Hl; subst needed.
  - injection H as <- <-. eexists _, e1.
    split_and!; [apply lookup_insert_eq|apply lookup_insert_eq|done|done|done].
  - apply M_bind_ok_inv in H as (m & st3 & Hc & [= <- <-]). pose proof Hc as Hev.
    eapply create_offer_message_event_frame in Hc as (s3 & e3 & text & Hs3 & He3 & Hst3 & _);
      [|exact Hf]. subst st3.
    simpl in Hs3. rewrite lookup_insert_eq in Hs3. injection Hs3 as <-.
    simpl in He3. rewrite lookup_insert_eq in He3. injection He3 as <-.
    eexists _, _. split_and!; [apply lookup_insert_eq|apply lookup_insert_eq|done|done|].
    rewrite decide_False by done. unfold on_session. rewrite Hs, Hopen. eexists _, _, e1, _.
    split_and!; [done|done|done|apply lookup_insert_eq|apply lookup_insert_eq|done|exact Hev].
Qed.

(** C38. A track that was announced to an endpoint before its data channel
    opened is listed a second time when it opens, so that the list of mids,
    and with it the offer built from it, names the same section twice. *)
Theorem announced_track_listed_twice now tc ah stream st st' msgs sid eid s e t oid o mid u :
  find_endpoint st (four_tuple_of tc) = Some (sid, eid) →
  st_sessions st !! sid = Some s → ss_endpoints s !! eid = Some e →
  ep_transports e !! four_tuple_of tc = Some t →
  oid ≠ eid → ss_endpoints s !! oid = Some o → ep_transceivers o !! mid = Some u →
  tv_direction u = Recvonly → other_mid oid mid ∈ ep_mids e →
  handle_datachannel_open now tc ah stream st = (st', Ok msgs) →
  ∃ s' e', st_sessions st' !! sid = Some s' ∧ ss_endpoints s' !! eid = Some e' ∧
    ¬ NoDup (ep_mids e') ∧
    ∀ rd, other_mid oid mid ∉ media_mids (media_descriptions rd) →
          ¬ NoDup (offer_mids rd (ep_mids e')).
Proof.
  intros Hf Hs He Ht Hoid Hlo Hu Hd Hin H.
  assert (Hopen : ∃ s' e', st_sessions st' !! sid = Some s' ∧ ss_endpoints s' !! eid = Some e' ∧
                    ep_mids e' = ep_mids e ++ map tv_mid (tracks_of_others s eid)).
  { edestruct datachannel_open_subscribes_aux as (s' & e' & Hs' & He' & (_ & Hm & _) & _);
      try done. eauto. }
  destruct Hopen as (s' & e' & Hs' & He' & Hm). exists s', e'.
  assert (Hin2 : other_mid oid mid ∈ map tv_mid (tracks_of_others s eid)).
  { apply list_elem_of_fmap.
    exists (tv_with_direction (tv_with_mid u (other_mid oid mid)) Sendonly).
    split; [done|]. apply elem_of_tracks_of_others. eauto 10. }
  split_and!; [done|done|..].
  - rewrite Hm. intros (_ & Hdis & _)%NoDup_app. by eapply Hdis.
  - intros rd Hrd. unfold offer_mids. rewrite Hm, filter_app.
    intros (_ & _ & (Hnd & _ & _)%NoDup_app)%NoDup_app.
    apply NoDup_app in Hnd as (_ & Hdis & _).
    apply (Hdis (other_mid oid mid)); by apply list_elem_of_filter.
Qed.

End datachannel.
