(* ===== verification/Renegotiation.v ===== *)
(** * Renegotiation (handle_datachannel_message of handlers/gateway.rs)

    A connected peer publishes a track by sending a new offer over its data
    channel.  The gateway applies it to the session ([Session.v]), answers on
    the same channel and sends an offer of its own to every other peer that
    was marked for renegotiation.  One theorem follows the track from the peer's
    offer to the offers the others receive, the other one a newly opened data
    channel to the offer of all tracks that were there before. *)

From Stdlib Require Import ZArith Lia.
From stdpp Require Import base numbers strings fin_maps gmap list.
From S2P Require Import Prelude RustStr Enums Types Sdp Codec ReceiverStream.
From S2P Require Import Interceptors MediaParse MediaConfig Config Endpoint.
From S2P Require Import Description Session ServerStates Stable Gateway.

(** ** The sections of an offer *)

Section offering.
Context `{L : SdpLaws} `{CO : !ConfigOps} `{TO : !TransportOps} `{HO : HashOrder}.

(** [d] has a section for the transceiver [t]: same mid, kind and direction. *)
Definition lists_track (d : SessionDescription) (mid : Mid) (t : RTCRtpTransceiver) : Prop :=
  ∃ a, a ∈ media_descriptions d ∧ get_mid_value a = Some mid ∧
    mn_media (md_media_name a) = codec_type_to_string (tv_kind t) ∧
    get_peer_direction a = tv_direction t.

(** Among the sections of an offer is one for every mid of the endpoint. *)
Lemma matched_sections_lists mids tvs remote sections mid :
  matched_sections mids tvs remote true = Ok sections → mid ∈ mids →
  ∃ ms, ms ∈ sections ∧ ms_mid ms = mid ∧ ms_data ms = false ∧ ms_offered_direction ms = None.
Proof.
  unfold matched_sections. intros H Hin.
  apply bind_ok_inv in H as ([[secs app] matched] & Hf & H).
  assert (Hm : mid ∈ matched →
    ∃ ms, ms ∈ secs ∧ ms_mid ms = mid ∧ ms_data ms = false ∧ ms_offered_direction ms = None).
  { intros Hmid. destruct (parsed remote) as [rd|]; [|by injection Hf as <- <- <-; apply not_elem_of_nil in Hmid].
    apply matched_remote in Hf as [[= -> _ ->] _]. simpl in Hmid.
    apply list_elem_of_fmap in Hmid as (m & -> & Hm). exists (section_for true m).
    apply list_elem_of_In, filter_In in Hm as [Hm%list_elem_of_In Happ%negb_true_iff].
    split; [by apply list_elem_of_fmap_2|]. unfold section_for. by rewrite Happ. }
  assert (Hall : ∃ ms, ms ∈ secs ++ map (λ mid, {| ms_mid := mid; ms_data := false;
      ms_rid_map := ∅; ms_offered_direction := None |}) (filter (λ mid, mid ∉ matched) mids) ∧
      ms_mid ms = mid ∧ ms_data ms = false ∧ ms_offered_direction ms = None).
  { destruct (decide (mid ∈ matched)) as [Hmid|Hmid].
    - destruct (Hm Hmid) as (ms & Hms & ?). exists ms. rewrite elem_of_app. auto.
    - eexists {| ms_mid := mid |}. rewrite elem_of_app. split_and!; [right|done..].
      apply (list_elem_of_fmap_2 (λ mid, {| ms_mid := mid; ms_data := false; ms_rid_map := ∅;
        ms_offered_direction := None |})). by apply list_elem_of_filter. }
  destruct Hall as (ms & Hms & ?). exists ms. split; [|done].
  destruct app; injection H as <-; [done|]. apply elem_of_app. by left.
Qed.

Lemma create_offer_lists s eid remote ice offer :
  directions_specified (transceivers_of s eid) →
  create_offer s eid remote ice = Ok offer →
  ∃ d, sdp_type offer = Offer ∧ parsed offer = Some d ∧ sdp offer = sd_marshal d ∧
       ∀ mid t, mid ∈ mids_of s eid → transceivers_of s eid !! mid = Some t → lists_track d mid t.
Proof.
  intros Hd. unfold create_offer. intros (d & Hg & [= <-])%bind_ok_inv.
  destruct (finish_description_media Offer d) as (d' & H1 & H2 & H3). exists d'.
  split_and!; [done|done|done|]. intros mid t Hin Ht. unfold lists_track. rewrite H3.
  apply generate_matched_sdp_ok in Hg as (secs & Hss & Hms); [|done].
  destruct (matched_sections_lists _ _ _ _ _ Hms Hin) as (ms & Hms' & <- & Hdata & Hoff).
  apply list_elem_of_lookup in Hms' as [i Hi].
  destruct (Forall2_lookup_l _ _ _ _ _ Hss Hi) as (a & Ha & Hspec).
  unfold section_spec in Hspec. rewrite Hdata, Hoff in Hspec.
  destruct Hspec as (t' & Ht' & Hmid & Hkind & Hdir). rewrite Ht in Ht'. injection Ht' as <-.
  exists a. split_and!; [by eapply list_elem_of_lookup_2|done|done|done].
Qed.

End offering.

(** ** Clearing flags

    Sending offers changes nothing but the renegotiation flags, and only
    clears them: a preorder on endpoints, sessions and states. *)

Section settling.
Context `{O : SdpOps} `{CO : !ConfigOps} `{TO : !TransportOps} `{GO : !GatewayOps}
  `{HO : HashOrder}.
Implicit Types (st : ServerStates) (s : Session) (e : Endpoint).

Definition ep_settles e e' : Prop := e' = e ∨ e' = set_renegotiation_needed e false.
Definition ss_settles s s' : Prop :=
  ss_session_config s' = ss_session_config s ∧ ss_session_id s' = ss_session_id s ∧
  ∀ eid, option_Forall2 ep_settles (ss_endpoints s !! eid) (ss_endpoints s' !! eid).
Definition st_settles st st' : Prop :=
  st_endpoints st' = st_endpoints st ∧
  ∀ sid, option_Forall2 ss_settles (st_sessions st !! sid) (st_sessions st' !! sid).

#[export] Instance ep_settles_preorder : PreOrder ep_settles.
Proof.
  split; [by left|]. intros e1 e2 e3 [->| ->] [->| ->]; [by left|by right|by right|by right].
Qed.
#[export] Instance ss_settles_preorder : PreOrder ss_settles.
Proof.
  split; [by intros s; repeat split; intros|]. intros s1 s2 s3 (H1 & H2 & H3) (K1 & K2 & K3).
  split_and!; [congruence|congruence|]. intros eid. etrans; [apply H3|apply K3].
Qed.
#[export] Instance st_settles_preorder : PreOrder st_settles.
Proof.
  split; [by intros st; split|]. intros s1 s2 s3 (H1 & H2) (K1 & K2).
  split; [congruence|]. intros sid. etrans; [apply H2|apply K2].
Qed.

Lemma st_settles_lookup st st' sid eid s e :
  st_settles st st' → st_sessions st !! sid = Some s → ss_endpoints s !! eid = Some e →
  ∃ s' e', st_sessions st' !! sid = Some s' ∧ ss_endpoints s' !! eid = Some e' ∧ ep_settles e e'.
Proof.
  intros [_ H] Hs He. specialize (H sid). rewrite Hs in H.
  destruct (st_sessions st' !! sid) as [s'|]; inversion_clear H as [? ? Hss|].
  destruct Hss as (_ & _ & Hss). specialize (Hss eid). rewrite He in Hss. exists s'.
  destruct (ss_endpoints s' !! eid) as [e'|]; inversion_clear Hss. eauto.
Qed.

Lemma clear_flag_settles st sid eid s e :
  st_sessions st !! sid = Some s → ss_endpoints s !! eid = Some e →
  st_settles st (st_with_sessions st (<[sid := ss_with_endpoints s
      (<[eid := set_renegotiation_needed e false]> (ss_endpoints s))]> (st_sessions st))).
Proof.
  intros Hs He. split; [done|]. intros sid'. simpl. rewrite lookup_insert.
  case_decide; subst; [|done]. rewrite Hs. constructor. split_and!; [done|done|].
  intros eid'. simpl. rewrite lookup_insert. case_decide; subst; [|done].
  rewrite He. constructor. by right.
Qed.

(** [create_offer_message_event] clears one flag and sends one message. *)
Lemma create_offer_message_event_settles now tc ah stream st st' m :
  create_offer_message_event now tc ah stream st = (st', Ok m) →
  st_settles st st' ∧ ∀ sid eid s e,
    find_endpoint st (four_tuple_of tc) = Some (sid, eid) →
    st_sessions st !! sid = Some s → ss_endpoints s !! eid = Some e →
    (∃ s' e', st_sessions st' !! sid = Some s' ∧ ss_endpoints s' !! eid = Some e' ∧
              ep_is_renegotiation_needed e' = false).
Proof.
  intros H. destruct (find_endpoint st (four_tuple_of tc)) as [[sid eid]|] eqn:Hf.
  2:{ unfold create_offer_message_event, mbind, M_bind, getS, liftO in H.
      by rewrite Hf in H. }
  destruct (create_offer_message_event_frame _ _ _ _ _ _ _ _ _ Hf H)
    as (s & e & text & Hs & He & -> & ->).
  split; [by apply clear_flag_settles|]. intros sid' eid' s' e' [= <- <-] _ _.
  simpl. do 2 eexists. split_and!; [apply lookup_insert_eq|apply lookup_insert_eq|done].
Qed.

(** The loop over the peers: exactly one offer per peer that was waiting, in
    the order of the list, each made in a state that differs from the first
    in flags only. *)
Lemma offer_to_peers_settles now peers : ∀ st st' ms,
  offer_to_peers now peers st = (st', Ok ms) →
  st_settles st st' ∧
  Forall2 (λ (p : TransportContext * Z * Z * bool) m,
      let '(tc, ah, stream, _) := p in
      ∃ st1 st2, st_settles st st1 ∧ st_settles st2 st' ∧
        create_offer_message_event now tc ah stream st1 = (st2, Ok m))
    (filter (λ p, p.2 = true) peers) ms.
Proof.
  induction peers as [|[[[tc ah] stream] needed] peers IH]; intros st st' ms H.
  { injection H as <- <-. split; [done|constructor]. }
  rewrite filter_cons. simpl in *. destruct needed; [rewrite decide_True by done|by auto].
  apply M_bind_ok_inv in H as (m & st1 & Hm & H).
  apply M_bind_ok_inv in H as (ms1 & st2 & Hms & [= <- <-]).
  destruct (create_offer_message_event_settles _ _ _ _ _ _ _ Hm) as [Hset _].
  destruct (IH _ _ _ Hms) as [Hset2 Hall]. split; [by etrans|]. constructor; [by exists st, st1|].
  eapply Forall2_impl; [exact Hall|]. intros [[[tc' ah'] stream'] b] m' (s1 & s2 & Ha & Hb & Hc).
  exists s1, s2. split_and!; [by etrans|done|done].
Qed.

End settling.

(** ** Accepting an offer of a known endpoint *)

Section accepting.
Context `{O : SdpOps} `{CO : !ConfigOps} `{TO : !TransportOps} `{GO : !GatewayOps}
  `{HO : HashOrder}.
Implicit Types (st : ServerStates) (s : Session) (e : Endpoint).

(** What an answer changes belongs to its endpoint. *)
Lemma answer_media_others f eid media s oid :
  oid ≠ eid → ss_endpoints (answer_media f eid media s).1 !! oid = ss_endpoints s !! oid.
Proof.
  intros Hne. destruct (answer_media f eid media s) as [s' r] eqn:E. simpl.
  apply answer_media_cases in E as [->|(k & dir & mid & e & t & _ & _ & _ & ->)]; [done|].
  simpl. by rewrite lookup_insert_ne.
Qed.

Lemma ss_set_local_description_others eid local s oid :
  oid ≠ eid →
  ss_endpoints (ss_set_local_description eid local s).1 !! oid = ss_endpoints s !! oid.
Proof.
  intros Hne. unfold ss_set_local_description, mbind, M_bind, getS, throw, liftO.
  destruct (parsed local); [|done]. simpl. destruct (negb (has_endpoint s eid)); [done|].
  case_match; [|done].
  apply (forM_inv (λ s', ss_endpoints s' !! oid = ss_endpoints s !! oid)); [|done].
  intros media s1 _ <-. by apply answer_media_others.
Qed.

(** The three steps of [accept_offer] on the session. *)
Lemma accept_offer_known now user pass sid eid ft offer st st' ans s :
  st_sessions st !! sid = Some s → has_endpoint s eid = true →
  accept_offer now user pass sid eid ft offer st = (st', Ok ans) →
  ∃ d s1 s2 cred, desc_unmarshal offer = Ok d ∧
    ss_set_remote_description eid (with_parsed offer d) s = (s1, Ok ()) ∧
    create_answer s1 eid (with_parsed offer d) (ice_params cred) = Ok ans ∧
    ss_set_local_description eid ans s1 = (s2, Ok ()) ∧
    st' = st_with_sessions st (<[sid := s2]> (st_sessions st)).
Proof.
  intros Hs Hh H. unfold accept_offer in H.
  apply M_bind_ok_inv in H as (d & st1 & Hx & H). injection Hx as <- Hd.
  do 3 (apply M_bind_ok_inv in H as (? & ? & Hx & H); unfold liftO, getS in Hx;
        injection Hx; clear Hx; intros _ <-).
  apply M_bind_ok_inv in H as (s0 & st1 & Hx & H).
  unfold create_or_get_mut_session in Hx. rewrite Hs in Hx. injection Hx as <- <-.
  rewrite Hh in H.
  apply M_bind_ok_inv in H as ([] & st1 & Hx & H). unfold on_session in Hx. rewrite Hs in Hx.
  destruct (ss_set_remote_description eid _ s) as [s1 r1] eqn:H1. injection Hx as <- ->.
  apply M_bind_ok_inv in H as (cred & st1 & Hx & H). unfold on_session in Hx. simpl in Hx.
  rewrite lookup_insert_eq in Hx. injection Hx as <- _.
  apply M_bind_ok_inv in H as (ans' & st1 & Hx & H). unfold on_session in Hx. simpl in Hx.
  rewrite insert_insert_eq, lookup_insert_eq in Hx. injection Hx as <- H2.
  apply M_bind_ok_inv in H as ([] & st1 & Hx & H). unfold on_session in Hx. simpl in Hx.
  rewrite insert_insert_eq, lookup_insert_eq in Hx.
  destruct (ss_set_local_description eid ans' s1) as [s2 r2] eqn:H3.
  injection Hx as <- ->. injection H as <- <-.
  exists d, s1, s2, cred. split_and!; try done.
  unfold st_with_sessions. simpl. by rewrite insert_insert_eq.
Qed.

(** The channels of the other endpoints. *)
Lemma elem_of_other_channels st tc sid eid s oid e ft t ah stream peers :
  find_endpoint st (four_tuple_of tc) = Some (sid, eid) → st_sessions st !! sid = Some s →
  oid ≠ eid → ss_endpoints s !! oid = Some e → ep_transports e !! ft = Some t →
  association_handle_and_stream_id t = (Some ah, Some stream) →
  get_other_datachannel_transport_contexts st tc = Ok peers →
  (context_of ft (tc_ecn tc), ah, stream, ep_is_renegotiation_needed e) ∈ peers.
Proof.
  intros Hf Hs Hne He Ht Hch H. unfold get_other_datachannel_transport_contexts, sender_session in H.
  rewrite Hf in H. cbn [ok_or mbind outcome_bind fst snd] in H. rewrite Hs in H.
  cbn [ok_or mbind outcome_bind fst snd] in H. injection H as <-.
  apply list_elem_of_omap. exists (ft, (e, t)).
  split; [|simpl; by injection Hch as -> ->].
  unfold other_transports. apply list_elem_of_In, in_flat_map. exists (oid, e).
  split; [by apply list_elem_of_In, elem_of_hm_list|]. simpl.
  rewrite bool_decide_eq_false_2 by done. apply in_map_iff. exists (ft, t).
  split; [done|]. by apply list_elem_of_In, elem_of_hm_list.
Qed.

End accepting.

(** ** From one peer's offer to the others' *)

Section renegotiation.
Context `{L : SdpLaws} `{CO : !ConfigOps} `{TO : !TransportOps} `{GO : !GatewayOps}
  `{HO : HashOrder}.
Implicit Types (st : ServerStates) (s : Session) (e : Endpoint) (tc : TransportContext).

(** [m] carries, on the given channel, an offer with a section for [t]. *)
Definition offers_track (now : Instant) tc (ah stream : Z) (mid : Mid) (t : RTCRtpTransceiver)
    (m : TaggedMessageEvent) : Prop :=
  ∃ offer d text, sdp_type offer = Offer ∧ parsed offer = Some d ∧ sdp offer = sd_marshal d ∧
    json_of_description offer = inl text ∧
    m = description_message now tc ah stream text ∧ lists_track d mid t.

Lemma json_print_ok d text : json_print d = Ok text → json_of_description d = inl text.
Proof. unfold json_print. destruct (json_of_description d); congruence. Qed.

Lemma create_offer_in_session_lists eid ft s s' offer e :
  ss_endpoints s !! eid = Some e → media_ok e →
  create_offer_in_session eid ft s = (s', Ok offer) →
  ∃ d, sdp_type offer = Offer ∧ parsed offer = Some d ∧ sdp offer = sd_marshal d ∧
       ∀ mid t, ep_transceivers e !! mid = Some t → lists_track d mid t.
Proof.
  intros He [_ Hd Hmids] H. unfold create_offer_in_session in H.
  apply M_bind_ok_inv in H as (s0 & s1 & [= <- <-] & H).
  apply M_bind_ok_inv in H as (e0 & s1 & Hx & H). injection Hx as <- He0%ok_or_ok_inv.
  rewrite He in He0. injection He0 as <-.
  apply M_bind_ok_inv in H as ([] & s1 & [= <-] & H).
  do 2 (apply M_bind_ok_inv in H as (? & ? & Hx & H); injection Hx; clear Hx; intros _ <-).
  apply M_bind_ok_inv in H as (s0 & s1 & [= <- <-] & H).
  apply M_bind_ok_inv in H as (off & s1 & Hx & H). injection Hx as <- Hoff.
  apply M_bind_ok_inv in H as ([] & s2 & Hl & [= _ <-]).
  apply create_offer_lists in Hoff as (d & H1 & H2 & H3 & H4).
  - exists d. split_and!; [done|done|done|]. intros mid t Ht.
    apply H4; unfold mids_of, transceivers_of; simpl; rewrite lookup_insert_eq; simpl;
      [apply Hmids; eauto|done].
  - unfold transceivers_of. simpl. by rewrite lookup_insert_eq.
Qed.

(** [m] carries, on the given channel, an offer with a section for every
    transceiver of the endpoint. *)
Definition offers_all (now : Instant) tc (ah stream : Z) (tvs : gmap Mid RTCRtpTransceiver)
    (m : TaggedMessageEvent) : Prop :=
  ∃ offer d text, sdp_type offer = Offer ∧ parsed offer = Some d ∧ sdp offer = sd_marshal d ∧
    json_of_description offer = inl text ∧ m = description_message now tc ah stream text ∧
    ∀ mid t, tvs !! mid = Some t → lists_track d mid t.

Lemma create_offer_message_event_lists now tc ah stream st st' m sid eid s e :
  find_endpoint st (four_tuple_of tc) = Some (sid, eid) → st_sessions st !! sid = Some s →
  ss_endpoints s !! eid = Some e → media_ok e →
  create_offer_message_event now tc ah stream st = (st', Ok m) →
  offers_all now tc ah stream (ep_transceivers e) m.
Proof.
  intros Hf Hs He Hm H. unfold create_offer_message_event in H.
  apply M_bind_ok_inv in H as (st0 & st1 & [= <- <-] & H).
  apply M_bind_ok_inv in H as (p & st1 & Hx & H). injection Hx as <- Hp%ok_or_ok_inv.
  rewrite Hf in Hp. injection Hp as <-.
  apply M_bind_ok_inv in H as (s0 & st1 & Hx & H). injection Hx as <- _.
  apply M_bind_ok_inv in H as (offer & st1 & Ho & H). unfold on_session in Ho. rewrite Hs in Ho.
  destruct (create_offer_in_session eid (four_tuple_of tc) s) as [s1 r] eqn:Hc.
  injection Ho as <- ->.
  eapply create_offer_in_session_lists in Hc as (d & H1 & H2 & H3 & H4); try done.
  apply M_bind_ok_inv in H as (text & st2 & Hx & [= <- <-]). injection Hx as <- Hj%json_print_ok.
  by exists offer, d, text.
Qed.

(** The other endpoint [oid], with the channel [ah], [stream] at [ft], after
    the loop over the peers: it got the offer and waits for nothing. *)
Lemma offer_to_peers_lists now peers st st' ms sid oid s e ft ecn ah stream mid t :
  offer_to_peers now peers st = (st', Ok ms) →
  find_endpoint st ft = Some (sid, oid) → st_sessions st !! sid = Some s →
  ss_endpoints s !! oid = Some e → media_ok e → ep_transceivers e !! mid = Some t →
  (context_of ft ecn, ah, stream, true) ∈ peers →
  (∃ m, m ∈ ms ∧ offers_track now (context_of ft ecn) ah stream mid t m) ∧
  ∃ s' e', st_sessions st' !! sid = Some s' ∧ ss_endpoints s' !! oid = Some e' ∧
    ep_transceivers e' = ep_transceivers e ∧ ep_is_renegotiation_needed e' = false.
Proof.
  intros H Hf Hs He Hmed Ht Hin.
  apply offer_to_peers_settles in H as [_ Hall].
  assert (Hin' : (context_of ft ecn, ah, stream, true) ∈ filter (λ p, p.2 = true) peers)
    by (by apply list_elem_of_filter).
  apply list_elem_of_lookup in Hin' as [i Hi].
  destruct (Forall2_lookup_l _ _ _ _ _ Hall Hi) as (m & Hm & st1 & st2 & Hset1 & Hset2 & Hev).
  destruct (st_settles_lookup _ _ _ _ _ _ Hset1 Hs He) as (s1 & e1 & Hs1 & He1 & Hsett).
  assert (Hf1 : find_endpoint st1 (four_tuple_of (context_of ft ecn)) = Some (sid, oid)).
  { rewrite four_tuple_of_context_of. unfold find_endpoint. by rewrite (proj1 Hset1). }
  assert (Hsame : ep_transceivers e1 = ep_transceivers e ∧ ep_mids e1 = ep_mids e)
    by (by destruct Hsett as [->| ->]).
  destruct Hsame as [Htv Hmi]. split.
  - exists m. split; [by eapply list_elem_of_lookup_2|].
    assert (Hm1 : media_ok e1) by (destruct Hmed; split; rewrite ?Htv, ?Hmi; done).
    destruct (create_offer_message_event_lists _ _ _ _ _ _ _ _ _ _ _ Hf1 Hs1 He1 Hm1 Hev)
      as (offer & d & text & H1 & H2 & H3 & H4 & H5 & H6). exists offer, d, text.
    rewrite Htv in H6. split_and!; auto.
  - destruct (create_offer_message_event_frame _ _ _ _ _ _ _ _ _ Hf1 Hev)
      as (s2 & e2 & text & Hs2 & He2 & -> & _). rewrite Hs1 in Hs2. injection Hs2 as <-.
    rewrite He1 in He2. injection He2 as <-.
    destruct (st_settles_lookup _ _ sid oid _ (set_renegotiation_needed e1 false) Hset2
      (lookup_insert_eq _ _ _)) as (s3 & e3 & Hs3 & He3 & Hsett3); [apply lookup_insert_eq|].
    exists s3, e3. split_and!; [done|done|..]; by destruct Hsett3 as [->| ->].
Qed.

(** C5. Renegotiation end to end: a connected peer offers, over its data
    channel, a section it sends on under a mid that is new to it.  If the
    gateway handles the message without error, its first message is an answer
    on the same channel, and every other endpoint of the session that did not
    have the track gets, on each of its own open channels that the table leads
    to, an offer with a sendonly section "<id>-<mid>" for it; afterwards that endpoint has the
    transceiver and waits for no renegotiation. *)
Theorem renegotiation_reaches_peers env now tc ah stream payload text request
    d l1 media l2 k mid st st' msgs sid eid s :
  server_ok st → find_endpoint st (four_tuple_of tc) = Some (sid, eid) →
  st_sessions st !! sid = Some s → has_endpoint s eid = true →
  from_utf8 payload = Ok text → json_to_description text = inl request →
  sdp_type request = Offer → desc_unmarshal request = Ok d →
  media_descriptions d = l1 ++ media :: l2 →
  negotiable media = Ok (Some (k, Sendonly, mid)) →
  (∀ m, m ∈ l1 → ∀ k d, negotiable m ≠ Ok (Some (k, d, mid))) → ¬ knows_mid s eid mid →
  handle_datachannel_message env now tc ah stream payload st = (st', Ok msgs) →
  ∃ answer answer_text offers,
    sdp_type answer = Answer ∧ json_of_description answer = inl answer_text ∧
    msgs = description_message now tc ah stream answer_text :: offers ∧
    ∀ oid e ft t ah' stream',
      oid ≠ eid → ss_endpoints s !! oid = Some e →
      ep_transceivers e !! other_mid eid mid = None → ep_transports e !! ft = Some t →
      association_handle_and_stream_id t = (Some ah', Some stream') →
      find_endpoint st ft = Some (sid, oid) →
      ∃ u s' e' m, tv_direction u = Sendonly ∧ m ∈ offers ∧
        offers_track now (context_of ft (tc_ecn tc)) ah' stream' (other_mid eid mid) u m ∧
        st_sessions st' !! sid = Some s' ∧ ss_endpoints s' !! oid = Some e' ∧
        ep_transceivers e' !! other_mid eid mid = Some u ∧
        ep_is_renegotiation_needed e' = false.
Proof.
  intros Hok Hf Hs Hh Hu Hj Hty Hd Hl Hn Hpre Hk H. unfold handle_datachannel_message in H.
  apply M_bind_ok_inv in H as (text' & st1 & Hx & H). injection Hx as <- Hx.
  rewrite Hu in Hx. injection Hx as <-.
  apply M_bind_ok_inv in H as (request' & st1 & Hx & H). injection Hx as <- Hx.
  rewrite Hj in Hx. injection Hx as <-.
  apply M_bind_ok_inv in H as (st0 & st1 & [= <- <-] & H).
  apply M_bind_ok_inv in H as (p & st1 & Hx & H). injection Hx as <- Hp%ok_or_ok_inv.
  rewrite Hf in Hp. injection Hp as <-. rewrite Hty in H.
  apply M_bind_ok_inv in H as (answer & st1 & Hacc & H).
  apply M_bind_ok_inv in H as (answer_text & st2 & Hx & H). injection Hx as <- Hat%json_print_ok.
  apply M_bind_ok_inv in H as (st0 & st2 & [= <- <-] & H).
  apply M_bind_ok_inv in H as (peers & st2 & Hx & H). injection Hx as <- Hpeers.
  apply M_bind_ok_inv in H as (offers & st2 & Hoff & [= <- <-]).
  apply (accept_offer_known _ _ _ _ _ _ _ _ _ _ _ Hs Hh) in Hacc
    as (d' & s1 & s2 & cred & Hd' & Hremote & Hans & Hlocal & ->).
  rewrite Hd in Hd'. injection Hd' as <-.
  exists answer, answer_text, offers. split_and!; [|done|done|].
  { by apply bind_ok_inv in Hans as (? & _ & [= <-]). }
  intros oid e ft t ah' stream' Hoid He Hnone Ht Hch Hft.
  destruct (offer_publishes_aux s eid (with_parsed request d) d l1 media l2 k mid oid e s1)
    as [_ (e1 & u & He1 & Hu1 & Hdir & Hflag)]; try done; [simpl; congruence|].
  specialize (Hflag Hnone).
  assert (He2 : ss_endpoints s2 !! oid = Some e1).
  { pose proof (ss_set_local_description_others eid answer s1 oid Hoid) as Ho.
    rewrite Hlocal in Ho. simpl in Ho. congruence. }
  assert (Ht1 : ep_transports e1 !! ft = Some t).
  { pose proof (ss_set_remote_description_transports eid (with_parsed request d) s oid ft) as Htr.
    rewrite Hremote in Htr. unfold transport_at in Htr. simpl in Htr.
    rewrite He1, He in Htr. simpl in Htr. congruence. }
  assert (Hm1 : media_ok e1).
  { pose proof (ss_set_remote_description_ok _ _ eid (with_parsed request d) s
      (sv_sessions _ Hok _ _ Hs)) as Hs1. rewrite Hremote in Hs1.
    exact (eo_media _ _ _ (so_endpoints _ _ _ Hs1 _ _ He1)). }
  set (st1 := st_with_sessions st _) in *.
  assert (Hs1 : st_sessions st1 !! sid = Some s2) by apply lookup_insert_eq.
  pose proof (elem_of_other_channels st1 tc sid eid s2 oid e1 ft t ah' stream' peers
    Hf Hs1 Hoid He2 Ht1 Hch Hpeers) as Hin. rewrite Hflag in Hin.
  destruct (offer_to_peers_lists _ _ _ _ _ sid oid s2 e1 ft _ _ _ (other_mid eid mid) u
    Hoff Hft Hs1 He2 Hm1 Hu1 Hin) as [(m & Hm & Hmt) (s' & e' & Hs' & He' & Htv & Hfl)].
  exists u, s', e', m. rewrite Htv. split_and!; done.
Qed.

(** C12. Opening a data channel subscribes the endpoint to the room: the channel
    is recorded on its transport, its list of mids grows by one entry per
    track the others publish, each such track is a sendonly transceiver
    "<id>-<mid>" of the endpoint, and no renegotiation is left pending.  If
    there was any track, the gateway answers with one message on the channel,
    the JSON text of an offer with a section of the right mid, kind and
    direction for every transceiver the endpoint now has; otherwise it sends
    nothing. *)
Theorem datachannel_open_subscribes now tc ah stream st st' msgs sid eid s e t :
  server_ok st → find_endpoint st (four_tuple_of tc) = Some (sid, eid) →
  st_sessions st !! sid = Some s → ss_endpoints s !! eid = Some e →
  ep_transports e !! four_tuple_of tc = Some t →
  handle_datachannel_open now tc ah stream st = (st', Ok msgs) →
  ∃ s' e', st_sessions st' !! sid = Some s' ∧ ss_endpoints s' !! eid = Some e' ∧
    subscribed s eid (four_tuple_of tc) t ah stream e e' ∧
    ep_is_renegotiation_needed e' = false ∧
    (if decide (tracks_of_others s eid = []) then msgs = []
     else ∃ m, msgs = [m] ∧ offers_all now tc ah stream (ep_transceivers e') m).
Proof.
  intros Hok Hf Hs He Ht H.
  edestruct datachannel_open_subscribes_aux as (s' & e' & Hs' & He' & Hsub & Hr & Hm); try done.
  exists s', e'. split_and!; [done..|]. case_decide as Hd; [done|].
  destruct Hm as (st1 & s1 & e1 & m & -> & Hst1 & Hf1 & Hs1 & He1 & <- & Hev).
  exists m. split; [done|].
  assert (Hok1 : server_ok st1).
  { rewrite Hst1. apply on_session_ok; [|done]. intros. by apply open_in_session_ok. }
  eapply create_offer_message_event_lists; [done..| |done].
  exact (eo_media _ _ _ (so_endpoints _ _ _ (sv_sessions _ Hok1 _ _ Hs1) _ _ He1)).
Qed.

End renegotiation.
