(* ===== verification/Srtp.v ===== *)
(** * SRTP (handlers/srtp.rs)

    Decrypts what arrives and encrypts what leaves with the contexts of the
    transport of the message's four tuple.  The context changes with every
    call, also when the call fails.  [Metrics.v] adds the metrics. *)

From Stdlib Require Import ZArith Lia.
From stdpp Require Import base numbers strings fin_maps gmap list.
From S2P Require Import Prelude RustStr Enums Types Sdp Codec ReceiverStream.
From S2P Require Import Interceptors MediaParse MediaConfig Config Endpoint.
From S2P Require Import Description Session ServerStates Stable Gateway.

(** The functions of the [srtp], [rtp] and [rtcp] crates and [is_rtcp] of
    [shared]. *)
Class SrtpOps `{T : ExtTypes} := {
  is_rtcp : bytes → bool;
  decrypt_rtp : SrtpContext → bytes → SrtpContext * outcome bytes;
  decrypt_rtcp : SrtpContext → bytes → SrtpContext * outcome bytes;
  encrypt_rtp : SrtpContext → bytes → SrtpContext * outcome bytes;
  encrypt_rtcp : SrtpContext → bytes → SrtpContext * outcome bytes;
  rtp_unmarshal : bytes → outcome RtpPacket;
  rtcp_unmarshal : bytes → outcome (list RtcpPacket);
  rtp_marshal : RtpPacket → outcome bytes;
  rtcp_marshal : list RtcpPacket → outcome bytes
}.

Section srtp.
Context `{O : SdpOps} `{CO : !ConfigOps} `{TO : !TransportOps} `{SO : !SrtpOps}
  `{HO : HashOrder}.
Implicit Types (st : ServerStates) (tc : TransportContext).

(** A call on a [&mut Context] stored in a transport. *)
Definition with_remote_context {A} st (sid : SessionId) (eid : EndpointId) (ft : FourTuple)
    (t : Transport) (f : SrtpContext → SrtpContext * outcome A) (missing : Error)
  : ServerStates * outcome A :=
  match tr_remote_srtp_context t with
  | Some c => let '(c', r) := f c in
              (update_transport st sid eid ft (λ t, set_remote_srtp_context t c'), r)
  | None => (st, Err missing)
  end.
Definition with_local_context {A} st (sid : SessionId) (eid : EndpointId) (ft : FourTuple)
    (t : Transport) (f : SrtpContext → SrtpContext * outcome A) (missing : Error)
  : ServerStates * outcome A :=
  match tr_local_srtp_context t with
  | Some c => let '(c', r) := f c in
              (update_transport st sid eid ft (λ t, set_local_srtp_context t c'), r)
  | None => (st, Err missing)
  end.

Definition remote_context_not_set (ft : FourTuple) : Error :=
  ErrOther ("remote_srtp_context is not set yet for four_tuple " +:+ show_four_tuple ft).
Definition local_context_not_set (ft : FourTuple) : Error :=
  ErrOther ("local_srtp_context is not set yet for four_tuple " +:+ show_four_tuple ft).

(** The closure [try_read] of [handle_read]. *)
Definition srtp_try_read st tc (message : bytes) : ServerStates * outcome MessageEvent :=
  let ft := four_tuple_of tc in
  match get_mut_transport st ft with
  | Ok (sid, eid, t) =>
      if is_rtcp message then
        let '(st, r) := with_remote_context st sid eid ft t (λ c, decrypt_rtcp c message)
                          (remote_context_not_set ft) in
        (st, decrypted ← r;
             rtcp_packets ← rtcp_unmarshal decrypted;
             match rtcp_packets with
             | [] => Err (ErrOther "empty rtcp_packets")
             | _ => Ok (Ev_Rtp (Rtp_Rtcp rtcp_packets))
             end)
      else
        let '(st, r) := with_remote_context st sid eid ft t (λ c, decrypt_rtp c message)
                          (remote_context_not_set ft) in
        (st, decrypted ← r; rtp_packet ← rtp_unmarshal decrypted; Ok (Ev_Rtp (Rtp_Rtp rtp_packet)))
  | Err e => (st, Err e)
  | Panic => (st, Panic)
  end.

(** [SrtpHandler::handle_read]. *)
Definition srtp_handle_read st (msg : TaggedMessageEvent) : ServerStates * list Effect :=
  match tm_message msg with
  | Ev_Rtp (Rtp_Raw message) =>
      match srtp_try_read st (tm_transport msg) message with
      | (st, Ok message) =>
          (st, [FireRead {| tm_now := tm_now msg; tm_transport := tm_transport msg;
                            tm_message := message |}])
      | (st, Err e) => (st, [FireException e])
      | (st, Panic) => (st, [])
      end
  | _ => (st, [FireRead msg])
  end.

(** The closure [try_write] of [poll_write]. *)
Definition srtp_try_write st tc (message : RTPMessageEvent) : ServerStates * outcome bytes :=
  let ft := four_tuple_of tc in
  match get_mut_transport st ft with
  | Ok (sid, eid, t) =>
      match message with
      | Rtp_Rtcp rtcp_packets =>
          match rtcp_packets with
          | [] => (st, Err (ErrOther "empty rtcp_packets"))
          | _ =>
              with_local_context st sid eid ft t
                (λ c, match rtcp_marshal rtcp_packets with
                      | Ok packet => encrypt_rtcp c packet
                      | Err e => (c, Err e)
                      | Panic => (c, Panic)
                      end) (local_context_not_set ft)
          end
      | Rtp_Rtp rtp_message =>
          with_local_context st sid eid ft t
            (λ c, match rtp_marshal rtp_message with
                  | Ok packet => encrypt_rtp c packet
                  | Err e => (c, Err e)
                  | Panic => (c, Panic)
                  end) (local_context_not_set ft)
      | Rtp_Raw raw_packet => (st, Ok raw_packet)
      end
  | Err e => (st, Err e)
  | Panic => (st, Panic)
  end.

(** [SrtpHandler::poll_write]: the message that goes out and the exceptions. *)
Definition srtp_poll_write st (below : option TaggedMessageEvent)
  : ServerStates * option TaggedMessageEvent * list Effect :=
  match below with
  | Some msg =>
      match tm_message msg with
      | Ev_Rtp message =>
          match srtp_try_write st (tm_transport msg) message with
          | (st, Ok encrypted) =>
              (st, Some {| tm_now := tm_now msg; tm_transport := tm_transport msg;
                           tm_message := Ev_Rtp (Rtp_Raw encrypted) |}, [])
          | (st, Err e) => (st, None, [FireException e])
          | (st, Panic) => (st, None, [])
          end
      | _ => (st, Some msg, [])
      end
  | None => (st, None, [])
  end.

(** ** Properties *)

Lemma set_remote_srtp_activity c : keeps_activity (λ t, set_remote_srtp_context t c).
Proof. done. Qed.
Lemma set_local_srtp_activity c : keeps_activity (λ t, set_local_srtp_context t c).
Proof. done. Qed.

Section stable.
Context `{RO : !RtpOps} (P : ServerStates → Prop) `{SP : !Stable P}.

Lemma srtp_handle_read_stable st msg : P st → P (srtp_handle_read st msg).1.
Proof.
  intros Hst. unfold srtp_handle_read. destruct (tm_message msg) as [| |[message| |]]; try done.
  assert (H : P (srtp_try_read st (tm_transport msg) message).1);
    [|destruct (srtp_try_read _ _ _) as [? []]; done].
  unfold srtp_try_read, with_remote_context.
  destruct (get_mut_transport st _) as [[[sid eid] t]|e|]; [|done|done].
  destruct (tr_remote_srtp_context t) as [c|]; case_match; try done.
  - destruct (decrypt_rtcp c message). apply stable_transport; [apply set_remote_srtp_activity|done].
  - destruct (decrypt_rtp c message). apply stable_transport; [apply set_remote_srtp_activity|done].
Qed.

Lemma srtp_poll_write_stable st below : P st → P (srtp_poll_write st below).1.1.
Proof.
  intros Hst. unfold srtp_poll_write. destruct below as [msg|]; [|done].
  destruct (tm_message msg) as [| |message]; try done.
  assert (H : P (srtp_try_write st (tm_transport msg) message).1);
    [|destruct (srtp_try_write _ _ _) as [? []]; done].
  unfold srtp_try_write, with_local_context.
  destruct (get_mut_transport st _) as [[[sid eid] t]|e|]; [|done|done].
  destruct message as [|p|[|p ps]]; try done; (destruct (tr_local_srtp_context t) as [c|]; [|done]);
    (case_match; apply stable_transport; [apply set_local_srtp_activity|done]).
Qed.
End stable.

Lemma srtp_fires_from st msg : fires_from (tm_transport msg) (srtp_handle_read st msg).2.
Proof.
  unfold srtp_handle_read. destruct (tm_message msg) as [| |[message| |]]; try by repeat constructor.
  destruct (srtp_try_read _ _ _) as [? []]; repeat constructor.
Qed.

(** C26. No clear media: what the SRTP handler lets out for an RTP or RTCP
    message is, at the same time and address, exactly what the local context
    of the transport of the message's four tuple encrypts of the marshalled
    packets; without a transport or without a context nothing goes out. *)
Theorem srtp_writes_only_encrypted st msg st' out effs :
  (∃ p, tm_message msg = Ev_Rtp (Rtp_Rtp p)) ∨ (∃ ps, tm_message msg = Ev_Rtp (Rtp_Rtcp ps)) →
  srtp_poll_write st (Some msg) = (st', Some out, effs) →
  ∃ sid eid t c b x,
    find_endpoint st (four_tuple_of (tm_transport msg)) = Some (sid, eid) ∧
    connection st sid eid (four_tuple_of (tm_transport msg)) = Some t ∧
    tr_local_srtp_context t = Some c ∧
    out = {| tm_now := tm_now msg; tm_transport := tm_transport msg;
             tm_message := Ev_Rtp (Rtp_Raw x) |} ∧
    match tm_message msg with
    | Ev_Rtp (Rtp_Rtp p) => rtp_marshal p = Ok b ∧ (encrypt_rtp c b).2 = Ok x
    | Ev_Rtp (Rtp_Rtcp ps) => ps ≠ [] ∧ rtcp_marshal ps = Ok b ∧ (encrypt_rtcp c b).2 = Ok x
    | _ => False
    end.
Proof.
  intros Hm H. unfold srtp_poll_write in H.
  assert (∃ message, tm_message msg = Ev_Rtp message ∧ ∀ b, message ≠ Rtp_Raw b) as (message & Em & Hraw)
    by (destruct Hm as [[p ->]|[ps ->]]; eauto).
  rewrite Em in H |- *.
  destruct (srtp_try_write st (tm_transport msg) message) as [st1 [x|e|]] eqn:E; try done.
  injection H as <- <- <-. unfold srtp_try_write in E. set (ft := four_tuple_of _) in *.
  destruct (get_mut_transport st ft) as [[[sid eid] t]|e|] eqn:Et; try done.
  apply get_mut_transport_connection in Et as [Hf Hc]. exists sid, eid, t.
  unfold with_local_context in E.
  destruct message as [b|p|[|q ps]]; [by destruct (Hraw b)| |done|].
  - destruct (tr_local_srtp_context t) as [c|]; [|done].
    destruct (rtp_marshal p) as [b|e|]; try done.
    destruct (encrypt_rtp c b) as [c' r] eqn:Ee. injection E as _ ->.
    exists c, b, x. by rewrite Ee.
  - destruct (tr_local_srtp_context t) as [c|]; [|done].
    destruct (rtcp_marshal (q :: ps)) as [b|e|]; try done.
    destruct (encrypt_rtcp c b) as [c' r] eqn:Ee. injection E as _ ->.
    exists c, b, x. by rewrite Ee.
Qed.

(** C27. Only authenticated media gets in: a raw RTP or RTCP datagram reaches
    the next handler only as the packets that the remote context of its own
    transport decrypts it to, never an empty RTCP list; nothing of a datagram from an
    unknown address, without a context, or that fails to decrypt or parse is
    handed on. *)
Theorem srtp_reads_only_decrypted st msg b :
  tm_message msg = Ev_Rtp (Rtp_Raw b) →
  ∀ m, FireRead m ∈ (srtp_handle_read st msg).2 →
  tm_now m = tm_now msg ∧ tm_transport m = tm_transport msg ∧
  ∃ sid eid t c d,
    find_endpoint st (four_tuple_of (tm_transport msg)) = Some (sid, eid) ∧
    connection st sid eid (four_tuple_of (tm_transport msg)) = Some t ∧
    tr_remote_srtp_context t = Some c ∧
    if is_rtcp b then (decrypt_rtcp c b).2 = Ok d ∧
      ∃ ps, rtcp_unmarshal d = Ok ps ∧ ps ≠ [] ∧ tm_message m = Ev_Rtp (Rtp_Rtcp ps)
    else (decrypt_rtp c b).2 = Ok d ∧
      ∃ p, rtp_unmarshal d = Ok p ∧ tm_message m = Ev_Rtp (Rtp_Rtp p).
Proof.
  intros Hm m. unfold srtp_handle_read. rewrite Hm.
  destruct (srtp_try_read st (tm_transport msg) b) as [st' [ev|e|]] eqn:E; simpl;
    rewrite ?list_elem_of_singleton; [|done|by intros ?%not_elem_of_nil].
  intros [= ->]. split; [done|]. split; [done|]. cbn [tm_message].
  unfold srtp_try_read in E. set (ft := four_tuple_of _) in *.
  destruct (get_mut_transport st ft) as [[[sid eid] t]|e|] eqn:Et; try done.
  apply get_mut_transport_connection in Et as [Hf Hc]. exists sid, eid, t.
  unfold with_remote_context in E. destruct (is_rtcp b).
  - destruct (tr_remote_srtp_context t) as [c|]; [|done]. exists c.
    destruct (decrypt_rtcp c b) as [c' r] eqn:Ed. injection E as _ E.
    apply bind_ok_inv in E as (d & -> & E). apply bind_ok_inv in E as (ps & Hp & E).
    exists d. split_and!; try done. destruct ps as [|p ps]; [done|]. injection E as <-. eauto 6.
  - destruct (tr_remote_srtp_context t) as [c|]; [|done]. exists c.
    destruct (decrypt_rtp c b) as [c' r] eqn:Ed. injection E as _ E.
    apply bind_ok_inv in E as (d & -> & E). apply bind_ok_inv in E as (p & Hp & [= <-]).
    exists d. split_and!; try done. eauto 6.
Qed.

End srtp.
