(* ===== verification/Metrics.v ===== *)
(** * Metrics (metrics/mod.rs) and the calls of handlers/srtp.rs on them

    [Metrics] holds six counters and two gauges of the [opentelemetry] crate;
    only the SRTP handler records values.  [Srtp.v] models what the handler
    does to its messages; here are the same two entry points with the metrics
    threaded through them, [record_*] at the places of the source.  The first
    theorem shows that the metrics change nothing of what the handler does,
    the second what the counters say after any run of calls. *)

From Stdlib Require Import ZArith Lia.
From stdpp Require Import base numbers strings fin_maps gmap list.
From S2P Require Import Prelude RustStr Enums Types Sdp Codec ReceiverStream.
From S2P Require Import Interceptors MediaParse MediaConfig Config Endpoint.
From S2P Require Import Description Session ServerStates Stable Gateway Srtp.

(** The instruments of the [opentelemetry] crate.  A counter is read as the
    sum of what was added to it, a gauge as the last value observed. *)
Class MeterOps := {
  Meter : Type;
  Counter : Type;
  ObservableGauge : Type;
  u64_counter : Meter → string → Counter;
  u64_observable_gauge : Meter → string → string → ObservableGauge;
  counter_add : Counter → Z → Counter;
  gauge_observe : ObservableGauge → Z → ObservableGauge;
  counter_sum : Counter → Z;
  gauge_last : ObservableGauge → option Z
}.

(** The documented behaviour: a new instrument has recorded nothing, a counter
    adds as long as its sum fits in 64 bits, a gauge keeps the last value. *)
Class MeterLaws `{MeterOps} : Prop := {
  counter_init m n : counter_sum (u64_counter m n) = 0%Z;
  counter_added c v :
    (0 ≤ v → counter_sum c + v < 2 ^ 64 → counter_sum (counter_add c v) = counter_sum c + v)%Z;
  gauge_observed g v : gauge_last (gauge_observe g v) = Some v
}.

(** ** [Metrics] *)

Section metrics.
Context `{ME : MeterOps}.

Record Metrics := mkMetrics {
  rtp_packet_in_count : Counter;
  rtp_packet_out_count : Counter;
  rtcp_packet_in_count : Counter;
  rtcp_packet_out_count : Counter;
  remote_srtp_context_not_set_count : Counter;
  local_srtp_context_not_set_count : Counter;
  rtp_packet_processing_time : ObservableGauge;
  rtcp_packet_processing_time : ObservableGauge
}.

(** [Metrics::new]. *)
Definition metrics_new (meter : Meter) : Metrics := {|
  rtp_packet_in_count := u64_counter meter "rtp_packet_in_count";
  rtp_packet_out_count := u64_counter meter "rtp_packet_out_count";
  rtcp_packet_in_count := u64_counter meter "rtcp_packet_in_count";
  rtcp_packet_out_count := u64_counter meter "rtcp_packet_out_count";
  remote_srtp_context_not_set_count := u64_counter meter "remote_srtp_context_not_set_count";
  local_srtp_context_not_set_count := u64_counter meter "local_srtp_context_not_set_count";
  rtp_packet_processing_time := u64_observable_gauge meter "rtp_packet_processing_time" "us";
  rtcp_packet_processing_time := u64_observable_gauge meter "rtcp_packet_processing_time" "us"
|}.

(** The [record_*] methods; every call of the source passes no attributes. *)
Definition record_rtp_packet_in_count (m : Metrics) (value : Z) : Metrics :=
  mkMetrics (counter_add (rtp_packet_in_count m) value) (rtp_packet_out_count m)
    (rtcp_packet_in_count m) (rtcp_packet_out_count m)
    (remote_srtp_context_not_set_count m) (local_srtp_context_not_set_count m)
    (rtp_packet_processing_time m) (rtcp_packet_processing_time m).
Definition record_rtp_packet_out_count (m : Metrics) (value : Z) : Metrics :=
  mkMetrics (rtp_packet_in_count m) (counter_add (rtp_packet_out_count m) value)
    (rtcp_packet_in_count m) (rtcp_packet_out_count m)
    (remote_srtp_context_not_set_count m) (local_srtp_context_not_set_count m)
    (rtp_packet_processing_time m) (rtcp_packet_processing_time m).
Definition record_rtcp_packet_in_count (m : Metrics) (value : Z) : Metrics :=
  mkMetrics (rtp_packet_in_count m) (rtp_packet_out_count m)
    (counter_add (rtcp_packet_in_count m) value) (rtcp_packet_out_count m)
    (remote_srtp_context_not_set_count m) (local_srtp_context_not_set_count m)
    (rtp_packet_processing_time m) (rtcp_packet_processing_time m).
Definition record_rtcp_packet_out_count (m : Metrics) (value : Z) : Metrics :=
  mkMetrics (rtp_packet_in_count m) (rtp_packet_out_count m)
    (rtcp_packet_in_count m) (counter_add (rtcp_packet_out_count m) value)
    (remote_srtp_context_not_set_count m) (local_srtp_context_not_set_count m)
    (rtp_packet_processing_time m) (rtcp_packet_processing_time m).
Definition record_remote_srtp_context_not_set_count (m : Metrics) (value : Z) : Metrics :=
  mkMetrics (rtp_packet_in_count m) (rtp_packet_out_count m)
    (rtcp_packet_in_count m) (rtcp_packet_out_count m)
    (counter_add (remote_srtp_context_not_set_count m) value) (local_srtp_context_not_set_count m)
    (rtp_packet_processing_time m) (rtcp_packet_processing_time m).
Definition record_local_srtp_context_not_set_count (m : Metrics) (value : Z) : Metrics :=
  mkMetrics (rtp_packet_in_count m) (rtp_packet_out_count m)
    (rtcp_packet_in_count m) (rtcp_packet_out_count m)
    (remote_srtp_context_not_set_count m) (counter_add (local_srtp_context_not_set_count m) value)
    (rtp_packet_processing_time m) (rtcp_packet_processing_time m).
Definition record_rtp_packet_processing_time (m : Metrics) (value : Z) : Metrics :=
  mkMetrics (rtp_packet_in_count m) (rtp_packet_out_count m)
    (rtcp_packet_in_count m) (rtcp_packet_out_count m)
    (remote_srtp_context_not_set_count m) (local_srtp_context_not_set_count m)
    (gauge_observe (rtp_packet_processing_time m) value) (rtcp_packet_processing_time m).
Definition record_rtcp_packet_processing_time (m : Metrics) (value : Z) : Metrics :=
  mkMetrics (rtp_packet_in_count m) (rtp_packet_out_count m)
    (rtcp_packet_in_count m) (rtcp_packet_out_count m)
    (remote_srtp_context_not_set_count m) (local_srtp_context_not_set_count m)
    (rtp_packet_processing_time m) (gauge_observe (rtcp_packet_processing_time m) value).

End metrics.
Arguments Metrics {ME}.

(** [Instant::now().duration_since(msg.now).as_micros() as u64]:
    [duration_since] is zero for a later instant, [as_micros] drops the
    nanoseconds, the cast keeps the low 64 bits. *)
Definition processing_time (now since : Instant) : Z :=
  (Z.max 0 (now - since) / 1000) mod 2 ^ 64.

(** ** The metered handler *)

Section metered.
Context `{O : SdpOps} `{CO : !ConfigOps} `{TO : !TransportOps} `{SO : !SrtpOps}
  `{HO : HashOrder} `{ME : MeterOps}.
Implicit Types (mt : Metrics) (st : ServerStates) (tc : TransportContext).

(** One branch of [try_read]: the context of the transport decrypts, [parse]
    is the rest of the branch, [record] its success count. *)
Definition metered_decrypt {A} mt st (sid : SessionId) (eid : EndpointId) (ft : FourTuple)
    (t : Transport) (decrypt : SrtpContext → SrtpContext * outcome bytes)
    (parse : bytes → outcome A) (record : Metrics → Z → Metrics)
  : Metrics * ServerStates * outcome A :=
  match tr_remote_srtp_context t with
  | Some c =>
      let '(c', r) := decrypt c in
      let st := update_transport st sid eid ft (λ t, set_remote_srtp_context t c') in
      match r ≫= parse with
      | Ok a => (record mt 1%Z, st, Ok a)
      | Err e => (mt, st, Err e)
      | Panic => (mt, st, Panic)
      end
  | None =>
      (record_remote_srtp_context_not_set_count mt 1, st, Err (remote_context_not_set ft))
  end.

Definition parse_rtcp (decrypted : bytes) : outcome MessageEvent :=
  rtcp_packets ← rtcp_unmarshal decrypted;
  match rtcp_packets with
  | [] => Err (ErrOther "empty rtcp_packets")
  | _ => Ok (Ev_Rtp (Rtp_Rtcp rtcp_packets))
  end.
Definition parse_rtp (decrypted : bytes) : outcome MessageEvent :=
  rtp_packet ← rtp_unmarshal decrypted; Ok (Ev_Rtp (Rtp_Rtp rtp_packet)).

Definition metered_try_read mt st tc (message : bytes)
  : Metrics * ServerStates * outcome MessageEvent :=
  let ft := four_tuple_of tc in
  match get_mut_transport st ft with
  | Ok (sid, eid, t) =>
      if is_rtcp message then
        metered_decrypt mt st sid eid ft t (λ c, decrypt_rtcp c message) parse_rtcp
          record_rtcp_packet_in_count
      else
        metered_decrypt mt st sid eid ft t (λ c, decrypt_rtp c message) parse_rtp
          record_rtp_packet_in_count
  | Err e => (mt, st, Err e)
  | Panic => (mt, st, Panic)
  end.

Definition metered_handle_read mt st (msg : TaggedMessageEvent)
  : Metrics * ServerStates * list Effect :=
  match tm_message msg with
  | Ev_Rtp (Rtp_Raw message) =>
      match metered_try_read mt st (tm_transport msg) message with
      | (mt, st, Ok message) =>
          (mt, st, [FireRead {| tm_now := tm_now msg; tm_transport := tm_transport msg;
                                tm_message := message |}])
      | (mt, st, Err e) => (mt, st, [FireException e])
      | (mt, st, Panic) => (mt, st, [])
      end
  | _ => (mt, st, [FireRead msg])
  end.

(** One branch of [try_write]: the counts are recorded after the encryption,
    whatever it returned. *)
Definition metered_encrypt mt st (sid : SessionId) (eid : EndpointId) (ft : FourTuple)
    (t : Transport) (marshalled : outcome bytes)
    (encrypt : SrtpContext → bytes → SrtpContext * outcome bytes)
    (record : Metrics → Z → Metrics) (record_time : Metrics → Z → Metrics) (micros : Z)
  : Metrics * ServerStates * outcome bytes :=
  match tr_local_srtp_context t with
  | Some c =>
      match marshalled with
      | Ok packet =>
          let '(c', r) := encrypt c packet in
          let st := update_transport st sid eid ft (λ t, set_local_srtp_context t c') in
          (record_time (record mt 1%Z) micros, st, r)
      | Err e => (mt, st, Err e)
      | Panic => (mt, st, Panic)
      end
  | None =>
      (record_local_srtp_context_not_set_count mt 1, st, Err (local_context_not_set ft))
  end.

(** [now] is the [Instant::now()] of the processing time, [since] is [msg.now]. *)
Definition metered_try_write mt st tc (now since : Instant) (message : RTPMessageEvent)
  : Metrics * ServerStates * outcome bytes :=
  let ft := four_tuple_of tc in
  match get_mut_transport st ft with
  | Ok (sid, eid, t) =>
      match message with
      | Rtp_Rtcp [] => (mt, st, Err (ErrOther "empty rtcp_packets"))
      | Rtp_Rtcp rtcp_packets =>
          metered_encrypt mt st sid eid ft t (rtcp_marshal rtcp_packets) encrypt_rtcp
            record_rtcp_packet_out_count record_rtcp_packet_processing_time
            (processing_time now since)
      | Rtp_Rtp rtp_message =>
          metered_encrypt mt st sid eid ft t (rtp_marshal rtp_message) encrypt_rtp
            record_rtp_packet_out_count record_rtp_packet_processing_time
            (processing_time now since)
      | Rtp_Raw raw_packet => (mt, st, Ok raw_packet)
      end
  | Err e => (mt, st, Err e)
  | Panic => (mt, st, Panic)
  end.

Definition metered_poll_write mt st (below : option TaggedMessageEvent) (now : Instant)
  : Metrics * ServerStates * option TaggedMessageEvent * list Effect :=
  match below with
  | Some msg =>
      match tm_message msg with
      | Ev_Rtp message =>
          match metered_try_write mt st (tm_transport msg) now (tm_now msg) message with
          | (mt, st, Ok encrypted) =>
              (mt, st, Some {| tm_now := tm_now msg; tm_transport := tm_transport msg;
                               tm_message := Ev_Rtp (Rtp_Raw encrypted) |}, [])
          | (mt, st, Err e) => (mt, st, None, [FireException e])
          | (mt, st, Panic) => (mt, st, None, [])
          end
      | _ => (mt, st, Some msg, [])
      end
  | None => (mt, st, None, [])
  end.

(** ** The metrics change nothing *)

(** Writing back the context a transport already has. *)
Lemma update_transport_id st sid eid ft f t :
  connection st sid eid ft = Some t → f t = t → update_transport st sid eid ft f = st.
Proof.
  unfold connection, transport_at, update_transport, update_endpoint, st_with_sessions.
  intros H Hf. destruct st as [? ? sessions ? ?]; simpl in *. f_equal.
  apply alter_id. intros s Hs. rewrite Hs in H. simpl in H.
  destruct s as [? ? eps]; unfold ss_with_endpoints; simpl in *. f_equal.
  apply alter_id. intros e He. rewrite He in H. simpl in H.
  destruct e; unfold ep_with_transports; simpl in *. f_equal.
  apply alter_id. intros t' Ht. congruence.
Qed.

(** [try_read] and [try_write] without the metrics are those of [Srtp.v]. *)
Lemma metered_try_read_erased mt st tc message :
  let '(_, st', r) := metered_try_read mt st tc message in srtp_try_read st tc message = (st', r).
Proof.
  unfold metered_try_read, srtp_try_read, metered_decrypt, with_remote_context.
  destruct (get_mut_transport st _) as [[[sid eid] t]|e|]; [|done|done].
  destruct (is_rtcp message), (tr_remote_srtp_context t) as [c|]; try done.
  - destruct (decrypt_rtcp c message) as [c' [d|e|]]; try done. simpl. unfold parse_rtcp.
    by destruct (rtcp_unmarshal d) as [[|p ps]|e|].
  - destruct (decrypt_rtp c message) as [c' [d|e|]]; try done. simpl. unfold parse_rtp.
    by destruct (rtp_unmarshal d).
Qed.

Lemma metered_encrypt_erased mt st sid eid ft t marshalled encrypt record record_time micros :
  connection st sid eid ft = Some t →
  let '(_, st', r) := metered_encrypt mt st sid eid ft t marshalled encrypt record record_time micros in
  with_local_context st sid eid ft t
    (λ c, match marshalled with
          | Ok packet => encrypt c packet | Err e => (c, Err e) | Panic => (c, Panic)
          end) (local_context_not_set ft) = (st', r).
Proof.
  intros Ht. unfold metered_encrypt, with_local_context.
  destruct (tr_local_srtp_context t) as [c|] eqn:Hc; [|done].
  assert (set_local_srtp_context t c = t) as Hid
    by (destruct t; simpl in *; unfold set_local_srtp_context, set_srtp; simpl; by subst).
  destruct marshalled as [packet|e|]; [by destruct (encrypt c packet)| |];
    by rewrite (update_transport_id st sid eid ft _ t).
Qed.

Lemma metered_try_write_erased mt st tc now since message :
  let '(_, st', r) := metered_try_write mt st tc now since message in
  srtp_try_write st tc message = (st', r).
Proof.
  unfold metered_try_write, srtp_try_write.
  destruct (get_mut_transport st _) as [[[sid eid] t]|e|] eqn:Et; [|done|done].
  apply get_mut_transport_connection in Et as [_ Ht].
  destruct message as [b|p|[|q ps]]; try done; by apply metered_encrypt_erased.
Qed.

Lemma metered_handle_read_erased mt st msg :
  let '(_, st', effs) := metered_handle_read mt st msg in srtp_handle_read st msg = (st', effs).
Proof.
  unfold metered_handle_read, srtp_handle_read.
  destruct (tm_message msg) as [| |[message| |]]; try done.
  pose proof (metered_try_read_erased mt st (tm_transport msg) message) as H.
  destruct (metered_try_read _ _ _ _) as [[mt' st'] r]. rewrite H. by destruct r.
Qed.

Lemma metered_poll_write_erased mt st below now :
  let '(_, st', out, effs) := metered_poll_write mt st below now in
  srtp_poll_write st below = (st', out, effs).
Proof.
  unfold metered_poll_write, srtp_poll_write. destruct below as [msg|]; [|done].
  destruct (tm_message msg) as [| |message]; try done.
  pose proof (metered_try_write_erased mt st (tm_transport msg) now (tm_now msg) message) as H.
  destruct (metered_try_write _ _ _ _ _ _) as [[mt' st'] r]. rewrite H. by destruct r.
Qed.

(** ** What the counters count *)

(** A call on the handler; the instant of a write is when it is measured. *)
Inductive SrtpCall :=
| Srtp_read (msg : TaggedMessageEvent)
| Srtp_write (below : option TaggedMessageEvent) (now : Instant).

Definition metered_call mt st (call : SrtpCall)
  : Metrics * ServerStates * (option TaggedMessageEvent * list Effect) :=
  match call with
  | Srtp_read msg =>
      let '(mt, st, effs) := metered_handle_read mt st msg in (mt, st, (None, effs))
  | Srtp_write below now =>
      let '(mt, st, out, effs) := metered_poll_write mt st below now in (mt, st, (out, effs))
  end.
Definition plain_call st (call : SrtpCall)
  : ServerStates * (option TaggedMessageEvent * list Effect) :=
  match call with
  | Srtp_read msg => let '(st, effs) := srtp_handle_read st msg in (st, (None, effs))
  | Srtp_write below _ => let '(st, out, effs) := srtp_poll_write st below in (st, (out, effs))
  end.

Fixpoint metered_calls mt st (calls : list SrtpCall)
  : Metrics * ServerStates * list (option TaggedMessageEvent * list Effect) :=
  match calls with
  | [] => (mt, st, [])
  | call :: calls =>
      let '(mt, st, r) := metered_call mt st call in
      let '(mt, st, rs) := metered_calls mt st calls in (mt, st, r :: rs)
  end.
Fixpoint plain_calls st (calls : list SrtpCall)
  : ServerStates * list (option TaggedMessageEvent * list Effect) :=
  match calls with
  | [] => (st, [])
  | call :: calls =>
      let '(st, r) := plain_call st call in
      let '(st, rs) := plain_calls st calls in (st, r :: rs)
  end.

(** The six counters. *)
Inductive Counted := Rtp_in | Rtp_out | Rtcp_in | Rtcp_out | Remote_not_set | Local_not_set.
#[export] Instance Counted_eq_dec : EqDecision Counted.
Proof. solve_decision. Defined.
Definition counter_of (k : Counted) mt : Counter :=
  match k with
  | Rtp_in => rtp_packet_in_count mt
  | Rtp_out => rtp_packet_out_count mt
  | Rtcp_in => rtcp_packet_in_count mt
  | Rtcp_out => rtcp_packet_out_count mt
  | Remote_not_set => remote_srtp_context_not_set_count mt
  | Local_not_set => local_srtp_context_not_set_count mt
  end.

(** What a call is counted as, told from the state before it and from what
    the unmetered handler answers: a datagram handed on decrypted, one that
    found its transport without a context; a packet that found a context and
    was marshalled, one that found no context. *)
Definition transport_of st tc : option Transport :=
  match get_mut_transport st (four_tuple_of tc) with Ok (_, _, t) => Some t | _ => None end.
Definition marshal_ok {A} (r : outcome A) (k : Counted) : option Counted :=
  match r with Ok _ => Some k | _ => None end.
Definition count_write st tc (r : outcome bytes) (k : Counted) : option Counted :=
  t ← transport_of st tc;
  match tr_local_srtp_context t with Some _ => marshal_ok r k | None => Some Local_not_set end.
Definition counted_as st (call : SrtpCall) : option Counted :=
  match call with
  | Srtp_read msg =>
      match tm_message msg, (srtp_handle_read st msg).2 with
      | Ev_Rtp (Rtp_Raw _), [FireRead m] =>
          match tm_message m with
          | Ev_Rtp (Rtp_Rtp _) => Some Rtp_in
          | Ev_Rtp (Rtp_Rtcp _) => Some Rtcp_in
          | _ => None
          end
      | Ev_Rtp (Rtp_Raw _), _ =>
          t ← transport_of st (tm_transport msg);
          match tr_remote_srtp_context t with Some _ => None | None => Some Remote_not_set end
      | _, _ => None
      end
  | Srtp_write (Some msg) _ =>
      match tm_message msg with
      | Ev_Rtp (Rtp_Rtp p) => count_write st (tm_transport msg) (rtp_marshal p) Rtp_out
      | Ev_Rtp (Rtp_Rtcp []) => None
      | Ev_Rtp (Rtp_Rtcp ps) => count_write st (tm_transport msg) (rtcp_marshal ps) Rtcp_out
      | _ => None
      end
  | Srtp_write None _ => None
  end.
Fixpoint counts st (k : Counted) (calls : list SrtpCall) : nat :=
  match calls with
  | [] => 0
  | call :: calls =>
      (if decide (counted_as st call = Some k) then 1 else 0)
      + counts (plain_call st call).1 k calls
  end.

(** One call adds one to the counter it is counted as and leaves the others. *)
Definition bump (k : option Counted) (j : Counted) : Z := if decide (k = Some j) then 1 else 0.

Section laws.
Context `{ML : !MeterLaws}.
Open Scope Z_scope.

(** Closes the goals about one counter after at most one addition. *)
Ltac counter_step :=
  let j := fresh "j" in let Hj := fresh "Hj" in
  intros j Hj; unfold bump; case_decide; destruct j; simplify_eq; simpl in *;
  rewrite ?counter_added by lia; lia.

Lemma metered_call_counts mt st call j :
  counter_sum (counter_of j mt) + 1 < 2 ^ 64 →
  counter_sum (counter_of j (metered_call mt st call).1.1) =
  counter_sum (counter_of j mt) + bump (counted_as st call) j.
Proof.
  revert j. destruct call as [msg|[msg|] now]; simpl; [| |counter_step].
  - pose proof (metered_handle_read_erased mt st msg) as Her. revert Her.
    unfold metered_handle_read. destruct (tm_message msg) as [| |[message| |]]; simpl;
      [intros _; counter_step..| |intros _; counter_step|intros _; counter_step].
    unfold metered_try_read, metered_decrypt, transport_of.
    destruct (get_mut_transport st _) as [[[sid eid] t]|e|]; simpl;
      [|intros ->; simpl; counter_step..].
    destruct (is_rtcp message), (tr_remote_srtp_context t) as [c|] eqn:Ec; simpl;
      try (intros ->; simpl; rewrite ?Ec; counter_step).
    + destruct (decrypt_rtcp c message) as [c' [d|e|]]; simpl;
        [|intros ->; simpl; rewrite ?Ec; counter_step..].
      unfold parse_rtcp. destruct (rtcp_unmarshal d) as [[|p ps]|e|]; simpl;
        intros ->; simpl; rewrite ?Ec; counter_step.
    + destruct (decrypt_rtp c message) as [c' [d|e|]]; simpl;
        [|intros ->; simpl; rewrite ?Ec; counter_step..].
      unfold parse_rtp. destruct (rtp_unmarshal d) as [p|e|]; simpl;
        intros ->; simpl; rewrite ?Ec; counter_step.
  - unfold metered_poll_write. destruct (tm_message msg) as [| |message]; simpl; try counter_step.
    unfold metered_try_write, count_write, transport_of.
    destruct (get_mut_transport st _) as [[[sid eid] t]|e|]; simpl;
      destruct message as [b|p|[|q ps]]; simpl; try counter_step;
      unfold metered_encrypt; (destruct (tr_local_srtp_context t) as [c|]; [|simpl; counter_step]).
    + destruct (rtp_marshal p) as [b|e|]; simpl; [|counter_step..].
      destruct (encrypt_rtp c b) as [c' [x|e|]]; simpl; counter_step.
    + destruct (rtcp_marshal (q :: ps)) as [b|e|]; simpl; [|counter_step..].
      destruct (encrypt_rtcp c b) as [c' [x|e|]]; simpl; counter_step.
Qed.

Lemma metered_call_erased mt st call :
  let '(_, st', r) := metered_call mt st call in plain_call st call = (st', r).
Proof.
  destruct call as [msg|below now]; simpl.
  - pose proof (metered_handle_read_erased mt st msg) as H.
    destruct (metered_handle_read _ _ _) as [[? ?] ?]. by rewrite H.
  - pose proof (metered_poll_write_erased mt st below now) as H.
    destruct (metered_poll_write _ _ _ _) as [[[? ?] ?] ?]. by rewrite H.
Qed.

(** From counters that have room for the whole run. *)
Lemma metered_calls_counts calls : ∀ mt st,
  (∀ j, counter_sum (counter_of j mt) + Z.of_nat (length calls) < 2 ^ 64) →
  let '(mt', st', rs) := metered_calls mt st calls in
  plain_calls st calls = (st', rs) ∧
  ∀ j, counter_sum (counter_of j mt') = counter_sum (counter_of j mt) + Z.of_nat (counts st j calls).
Proof.
  induction calls as [|call calls IH]; intros mt st Hroom; simpl; [split; [done|intros; lia]|].
  pose proof (metered_call_erased mt st call) as Her. pose proof (metered_call_counts mt st call) as Hc.
  destruct (metered_call mt st call) as [[mt1 st1] r]. rewrite Her. simpl in *.
  assert (Hb : ∀ j, 0 ≤ bump (counted_as st call) j ≤ 1) by (intros j; unfold bump; case_decide; lia).
  specialize (IH mt1 st1). destruct (metered_calls mt1 st1 calls) as [[mt2 st2] rs].
  destruct IH as [-> IH].
  { intros j. specialize (Hroom j). specialize (Hb j). rewrite Hc by lia. lia. }
  split; [done|]. intros j. specialize (Hroom j). rewrite IH, Hc by lia.
  unfold bump. case_decide; lia.
Qed.

(** C28. The metrics are right and harmless: a run of fewer than 2^64 calls on
    the SRTP handler leaves the state and gives the results it would without
    metrics, and each of the six counters ends at the number of calls of its
    kind: datagrams handed on as decrypted RTP or RTCP, datagrams for a
    transport without a remote context, packets marshalled for a local
    context, packets for a transport without one. *)
Theorem srtp_metrics_account meter st calls :
  Z.of_nat (length calls) < 2 ^ 64 →
  let '(mt, st', results) := metered_calls (metrics_new meter) st calls in
  plain_calls st calls = (st', results) ∧
  ∀ k, counter_sum (counter_of k mt) = Z.of_nat (counts st k calls).
Proof.
  intros Hlen. pose proof (metered_calls_counts calls (metrics_new meter) st) as H.
  assert (H0 : ∀ k, counter_sum (counter_of k (metrics_new meter)) = 0)
    by (intros []; apply counter_init).
  destruct (metered_calls _ _ _) as [[mt st'] results]. destruct H as [Hp Hc].
  { intros k. by rewrite H0. }
  split; [done|]. intros k. by rewrite Hc, H0.
Qed.

(** A packet whose encryption fails is dropped, and counted as sent all the
    same, its processing time included. *)
Lemma failed_encryption_counted_out mt st msg p sid eid t c b e now :
  tm_message msg = Ev_Rtp (Rtp_Rtp p) →
  find_endpoint st (four_tuple_of (tm_transport msg)) = Some (sid, eid) →
  connection st sid eid (four_tuple_of (tm_transport msg)) = Some t →
  tr_local_srtp_context t = Some c → rtp_marshal p = Ok b → (encrypt_rtp c b).2 = Err e →
  counter_sum (rtp_packet_out_count mt) + 1 < 2 ^ 64 →
  let '(mt', _, (out, effs)) := metered_call mt st (Srtp_write (Some msg) now) in
  out = None ∧ effs = [FireException e] ∧
  counter_sum (rtp_packet_out_count mt') = counter_sum (rtp_packet_out_count mt) + 1 ∧
  gauge_last (rtp_packet_processing_time mt') = Some (processing_time now (tm_now msg)).
Proof.
  intros Hm Hf Hc Hl Hp He Hroom. simpl. unfold metered_poll_write, metered_try_write. rewrite Hm.
  rewrite (proj2 (get_mut_transport_connection st _ sid eid t)) by done.
  unfold metered_encrypt. rewrite Hl, Hp. destruct (encrypt_rtp c b) as [c' r]. simpl in He. subst r.
  simpl. rewrite counter_added, gauge_observed by lia. done.
Qed.

End laws.
End metered.
