(* ===== verification/DataChannel.v ===== *)
(** * Data channels (handlers/datachannel.rs)

    The DCEP layer: answers a DATA_CHANNEL_OPEN with an acknowledgement and
    turns SCTP messages into application messages and back. *)

From Stdlib Require Import ZArith Lia.
From stdpp Require Import base numbers list.
From S2P Require Import Prelude Types.

(** [datachannel::message::message_channel_open::ChannelType]. *)
Inductive ChannelType : Type :=
| Ch_Reliable
| Ch_ReliableUnordered
| Ch_PartialReliableRexmit
| Ch_PartialReliableRexmitUnordered
| Ch_PartialReliableTimed
| Ch_PartialReliableTimedUnordered.

(** The fields of [DataChannelOpen] the handler reads. *)
Record DataChannelOpen := { dco_channel_type : ChannelType; dco_reliability_parameter : Z }.

(** The parsers and the writer of the [datachannel] crate. *)
Class DcepOps := {
  (** [MessageType::unmarshal]: whether it is DATA_CHANNEL_OPEN, and the rest
      of the buffer. *)
  dcep_message_type : bytes → outcome (bool * bytes);
  dcep_open_unmarshal : bytes → outcome DataChannelOpen;
  (** [Message::DataChannelAck(DataChannelAck {}).marshal()]. *)
  dcep_ack_marshal : outcome bytes
}.

(** [get_reliability_params]. *)
Definition get_reliability_params (channel_type : ChannelType) : bool * ReliabilityType :=
  match channel_type with
  | Ch_Reliable => (false, Rel_Reliable)
  | Ch_ReliableUnordered => (true, Rel_Reliable)
  | Ch_PartialReliableRexmit => (false, Rel_Rexmit)
  | Ch_PartialReliableRexmitUnordered => (true, Rel_Rexmit)
  | Ch_PartialReliableTimed => (false, Rel_Timed)
  | Ch_PartialReliableTimedUnordered => (true, Rel_Timed)
  end.

Section datachannel.
Context `{T : ExtTypes} `{DO : DcepOps}.

(** [DataChannelHandler]: its queue. *)
Record DataChannelHandler := { dc_transmits : list TaggedMessageEvent }.
Definition datachannel_new : DataChannelHandler := {| dc_transmits := [] |}.

Definition dc_push (h : DataChannelHandler) (m : TaggedMessageEvent) : DataChannelHandler :=
  {| dc_transmits := dc_transmits h ++ [m] |}.

(** The closure [try_read] of [handle_read]. *)
Definition dc_try_read (message : DataChannelMessage)
  : outcome (option ApplicationMessage * option DataChannelMessage) :=
  let app e := {| am_association_handle := dcm_association_handle message;
                  am_stream_id := dcm_stream_id message; data_channel_event := e |} in
  if bool_decide (data_message_type message = DCM_Control) then
    p ← dcep_message_type (dcm_payload message);
    let '(is_open, buf) := (p : bool * bytes) in
    if is_open then
      open ← dcep_open_unmarshal buf;
      let '(unordered, reliability_type) := get_reliability_params (dco_channel_type open) in
      payload ← dcep_ack_marshal;
      Ok (Some (app DCE_Open),
          Some {| dcm_association_handle := dcm_association_handle message;
                  dcm_stream_id := dcm_stream_id message;
                  data_message_type := DCM_Control;
                  dcm_params := Some {| unordered := unordered;
                                        reliability_type := reliability_type;
                                        reliability_parameter := dco_reliability_parameter open |};
                  dcm_payload := payload |})
    else Ok (None, None)
  else Ok (Some (app (DCE_Message (dcm_payload message))), None).

(** [DataChannelHandler::handle_read]: first the outbound message is queued,
    then the inbound one is handed on. *)
Definition dc_handle_read (h : DataChannelHandler) (msg : TaggedMessageEvent)
  : DataChannelHandler * list Effect :=
  match tm_message msg with
  | Ev_Dtls (Dtls_Sctp message) =>
      match dc_try_read message with
      | Ok (inbound_message, outbound_message) =>
          let tagged e := {| tm_now := tm_now msg; tm_transport := tm_transport msg;
                             tm_message := Ev_Dtls e |} in
          (match outbound_message with
           | Some m => dc_push h (tagged (Dtls_Sctp m))
           | None => h
           end,
           match inbound_message with
           | Some m => [FireRead (tagged (Dtls_DataChannel m))]
           | None => []
           end)
      | Err e => (h, [FireException e])
      | Panic => (h, [])
      end
  | _ => (h, [FireRead msg])
  end.

(** What [poll_write] queues for a message from above: a text message, any
    other message as it is, nothing for another channel event. *)
Definition dc_outbound (msg : TaggedMessageEvent) : list TaggedMessageEvent :=
  match tm_message msg with
  | Ev_Dtls (Dtls_DataChannel message) =>
      match data_channel_event message with
      | DCE_Message payload =>
          [{| tm_now := tm_now msg; tm_transport := tm_transport msg;
              tm_message := Ev_Dtls (Dtls_Sctp
                {| dcm_association_handle := am_association_handle message;
                   dcm_stream_id := am_stream_id message;
                   data_message_type := DCM_Text; dcm_params := None;
                   dcm_payload := payload |}) |}]
      | _ => []
      end
  | _ => [msg]
  end.

(** [DataChannelHandler::poll_write]. *)
Definition dc_poll_write (h : DataChannelHandler) (below : option TaggedMessageEvent)
  : DataChannelHandler * option TaggedMessageEvent :=
  let q := dc_transmits h ++ match below with Some msg => dc_outbound msg | None => [] end in
  match q with
  | [] => ({| dc_transmits := [] |}, None)
  | m :: q => ({| dc_transmits := q |}, Some m)
  end.

(** ** Properties *)

(** Opening a channel: a DATA_CHANNEL_OPEN that parses queues exactly one
    acknowledgement, on the same association and stream and with the
    reliability the channel type asks for, and hands on exactly one open
    event. *)
Lemma datachannel_open_acknowledged h now tc m buf open ack :
  data_message_type m = DCM_Control →
  dcep_message_type (dcm_payload m) = Ok (true, buf) → dcep_open_unmarshal buf = Ok open →
  dcep_ack_marshal = Ok ack →
  let tagged e := {| tm_now := now; tm_transport := tc; tm_message := Ev_Dtls e |} in
  dc_handle_read h (tagged (Dtls_Sctp m)) =
    (dc_push h (tagged (Dtls_Sctp
       {| dcm_association_handle := dcm_association_handle m; dcm_stream_id := dcm_stream_id m;
          data_message_type := DCM_Control;
          dcm_params := Some
            {| unordered := (get_reliability_params (dco_channel_type open)).1;
               reliability_type := (get_reliability_params (dco_channel_type open)).2;
               reliability_parameter := dco_reliability_parameter open |};
          dcm_payload := ack |})),
     [FireRead (tagged (Dtls_DataChannel
        {| am_association_handle := dcm_association_handle m; am_stream_id := dcm_stream_id m;
           data_channel_event := DCE_Open |}))]).
Proof.
  intros Hc Ht Ho Ha. unfold dc_handle_read, dc_try_read. simpl.
  rewrite bool_decide_eq_true_2 by done. rewrite Ht. simpl. rewrite Ho. simpl.
  destruct (get_reliability_params _). rewrite Ha. done.
Qed.

(** The messages that leave the handler while the messages [ms] come from
    above, one per poll, and while it is then polled until [fuel] is spent. *)
Fixpoint dc_feed (h : DataChannelHandler) (ms : list TaggedMessageEvent)
  : DataChannelHandler * list TaggedMessageEvent :=
  match ms with
  | [] => (h, [])
  | m :: ms => let '(h, o) := dc_poll_write h (Some m) in
               let '(h, out) := dc_feed h ms in (h, option_list o ++ out)
  end.
Fixpoint dc_idle (h : DataChannelHandler) (fuel : nat) : list TaggedMessageEvent :=
  match fuel with
  | 0 => []
  | S fuel => let '(h, o) := dc_poll_write h None in option_list o ++ dc_idle h fuel
  end.

Lemma dc_idle_all h fuel : length (dc_transmits h) ≤ fuel → dc_idle h fuel = dc_transmits h.
Proof.
  revert h. induction fuel as [|fuel IH]; intros [q] Hq; simpl in *.
  { destruct q; [done|simpl in Hq; lia]. }
  unfold dc_poll_write. simpl. rewrite app_nil_r. destruct q as [|m q]; simpl.
  - by apply (IH {| dc_transmits := [] |}); simpl; lia.
  - f_equal. apply (IH {| dc_transmits := q |}). simpl in *. lia.
Qed.

Lemma dc_feed_queue ms h :
  (dc_feed h ms).2 ++ dc_transmits (dc_feed h ms).1 = dc_transmits h ++ flat_map dc_outbound ms ∧
  length (dc_transmits (dc_feed h ms).1) ≤ length (dc_transmits h) + length ms.
Proof.
  revert h. induction ms as [|m ms IH]; intros h; simpl.
  { rewrite app_nil_r. split; [done|lia]. }
  unfold dc_poll_write.
  assert (Hlen : length (dc_outbound m) ≤ 1).
  { unfold dc_outbound. repeat case_match; simpl; lia. }
  destruct (dc_transmits h ++ dc_outbound m) as [|x q] eqn:E.
  - apply app_eq_nil in E as [-> ->]. specialize (IH {| dc_transmits := [] |}).
    destruct (dc_feed {| dc_transmits := [] |} ms). simpl in *. destruct IH. split; [done|lia].
  - specialize (IH {| dc_transmits := q |}). destruct (dc_feed {| dc_transmits := q |} ms).
    simpl in *. destruct IH as [IH1 IH2]. rewrite IH1, app_assoc, E. split; [done|].
    apply (f_equal length) in E. rewrite length_app in E. simpl in E. lia.
Qed.

(** Nothing is lost, reordered or invented on the way out: polled once per
    message from above and then until it is empty, the handler emits its queue
    and then, for each message in turn, its text message, the message itself,
    or nothing for an event that is not a message. *)
Lemma datachannel_writes_in_order h ms fuel :
  length (dc_transmits h) + length ms ≤ fuel →
  (dc_feed h ms).2 ++ dc_idle (dc_feed h ms).1 fuel =
  dc_transmits h ++ flat_map dc_outbound ms.
Proof.
  intros Hf. destruct (dc_feed_queue ms h) as [Hq Hl]. rewrite dc_idle_all by lia. done.
Qed.

End datachannel.
