(* ===== verification/InterceptorHandler.v ===== *)
(** * The interceptor handler (handlers/interceptor.rs)

    Runs the interceptor chain of the endpoint a media message belongs to.
    RTCP ends here: only what a chain emits goes on. *)

From Stdlib Require Import ZArith Lia.
From stdpp Require Import base numbers strings fin_maps gmap list.
From S2P Require Import Prelude RustStr Enums Types Sdp Codec ReceiverStream.
From S2P Require Import Interceptors MediaParse MediaConfig Config Endpoint.
From S2P Require Import Description Session ServerStates Stable.

Section handler.
Context `{O : SdpOps} `{CO : !ConfigOps} `{TO : !TransportOps} `{RO : !RtpOps} `{HO : HashOrder}.
Implicit Types (st : ServerStates) (tc : TransportContext).

Record InterceptorHandler := { ih_transmits : list TaggedMessageEvent }.
Definition interceptor_handler_new : InterceptorHandler := {| ih_transmits := [] |}.

(** RTP or RTCP packets, as opposed to raw datagrams and other protocols. *)
Definition is_media (e : MessageEvent) : bool :=
  match e with Ev_Rtp (Rtp_Rtp _) | Ev_Rtp (Rtp_Rtcp _) => true | _ => false end.

(** A call on the interceptor of the endpoint of a four tuple. *)
Definition on_interceptor st tc (f : Interceptor → Interceptor * list InterceptorEvent)
  : ServerStates * outcome (list InterceptorEvent) :=
  match get_mut_endpoint st (four_tuple_of tc) with
  | Ok (sid, eid, e) =>
      let '(i, events) := f (ep_interceptor e) in
      (update_endpoint st sid eid (λ e, ep_with_interceptor e i), Ok events)
  | Err e => (st, Err e)
  | Panic => (st, Panic)
  end.

(** The outbound messages of a list of events. *)
Definition outbound_of (events : list InterceptorEvent) : list TaggedMessageEvent :=
  omap (λ e, match e with Outbound m => Some m | _ => None end) events.

(** What the events of a read make the handler fire. *)
Definition read_effects (events : list InterceptorEvent) : list Effect :=
  omap (λ e, match e with
             | Inbound m => Some (FireRead m)
             | Outbound _ => None
             | InterceptorError e => Some (FireException e)
             end) events.

(** What the events of a timeout or of a write make it fire: an inbound
    message is only logged. *)
Definition other_effects (events : list InterceptorEvent) : list Effect :=
  omap (λ e, match e with InterceptorError e => Some (FireException e) | _ => None end) events.

(** [InterceptorHandler::handle_read]. *)
Definition ih_handle_read (h : InterceptorHandler) st (msg : TaggedMessageEvent)
  : InterceptorHandler * ServerStates * list Effect :=
  if is_media (tm_message msg) then
    let '(st, r) := on_interceptor st (tm_transport msg) (λ i, interceptor_read i msg) in
    let '(h, effects) :=
      match r with
      | Ok events => ({| ih_transmits := ih_transmits h ++ outbound_of events |},
                      read_effects events)
      | Err e => (h, [FireException e])
      | Panic => (h, [])
      end in
    match tm_message msg with
    | Ev_Rtp (Rtp_Rtcp _) => (h, st, effects)
    | _ => (h, st, effects ++ [FireRead msg])
    end
  else (h, st, [FireRead msg]).

(** The loop of [handle_timeout] over the endpoints of a session.  The events
    are collected in the order of the iteration. *)
Definition ih_timeout_endpoint (now : Instant) (e : Endpoint) : Endpoint * list InterceptorEvent :=
  let '(i, events) :=
    interceptor_handle_timeout (ep_interceptor e) now (hm_keys (ep_transports e)) in
  (ep_with_interceptor e i, events).
Definition ih_timeout_session (now : Instant) (s : Session) : Session * list InterceptorEvent :=
  (ss_with_endpoints s ((λ e, (ih_timeout_endpoint now e).1) <$> ss_endpoints s),
   flat_map (λ e, (ih_timeout_endpoint now e).2) (hm_values (ss_endpoints s))).

(** [InterceptorHandler::handle_timeout], before [ctx.fire_timeout]. *)
Definition ih_handle_timeout (h : InterceptorHandler) st (now : Instant)
  : InterceptorHandler * ServerStates * list Effect :=
  let events := flat_map (λ s, (ih_timeout_session now s).2) (hm_values (st_sessions st)) in
  ({| ih_transmits := ih_transmits h ++ outbound_of events |},
   st_with_sessions st ((λ s, (ih_timeout_session now s).1) <$> st_sessions st),
   other_effects events).

(** [InterceptorHandler::poll_timeout], before [ctx.fire_poll_timeout]. *)
Definition ih_poll_timeout st (eto : Instant) : Instant :=
  foldl (λ eto s, foldl (λ eto e, interceptor_poll_timeout (ep_interceptor e) eto) eto
                    (hm_values (ss_endpoints s))) eto (hm_values (st_sessions st)).

(** [InterceptorHandler::poll_write]. *)
Definition ih_poll_write (h : InterceptorHandler) st (below : option TaggedMessageEvent)
  : InterceptorHandler * ServerStates * option TaggedMessageEvent * list Effect :=
  let '(q, st, effects) :=
    match below with
    | Some msg =>
        if is_media (tm_message msg) then
          let '(st, r) := on_interceptor st (tm_transport msg) (λ i, interceptor_write i msg) in
          match r with
          | Ok events => (ih_transmits h ++ outbound_of events ++ [msg], st, other_effects events)
          | Err e => (ih_transmits h ++ [msg], st, [FireException e])
          | Panic => (ih_transmits h, st, [])
          end
        else (ih_transmits h ++ [msg], st, [])
    | None => (ih_transmits h, st, [])
    end in
  match q with
  | [] => ({| ih_transmits := [] |}, st, None, effects)
  | m :: q => ({| ih_transmits := q |}, st, Some m, effects)
  end.

(** ** Properties *)

Section stable.
Context (P : ServerStates → Prop) `{SP : !Stable P}.

Lemma on_interceptor_stable st tc f :
  (∀ i, interceptor_step i (f i).1) → P st → P (on_interceptor st tc f).1.
Proof.
  intros Hf Hst. unfold on_interceptor.
  destruct (get_mut_endpoint st _) as [[[sid eid] e]|?|] eqn:E; try done.
  apply get_mut_endpoint_lookup in E as (_ & s & Hs & He). specialize (Hf (ep_interceptor e)).
  destruct (f (ep_interceptor e)) as [i events]. simpl. apply stable_interceptor; [|done].
  intros s' e' Hs' He'. simplify_eq. done.
Qed.

Lemma ih_handle_read_stable h st msg : P st → P (ih_handle_read h st msg).1.2.
Proof.
  intros Hst. unfold ih_handle_read. case_match; [|done].
  pose proof (on_interceptor_stable st (tm_transport msg) (λ i, interceptor_read i msg)
                (λ i, step_read i msg) Hst) as Hok.
  destruct (on_interceptor st _ _) as [st' r]. simpl in Hok.
  destruct r; repeat case_match; done.
Qed.

Lemma ih_poll_write_stable h st below : P st → P (ih_poll_write h st below).1.1.2.
Proof.
  intros Hst. unfold ih_poll_write. destruct below as [msg|]; [|by case_match].
  destruct (is_media (tm_message msg)); [|by case_match].
  pose proof (on_interceptor_stable st (tm_transport msg) (λ i, interceptor_write i msg)
                (λ i, step_write i msg) Hst) as Hok.
  destruct (on_interceptor st _ _) as [st' []]; by case_match.
Qed.

Lemma ih_handle_timeout_stable h st now : P st → P (ih_handle_timeout h st now).1.2.
Proof.
  intros Hst. unfold ih_handle_timeout. cbn [fst snd].
  set (g := λ e, (interceptor_handle_timeout (ep_interceptor e) now (hm_keys (ep_transports e))).1).
  assert (Hg : ∀ e, interceptor_step (ep_interceptor e) (g e)) by (intros e; apply step_timeout).
  pose proof (stable_interceptors st g Hg Hst) as H.
  replace ((λ s, (ih_timeout_session now s).1) <$> st_sessions st)
    with ((λ s, ss_with_endpoints s ((λ e, ep_with_interceptor e (g e)) <$> ss_endpoints s))
            <$> st_sessions st); [done|].
  apply map_fmap_ext. intros sid s _. unfold ih_timeout_session. simpl. f_equal.
  apply map_fmap_ext. intros eid e _. unfold ih_timeout_endpoint, g.
  by destruct (interceptor_handle_timeout _ _ _).
Qed.
End stable.

Lemma interceptor_events_from i msg m :
  Inbound m ∈ (interceptor_read i msg).2 → tm_transport m = tm_transport msg.
Proof.
  intros (ps & m' & _ & [= <-] & _ & Ht & _)%interceptor_read_events%sr_forward_spec. done.
Qed.

Lemma ih_fires_from h st msg : fires_from (tm_transport msg) (ih_handle_read h st msg).2.
Proof.
  unfold ih_handle_read. destruct (is_media (tm_message msg)); [|by repeat constructor].
  unfold on_interceptor.
  assert (Hone : ∀ l, fires_from (tm_transport msg) l → fires_from (tm_transport msg) (l ++ [FireRead msg])).
  { intros l Hl. apply Forall_app. split; [done|by repeat constructor]. }
  destruct (get_mut_endpoint st _) as [[[sid eid] e]|err|].
  - pose proof (interceptor_events_from (ep_interceptor e) msg) as Hev.
    destruct (interceptor_read (ep_interceptor e) msg) as [i events]. cbn [fst snd] in Hev.
    assert (Hr : fires_from (tm_transport msg) (read_effects events)).
    { apply Forall_forall. intros x (y & Hy & Hx)%list_elem_of_omap.
      destruct y; simplify_eq; [by apply Hev|done]. }
    destruct (tm_message msg) as [| |[]]; simpl; auto.
  - destruct (tm_message msg) as [| |[]]; simpl; repeat constructor.
  - destruct (tm_message msg) as [| |[]]; simpl; repeat constructor.
Qed.

(** RTCP terminates at the server: an RTCP message is never handed on
    itself; the next handler sees only what the interceptor chain of the
    sender's endpoint emits as inbound, and without an endpoint for the four
    tuple only an exception is raised. *)
Lemma rtcp_terminated h st msg ps :
  tm_message msg = Ev_Rtp (Rtp_Rtcp ps) →
  (ih_handle_read h st msg).2 =
    match get_mut_endpoint st (four_tuple_of (tm_transport msg)) with
    | Ok (_, _, e) => read_effects (interceptor_read (ep_interceptor e) msg).2
    | Err err => [FireException err]
    | Panic => []
    end.
Proof.
  intros Hm. unfold ih_handle_read, is_media. rewrite Hm. unfold on_interceptor.
  destruct (get_mut_endpoint st _) as [[[sid eid] e]|?|]; try done.
  by destruct (interceptor_read (ep_interceptor e) msg).
Qed.

(** RTP passes the interceptors: an RTP packet is always handed on
    unchanged, as the last call of the read, whatever the chain does and even
    when the four tuple is unknown. *)
Lemma rtp_passes_interceptors h st msg p :
  tm_message msg = Ev_Rtp (Rtp_Rtp p) →
  ∃ effects, (ih_handle_read h st msg).2 = effects ++ [FireRead msg].
Proof.
  intros Hm. unfold ih_handle_read, is_media. rewrite Hm.
  destruct (on_interceptor st _ _) as [st' [events|e|]];
    [by exists (read_effects events)|by exists [FireException e]|by exists []].
Qed.

End handler.
