(* ===== verification/Dtls.v ===== *)
(** * DTLS (handlers/dtls.rs)

    Feeds datagrams to the DTLS endpoint of their transport, installs the SRTP
    contexts when a handshake completes and closes the connection on a fatal
    alert.  A [while let] loop over the endpoint's queue runs with the fuel
    [dtls_pending], a bound on what the endpoint has queued. *)

From Stdlib Require Import ZArith Lia.
From stdpp Require Import base numbers strings fin_maps gmap list.
From S2P Require Import Prelude RustStr Enums Types Sdp Codec ReceiverStream.
From S2P Require Import Interceptors MediaParse MediaConfig Config Endpoint.
From S2P Require Import Description Session ServerStates Stable Gateway.

(** [dtls::endpoint::EndpointEvent]. *)
Inductive DtlsEvent : Type :=
| HandshakeComplete
| ApplicationData (b : bytes).

(** The profiles of [SrtpProtectionProfile] that the source names. *)
Inductive SrtpProtectionProfile : Type :=
| Srtp_Aes128_Cm_Hmac_Sha1_80
| Srtp_Aead_Aes_128_Gcm
| Srtp_Unsupported.

(** [srtp::protection_profile::ProtectionProfile]. *)
Inductive ProtectionProfile : Type :=
| Aes128CmHmacSha1_80
| AeadAes128Gcm.

(** The keys [extract_session_keys_from_dtls] fills in. *)
Record SrtpKeys := {
  local_master_key : bytes;
  local_master_salt : bytes;
  remote_master_key : bytes;
  remote_master_salt : bytes
}.

Section types.
Context `{T : ExtTypes}.

(** [dtls::endpoint::Transmit]. *)
Record DtlsTransmit := {
  dt_now : Instant;
  dt_remote : SocketAddr;
  dt_ecn : option EcnCodepoint;
  dt_payload : bytes
}.

End types.

Class DtlsOps `{T : ExtTypes} := {
  dtls_read : DtlsEndpoint → Instant → SocketAddr → IpAddr → option EcnCodepoint → bytes →
    DtlsEndpoint * outcome (list DtlsEvent);
  dtls_connection_state : DtlsEndpoint → SocketAddr → option DtlsState;
  dtls_poll_transmit : DtlsEndpoint → DtlsEndpoint * option DtlsTransmit;
  dtls_write : DtlsEndpoint → SocketAddr → bytes → DtlsEndpoint * outcome ();
  dtls_handle_timeout : DtlsEndpoint → SocketAddr → Instant → DtlsEndpoint;
  dtls_poll_timeout : DtlsEndpoint → SocketAddr → Instant → Instant;
  dtls_connections_keys : DtlsEndpoint → list SocketAddr;
  dtls_pending : DtlsEndpoint → nat;
  (** [State::srtp_protection_profile] and the key extraction of the [srtp]
      crate. *)
  dtls_srtp_profile : DtlsState → SrtpProtectionProfile;
  srtp_extract_keys : DtlsState → outcome SrtpKeys;
  (** [srtp::context::Context::new]; a replay window of [None] stands for the
      default option of [srtp::config::Config], which is [None]. *)
  srtp_context_new : bytes → bytes → ProtectionProfile → option Z → option Z →
    outcome SrtpContext
}.

(** An endpoint queues finitely many datagrams. *)
Class DtlsLaws `{DO : DtlsOps} := {
  dtls_pending_dec e e' t : dtls_poll_transmit e = (e', Some t) → dtls_pending e' < dtls_pending e
}.

Definition DEFAULT_SESSION_SRTP_REPLAY_PROTECTION_WINDOW : Z := 64.
Definition DEFAULT_SESSION_SRTCP_REPLAY_PROTECTION_WINDOW : Z := 64.

Section dtls.
Context `{O : SdpOps} `{CO : !ConfigOps} `{TO : !TransportOps} `{DO : !DtlsOps} `{HO : HashOrder}.
Implicit Types (st : ServerStates) (tc : TransportContext).

Record DtlsHandler := { dh_local_addr : SocketAddr; dh_transmits : list TaggedMessageEvent }.
Definition dtls_handler_new (addr : SocketAddr) : DtlsHandler :=
  {| dh_local_addr := addr; dh_transmits := [] |}.

(** [DtlsHandler::update_srtp_contexts]. *)
Definition update_srtp_contexts (state : DtlsState) : outcome (SrtpContext * SrtpContext) :=
  profile ← match dtls_srtp_profile state with
            | Srtp_Aes128_Cm_Hmac_Sha1_80 => Ok Aes128CmHmacSha1_80
            | Srtp_Aead_Aes_128_Gcm => Ok AeadAes128Gcm
            | Srtp_Unsupported => Err ErrNoSuchSrtpProfile
            end;
  keys ← srtp_extract_keys state;
  local_context ← srtp_context_new (local_master_key keys) (local_master_salt keys) profile
                    None None;
  remote_context ← srtp_context_new (remote_master_key keys) (remote_master_salt keys) profile
                     (Some DEFAULT_SESSION_SRTP_REPLAY_PROTECTION_WINDOW)
                     (Some DEFAULT_SESSION_SRTCP_REPLAY_PROTECTION_WINDOW);
  Ok (local_context, remote_context).

(** The tagged message for a datagram of the endpoint. *)
Definition dtls_transmit_message (h : DtlsHandler) (t : DtlsTransmit) : TaggedMessageEvent :=
  {| tm_now := dt_now t;
     tm_transport := {| tc_local_addr := dh_local_addr h; tc_peer_addr := dt_remote t;
                        tc_ecn := dt_ecn t |};
     tm_message := Ev_Dtls (Dtls_Raw (dt_payload t)) |}.
Definition dh_push (h : DtlsHandler) (ms : list TaggedMessageEvent) : DtlsHandler :=
  {| dh_local_addr := dh_local_addr h; dh_transmits := dh_transmits h ++ ms |}.

(** [while let Some(transmit) = dtls_endpoint.poll_transmit()]. *)
Definition dtls_drain (e : DtlsEndpoint) : DtlsEndpoint * list DtlsTransmit :=
  drain dtls_poll_transmit (S (dtls_pending e)) e.

(** The loop over the events of [dtls_endpoint.read]: the application data and
    the pairs of contexts. *)
Definition dtls_events (e : DtlsEndpoint) (peer : SocketAddr) (events : list DtlsEvent)
  : outcome (list bytes * list (SrtpContext * SrtpContext)) :=
  foldO (λ acc event,
           match event with
           | HandshakeComplete =>
               match dtls_connection_state e peer with
               | Some state => c ← update_srtp_contexts state; Ok (acc.1, acc.2 ++ [c])
               | None => Ok acc
               end
           | ApplicationData message => Ok (acc.1 ++ [message], acc.2)
           end) ([], []) events.

(** Installing the contexts, the last pair wins. *)
Definition set_contexts (t : Transport) (contexts : list (SrtpContext * SrtpContext))
  : Transport :=
  foldl (λ t c, set_remote_srtp_context (set_local_srtp_context t c.1) c.2) t contexts.

(** The closure [try_read] of [handle_read]: the handler, the state and the
    application data. *)
Definition dtls_try_read (h : DtlsHandler) st (now : Instant) tc (message : bytes)
  : DtlsHandler * ServerStates * outcome (list bytes) :=
  let ft := four_tuple_of tc in
  match get_mut_transport st ft with
  | Ok (sid, eid, t) =>
      let '(e, r) := dtls_read (tr_dtls_endpoint t) now (tc_peer_addr tc)
                       (addr_ip (tc_local_addr tc)) (tc_ecn tc) message in
      match (events ← r; dtls_events e (tc_peer_addr tc) events) with
      | Ok (messages, contexts) =>
          let '(e, transmits) := dtls_drain e in
          (dh_push h (map (dtls_transmit_message h) transmits),
           update_transport st sid eid ft (λ t, set_contexts (set_dtls_endpoint t e) contexts),
           Ok messages)
      | Err err => (h, update_transport st sid eid ft (λ t, set_dtls_endpoint t e), Err err)
      | Panic => (h, update_transport st sid eid ft (λ t, set_dtls_endpoint t e), Panic)
      end
  | Err e => (h, st, Err e)
  | Panic => (h, st, Panic)
  end.

(** [DtlsHandler::handle_read]. *)
Definition dtls_handle_read (h : DtlsHandler) st (msg : TaggedMessageEvent)
  : DtlsHandler * ServerStates * list Effect :=
  match tm_message msg with
  | Ev_Dtls (Dtls_Raw dtls_message) =>
      match dtls_try_read h st (tm_now msg) (tm_transport msg) dtls_message with
      | (h, st, Ok messages) =>
          (h, st, map (λ m, FireRead {| tm_now := tm_now msg; tm_transport := tm_transport msg;
                                        tm_message := Ev_Dtls (Dtls_Raw m) |}) messages)
      | (h, st, Err e) =>
          if bool_decide (e = ErrAlertFatalOrClose)
          then (h, st_remove_transport st (four_tuple_of (tm_transport msg)), [])
          else (h, st, [FireException e])
      | (h, st, Panic) => (h, st, [])
      end
  | _ => (h, st, [FireRead msg])
  end.

(** The body of [handle_timeout] for one transport. *)
Definition dtls_timeout_transport (now : Instant) (t : Transport)
  : Transport * list DtlsTransmit :=
  let e := foldl (λ e remote, dtls_handle_timeout e remote now) (tr_dtls_endpoint t)
             (dtls_connections_keys (tr_dtls_endpoint t)) in
  let '(e, transmits) := dtls_drain e in
  (set_dtls_endpoint t e, transmits).

(** [DtlsHandler::handle_timeout], before [ctx.fire_timeout]; it never fails. *)
Definition dtls_handler_timeout (h : DtlsHandler) st (now : Instant)
  : DtlsHandler * ServerStates :=
  (dh_push h (map (dtls_transmit_message h)
                (flat_map (λ t, (dtls_timeout_transport now t).2) (all_transports st))),
   map_transports (λ t, (dtls_timeout_transport now t).1) st).

(** [DtlsHandler::poll_timeout], before [ctx.fire_poll_timeout]. *)
Definition dtls_handler_poll_timeout st (eto : Instant) : Instant :=
  foldl (λ eto t, foldl (λ eto remote, dtls_poll_timeout (tr_dtls_endpoint t) remote eto) eto
                    (dtls_connections_keys (tr_dtls_endpoint t)))
        eto (all_transports st).

(** The closure [try_write] of [poll_write]. *)
Definition dtls_try_write (h : DtlsHandler) st tc (message : bytes)
  : DtlsHandler * ServerStates * outcome () :=
  let ft := four_tuple_of tc in
  match get_mut_transport st ft with
  | Ok (sid, eid, t) =>
      match dtls_write (tr_dtls_endpoint t) (tc_peer_addr tc) message with
      | (e, Ok _) =>
          let '(e, transmits) := dtls_drain e in
          (dh_push h (map (dtls_transmit_message h) transmits),
           update_transport st sid eid ft (λ t, set_dtls_endpoint t e), Ok ())
      | (e, Err err) => (h, update_transport st sid eid ft (λ t, set_dtls_endpoint t e), Err err)
      | (e, Panic) => (h, update_transport st sid eid ft (λ t, set_dtls_endpoint t e), Panic)
      end
  | Err e => (h, st, Err e)
  | Panic => (h, st, Panic)
  end.

(** [self.transmits.pop_front()]. *)
Definition dh_pop (h : DtlsHandler) : DtlsHandler * option TaggedMessageEvent :=
  match dh_transmits h with
  | [] => (h, None)
  | m :: q => ({| dh_local_addr := dh_local_addr h; dh_transmits := q |}, Some m)
  end.

(** [DtlsHandler::poll_write]. *)
Definition dtls_poll_write (h : DtlsHandler) st (below : option TaggedMessageEvent)
  : DtlsHandler * ServerStates * option TaggedMessageEvent * list Effect :=
  let '(h, st, effects) :=
    match below with
    | Some msg =>
        match tm_message msg with
        | Ev_Dtls (Dtls_Raw dtls_message) =>
            match dtls_try_write h st (tm_transport msg) dtls_message with
            | (h, st, Err e) => (h, st, [FireException e])
            | (h, st, _) => (h, st, [])
            end
        | _ => (dh_push h [msg], st, [])
        end
    | None => (h, st, [])
    end in
  let '(h, o) := dh_pop h in (h, st, o, effects).

(** ** Properties *)

Lemma set_contexts_frame t cs :
  tr_four_tuple (set_contexts t cs) = tr_four_tuple t ∧
  tr_candidate (set_contexts t cs) = tr_candidate t ∧
  tr_last_activity (set_contexts t cs) = tr_last_activity t ∧
  association_handle_and_stream_id (set_contexts t cs) = association_handle_and_stream_id t ∧
  tr_dtls_endpoint (set_contexts t cs) = tr_dtls_endpoint t.
Proof. revert t. induction cs as [|c cs IH]; intros t; simpl; [done|].
  apply (IH (set_remote_srtp_context (set_local_srtp_context t c.1) c.2)).
Qed.

Lemma set_contexts_last t cs l r :
  tr_local_srtp_context (set_contexts t (cs ++ [(l, r)])) = Some l ∧
  tr_remote_srtp_context (set_contexts t (cs ++ [(l, r)])) = Some r.
Proof. unfold set_contexts. by rewrite foldl_app. Qed.

Lemma set_contexts_activity e cs : keeps_activity (λ t, set_contexts (set_dtls_endpoint t e) cs).
Proof.
  split; intros t; destruct (set_contexts_frame (set_dtls_endpoint t e) cs) as (H1 & H2 & H3 & H4 & _);
    [by rewrite H1, H2|by rewrite H3|by rewrite H4].
Qed.

Lemma set_dtls_activity e : keeps_activity (λ t, set_dtls_endpoint t e).
Proof. done. Qed.

#[local] Hint Resolve set_contexts_activity set_dtls_activity : sfu.

Section stable.
Context `{RO : !RtpOps} (P : ServerStates → Prop) `{SP : !Stable P}.

Lemma dtls_handle_read_stable `{RP : !Removable P} h st msg :
  P st → P (dtls_handle_read h st msg).1.2.
Proof.
  intros Hst. unfold dtls_handle_read. destruct (tm_message msg) as [|[b| |]|]; try done.
  assert (H : P (dtls_try_read h st (tm_now msg) (tm_transport msg) b).1.2).
  { unfold dtls_try_read. destruct (get_mut_transport st _) as [[[sid eid] t]|e|]; try done.
    destruct (dtls_read _ _ _ _ _ _) as [e r].
    destruct (events ← r; dtls_events e _ events) as [[ms cs]|err|]; [destruct (dtls_drain e)|..];
      simpl; apply stable_transport; auto with sfu. }
  destruct (dtls_try_read h st _ _ b) as [[h' st'] [ms|e|]]; simpl in *; try done.
  case_bool_decide; [by apply stable_remove|done].
Qed.

Lemma dtls_poll_write_stable h st below : P st → P (dtls_poll_write h st below).1.1.2.
Proof.
  intros Hst. unfold dtls_poll_write.
  assert (Hpop : ∀ (x : DtlsHandler * ServerStates * list Effect), P x.1.2 →
    P (let '(h, st, effects) := x in
       let '(h, o) := dh_pop h in (h, st, o, effects)).1.1.2).
  { intros [[h0 st0] effs] H0. by destruct (dh_pop h0). }
  apply Hpop. destruct below as [msg|]; [|done].
  destruct (tm_message msg) as [|[b| |]|]; try done. unfold dtls_try_write.
  destruct (get_mut_transport st _) as [[[sid eid] t]|e|]; try done.
  destruct (dtls_write _ _ _) as [e [u|err|]]; [destruct (dtls_drain e)|..]; simpl;
    apply stable_transport; auto with sfu.
Qed.

Lemma dtls_handler_timeout_stable h st now : P st → P (dtls_handler_timeout h st now).2.
Proof.
  apply stable_transports. split; intros t; unfold dtls_timeout_transport;
    by destruct (dtls_drain _).
Qed.
End stable.

Lemma dtls_fires_from h st msg : fires_from (tm_transport msg) (dtls_handle_read h st msg).2.
Proof.
  unfold dtls_handle_read. destruct (tm_message msg) as [|[b| |]|]; try by repeat constructor.
  destruct (dtls_try_read h st _ _ b) as [[h' st'] [ms|e|]]; simpl; [|case_bool_decide|];
    try by repeat constructor.
  apply Forall_forall. intros x (m & -> & _)%list_elem_of_fmap_1. done.
Qed.

(** The application data among the events. *)
Definition application_data (events : list DtlsEvent) : list bytes :=
  omap (λ e, match e with ApplicationData b => Some b | HandshakeComplete => None end) events.

(** The events of an endpoint whose connection state yields contexts. *)
Lemma dtls_events_ok e peer state c events :
  dtls_connection_state e peer = Some state → update_srtp_contexts state = Ok c →
  ∃ n, dtls_events e peer events = Ok (application_data events, replicate n c) ∧
       (HandshakeComplete ∈ events → n ≠ 0).
Proof.
  intros Hs Hc. unfold dtls_events. induction events as [|ev events IH] using rev_ind.
  { exists 0. split; [done|]. by intros ?%not_elem_of_nil. }
  destruct IH as (n & Hn & Hz). unfold application_data. rewrite foldO_app, Hn, omap_app.
  destruct ev as [|b]; simpl.
  - rewrite Hs, Hc. simpl. exists (S n). rewrite app_nil_r, replicate_S_end. done.
  - exists n. split; [done|]. rewrite elem_of_app, list_elem_of_singleton. intros [H|H]; [auto|done].
Qed.

(** C24. A completed handshake opens the media path: when the DTLS endpoint of a
    connected transport reports it for a state with a supported profile, the
    transport gets the two SRTP contexts derived from that state, all
    application data of the datagram is handed on in order and nothing else,
    and every datagram the endpoint had queued is queued for sending. *)
Theorem dtls_handshake_installs_contexts `{DL : !DtlsLaws} h st now tc b sid eid t e events
    state l r h' st' effects :
  find_endpoint st (four_tuple_of tc) = Some (sid, eid) →
  connection st sid eid (four_tuple_of tc) = Some t →
  dtls_read (tr_dtls_endpoint t) now (tc_peer_addr tc) (addr_ip (tc_local_addr tc)) (tc_ecn tc) b
    = (e, Ok events) →
  HandshakeComplete ∈ events →
  dtls_connection_state e (tc_peer_addr tc) = Some state →
  update_srtp_contexts state = Ok (l, r) →
  dtls_handle_read h st {| tm_now := now; tm_transport := tc; tm_message := Ev_Dtls (Dtls_Raw b) |}
    = (h', st', effects) →
  ∃ t', connection st' sid eid (four_tuple_of tc) = Some t' ∧
    tr_local_srtp_context t' = Some l ∧ tr_remote_srtp_context t' = Some r ∧
    (∃ e0, dtls_poll_transmit e0 = (tr_dtls_endpoint t', None)) ∧
    dh_transmits h' = dh_transmits h ++ map (dtls_transmit_message h) (dtls_drain e).2 ∧
    effects = map (λ m, FireRead {| tm_now := now; tm_transport := tc;
                                    tm_message := Ev_Dtls (Dtls_Raw m) |}) (application_data events).
Proof.
  intros Hf Hc Hr Hin Hs Hu H. unfold dtls_handle_read, dtls_try_read in H.
  cbn [tm_message tm_now tm_transport] in H.
  rewrite (proj2 (get_mut_transport_connection st _ sid eid t)) in H by done.
  rewrite Hr in H. cbn [mbind outcome_bind] in H.
  destruct (dtls_events_ok e (tc_peer_addr tc) state (l, r) events Hs Hu) as (n & Hev & Hn).
  rewrite Hev in H. destruct (drain_complete dtls_poll_transmit dtls_pending dtls_pending_dec
    (S (dtls_pending e)) e) as [e0 He0]; [lia|].
  unfold dtls_drain in *. destruct (drain _ _ e) as [e1 ts] eqn:Ed. simpl in He0.
  injection H as <- <- <-. rewrite connection_update_transport, decide_True, Hc by done. simpl.
  eexists. split; [done|]. destruct n as [|n]; [by destruct (Hn Hin)|]. rewrite replicate_S_end.
  destruct (set_contexts_last (set_dtls_endpoint t e1) (replicate n (l, r)) l r) as [-> ->].
  destruct (set_contexts_frame (set_dtls_endpoint t e1) (replicate n (l, r) ++ [(l, r)]))
    as (_ & _ & _ & _ & ->). eauto 6.
Qed.

(** C25. A fatal alert closes the connection: when the DTLS endpoint of a
    connected transport answers a datagram with the error for a fatal or
    closing alert, exactly that connection is removed and every other one
    stays, nothing is sent, handed on or reported, and the server changes as
    [connection_closed] says: the candidate of the connection is dropped and no
    other, and only with its last transport go the endpoint and the table entry
    of the four tuple, and with its last endpoint the session. *)
Theorem dtls_alert_closes_connection h st now tc b sid eid t e h' st' effects :
  find_endpoint st (four_tuple_of tc) = Some (sid, eid) →
  connection st sid eid (four_tuple_of tc) = Some t →
  dtls_read (tr_dtls_endpoint t) now (tc_peer_addr tc) (addr_ip (tc_local_addr tc)) (tc_ecn tc) b
    = (e, Err ErrAlertFatalOrClose) →
  dtls_handle_read h st {| tm_now := now; tm_transport := tc; tm_message := Ev_Dtls (Dtls_Raw b) |}
    = (h', st', effects) →
  h' = h ∧ effects = [] ∧
  connection_closed st sid eid (four_tuple_of tc) t st' ∧
  ∀ sid' eid' ft, connection st' sid' eid' ft =
    if decide (sid' = sid ∧ eid' = eid ∧ ft = four_tuple_of tc) then None
    else connection st sid' eid' ft.
Proof.
  intros Hf Hc Hr H. unfold dtls_handle_read, dtls_try_read in H.
  cbn [tm_message tm_now tm_transport] in H.
  rewrite (proj2 (get_mut_transport_connection st _ sid eid t)) in H by done.
  rewrite Hr in H. cbn [mbind outcome_bind] in H.
  rewrite bool_decide_eq_true_2 in H by done.
  injection H as <- <- <-. rewrite (remove_updated_transport st _ sid eid t) by done.
  split_and!; [done|done|by apply remove_transport_closed|].
  intros sid' eid' ft. rewrite connection_removed, Hf.
  repeat case_decide; destruct_and?; simplify_eq; naive_solver.
Qed.

End dtls.
