(* ===== verification/Sctp.v ===== *)
(** * SCTP (handlers/sctp.rs)

    Feeds decrypted datagrams to the SCTP endpoint of their transport, hands
    on the messages of readable streams and sends data channel messages.  The
    [while let] loops run with the fuel [assoc_pending], a bound on what the
    association has queued. *)

From Stdlib Require Import ZArith Lia.
From stdpp Require Import base numbers strings fin_maps gmap list.
From S2P Require Import Prelude RustStr Enums Types Sdp Codec ReceiverStream.
From S2P Require Import Interceptors MediaParse MediaConfig Config Endpoint.
From S2P Require Import Description Session ServerStates Stable Gateway.

(** [sctp::PayloadProtocolIdentifier]. *)
Inductive PayloadProtocolIdentifier : Type :=
| Ppi_Dcep
| Ppi_String
| Ppi_Binary
| Ppi_StringEmpty
| Ppi_BinaryEmpty
| Ppi_Unknown.

(** [to_data_message_type]. *)
Definition to_data_message_type (ppid : PayloadProtocolIdentifier) : DataChannelMessageType :=
  match ppid with
  | Ppi_Dcep => DCM_Control
  | Ppi_String | Ppi_StringEmpty => DCM_Text
  | Ppi_Binary | Ppi_BinaryEmpty => DCM_Binary
  | Ppi_Unknown => DCM_None
  end.

(** [to_ppid]. *)
Definition to_ppid (message_type : DataChannelMessageType) (length : nat)
  : PayloadProtocolIdentifier :=
  match message_type with
  | DCM_Text => if Nat.ltb 0 length then Ppi_String else Ppi_StringEmpty
  | DCM_Binary => if Nat.ltb 0 length then Ppi_Binary else Ppi_BinaryEmpty
  | _ => Ppi_Dcep
  end.

(** [sctp::Payload]. *)
Inductive Payload : Type :=
| RawEncode (contents : list bytes)
| PartialDecode.

Section types.
Context `{T : ExtTypes}.

(** [sctp::Transmit]. *)
Record Transmit := {
  sx_now : Instant;
  sx_remote : SocketAddr;
  sx_payload : Payload;
  sx_ecn : option EcnCodepoint;
  sx_local_ip : option IpAddr
}.

(** [sctp::DatagramEvent]. *)
Inductive DatagramEvent : Type :=
| NewAssociation (conn : SctpAssociation)
| AssociationEvent (event : SctpAssociationEvent).

(** [SctpMessage]. *)
Inductive SctpMessage : Type :=
| Sctp_Inbound (m : DataChannelMessage)
| Sctp_Outbound (t : Transmit).

End types.

(** [sctp::Event], with the one variant the handler looks at. *)
Inductive SctpEvent : Type :=
| StreamReadable (id : Z)
| OtherEvent.

Class SctpOps `{T : ExtTypes} := {
  sctp_handle : SctpEndpoint → Instant → SocketAddr → IpAddr → option EcnCodepoint → bytes →
    SctpEndpoint * option (Z * DatagramEvent);
  sctp_handle_event : SctpEndpoint → Z → SctpEndpointEvent → SctpEndpoint;
  assoc_handle_event : SctpAssociation → SctpAssociationEvent → SctpAssociation;
  assoc_handle_timeout : SctpAssociation → Instant → SctpAssociation;
  assoc_poll : SctpAssociation → SctpAssociation * option SctpEvent;
  assoc_poll_endpoint_event : SctpAssociation → SctpAssociation * option SctpEndpointEvent;
  assoc_poll_transmit : Instant → SctpAssociation → SctpAssociation * option Transmit;
  assoc_poll_timeout : SctpAssociation → option Instant;
  (** [conn.stream(id)], then [read_sctp], [set_reliability_params] and
      [write_with_ppi] on the stream. *)
  assoc_stream : SctpAssociation → Z → outcome ();
  stream_read_sctp : SctpAssociation → Z → SctpAssociation * outcome (option SctpChunks);
  stream_set_reliability : SctpAssociation → Z → bool → ReliabilityType → Z →
    SctpAssociation * outcome ();
  stream_write_with_ppi : SctpAssociation → Z → bytes → PayloadProtocolIdentifier →
    SctpAssociation * outcome Z;
  (** [chunks.read(&mut buffer)] into a buffer of the given size: the bytes it
      wrote. *)
  chunks_read : SctpChunks → Z → outcome bytes;
  chunks_ppi : SctpChunks → PayloadProtocolIdentifier;
  assoc_pending : SctpAssociation → nat
}.

(** An association queues finitely many events, chunks and datagrams. *)
Class SctpLaws `{SO : SctpOps} := {
  assoc_poll_dec c c' x : assoc_poll c = (c', Some x) → assoc_pending c' < assoc_pending c;
  assoc_read_dec c c' id x :
    stream_read_sctp c id = (c', Ok (Some x)) → assoc_pending c' < assoc_pending c;
  assoc_read_le c c' id r :
    stream_read_sctp c id = (c', r) → assoc_pending c' ≤ assoc_pending c;
  assoc_transmit_dec now c c' x :
    assoc_poll_transmit now c = (c', Some x) → assoc_pending c' < assoc_pending c;
  assoc_endpoint_event_dec c c' x :
    assoc_poll_endpoint_event c = (c', Some x) → assoc_pending c' < assoc_pending c
}.

Section sctp.
Context `{O : SdpOps} `{CO : !ConfigOps} `{TO : !TransportOps} `{SO : !SctpOps} `{HO : HashOrder}.
Implicit Types (st : ServerStates) (tc : TransportContext).

Record SctpHandler := {
  sh_local_addr : SocketAddr;
  sh_buffer_len : Z;
  sh_transmits : list TaggedMessageEvent
}.

(** [SctpHandler::new]: the buffer has the size of the largest message. *)
Definition sctp_handler_new (addr : SocketAddr) st : SctpHandler :=
  {| sh_local_addr := addr;
     sh_buffer_len := sctp_max_message_size (sctp_server_config (st_server_config st));
     sh_transmits := [] |}.

(** [split_transmit]. *)
Definition split_transmit (transmit : Transmit) : list Transmit :=
  match sx_payload transmit with
  | RawEncode contents =>
      map (λ content, {| sx_now := sx_now transmit; sx_remote := sx_remote transmit;
                         sx_payload := RawEncode [content]; sx_ecn := sx_ecn transmit;
                         sx_local_ip := sx_local_ip transmit |}) contents
  | PartialDecode => []
  end.

(** The tagged messages for a transmit. *)
Definition sctp_transmit_messages (h : SctpHandler) (t : Transmit) : list TaggedMessageEvent :=
  match sx_payload t with
  | RawEncode raw_data =>
      map (λ raw, {| tm_now := sx_now t;
                     tm_transport := {| tc_local_addr := sh_local_addr h;
                                        tc_peer_addr := sx_remote t; tc_ecn := sx_ecn t |};
                     tm_message := Ev_Dtls (Dtls_Raw raw) |}) raw_data
  | PartialDecode => []
  end.
Definition sh_push (h : SctpHandler) (ms : list TaggedMessageEvent) : SctpHandler :=
  {| sh_local_addr := sh_local_addr h; sh_buffer_len := sh_buffer_len h;
     sh_transmits := sh_transmits h ++ ms |}.

(** [while let Some(chunks) = stream.read_sctp()?]. *)
Fixpoint read_chunks (buffer_len ch id : Z) (fuel : nat)
  : M SctpAssociation (list DataChannelMessage) :=
  match fuel with
  | 0 => mret []
  | S fuel =>
      chunks ← tryS (λ c, stream_read_sctp c id);
      match chunks with
      | Some chunks =>
          payload ← liftO (chunks_read chunks buffer_len);
          rest ← read_chunks buffer_len ch id fuel;
          mret ({| dcm_association_handle := ch; dcm_stream_id := id;
                   data_message_type := to_data_message_type (chunks_ppi chunks);
                   dcm_params := None; dcm_payload := payload |} :: rest)
      | None => mret []
      end
  end.

(** [while let Some(event) = conn.poll()]. *)
Fixpoint poll_events (buffer_len ch : Z) (fuel : nat)
  : M SctpAssociation (list DataChannelMessage) :=
  match fuel with
  | 0 => mret []
  | S fuel =>
      event ← callS assoc_poll;
      match event with
      | Some (StreamReadable id) =>
          c ← getS;
          _ ← liftO (assoc_stream c id);
          ms ← read_chunks buffer_len ch id (S (assoc_pending c));
          rest ← poll_events buffer_len ch fuel;
          mret (ms ++ rest)
      | Some OtherEvent => poll_events buffer_len ch fuel
      | None => mret []
      end
  end.

(** The two drains at the end of an association's turn: its endpoint events
    and its datagrams. *)
Definition drain_association (now : Instant) (c : SctpAssociation)
  : SctpAssociation * (list SctpEndpointEvent * list Transmit) :=
  let '(c, events) := drain assoc_poll_endpoint_event (S (assoc_pending c)) c in
  let '(c, xs) := drain (assoc_poll_transmit now) (S (assoc_pending c)) c in
  (c, (events, flat_map split_transmit xs)).

(** The turn of association [ch] in [handle_read]: the messages, and the
    endpoint events with their association. *)
Definition read_association (buffer_len : Z) (now : Instant)
    (event : option (Z * SctpAssociationEvent)) (ch : Z)
  : M SctpAssociation (list SctpMessage * list (Z * SctpEndpointEvent)) :=
  _ ← modifyS (λ c, match event with
                    | Some (event_ch, ev) =>
                        if (ch =? event_ch)%Z then assoc_handle_event c ev else c
                    | None => c
                    end);
  c ← getS;
  inbound ← poll_events buffer_len ch (S (assoc_pending c));
  drained ← callS (drain_association now);
  mret (map Sctp_Inbound inbound ++ map Sctp_Outbound drained.2, map (pair ch) drained.1).

(** A method on the association stored under [ch]. *)
Definition on_association {A} (ch : Z) (m : M SctpAssociation A)
  : M (gmap Z SctpAssociation) A := λ as_,
  match as_ !! ch with
  | Some c => let '(c, r) := m c in (<[ch := c]> as_, r)
  | None => (as_, Panic)
  end.

(** [for (ch, event) in endpoint_events]. *)
Definition handle_endpoint_events (e : SctpEndpoint) (as_ : gmap Z SctpAssociation)
    (events : list (Z * SctpEndpointEvent)) : SctpEndpoint * gmap Z SctpAssociation :=
  foldl (λ p ev, (sctp_handle_event p.1 ev.1 ev.2, delete ev.1 p.2)) (e, as_) events.

(** The body of [try_read] on one transport. *)
Definition sctp_read_transport (buffer_len : Z) (now : Instant) tc (message : bytes)
    (t : Transport) : Transport * outcome (list SctpMessage) :=
  let '(e, r) := sctp_handle (tr_sctp_endpoint t) now (tc_peer_addr tc)
                   (addr_ip (tc_local_addr tc)) (tc_ecn tc) message in
  let '(as_, event) :=
    match r with
    | Some (ch, NewAssociation conn) => (<[ch := conn]> (tr_sctp_associations t), None)
    | Some (ch, AssociationEvent ev) => (tr_sctp_associations t, Some (ch, ev))
    | None => (tr_sctp_associations t, None)
    end in
  let '(as_, r) :=
    collectM (hm_keys as_) (λ ch, on_association ch (read_association buffer_len now event ch))
      as_ in
  match r with
  | Ok results =>
      let '(e, as_) := handle_endpoint_events e as_ (flat_map snd results) in
      (set_sctp t e as_, Ok (flat_map fst results))
  | Err err => (set_sctp t e as_, Err err)
  | Panic => (set_sctp t e as_, Panic)
  end.

(** What [handle_read] does with the messages. *)
Definition sctp_read_effects (msg : TaggedMessageEvent) (ms : list SctpMessage) : list Effect :=
  omap (λ m, match m with
             | Sctp_Inbound m =>
                 Some (FireRead {| tm_now := tm_now msg; tm_transport := tm_transport msg;
                                   tm_message := Ev_Dtls (Dtls_Sctp m) |})
             | Sctp_Outbound _ => None
             end) ms.
Definition sctp_read_transmits (h : SctpHandler) (ms : list SctpMessage)
  : list TaggedMessageEvent :=
  flat_map (λ m, match m with
                 | Sctp_Inbound _ => []
                 | Sctp_Outbound t => sctp_transmit_messages h t
                 end) ms.

(** [SctpHandler::handle_read]. *)
Definition sctp_handle_read (h : SctpHandler) st (msg : TaggedMessageEvent)
  : SctpHandler * ServerStates * list Effect :=
  match tm_message msg with
  | Ev_Dtls (Dtls_Raw dtls_message) =>
      let ft := four_tuple_of (tm_transport msg) in
      match get_mut_transport st ft with
      | Ok (sid, eid, t) =>
          let '(t', r) := sctp_read_transport (sh_buffer_len h) (tm_now msg) (tm_transport msg)
                            dtls_message t in
          let st := update_transport st sid eid ft
                      (λ t, set_sctp t (tr_sctp_endpoint t') (tr_sctp_associations t')) in
          match r with
          | Ok messages => (sh_push h (sctp_read_transmits h messages), st,
                            sctp_read_effects msg messages)
          | Err e => (h, st, [FireException e])
          | Panic => (h, st, [])
          end
      | Err e => (h, st, [FireException e])
      | Panic => (h, st, [])
      end
  | _ => (h, st, [FireRead msg])
  end.

(** The body of [handle_timeout] for one transport; it never fails. *)
Definition timeout_association (now : Instant) (c : SctpAssociation)
  : SctpAssociation * (list SctpEndpointEvent * list Transmit) :=
  drain_association now (assoc_handle_timeout c now).
Definition sctp_timeout_transport (now : Instant) (t : Transport) : Transport * list Transmit :=
  let turns := map (λ p : Z * SctpAssociation, (p.1, (timeout_association now p.2).2))
                 (hm_list (tr_sctp_associations t)) in
  let as_ := (λ c, (timeout_association now c).1) <$> tr_sctp_associations t in
  let '(e, as_) := handle_endpoint_events (tr_sctp_endpoint t) as_
                     (flat_map (λ p, map (pair p.1) p.2.1) turns) in
  (set_sctp t e as_, flat_map (λ p, p.2.2) turns).

(** [SctpHandler::handle_timeout], before [ctx.fire_timeout]. *)
Definition sctp_handler_timeout (h : SctpHandler) st (now : Instant)
  : SctpHandler * ServerStates :=
  (sh_push h (flat_map (sctp_transmit_messages h)
                (flat_map (λ t, (sctp_timeout_transport now t).2) (all_transports st))),
   map_transports (λ t, (sctp_timeout_transport now t).1) st).

(** [SctpHandler::poll_timeout], before [ctx.fire_poll_timeout]. *)
Definition sctp_handler_poll_timeout st (eto : Instant) : Instant :=
  foldl (λ eto t, foldl (λ eto conn,
                     match assoc_poll_timeout conn with
                     | Some timeout => if (timeout <? eto)%Z then timeout else eto
                     | None => eto
                     end) eto (hm_values (tr_sctp_associations t)))
        eto (all_transports st).

(** The part of [try_write] on the association. *)
Definition write_association (now : Instant) (message : DataChannelMessage)
  : M SctpAssociation (list Transmit) :=
  let id := dcm_stream_id message in
  c ← getS;
  _ ← liftO (assoc_stream c id);
  _ ← match dcm_params message with
      | Some p => tryS (λ c, stream_set_reliability c id (unordered p) (reliability_type p)
                               (reliability_parameter p))
      | None => mret ()
      end;
  _ ← tryS (λ c, stream_write_with_ppi c id (dcm_payload message)
                   (to_ppid (data_message_type message) (length (dcm_payload message))));
  xs ← callS (λ c, drain (assoc_poll_transmit now) (S (assoc_pending c)) c);
  mret (flat_map split_transmit xs).

(** The closure [try_write] of [poll_write]. *)
Definition sctp_try_write st (now : Instant) tc (message : DataChannelMessage)
  : ServerStates * outcome (list Transmit) :=
  let ft := four_tuple_of tc in
  let max_message_size := sctp_max_message_size (sctp_server_config (st_server_config st)) in
  if (max_message_size <? Z.of_nat (length (dcm_payload message)))%Z
  then (st, Err ErrOutboundPacketTooLarge)
  else
    match get_mut_transport st ft with
    | Ok (sid, eid, t) =>
        match tr_sctp_associations t !! dcm_association_handle message with
        | Some c =>
            let '(c, r) := write_association now message c in
            (update_transport st sid eid ft
               (λ t, set_sctp t (tr_sctp_endpoint t)
                       (<[dcm_association_handle message := c]> (tr_sctp_associations t))), r)
        | None => (st, Err ErrAssociationNotExisted)
        end
    | Err e => (st, Err e)
    | Panic => (st, Panic)
    end.

(** [SctpHandler::poll_write]. *)
Definition sctp_poll_write (h : SctpHandler) st (below : option TaggedMessageEvent)
  : SctpHandler * ServerStates * option TaggedMessageEvent * list Effect :=
  let '(h, st, effects) :=
    match below with
    | Some msg =>
        match tm_message msg with
        | Ev_Dtls (Dtls_Sctp message) =>
            match sctp_try_write st (tm_now msg) (tm_transport msg) message with
            | (st, Ok transmits) => (sh_push h (flat_map (sctp_transmit_messages h) transmits), st, [])
            | (st, Err e) => (h, st, [FireException e])
            | (st, Panic) => (h, st, [])
            end
        | _ => (sh_push h [msg], st, [])
        end
    | None => (h, st, [])
    end in
  match sh_transmits h with
  | [] => (h, st, None, effects)
  | m :: q => ({| sh_local_addr := sh_local_addr h; sh_buffer_len := sh_buffer_len h;
                  sh_transmits := q |}, st, Some m, effects)
  end.

End sctp.

(** ** Properties *)

Section properties.
Context `{O : SdpOps} `{CO : !ConfigOps} `{TO : !TransportOps} `{SO : !SctpOps} `{HO : HashOrder}.
Implicit Types (st : ServerStates) (tc : TransportContext).

(** The payload protocol identifier carries the message type: a control,
    text or binary message is read back with its type, empty or not. *)
Lemma ppid_round_trip t n :
  t ≠ DCM_None → to_data_message_type (to_ppid t n) = t.
Proof. destruct t; try done; simpl; by destruct (Nat.ltb 0 n). Qed.

(** Splitting a transmit keeps its datagrams, in order. *)
Lemma split_transmit_messages h x :
  flat_map (sctp_transmit_messages h) (split_transmit x) = sctp_transmit_messages h x.
Proof.
  unfold split_transmit, sctp_transmit_messages. destruct (sx_payload x) as [cs|]; [|done].
  induction cs as [|c cs IH]; simpl; [done|]. by f_equal.
Qed.

Lemma set_sctp_activity e as_ : keeps_activity (λ t, set_sctp t e as_).
Proof. done. Qed.

Section stable.
Context `{RO : !RtpOps} (P : ServerStates → Prop) `{SP : !Stable P}.

Lemma sctp_handle_read_stable h st msg : P st → P (sctp_handle_read h st msg).1.2.
Proof.
  intros Hst. unfold sctp_handle_read. destruct (tm_message msg) as [|[b| |]|]; try done.
  destruct (get_mut_transport st _) as [[[sid eid] t]|e|]; try done.
  destruct (sctp_read_transport _ _ _ _ t) as [t' []];
    (apply stable_transport; [apply set_sctp_activity|done]).
Qed.

Lemma sctp_try_write_stable st now tc m : P st → P (sctp_try_write st now tc m).1.
Proof.
  intros Hst. unfold sctp_try_write. case_match; [done|].
  destruct (get_mut_transport st _) as [[[sid eid] t]|e|]; try done.
  destruct (tr_sctp_associations t !! _) as [c|]; [|done].
  destruct (write_association now m c). by apply stable_transport.
Qed.

Lemma sctp_poll_write_stable h st below : P st → P (sctp_poll_write h st below).1.1.2.
Proof.
  intros Hst. unfold sctp_poll_write.
  assert (Hpop : ∀ (x : SctpHandler * ServerStates * list Effect), P x.1.2 →
    P (let '(h, st, effects) := x in
      match sh_transmits h with
      | [] => (h, st, None, effects)
      | m :: q => ({| sh_local_addr := sh_local_addr h; sh_buffer_len := sh_buffer_len h;
                      sh_transmits := q |}, st, Some m, effects)
      end).1.1.2).
  { intros [[h0 st0] effs] H0. by destruct (sh_transmits h0). }
  apply Hpop. destruct below as [msg|]; [|done].
  destruct (tm_message msg) as [|[|m|]|]; try done.
  pose proof (sctp_try_write_stable st (tm_now msg) (tm_transport msg) m Hst).
  by destruct (sctp_try_write _ _ _ m) as [st' []].
Qed.

Lemma sctp_handler_timeout_stable h st now : P st → P (sctp_handler_timeout h st now).2.
Proof.
  apply stable_transports. split; intros t; unfold sctp_timeout_transport;
    by destruct (handle_endpoint_events _ _ _).
Qed.
End stable.

(** A message larger than the negotiated maximum is never sent: it raises
    the error for an oversized packet, and neither the associations nor the
    queue of the handler change. *)
Lemma sctp_oversized_message_refused h st now tc m :
  (sctp_max_message_size (sctp_server_config (st_server_config st)) <
   Z.of_nat (length (dcm_payload m)))%Z →
  sctp_poll_write h st (Some {| tm_now := now; tm_transport := tc;
                                tm_message := Ev_Dtls (Dtls_Sctp m) |}) =
  let '(h', st', o, _) := sctp_poll_write h st None in
  (h', st', o, [FireException ErrOutboundPacketTooLarge]).
Proof.
  intros Hlt. unfold sctp_poll_write, sctp_try_write. cbn [tm_message tm_now tm_transport].
  rewrite (proj2 (Z.ltb_lt _ _) Hlt). by destruct (sh_transmits h).
Qed.

(** ** The loops end by themselves *)

Context `{SL : !SctpLaws}.

Lemma read_chunks_pending len ch id fuel c :
  assoc_pending (read_chunks len ch id fuel c).1 ≤ assoc_pending c.
Proof.
  revert c. induction fuel as [|fuel IH]; intros c; simpl; [lia|].
  unfold mbind, M_bind, tryS. destruct (stream_read_sctp c id) as [c' r] eqn:E.
  pose proof (assoc_read_le _ _ _ _ E) as Hle. destruct r as [[x|]|e|]; simpl; try done.
  unfold liftO. destruct (chunks_read x len) as [p|e|]; simpl; try done.
  specialize (IH c'). destruct (read_chunks len ch id fuel c') as [c2 [ms|e|]]; simpl in *; lia.
Qed.

Lemma read_chunks_fuel len ch id f1 f2 c :
  assoc_pending c < f1 → assoc_pending c < f2 →
  read_chunks len ch id f1 c = read_chunks len ch id f2 c.
Proof.
  revert f2 c. induction f1 as [|f1 IH]; intros [|f2] c H1 H2; try lia. simpl.
  unfold mbind, M_bind, tryS. destruct (stream_read_sctp c id) as [c' [[x|]|e|]] eqn:E; try done.
  apply assoc_read_dec in E. unfold liftO. destruct (chunks_read x len); try done.
  rewrite (IH f2) by lia. done.
Qed.

(** Reading terminates: the number of rounds the model allows the nested
    loops over events and chunks is never what ends them; with any larger
    number of rounds the association delivers the same messages and ends in
    the same state. *)
Lemma sctp_read_rounds_enough len ch f c :
  assoc_pending c < f → poll_events len ch f c = poll_events len ch (S (assoc_pending c)) c.
Proof.
  assert (H : ∀ f1 f2 c, assoc_pending c < f1 → assoc_pending c < f2 →
    poll_events len ch f1 c = poll_events len ch f2 c); [|intros; apply H; lia].
  clear f c. induction f1 as [|f1 IH]; intros [|f2] c H1 H2; try lia. cbn [poll_events].
  unfold mbind, M_bind, callS. destruct (assoc_poll c) as [c' [[id|]|]] eqn:E; try done.
  - apply assoc_poll_dec in E. unfold getS, liftO. destruct (assoc_stream c' id); try done.
    pose proof (read_chunks_pending len ch id (S (assoc_pending c')) c') as Hle.
    destruct (read_chunks len ch id (S (assoc_pending c')) c') as [c2 [ms|e|]]; try done.
    simpl in Hle. rewrite (IH f2) by lia. done.
  - apply assoc_poll_dec in E. apply IH; lia.
Qed.

(** Nothing stays behind: after the turn of an association its outgoing
    queue is empty, and what was taken from it are single datagrams, in order. *)
Lemma sctp_association_drained now c :
  (∃ c0, assoc_poll_transmit now c0 = ((drain_association now c).1, None)) ∧
  Forall (λ x, ∃ b, sx_payload x = RawEncode [b]) (drain_association now c).2.2.
Proof.
  unfold drain_association.
  destruct (drain assoc_poll_endpoint_event _ c) as [c1 events].
  destruct (drain_complete (assoc_poll_transmit now) assoc_pending (assoc_transmit_dec now)
    (S (assoc_pending c1)) c1) as [c0 Hc0]; [lia|].
  destruct (drain _ _ c1) as [c2 xs]. simpl in *. split; [by exists c0|].
  apply Forall_flat_map, Forall_true. intros x. unfold split_transmit.
  destruct (sx_payload x) as [cs|]; [|constructor]. apply Forall_map, Forall_true. simpl. eauto.
Qed.

End properties.
