(* ===== verification/Pipeline.v ===== *)
(** * The pipeline and its loop (examples/sync_signal/mod.rs)

    [build_pipeline] chains the handlers demuxer, STUN, DTLS, SCTP, data
    channel, SRTP, interceptor, gateway and exception over one shared
    [ServerStates].  [retty] runs an effect of a handler on its successor:
    [fire_read] calls [handle_read] there, an exception travels on until the
    last handler has logged it, and [poll_write] asks the successor first. *)

From Stdlib Require Import ZArith Lia.
From stdpp Require Import base numbers strings fin_maps gmap list.
From S2P Require Import Prelude RustStr Enums Types Sdp Codec ReceiverStream.
From S2P Require Import Interceptors MediaParse MediaConfig Config Endpoint.
From S2P Require Import Description Session ServerStates Stable Demux Gateway Srtp.
From S2P Require Import DataChannel InterceptorHandler Dtls Sctp.

Section pipeline.
Context `{O : SdpOps} `{CO : !ConfigOps} `{TO : !TransportOps} `{RO : !RtpOps} `{GO : !GatewayOps}
  `{SC : !StunCodec} `{SR : !SrtpOps} `{DC : !DcepOps} `{DO : !DtlsOps} `{SO : !SctpOps}
  `{HO : HashOrder}.
Implicit Types (st : ServerStates) (tc : TransportContext).

(** The state of the handlers that have one, and the state they share. *)
Record Pipeline := {
  pl_dtls : DtlsHandler;
  pl_sctp : SctpHandler;
  pl_datachannel : DataChannelHandler;
  pl_interceptor : InterceptorHandler;
  pl_gateway : GatewayHandler;
  pl_states : ServerStates
}.
Implicit Types p : Pipeline.

(** [build_pipeline] at time [now]. *)
Definition build_pipeline (now : Instant) (local_addr : SocketAddr) st : Pipeline :=
  {| pl_dtls := dtls_handler_new local_addr; pl_sctp := sctp_handler_new local_addr st;
     pl_datachannel := datachannel_new; pl_interceptor := interceptor_handler_new;
     pl_gateway := gateway_new now st; pl_states := st |}.

Definition with_states p st : Pipeline :=
  {| pl_dtls := pl_dtls p; pl_sctp := pl_sctp p; pl_datachannel := pl_datachannel p;
     pl_interceptor := pl_interceptor p; pl_gateway := pl_gateway p; pl_states := st |}.
Definition with_dtls p h st : Pipeline :=
  {| pl_dtls := h; pl_sctp := pl_sctp p; pl_datachannel := pl_datachannel p;
     pl_interceptor := pl_interceptor p; pl_gateway := pl_gateway p; pl_states := st |}.
Definition with_sctp p h st : Pipeline :=
  {| pl_dtls := pl_dtls p; pl_sctp := h; pl_datachannel := pl_datachannel p;
     pl_interceptor := pl_interceptor p; pl_gateway := pl_gateway p; pl_states := st |}.
Definition with_datachannel p h : Pipeline :=
  {| pl_dtls := pl_dtls p; pl_sctp := pl_sctp p; pl_datachannel := h;
     pl_interceptor := pl_interceptor p; pl_gateway := pl_gateway p; pl_states := pl_states p |}.
Definition with_interceptor p h st : Pipeline :=
  {| pl_dtls := pl_dtls p; pl_sctp := pl_sctp p; pl_datachannel := pl_datachannel p;
     pl_interceptor := h; pl_gateway := pl_gateway p; pl_states := st |}.
Definition with_gateway p h st : Pipeline :=
  {| pl_dtls := pl_dtls p; pl_sctp := pl_sctp p; pl_datachannel := pl_datachannel p;
     pl_interceptor := pl_interceptor p; pl_gateway := h; pl_states := st |}.

(** ** Reading a datagram *)

(** What a handler and its successors do with a message: the new state and the
    exceptions the last handler logs. *)
Abbreviation Reader := (TaggedMessageEvent → Pipeline → Pipeline * list Error).

(** Runs the effects of a handler on its successor. *)
Fixpoint run_effects (next : Reader) (effects : list Effect) p : Pipeline * list Error :=
  match effects with
  | [] => (p, [])
  | FireRead m :: effects =>
      let '(p, e1) := next m p in
      let '(p, e2) := run_effects next effects p in (p, e1 ++ e2)
  | FireException e :: effects =>
      let '(p, e2) := run_effects next effects p in (p, e :: e2)
  end.

(** Behind the last handler a message is dropped. *)
Definition exception_read : Reader := λ m, run_effects (λ _ p, (p, [])) (exception_handle_read m).

Definition gateway_read (env : Env) : Reader := λ m p,
  let '(h, st, r) := gw_handle_read env (pl_gateway p) (pl_states p) m in
  run_effects exception_read (match r with Ok effects => effects | _ => [] end)
    (with_gateway p h st).

Definition interceptor_stage (env : Env) : Reader := λ m p,
  let '(h, st, effects) := ih_handle_read (pl_interceptor p) (pl_states p) m in
  run_effects (gateway_read env) effects (with_interceptor p h st).

Definition srtp_stage (env : Env) : Reader := λ m p,
  let '(st, effects) := srtp_handle_read (pl_states p) m in
  run_effects (interceptor_stage env) effects (with_states p st).

Definition datachannel_stage (env : Env) : Reader := λ m p,
  let '(h, effects) := dc_handle_read (pl_datachannel p) m in
  run_effects (srtp_stage env) effects (with_datachannel p h).

Definition sctp_stage (env : Env) : Reader := λ m p,
  let '(h, st, effects) := sctp_handle_read (pl_sctp p) (pl_states p) m in
  run_effects (datachannel_stage env) effects (with_sctp p h st).

Definition dtls_stage (env : Env) : Reader := λ m p,
  let '(h, st, effects) := dtls_handle_read (pl_dtls p) (pl_states p) m in
  run_effects (sctp_stage env) effects (with_dtls p h st).

Definition stun_stage (env : Env) : Reader := λ m,
  run_effects (dtls_stage env) (stun_handle_read m).

(** [pipeline.read(input)]. *)
Definition pipeline_read (env : Env) (msg : TaggedBytesMut) p : Pipeline * list Error :=
  run_effects (stun_stage env) (demux_handle_read msg) p.

(** ** Timers *)

(** The exceptions among the effects of a handler. *)
Definition exceptions (effects : list Effect) : list Error :=
  omap (λ e, match e with FireException e => Some e | _ => None end) effects.

(** [pipeline.handle_timeout(now)]: every handler in turn. *)
Definition pipeline_handle_timeout p (now : Instant) : Pipeline * list Error :=
  let '(h, st) := dtls_handler_timeout (pl_dtls p) (pl_states p) now in
  let p := with_dtls p h st in
  let '(h, st) := sctp_handler_timeout (pl_sctp p) (pl_states p) now in
  let p := with_sctp p h st in
  let '(h, st, effects) := ih_handle_timeout (pl_interceptor p) (pl_states p) now in
  let p := with_interceptor p h st in
  let '(h, st) := gw_handle_timeout (pl_gateway p) (pl_states p) now in
  (with_gateway p h st, exceptions effects).

(** [pipeline.poll_timeout(&mut eto)]. *)
Definition pipeline_poll_timeout p (eto : Instant) : Instant :=
  let eto := dtls_handler_poll_timeout (pl_states p) eto in
  let eto := sctp_handler_poll_timeout (pl_states p) eto in
  let eto := ih_poll_timeout (pl_states p) eto in
  gw_poll_timeout (pl_gateway p) eto.

(** ** Writing a datagram *)

(** The calls of [poll_write] from the exception handler up to the SRTP
    handler, and from there to the demuxer. *)
Definition media_poll p : Pipeline * option TaggedMessageEvent * list Error :=
  let '(h, m) := gw_poll_write (pl_gateway p) (exception_poll_write None) in
  let p := with_gateway p h (pl_states p) in
  let '(h, st, m, e1) := ih_poll_write (pl_interceptor p) (pl_states p) m in
  let p := with_interceptor p h st in
  let '(st, m, e2) := srtp_poll_write (pl_states p) m in
  (with_states p st, m, exceptions (e1 ++ e2)).

Definition datagram_poll p (m : option TaggedMessageEvent)
  : Pipeline * option TaggedBytesMut * list Error :=
  let '(h, m) := dc_poll_write (pl_datachannel p) m in
  let p := with_datachannel p h in
  let '(h, st, m, e1) := sctp_poll_write (pl_sctp p) (pl_states p) m in
  let p := with_sctp p h st in
  let '(h, st, m, e2) := dtls_poll_write (pl_dtls p) (pl_states p) m in
  (with_dtls p h st, demux_poll_write (stun_poll_write m), exceptions (e1 ++ e2)).

(** [pipeline.poll_transmit()]. *)
Definition pipeline_poll_transmit p : Pipeline * option TaggedBytesMut * list Error :=
  let '(p, m, e1) := media_poll p in
  let '(p, m, e2) := datagram_poll p m in
  (p, m, e1 ++ e2).

(** [write_socket_output]: the datagrams sent until nothing is polled, in at
    most [fuel] polls. *)
Definition write_socket_output (fuel : nat) p : Pipeline * list TaggedBytesMut :=
  drain (λ p, (pipeline_poll_transmit p).1) fuel p.

(** ** Signalling *)

Inductive SignalingProtocolMessage : Type :=
| Signal_Ok (session_id endpoint_id : Z)
| Signal_Err (session_id endpoint_id : Z) (reason : Error)
| Signal_Offer (session_id endpoint_id : Z) (offer_sdp : bytes)
| Signal_Answer (session_id endpoint_id : Z) (answer_sdp : bytes)
| Signal_Leave (session_id endpoint_id : Z).

(** The closure [try_handle] of [handle_offer_message]. *)
Definition try_handle_offer (env : Env) (session_id endpoint_id : Z) (offer : bytes)
  : M ServerStates bytes :=
  offer_str ← liftO (from_utf8 offer);
  offer_sdp ← liftO (match json_to_description offer_str with
                     | inl d => Ok d
                     | inr e => Err (ErrOther e)
                     end);
  answer ← accept_offer (env_now env) (env_user env) (env_pass env) session_id endpoint_id None
             offer_sdp;
  answer_str ← liftO (json_print answer);
  mret (as_bytes answer_str).

(** [handle_offer_message]: the new state and the response that is sent back.
    A reason is kept as the error instead of its text. *)
Definition handle_offer_message (env : Env) (session_id endpoint_id : Z) (offer : bytes) st
  : ServerStates * outcome SignalingProtocolMessage :=
  match try_handle_offer env session_id endpoint_id offer st with
  | (st, Ok answer_sdp) => (st, Ok (Signal_Answer session_id endpoint_id answer_sdp))
  | (st, Err e) => (st, Ok (Signal_Err session_id endpoint_id e))
  | (st, Panic) => (st, Panic)
  end.

(** [handle_leave_message] only answers. *)
Definition handle_leave_message (session_id endpoint_id : Z) st
  : ServerStates * outcome SignalingProtocolMessage :=
  (st, Ok (Signal_Ok session_id endpoint_id)).

(** [handle_signaling_message]. *)
Definition handle_signaling_message (env : Env) (request : SignalingProtocolMessage) st
  : ServerStates * outcome SignalingProtocolMessage :=
  match request with
  | Signal_Offer sid eid offer_sdp => handle_offer_message env sid eid offer_sdp st
  | Signal_Leave sid eid => handle_leave_message sid eid st
  | Signal_Ok sid eid | Signal_Err sid eid _ | Signal_Answer sid eid _ =>
      (st, Ok (Signal_Err sid eid (ErrOther "Invalid Request")))
  end.

(** One action of the loop of [sync_run]. *)
Inductive pipeline_step : Pipeline → Pipeline → Prop :=
| step_datagram env msg p : pipeline_step p (pipeline_read env msg p).1
| step_timer now p : pipeline_step p (pipeline_handle_timeout p now).1
| step_transmit p : pipeline_step p (pipeline_poll_transmit p).1.1
| step_signal env request p :
    pipeline_step p (with_states p (handle_signaling_message env request (pl_states p)).1).

End pipeline.

(** ** Properties of the shared state *)

Section stable.
Context `{O : SdpOps} `{CO : !ConfigOps} `{TO : !TransportOps} `{RO : !RtpOps} `{GO : !GatewayOps}
  `{SC : !StunCodec} `{SR : !SrtpOps} `{DC : !DcepOps} `{DO : !DtlsOps} `{SO : !SctpOps}
  `{HO : HashOrder}.
Implicit Types (st : ServerStates) (p : Pipeline).

Lemma demux_fires_from msg : fires_from (tb_transport msg) (demux_handle_read msg).
Proof. unfold demux_handle_read. repeat case_match; repeat constructor. Qed.

Lemma stun_fires_from msg : fires_from (tm_transport msg) (stun_handle_read msg).
Proof. unfold stun_handle_read. repeat case_match; repeat constructor. Qed.

Lemma datachannel_fires_from h msg : fires_from (tm_transport msg) (dc_handle_read h msg).2.
Proof. unfold dc_handle_read. repeat case_match; simplify_eq/=; repeat constructor. Qed.

Lemma sctp_fires_from h st msg : fires_from (tm_transport msg) (sctp_handle_read h st msg).2.
Proof.
  unfold sctp_handle_read. destruct (tm_message msg) as [|[b| |]|]; try by repeat constructor.
  destruct (get_mut_transport st _) as [[[sid eid] t]|e|]; try by repeat constructor.
  destruct (sctp_read_transport _ _ _ _ t) as [t' []]; simpl; try by repeat constructor.
  repeat case_match; try by repeat constructor.
  all: apply Forall_forall; intros x Hx; apply list_elem_of_omap in Hx as (y & _ & Hy);
    repeat case_match; by simplify_eq.
Qed.

(** The last handler changes nothing. *)
Lemma exception_read_states l p : pl_states (run_effects exception_read l p).1 = pl_states p.
Proof.
  induction l as [|[m|e] l IH]; simpl; [done| |].
  - unfold exception_read at 1. simpl. by destruct (run_effects _ l p).
  - by destruct (run_effects _ l p).
Qed.

Section datagram.
Context (P : ServerStates → Prop) `{SP : !Stable P} `{RP : !Removable P}.
Context `{OP : !OfferStable (λ _, False) P}.
Context (tc : TransportContext) `{VP : !Visited (four_tuple_of tc) P}.

(** A stage keeps the property for messages of this transport. *)
Definition preserving (next : TaggedMessageEvent → Pipeline → Pipeline * list Error) : Prop :=
  ∀ m p, tm_transport m = tc → P (pl_states p) → P (pl_states (next m p).1).

Lemma run_effects_stable next effects p :
  preserving next → fires_from tc effects → P (pl_states p) →
  P (pl_states (run_effects next effects p).1).
Proof.
  intros Hn Hf. revert p. induction Hf as [|[m|e] effects Hm _ IH]; intros p Hp; simpl; [done| |].
  - pose proof (Hn m p Hm Hp) as Hp1. destruct (next m p) as [p1 e1]. specialize (IH p1 Hp1).
    by destruct (run_effects next effects p1).
  - specialize (IH p Hp). by destruct (run_effects next effects p).
Qed.

Lemma gateway_read_stable env : preserving (gateway_read env).
Proof.
  intros m p Hm Hp. unfold gateway_read.
  assert (H : P (gw_handle_read env (pl_gateway p) (pl_states p) m).1.2).
  { apply (gw_handle_read_stable (λ _, False)); [by apply _|by rewrite Hm|done]. }
  destruct (gw_handle_read _ _ _ _) as [[h st] r]. by rewrite exception_read_states.
Qed.

Lemma interceptor_stage_stable env : preserving (interceptor_stage env).
Proof.
  intros m p Hm Hp. unfold interceptor_stage.
  pose proof (ih_handle_read_stable P (pl_interceptor p) (pl_states p) m Hp) as H.
  pose proof (ih_fires_from (pl_interceptor p) (pl_states p) m) as Hf. rewrite Hm in Hf.
  destruct (ih_handle_read _ _ _) as [[h st] r].
  by apply run_effects_stable; [apply gateway_read_stable| |].
Qed.

Lemma srtp_stage_stable env : preserving (srtp_stage env).
Proof.
  intros m p Hm Hp. unfold srtp_stage.
  pose proof (srtp_handle_read_stable P (pl_states p) m Hp) as H.
  pose proof (srtp_fires_from (pl_states p) m) as Hf. rewrite Hm in Hf.
  destruct (srtp_handle_read _ _) as [st r].
  by apply run_effects_stable; [apply interceptor_stage_stable| |].
Qed.

Lemma datachannel_stage_stable env : preserving (datachannel_stage env).
Proof.
  intros m p Hm Hp. unfold datachannel_stage.
  pose proof (datachannel_fires_from (pl_datachannel p) m) as Hf. rewrite Hm in Hf.
  destruct (dc_handle_read _ _) as [h r].
  by apply run_effects_stable; [apply srtp_stage_stable| |].
Qed.

Lemma sctp_stage_stable env : preserving (sctp_stage env).
Proof.
  intros m p Hm Hp. unfold sctp_stage.
  pose proof (sctp_handle_read_stable P (pl_sctp p) (pl_states p) m Hp) as H.
  pose proof (sctp_fires_from (pl_sctp p) (pl_states p) m) as Hf. rewrite Hm in Hf.
  destruct (sctp_handle_read _ _ _) as [[h st] r].
  by apply run_effects_stable; [apply datachannel_stage_stable| |].
Qed.

Lemma dtls_stage_stable env : preserving (dtls_stage env).
Proof.
  intros m p Hm Hp. unfold dtls_stage.
  pose proof (dtls_handle_read_stable P (pl_dtls p) (pl_states p) m Hp) as H.
  pose proof (dtls_fires_from (pl_dtls p) (pl_states p) m) as Hf. rewrite Hm in Hf.
  destruct (dtls_handle_read _ _ _) as [[h st] r].
  by apply run_effects_stable; [apply sctp_stage_stable| |].
Qed.

Lemma pipeline_read_stable env msg p :
  tb_transport msg = tc → P (pl_states p) → P (pl_states (pipeline_read env msg p).1).
Proof.
  intros Hm. apply run_effects_stable; [|rewrite <-Hm; apply demux_fires_from].
  intros m p' Hm'. apply run_effects_stable; [apply dtls_stage_stable|].
  rewrite <-Hm'. apply stun_fires_from.
Qed.
End datagram.

Lemma pipeline_handle_timeout_stable P `{SP : !Stable P} `{RP : !Removable P} p now :
  P (pl_states p) → P (pl_states (pipeline_handle_timeout p now).1).
Proof.
  intros Hp. unfold pipeline_handle_timeout.
  pose proof (dtls_handler_timeout_stable P (pl_dtls p) _ now Hp) as H1.
  destruct (dtls_handler_timeout _ _ _) as [h1 st1]. cbn [pl_sctp pl_states with_dtls] in *.
  pose proof (sctp_handler_timeout_stable P (pl_sctp p) _ now H1) as H2.
  destruct (sctp_handler_timeout _ _ _) as [h2 st2]. cbn [pl_interceptor pl_states with_sctp with_dtls] in *.
  pose proof (ih_handle_timeout_stable P (pl_interceptor p) _ now H2) as H3.
  destruct (ih_handle_timeout _ _ _) as [[h3 st3] es].
  cbn [pl_gateway pl_states with_interceptor with_sctp with_dtls] in *.
  pose proof (gw_handle_timeout_stable P (pl_gateway p) _ now H3) as H4.
  by destruct (gw_handle_timeout _ _ _) as [h4 st4].
Qed.

Lemma pipeline_poll_transmit_stable P `{SP : !Stable P} p :
  P (pl_states p) → P (pl_states (pipeline_poll_transmit p).1.1).
Proof.
  intros Hp. unfold pipeline_poll_transmit, media_poll, datagram_poll.
  destruct (gw_poll_write _ _) as [h1 m1]. cbn [pl_interceptor pl_states with_gateway].
  pose proof (ih_poll_write_stable P (pl_interceptor p) _ m1 Hp) as H1.
  destruct (ih_poll_write _ _ _) as [[[h2 st2] m2] e2]. cbn [pl_states with_interceptor].
  pose proof (srtp_poll_write_stable P _ m2 H1) as H2.
  destruct (srtp_poll_write _ _) as [[st3 m3] e3]. destruct (dc_poll_write _ _) as [h4 m4].
  pose proof (λ h, sctp_poll_write_stable P h _ m4 H2) as H4. cbn [fst snd] in H4.
  cbn [pl_sctp pl_dtls pl_states with_datachannel with_states with_interceptor with_gateway].
  specialize (H4 (pl_sctp p)). destruct (sctp_poll_write _ _ _) as [[[h5 st5] m5] e5].
  pose proof (dtls_poll_write_stable P (pl_dtls p) _ m5 H4) as H5. cbn [fst snd] in H5.
  cbn [pl_dtls pl_states with_sctp with_datachannel with_states with_interceptor with_gateway].
  by destruct (dtls_poll_write _ _ _) as [[[h6 st6] m6] e6].
Qed.

(** The session a request names. *)
Definition request_session (request : SignalingProtocolMessage) : SessionId :=
  match request with
  | Signal_Ok sid _ | Signal_Err sid _ _ | Signal_Offer sid _ _ | Signal_Answer sid _ _
  | Signal_Leave sid _ => sid
  end.

Lemma handle_signaling_message_stable asked P `{OP : !OfferStable asked P} env request st :
  asked (request_session request) → P st → P (handle_signaling_message env request st).1.
Proof.
  intros Hasked Hst. destruct request as [| |sid eid offer| |]; try done.
  change (P (handle_offer_message env sid eid offer st).1). unfold handle_offer_message.
  assert (H : P (try_handle_offer env sid eid offer st).1);
    [|by destruct (try_handle_offer _ _ _ _ _) as [? []]].
  unfold try_handle_offer. do 2 (apply M_bind_inv; [done|]; clear st Hst; intros ? st Hst).
  apply M_bind_inv; [by apply (accept_offer_stable asked _ _ _ _ _ _ _ _ _ (or_introl Hasked))|]. clear st Hst. intros ? st Hst.
  by apply M_bind_inv.
Qed.

(** A property that is stable under all of these is stable under the steps. *)
Lemma pipeline_step_stable P `{SP : !Stable P} `{RP : !Removable P}
    `{OP : ∀ asked, OfferStable asked P} `{VP : ∀ ft, Visited ft P} p p' :
  pipeline_step p p' → P (pl_states p) → P (pl_states p').
Proof.
  intros [env msg q|now q|q|env request q].
  - by apply (pipeline_read_stable P (tb_transport msg)).
  - by apply pipeline_handle_timeout_stable.
  - by apply pipeline_poll_transmit_stable.
  - by apply (handle_signaling_message_stable (λ _, True)).
Qed.

(** C2. Every state the server can reach is well formed: whatever datagrams,
    timers and signalling requests arrive, in whatever order, and whatever
    fails on the way, sessions, endpoints, transports, transceivers and
    candidates stay filed under their own identifiers, no endpoint is left
    without a transport, and a transport always belongs to the endpoint its
    candidate was issued to. *)
Theorem reachable_server_ok config addr st now p :
  server_states_new config addr = Ok st →
  rtc pipeline_step (build_pipeline now addr st) p → server_ok (pl_states p).
Proof.
  intros Hnew Hsteps. assert (Hst : server_ok st) by (by eapply server_states_new_ok).
  change st with (pl_states (build_pipeline now addr st)) in Hst.
  induction Hsteps as [|x y z Hxy _ IH]; [done|]. by apply IH, (pipeline_step_stable server_ok x).
Qed.

End stable.
