(* ===== verification/Timers.v ===== *)
(** * Timers (the poll_timeout and handle_timeout of the handlers)

    Before it waits for a datagram the loop asks every handler for the time of
    its next timer; each lowers the candidate it is given.  The theorem is that
    the nested loops compute the earliest of all timers, in whatever order the
    hash maps are iterated.  The lemmas say that a served timer lies in the
    future, so that the loop comes back to its socket. *)

From Stdlib Require Import ZArith Lia.
From stdpp Require Import base numbers strings fin_maps gmap list.
From S2P Require Import Prelude RustStr Enums Types Sdp Codec ReceiverStream.
From S2P Require Import Interceptors MediaParse MediaConfig Config Endpoint.
From S2P Require Import Description Session ServerStates Stable Demux Gateway Srtp.
From S2P Require Import DataChannel InterceptorHandler Dtls Sctp Pipeline.

(** ** The earliest of a list *)

Definition earliest (l : list Z) (eto : Z) : Z := foldr Z.min eto l.

Lemma earliest_app l1 l2 eto : earliest (l1 ++ l2) eto = earliest l1 (earliest l2 eto).
Proof. apply foldr_app. Qed.

Lemma earliest_min l x eto : earliest l (Z.min x eto) = Z.min x (earliest l eto).
Proof. induction l as [|y l IH]; simpl; [done|]. rewrite IH. lia. Qed.

Lemma earliest_comm l1 l2 eto : earliest l1 (earliest l2 eto) = earliest l2 (earliest l1 eto).
Proof. induction l1 as [|x l1 IH]; simpl; [done|]. by rewrite IH, earliest_min. Qed.

(** [if timeout < *eto { *eto = timeout }]. *)
Lemma lower_min (x eto : Z) : (if (x <? eto)%Z then x else eto) = Z.min x eto.
Proof. destruct (Z.ltb_spec x eto); lia. Qed.

(** A loop whose body lowers to the earliest of the timers of its element. *)
Lemma foldl_earliest {A} (f : Z → A → Z) (timers : A → list Z) l eto :
  (∀ eto a, f eto a = earliest (timers a) eto) →
  foldl f eto l = earliest (flat_map timers l) eto.
Proof.
  intros Hf. revert eto. induction l as [|a l IH]; intros eto; simpl; [done|].
  by rewrite IH, Hf, earliest_app, earliest_comm.
Qed.

(** The earliest is a lower bound, and one of the candidates. *)
Lemma earliest_spec l eto :
  (earliest l eto ≤ eto)%Z ∧ (∀ x, x ∈ l → earliest l eto ≤ x)%Z ∧
  (earliest l eto = eto ∨ earliest l eto ∈ l).
Proof.
  induction l as [|y l (H1 & H2 & H3)]; simpl.
  { split_and!; [lia| |by left]. by intros x ?%not_elem_of_nil. }
  split_and!; [lia| |].
  - intros x [->|Hx]%elem_of_cons; [lia|]. specialize (H2 x Hx). lia.
  - destruct (Z.min_spec y (earliest l eto)) as [[_ ->]|[_ ->]]; rewrite elem_of_cons; tauto.
Qed.

Section timers.
Context `{O : SdpOps} `{CO : !ConfigOps} `{TO : !TransportOps} `{RO : !RtpOps} `{GO : !GatewayOps}
  `{SC : !StunCodec} `{SR : !SrtpOps} `{DC : !DcepOps} `{DO : !DtlsOps} `{SO : !SctpOps}
  `{HO : HashOrder}.
Implicit Types (st : ServerStates) (p : Pipeline).

(** ** The timers of the server *)

Fixpoint interceptor_timers (i : Interceptor) : list Instant :=
  match i with
  | NoOp | SenderReport None => []
  | ReceiverReport _ eto _ next =>
      eto :: match next with Some n => interceptor_timers n | None => [] end
  | SenderReport (Some n) => interceptor_timers n
  end.
Definition chain_timers st : list Instant :=
  flat_map (λ s, flat_map (λ e, interceptor_timers (ep_interceptor e)) (hm_values (ss_endpoints s)))
    (hm_values (st_sessions st)).
Definition association_timers st : list Instant :=
  flat_map (λ t, omap assoc_poll_timeout (hm_values (tr_sctp_associations t))) (all_transports st).

Lemma interceptor_poll_timeout_earliest i eto :
  interceptor_poll_timeout i eto = earliest (interceptor_timers i) eto.
Proof.
  revert eto. induction i as [|d e m|d e m n IH| |n IH] using Interceptor_chain_ind; intros eto; simpl;
    rewrite ?lower_min; [done|done| |done|apply IH].
  by rewrite IH, earliest_min.
Qed.

Lemma ih_poll_timeout_earliest st eto : ih_poll_timeout st eto = earliest (chain_timers st) eto.
Proof.
  unfold ih_poll_timeout, chain_timers. apply foldl_earliest. intros eto1 s.
  apply foldl_earliest. intros eto2 e. apply interceptor_poll_timeout_earliest.
Qed.

Lemma sctp_handler_poll_timeout_earliest st eto :
  sctp_handler_poll_timeout st eto = earliest (association_timers st) eto.
Proof.
  unfold sctp_handler_poll_timeout, association_timers. apply foldl_earliest. intros eto1 t.
  assert (Hl : ∀ l, omap assoc_poll_timeout l =
                    flat_map (λ c, match assoc_poll_timeout c with Some x => [x] | None => [] end) l).
  { induction l as [|c l IH]; simpl; [done|]. destruct (assoc_poll_timeout c); simpl; by rewrite <- IH. }
  rewrite Hl. apply foldl_earliest. intros eto2 c.
  destruct (assoc_poll_timeout c); simpl; [apply lower_min|done].
Qed.

(** C16. The loop waits for the earliest timer: polling the handlers computes
    the least of the limit it starts with (lowered by the DTLS endpoints), of
    the timeouts of all SCTP associations, of the intervals of all report
    interceptors and of the gateway's idle timer, whatever the order of the
    hash maps; so it is past none of them, and it is one of them. *)
Theorem poll_timeout_is_earliest p eto :
  let limit := dtls_handler_poll_timeout (pl_states p) eto in
  let timers := gw_next_timeout (pl_gateway p) :: chain_timers (pl_states p)
                ++ association_timers (pl_states p) in
  let next := pipeline_poll_timeout p eto in
  next = earliest timers limit ∧ (next ≤ limit)%Z ∧ (∀ x, x ∈ timers → next ≤ x)%Z ∧
  (next = limit ∨ next ∈ timers).
Proof.
  intros limit timers next.
  assert (Hnext : next = earliest timers limit).
  { unfold next, pipeline_poll_timeout, gw_poll_timeout, timers. cbn [earliest foldr].
    fold (earliest (chain_timers (pl_states p) ++ association_timers (pl_states p)) limit).
    by rewrite lower_min, ih_poll_timeout_earliest, sctp_handler_poll_timeout_earliest, earliest_app. }
  split; [done|]. rewrite Hnext. apply earliest_spec.
Qed.

(** ** Served timers *)

(** Every report interceptor of the chain has a positive interval. *)
Fixpoint intervals_positive (i : Interceptor) : Prop :=
  match i with
  | NoOp | SenderReport None => True
  | ReceiverReport d _ _ next =>
      (0 < d)%Z ∧ match next with Some n => intervals_positive n | None => True end
  | SenderReport (Some n) => intervals_positive n
  end.

Lemma interceptor_served i now fts :
  intervals_positive i →
  Forall (λ x, now < x)%Z (interceptor_timers (interceptor_handle_timeout i now fts).1).
Proof.
  induction i as [|d e m|d e m n IH| |n IH] using Interceptor_chain_ind; simpl;
    [by constructor| | |by constructor|].
  - intros [Hd _]. repeat constructor. destruct (Z.leb_spec e now); lia.
  - intros [Hd Hn]. specialize (IH Hn). destruct (interceptor_handle_timeout n now fts). simpl in *.
    constructor; [|done]. destruct (Z.leb_spec e now); lia.
  - intros Hn. specialize (IH Hn). by destruct (interceptor_handle_timeout n now fts).
Qed.

(** The gateway's timer, when it is due, moves on by one idle timeout. *)
Lemma gateway_timer_advances gw st now :
  gw_next_timeout (gw_handle_timeout gw st now).1 =
  if (gw_next_timeout gw <=? now)%Z then (gw_next_timeout gw + gw_idle_timeout gw)%Z
  else gw_next_timeout gw.
Proof. unfold gw_handle_timeout. by destruct (_ <=? _)%Z. Qed.

(** With an idle timeout of zero it never does: the loop polls a timer that is
    due in every round and does not come to its socket any more. *)
Lemma zero_idle_timeout_starves p now now' :
  gw_idle_timeout (pl_gateway p) = 0%Z → (gw_next_timeout (pl_gateway p) ≤ now' ≤ now)%Z →
  let p' := (pipeline_handle_timeout p now).1 in
  ∀ eto, (pipeline_poll_timeout p' eto ≤ now')%Z.
Proof.
  intros Hz Hn p' eto.
  assert (Hgw : gw_next_timeout (pl_gateway p') = gw_next_timeout (pl_gateway p)).
  { unfold p', pipeline_handle_timeout. destruct (dtls_handler_timeout _ _ _) as [h1 st1].
    destruct (sctp_handler_timeout _ _ _) as [h2 st2].
    destruct (ih_handle_timeout _ _ _) as [[h3 st3] effs].
    destruct (gw_handle_timeout _ _ _) as [h4 st4] eqn:E. simpl in *.
    pose proof (gateway_timer_advances (pl_gateway p) st3 now) as H. rewrite E in H. simpl in H.
    rewrite H, Hz. destruct (Z.leb_spec (gw_next_timeout (pl_gateway p)) now); lia. }
  unfold pipeline_poll_timeout, gw_poll_timeout. rewrite lower_min, Hgw. lia.
Qed.

End timers.
