(* ===== verification/Room.v ===== *)
(** * The server as a room

    An abstract specification of what the server promises: who was invited,
    who may still connect, who is connected.  [server_refines_room] shows that
    every run of the pipeline is a run of the specification, by a simulation
    whose cases are the changes named in [Stable] and [Gateway]. *)

From Stdlib Require Import ZArith Lia.
From stdpp Require Import base numbers strings fin_maps gmap list.
From S2P Require Import Prelude RustStr Enums Types Sdp Codec ReceiverStream.
From S2P Require Import Interceptors MediaParse MediaConfig Config Endpoint.
From S2P Require Import Description Session ServerStates Stable Demux Gateway Srtp.
From S2P Require Import DataChannel InterceptorHandler Dtls Sctp Pipeline.

(** ** What descriptions and data channels leave alone *)

Section views.
Context `{O : SdpOps} `{CO : !ConfigOps} `{TO : !TransportOps} `{GO : !GatewayOps}
  `{RO : !RtpOps} `{HO : HashOrder}.
Implicit Types (st : ServerStates) (s : Session) (e : Endpoint).

(** The part of an endpoint that negotiation does not touch: its interceptor
    and the last activity of its transports. *)
Definition endpoint_view e : Interceptor * gmap FourTuple Instant :=
  (ep_interceptor e, tr_last_activity <$> ep_transports e).

Definition same_view s s' : Prop :=
  ss_session_config s' = ss_session_config s ∧
  endpoint_view <$> ss_endpoints s' = endpoint_view <$> ss_endpoints s.

#[local] Instance same_view_preorder : PreOrder same_view.
Proof. split; [done|]. intros s1 s2 s3 [] []. split; congruence. Qed.

Lemma same_view_insert s eid e e' :
  ss_endpoints s !! eid = Some e → endpoint_view e' = endpoint_view e →
  same_view s (ss_with_endpoints s (<[eid := e']> (ss_endpoints s))).
Proof.
  intros He Hv. split; [done|]. simpl. rewrite fmap_insert, Hv. apply insert_id.
  by rewrite lookup_fmap, He.
Qed.

Lemma propagate_track_view eid dir t oid e :
  endpoint_view (propagate_track eid dir t oid e) = endpoint_view e.
Proof. unfold propagate_track. repeat case_match; done. Qed.

Lemma remote_offer_media_view eid media s : same_view s (remote_offer_media eid media s).1.
Proof.
  destruct (remote_offer_media eid media s) as [s' r] eqn:E. simpl.
  apply remote_offer_media_cases in E as [->|(k & dir & mid & e & t & Hn & He & _ & Ht & ->)];
    [done|].
  split; [done|]. apply map_eq. intros oid. rewrite !lookup_fmap, lookup_publish_track.
  case_decide; subst; [by rewrite He|].
  destruct (ss_endpoints s !! oid); [|done]. simpl. by rewrite propagate_track_view.
Qed.

Lemma answer_media_view f eid media s : same_view s (answer_media f eid media s).1.
Proof.
  destruct (answer_media f eid media s) as [s' r] eqn:E. simpl.
  apply answer_media_cases in E as [->|(k & dir & mid & e & t & _ & He & Ht & ->)]; [done|].
  by eapply same_view_insert.
Qed.

Lemma ss_set_remote_description_view eid remote s :
  same_view s (ss_set_remote_description eid remote s).1.
Proof.
  unfold ss_set_remote_description, mbind, M_bind, getS, throw, liftO.
  destruct (negb (has_endpoint s eid)); [done|]. destruct (parsed remote); [|done]. simpl.
  apply (forM_inv (same_view s)); [|done]. intros media s1 _ Hs1. etrans; [exact Hs1|].
  case_match; [apply answer_media_view|apply remote_offer_media_view].
Qed.

Lemma ss_set_local_description_view eid local s :
  same_view s (ss_set_local_description eid local s).1.
Proof.
  unfold ss_set_local_description, mbind, M_bind, getS, throw, liftO.
  destruct (parsed local); [|done]. simpl. destruct (negb (has_endpoint s eid)); [done|].
  case_match; [|done]. apply (forM_inv (same_view s)); [|done].
  intros media s1 _ Hs1. etrans; [exact Hs1|]. apply answer_media_view.
Qed.

Lemma create_offer_in_session_view eid ft s : same_view s (create_offer_in_session eid ft s).1.
Proof.
  unfold create_offer_in_session. unfold mbind at 1, M_bind at 1, getS at 1.
  unfold mbind at 1, M_bind at 1, liftO at 1.
  destruct (ss_endpoints s !! eid) as [e|] eqn:Ee; [|done]. simpl.
  apply (M_bind_inv (same_view s)); [by eapply same_view_insert|].
  intros _ s1 H1. do 4 (apply M_bind_inv; [done|]; clear s1 H1; intros ? s1 H1).
  apply M_bind_inv; [|done]. etrans; [exact H1|]. apply ss_set_local_description_view.
Qed.

Lemma open_in_session_view eid ft ah stream s :
  same_view s (open_in_session eid ft ah stream s).1.
Proof.
  unfold open_in_session, mbind, M_bind, getS, liftO, putS.
  destruct (ss_endpoints s !! eid) as [e|] eqn:Ee; [|done]. simpl.
  destruct (ep_transports e !! ft) as [t|] eqn:Et; [|done]. simpl.
  apply (same_view_insert _ _ e); [done|].
  set (e0 := set_renegotiation_needed _ _).
  assert (Hpush : ∀ l e1, endpoint_view (foldl push_transceiver e1 l) = endpoint_view e1).
  { induction l as [|x l IH]; intros e1; simpl; [done|]. by rewrite IH. }
  rewrite Hpush. unfold endpoint_view. simpl. f_equal. rewrite fmap_insert. apply insert_id.
  by rewrite lookup_fmap, Et.
Qed.

Lemma session_change_view s s' : session_change s s' → same_view s s'.
Proof.
  intros [| | | |]; [done|apply ss_set_remote_description_view|apply ss_set_local_description_view
    |apply create_offer_in_session_view|apply open_in_session_view].
Qed.

(** The time of the last activity of a connection. *)
Definition activity st (sid : SessionId) (eid : EndpointId) (ft : FourTuple) : option Instant :=
  tr_last_activity <$> connection st sid eid ft.

Lemma activity_view st sid eid ft :
  activity st sid eid ft =
  st_sessions st !! sid ≫= λ s, (endpoint_view <$> ss_endpoints s) !! eid ≫= λ v, v.2 !! ft.
Proof.
  unfold activity, connection, transport_at. destruct (st_sessions st !! sid) as [s|]; [|done]. simpl.
  rewrite lookup_fmap. destruct (ss_endpoints s !! eid) as [e|]; [|done]. simpl.
  by rewrite lookup_fmap.
Qed.

Lemma activity_change st sid0 s s' sid eid ft :
  st_sessions st !! sid0 = Some s → same_view s s' →
  activity (st_with_sessions st (<[sid0 := s']> (st_sessions st))) sid eid ft =
  activity st sid eid ft.
Proof.
  intros Hs [_ Hv]. rewrite !activity_view. simpl. rewrite lookup_insert.
  case_decide; subst; [|done]. rewrite Hs. simpl. by rewrite Hv.
Qed.

Lemma activity_update_transport st sid0 eid0 ft0 f sid eid ft :
  keeps_activity f →
  activity (update_transport st sid0 eid0 ft0 f) sid eid ft = activity st sid eid ft.
Proof.
  intros Hf. unfold activity. rewrite connection_update_transport. case_decide; [|done].
  destruct (connection st sid eid ft); [|done]. simpl. by rewrite (ka_activity _ Hf).
Qed.

Lemma activity_map_transports st f sid eid ft :
  keeps_activity f → activity (map_transports f st) sid eid ft = activity st sid eid ft.
Proof.
  intros Hf. unfold activity, connection, transport_at. simpl. rewrite lookup_fmap.
  destruct (st_sessions st !! sid) as [s|]; [|done]. simpl. rewrite lookup_fmap.
  destruct (ss_endpoints s !! eid) as [e|]; [|done]. simpl. rewrite lookup_fmap.
  destruct (ep_transports e !! ft); [|done]. simpl. by rewrite (ka_activity _ Hf).
Qed.

Lemma activity_update_endpoint st sid0 eid0 f sid eid ft :
  (∀ e, ep_transports (f e) = ep_transports e) →
  activity (update_endpoint st sid0 eid0 f) sid eid ft = activity st sid eid ft.
Proof.
  intros Hf. unfold activity, connection, transport_at. simpl. rewrite lookup_alter.
  case_decide; [subst|done]. destruct (st_sessions st !! sid) as [s|]; [|done]. simpl.
  rewrite lookup_alter. case_decide; [subst|done].
  destruct (ss_endpoints s !! eid) as [e|]; simpl; by rewrite ?Hf.
Qed.

Lemma activity_map_endpoints st g sid eid ft :
  activity (st_with_sessions st
    ((λ s, ss_with_endpoints s ((λ e, ep_with_interceptor e (g e)) <$> ss_endpoints s))
       <$> st_sessions st)) sid eid ft = activity st sid eid ft.
Proof.
  unfold activity, connection, transport_at. simpl. rewrite lookup_fmap.
  destruct (st_sessions st !! sid) as [s|]; [|done]. simpl. rewrite lookup_fmap.
  by destruct (ss_endpoints s !! eid).
Qed.

Lemma activity_create st sid0 sid eid ft :
  activity (create_or_get_mut_session sid0 st).1 sid eid ft = activity st sid eid ft.
Proof.
  unfold create_or_get_mut_session. case_match eqn:Es; [done|]. unfold activity. f_equal. simpl.
  rewrite connection_insert. case_decide; subst; [|done]. unfold connection. by rewrite Es.
Qed.

End views.

(** ** The specification *)

(** A room: the sessions that exist, the invitations still open by user name,
    the connected transports, and everyone who was ever invited. *)
Record Room := {
  rm_sessions : gset SessionId;
  rm_pending : gmap UserName (SessionId * EndpointId);
  rm_members : gset (SessionId * EndpointId * FourTuple);
  rm_invited : gset (SessionId * EndpointId)
}.

Definition room_empty : Room :=
  {| rm_sessions := ∅; rm_pending := ∅; rm_members := ∅; rm_invited := ∅ |}.

(** Who may act: signalling invites, a STUN request connects, alerts and timers
    close. *)
Inductive RoomAct := Act_Invite | Act_Connect | Act_Close.

Inductive room_step : RoomAct → Room → Room → Prop :=
| room_open r sid :
    room_step Act_Invite r
      {| rm_sessions := {[sid]} ∪ rm_sessions r; rm_pending := rm_pending r;
         rm_members := rm_members r; rm_invited := rm_invited r |}
| room_invite r u sid eid :
    sid ∈ rm_sessions r →
    room_step Act_Invite r
      {| rm_sessions := rm_sessions r; rm_pending := <[u := (sid, eid)]> (rm_pending r);
         rm_members := rm_members r; rm_invited := {[(sid, eid)]} ∪ rm_invited r |}
| room_connect r u sid eid ft :
    rm_pending r !! u = Some (sid, eid) → sid ∈ rm_sessions r → (sid, eid, ft) ∉ rm_members r →
    room_step Act_Connect r
      {| rm_sessions := rm_sessions r; rm_pending := rm_pending r;
         rm_members := {[(sid, eid, ft)]} ∪ rm_members r; rm_invited := rm_invited r |}
| room_disconnect r k :
    room_step Act_Close r
      {| rm_sessions := rm_sessions r; rm_pending := rm_pending r;
         rm_members := rm_members r ∖ {[k]}; rm_invited := rm_invited r |}
| room_withdraw r u :
    room_step Act_Close r
      {| rm_sessions := rm_sessions r; rm_pending := delete u (rm_pending r);
         rm_members := rm_members r; rm_invited := rm_invited r |}
| room_dissolve r sid :
    (∀ eid ft, (sid, eid, ft) ∉ rm_members r) →
    room_step Act_Close r
      {| rm_sessions := rm_sessions r ∖ {[sid]}; rm_pending := rm_pending r;
         rm_members := rm_members r; rm_invited := rm_invited r |}.

(** Several steps by the actors allowed. *)
Definition room_steps (allowed : RoomAct → Prop) : Room → Room → Prop :=
  rtc (λ r r', ∃ a, allowed a ∧ room_step a r r').

(** What holds in every room: nobody is connected, or can connect, who was not
    invited, and members are in a session that exists. *)
Record room_safe (r : Room) : Prop := {
  rs_pending u k : rm_pending r !! u = Some k → k ∈ rm_invited r;
  rs_members sid eid ft : (sid, eid, ft) ∈ rm_members r → (sid, eid) ∈ rm_invited r;
  rs_sessions sid eid ft : (sid, eid, ft) ∈ rm_members r → sid ∈ rm_sessions r
}.

Lemma room_step_safe a r r' : room_step a r r' → room_safe r → room_safe r'.
Proof.
  intros Hstep [H1 H2 H3].
  destruct Hstep as [r sid|r u sid eid Hs|r u sid eid ft Hu Hs Hn|r k|r u|r sid Hno]; split; simpl;
    try (intros; set_solver).
  - intros u' k. rewrite lookup_insert_Some. intros [[_ <-]|[_ H]]; set_solver.
  - intros u' k. rewrite lookup_delete_Some. intros [_ H]. by eapply H1.
Qed.

Lemma room_steps_safe allowed r r' : room_steps allowed r r' → room_safe r → room_safe r'.
Proof.
  induction 1 as [|r r1 r2 (a & _ & Hstep) _ IH]; [done|]. intros Hr. by eapply IH, room_step_safe.
Qed.

Lemma room_empty_safe : room_safe room_empty.
Proof. split; simpl; intros; set_solver. Qed.

Lemma room_steps_mono (a b : RoomAct → Prop) r r' :
  (∀ x, a x → b x) → room_steps a r r' → room_steps b r r'.
Proof.
  intros Hab. induction 1 as [|r r1 r2 (x & Hx & Hstep) _ IH]; [apply rtc_refl|].
  eapply rtc_l; [|exact IH]. eauto.
Qed.

(** ** The simulation *)

Section simulation.
Context `{O : SdpOps} `{CO : !ConfigOps} `{TO : !TransportOps} `{GO : !GatewayOps}
  `{RO : !RtpOps} `{HO : HashOrder}.
Implicit Types (st : ServerStates) (r : Room).

(** The room a server state stands for. *)
Record represents st r : Prop := {
  rp_sessions sid : sid ∈ rm_sessions r ↔ is_Some (st_sessions st !! sid);
  rp_pending u : rm_pending r !! u =
    (λ c, (cand_session_id c, cand_endpoint_id c)) <$> st_candidates st !! u;
  rp_members sid eid ft : (sid, eid, ft) ∈ rm_members r ↔ is_Some (activity st sid eid ft)
}.

(** Two states that stand for the same rooms. *)
Record same_room st st' : Prop := {
  sr_sessions sid : is_Some (st_sessions st' !! sid) ↔ is_Some (st_sessions st !! sid);
  sr_pending : st_candidates st' = st_candidates st;
  sr_members sid eid ft : is_Some (activity st' sid eid ft) ↔ is_Some (activity st sid eid ft)
}.

#[local] Instance same_room_preorder : PreOrder same_room.
Proof.
  split; [by split|]. intros st1 st2 st3 [A1 A2 A3] [B1 B2 B3]. split; [|congruence|].
  - intros. by rewrite B1, A1.
  - intros. by rewrite B3, A3.
Qed.

Lemma represents_same st st' r : same_room st st' → represents st r → represents st' r.
Proof.
  intros [A1 A2 A3] [H1 H2 H3]. split; intros.
  - by rewrite H1, A1.
  - by rewrite H2, A2.
  - by rewrite H3, A3.
Qed.

(** [st'] is reached from [st] by steps of the actors allowed. *)
Definition simulates (allowed : RoomAct → Prop) st st' : Prop :=
  ∀ r, represents st r → ∃ r', room_steps allowed r r' ∧ represents st' r'.

#[local] Instance simulates_preorder allowed : PreOrder (simulates allowed).
Proof.
  split.
  - intros st r Hr. exists r. split; [apply rtc_refl|done].
  - intros st1 st2 st3 H12 H23 r Hr. destruct (H12 r Hr) as (r2 & Hs2 & Hr2).
    destruct (H23 r2 Hr2) as (r3 & Hs3 & Hr3). exists r3. split; [by etrans|done].
Qed.

Lemma same_room_simulates allowed st st' : same_room st st' → simulates allowed st st'.
Proof. intros H r Hr. exists r. split; [apply rtc_refl|by eapply represents_same]. Qed.

Lemma session_changed_dom st sid0 s s' sid :
  st_sessions st !! sid0 = Some s →
  is_Some (<[sid0 := s']> (st_sessions st) !! sid) ↔ is_Some (st_sessions st !! sid).
Proof.
  intros Hs. rewrite lookup_insert. case_decide; subst; [|done]. rewrite Hs. split; by eexists.
Qed.

#[local] Instance same_room_stable st0 : Stable (same_room st0).
Proof.
  split.
  - intros st sid eid ft f Hf Hst. etrans; [exact Hst|]. split; [|done|].
    + intros sid'. simpl. rewrite lookup_alter. case_decide; subst; [|done]. by rewrite fmap_is_Some.
    + intros. by rewrite activity_update_transport.
  - intros st f Hf Hst. etrans; [exact Hst|]. split; [|done|].
    + intros sid'. simpl. by rewrite lookup_fmap, fmap_is_Some.
    + intros. by rewrite activity_map_transports.
  - intros st sid eid i _ Hst. etrans; [exact Hst|]. split; [|done|].
    + intros sid'. simpl. rewrite lookup_alter. case_decide; subst; [|done]. by rewrite fmap_is_Some.
    + intros. by rewrite activity_update_endpoint.
  - intros st g _ Hst. etrans; [exact Hst|]. split; [|done|].
    + intros sid'. simpl. by rewrite lookup_fmap, fmap_is_Some.
    + intros. by rewrite activity_map_endpoints.
Qed.

(** A stable property that a same room cannot violate. *)
#[local] Instance simulates_stable allowed st0 : Stable (simulates allowed st0).
Proof.
  assert (H : ∀ st st', same_room st st' → simulates allowed st0 st → simulates allowed st0 st').
  { intros st st' Hs Hst. etrans; [exact Hst|by apply same_room_simulates]. }
  split.
  - intros st sid eid ft f Hf. apply H. by apply stable_transport.
  - intros st f Hf. apply H. by apply stable_transports.
  - intros st sid eid i Hi. apply H. by apply stable_interceptor.
  - intros st g Hg. apply H. by apply stable_interceptors.
Qed.

(** *** Closing *)

Lemma removed_sessions st ft :
  (∀ sid, is_Some (st_sessions (st_remove_transport st ft) !! sid) ↔ is_Some (st_sessions st !! sid))
  ∨ ∃ sid0, ∀ sid, is_Some (st_sessions (st_remove_transport st ft) !! sid) ↔
                   is_Some (st_sessions st !! sid) ∧ sid ≠ sid0.
Proof.
  unfold st_remove_transport. destruct (find_endpoint st ft) as [[sid0 eid]|]; [|by left].
  destruct (st_sessions st !! sid0) as [s|] eqn:Es; [|by left].
  destruct (ss_endpoints s !! eid) as [e|]; [|by left]. simpl.
  set (st1 := if bool_decide _ then _ else _).
  assert (Hst : st_sessions (match ep_transports e !! ft with
                             | Some t => remove_candidate st1 (cand_username (tr_candidate t))
                             | None => st1 end) = st_sessions st1) by by case_match.
  rewrite Hst. unfold st1. case_bool_decide; [case_bool_decide|]; simpl.
  - right. exists sid0. intros sid. rewrite lookup_delete. case_decide; subst.
    + split; [by intros []|by intros []].
    + naive_solver.
  - left. intros. by apply session_changed_dom with s.
  - left. intros. by apply session_changed_dom with s.
Qed.

Lemma removed_candidates st ft :
  st_candidates (st_remove_transport st ft) = st_candidates st ∨
  ∃ u, st_candidates (st_remove_transport st ft) = delete u (st_candidates st).
Proof.
  unfold st_remove_transport. destruct (find_endpoint st ft) as [[sid0 eid]|]; [|by left].
  destruct (st_sessions st !! sid0) as [s|] eqn:Es; [|by left].
  destruct (ss_endpoints s !! eid) as [e|]; [|by left]. simpl.
  set (st1 := if bool_decide _ then _ else _).
  assert (H1 : st_candidates st1 = st_candidates st).
  { unfold st1. by repeat case_bool_decide. }
  destruct (ep_transports e !! ft) as [t|]; simpl; rewrite H1; eauto.
Qed.

Lemma removed_members st ft sid eid ft' :
  is_Some (activity (st_remove_transport st ft) sid eid ft') ↔
  is_Some (activity st sid eid ft') ∧ ¬ (find_endpoint st ft = Some (sid, eid) ∧ ft' = ft).
Proof.
  unfold activity. rewrite connection_removed. case_decide as Hd.
  - split; [by intros []|by intros []].
  - tauto.
Qed.

(** Steps that bring the sessions, the invitations and the members down to what
    the state has. *)
Lemma close_steps (allowed : RoomAct → Prop) st st' r :
  allowed Act_Close → represents st r →
  (∃ k, ∀ sid eid ft, is_Some (activity st' sid eid ft) ↔
        is_Some (activity st sid eid ft) ∧ Some (sid, eid, ft) ≠ k) →
  (st_candidates st' = st_candidates st ∨ ∃ u, st_candidates st' = delete u (st_candidates st)) →
  ((∀ sid, is_Some (st_sessions st' !! sid) ↔ is_Some (st_sessions st !! sid)) ∨
   ∃ sid0, ∀ sid, is_Some (st_sessions st' !! sid) ↔ is_Some (st_sessions st !! sid) ∧ sid ≠ sid0) →
  ∃ r', room_steps allowed r r' ∧ represents st' r'.
Proof.
  intros Ha [R1 R2 R3] [k Hk] Hc Hs.
  assert (Hstep : ∀ r1 r2, room_step Act_Close r1 r2 → room_steps allowed r1 r2).
  { intros r1 r2 H. apply rtc_once. eauto. }
  set (r1 := {| rm_sessions := rm_sessions r; rm_pending := rm_pending r;
                rm_members := match k with Some k => rm_members r ∖ {[k]} | None => rm_members r end;
                rm_invited := rm_invited r |}).
  assert (H1 : room_steps allowed r r1).
  { unfold r1. destruct k as [k|]; [apply Hstep, room_disconnect|]. by destruct r. }
  assert (M1 : ∀ sid eid ft, (sid, eid, ft) ∈ rm_members r1 ↔ is_Some (activity st' sid eid ft)).
  { intros sid eid ft. rewrite Hk. unfold r1. simpl. destruct k as [k|].
    - rewrite elem_of_difference, elem_of_singleton, R3. naive_solver.
    - rewrite R3. naive_solver. }
  assert (H2 : ∃ r2, room_steps allowed r1 r2 ∧ rm_sessions r2 = rm_sessions r1 ∧
    rm_members r2 = rm_members r1 ∧
    ∀ u, rm_pending r2 !! u = (λ c, (cand_session_id c, cand_endpoint_id c)) <$> st_candidates st' !! u).
  { destruct Hc as [Hc|[u Hc]].
    - exists r1. split_and!; [apply rtc_refl|done|done|]. intros u. by rewrite Hc, <- R2.
    - eexists. split_and!; [apply Hstep, (room_withdraw r1 u)|done|done|]. simpl. intros u'.
      rewrite Hc, !lookup_delete. case_decide; [done|apply R2]. }
  destruct H2 as (r2 & S2 & E1 & E2 & P2).
  destruct Hs as [Hs|[sid0 Hs]].
  - exists r2. split; [by etrans|]. split; [|done|by rewrite E2].
    intros sid. rewrite E1, Hs. apply R1.
  - assert (Hno : ∀ eid ft, (sid0, eid, ft) ∉ rm_members r2).
    { intros eid ft. rewrite E2, M1. unfold activity, connection.
      destruct (st_sessions st' !! sid0) eqn:E; [|by intros []].
      destruct (proj1 (Hs sid0)); [by rewrite E|done]. }
    eexists. split; [etrans; [exact H1|etrans; [exact S2|apply Hstep, (room_dissolve r2 sid0 Hno)]]|].
    split; simpl; [|done|by rewrite E2].
    intros sid. rewrite elem_of_difference, elem_of_singleton, E1, Hs. unfold r1. simpl. by rewrite R1.
Qed.

Lemma remove_simulates (allowed : RoomAct → Prop) st ft :
  allowed Act_Close → simulates allowed st (st_remove_transport st ft).
Proof.
  intros Ha r Hr. eapply close_steps; [done|exact Hr| |apply removed_candidates|apply removed_sessions].
  destruct (find_endpoint st ft) as [[sid0 eid0]|] eqn:Ef.
  - exists (Some (sid0, eid0, ft)). intros. rewrite removed_members, Ef. naive_solver.
  - exists None. intros. rewrite removed_members, Ef. naive_solver.
Qed.

Lemma simulates_removable (allowed : RoomAct → Prop) st0 :
  allowed Act_Close → Removable (simulates allowed st0).
Proof. intros Ha st ft Hst. etrans; [exact Hst|by apply remove_simulates]. Qed.

(** *** Inviting *)

Lemma create_simulates (allowed : RoomAct → Prop) st sid :
  allowed Act_Invite → simulates allowed st (create_or_get_mut_session sid st).1.
Proof.
  intros Ha r [R1 R2 R3]. eexists. split; [apply rtc_once; exists Act_Invite; split; [done|]; apply (room_open r sid)|].
  split; simpl.
  - intros sid'. rewrite elem_of_union, elem_of_singleton, R1.
    unfold create_or_get_mut_session. case_match eqn:E; simpl; [naive_solver|].
    rewrite lookup_insert. case_decide; subst; [split; [by eexists|by left]|]. naive_solver.
  - intros u. rewrite R2. unfold create_or_get_mut_session. by case_match.
  - intros. by rewrite R3, activity_create.
Qed.

Lemma invite_simulates (allowed : RoomAct → Prop) st c :
  allowed Act_Invite → is_Some (st_sessions st !! cand_session_id c) →
  simulates allowed st (add_candidate st c).
Proof.
  intros Ha Hs r [R1 R2 R3]. eexists. split.
  { apply rtc_once. exists Act_Invite. split; [done|].
    apply (room_invite r (cand_username c) (cand_session_id c) (cand_endpoint_id c)). by apply R1. }
  split; simpl; [done| |done]. intros u. rewrite !lookup_insert. by case_decide.
Qed.

Lemma change_same_room st sid s s' :
  st_sessions st !! sid = Some s → session_change s s' →
  same_room st (st_with_sessions st (<[sid := s']> (st_sessions st))).
Proof.
  intros Hs Hch%session_change_view. split; [|done|].
  - intros. by apply session_changed_dom with s.
  - intros. by rewrite (activity_change _ _ s).
Qed.

Lemma simulates_offer_stable (allowed : RoomAct → Prop) st0 asked :
  allowed Act_Invite → OfferStable asked (simulates allowed st0).
Proof.
  intros Ha. split.
  - intros st sid _ Hst. etrans; [exact Hst|by apply create_simulates].
  - intros st sid s s' Hs Hch Hst. etrans; [exact Hst|].
    by eapply same_room_simulates, change_same_room.
  - intros st c Hs Hst. etrans; [exact Hst|by apply invite_simulates].
Qed.

(** *** Connecting *)

Lemma add_endpoint_sessions env request c tc st sid :
  is_Some (st_sessions (gw_add_endpoint env request c tc st).1 !! sid) ↔
  is_Some (st_sessions st !! sid).
Proof.
  unfold gw_add_endpoint, mbind, M_bind, getS, liftO, mret, M_ret.
  destruct (st_sessions st !! cand_session_id c) as [s|] eqn:Es; simpl; [|done].
  destruct (match ss_endpoints s !! _ with Some _ => _ | None => _ end) as [ht new].
  destruct (negb _ || ht); [done|]. unfold on_session. rewrite Es.
  destruct (ss_add_endpoint _ _ _ s) as [s' []]; simpl; by apply session_changed_dom with s.
Qed.

Lemma admit_simulates (allowed : RoomAct → Prop) env request u c tc st :
  allowed Act_Connect → find_candidate st u = Some c →
  simulates allowed st (gw_add_endpoint env request c tc st).1.
Proof.
  intros Ha Hu r [R1 R2 R3]. pose proof (add_endpoint_sessions env request c tc st) as Hdom.
  destruct (gw_add_endpoint env request c tc st) as [st' res] eqn:E. simpl in *.
  apply gw_add_endpoint_opens in E as [->|(_ & t & _ & _ & Hnone & Hconn & _ & Hcand)].
  { exists r. split; [apply rtc_refl|by split]. }
  assert (Hact : ∀ sid eid ft, is_Some (activity st' sid eid ft) ↔
    is_Some (activity st sid eid ft) ∨
    (sid, eid, ft) = (cand_session_id c, cand_endpoint_id c, four_tuple_of tc)).
  { intros sid eid ft. unfold activity. rewrite Hconn, !fmap_is_Some. case_decide as Hd.
    - destruct Hd as (-> & -> & ->). rewrite Hnone. split; [by right|by eexists].
    - naive_solver. }
  eexists. split.
  { apply rtc_once. exists Act_Connect. split; [done|].
    apply (room_connect r u (cand_session_id c) (cand_endpoint_id c) (four_tuple_of tc)).
    - unfold find_candidate in Hu. by rewrite R2, Hu.
    - apply R1, Hdom. destruct (proj2 (Hact _ _ _) (or_intror eq_refl)) as [a Ha'].
      unfold activity, connection in Ha'. by destruct (st_sessions st' !! cand_session_id c).
    - rewrite R3. unfold activity. rewrite Hnone. by intros []. }
  split; simpl.
  - intros sid. by rewrite R1, Hdom.
  - intros u'. by rewrite R2, Hcand.
  - intros sid eid ft. rewrite elem_of_union, elem_of_singleton, R3, Hact. tauto.
Qed.

Lemma touch_same_room st sid eid ft now :
  same_room st (update_transport st sid eid ft (keep_alive now)).
Proof.
  split; [|done|].
  - intros sid'. simpl. rewrite lookup_alter. case_decide; subst; [|done]. by rewrite fmap_is_Some.
  - intros sid' eid' ft'. unfold activity. rewrite connection_update_transport, !fmap_is_Some.
    case_decide; [by rewrite fmap_is_Some|done].
Qed.

Lemma simulates_visited (allowed : RoomAct → Prop) st0 ft :
  allowed Act_Connect → Visited ft (simulates allowed st0).
Proof.
  intros Ha. split.
  - intros st sid eid now _ Hst. etrans; [exact Hst|]. apply same_room_simulates, touch_same_room.
  - intros env request u c tc st _ Hu Hst. etrans; [exact Hst|by eapply admit_simulates].
Qed.

Lemma new_represents config addr st :
  server_states_new config addr = Ok st → represents st room_empty.
Proof.
  unfold server_states_new. intros (cert & _ & H)%bind_ok_inv.
  apply bind_ok_inv in H as (fp & _ & [= <-]). split; simpl; intros.
  - rewrite lookup_empty. split; [by intros ?%not_elem_of_empty|by intros []].
  - done.
  - unfold activity, connection. simpl. rewrite lookup_empty.
    split; [by intros ?%not_elem_of_empty|by intros []].
Qed.

End simulation.

(** ** Refinement *)

Section refinement.
Context `{O : SdpOps} `{CO : !ConfigOps} `{TO : !TransportOps} `{RO : !RtpOps} `{GO : !GatewayOps}
  `{SC : !StunCodec} `{SR : !SrtpOps} `{DC : !DcepOps} `{DO : !DtlsOps} `{SO : !SctpOps}
  `{HO : HashOrder}.
Implicit Types (st : ServerStates) (p : Pipeline).

#[local] Existing Instances simulates_stable simulates_preorder.

Lemma read_simulates env msg p :
  simulates (λ _, True) (pl_states p) (pl_states (pipeline_read env msg p).1).
Proof.
  pose proof (simulates_removable (λ _, True) (pl_states p) I).
  pose proof (λ asked, simulates_offer_stable (λ _, True) (pl_states p) asked I).
  pose proof (λ ft, simulates_visited (λ _, True) (pl_states p) ft I).
  by apply (pipeline_read_stable _ (tb_transport msg)).
Qed.

Lemma timeout_simulates now p :
  simulates (λ a, a = Act_Close) (pl_states p) (pl_states (pipeline_handle_timeout p now).1).
Proof.
  pose proof (simulates_removable (λ a, a = Act_Close) (pl_states p) eq_refl).
  by apply (pipeline_handle_timeout_stable (simulates (λ a, a = Act_Close) (pl_states p))).
Qed.

Lemma transmit_simulates p :
  simulates (λ _, False) (pl_states p) (pl_states (pipeline_poll_transmit p).1.1).
Proof. by apply (pipeline_poll_transmit_stable (simulates (λ _, False) (pl_states p))). Qed.

Lemma signal_simulates env request st :
  simulates (λ a, a = Act_Invite) st (handle_signaling_message env request st).1.
Proof.
  pose proof (λ asked, simulates_offer_stable (λ a, a = Act_Invite) st asked eq_refl).
  by apply (handle_signaling_message_stable (λ _, True) (simulates (λ a, a = Act_Invite) st)).
Qed.

(** A step of the loop and the actors it may involve. *)
Inductive acting_step : (RoomAct → Prop) → Pipeline → Pipeline → Prop :=
| acting_datagram env msg p : acting_step (λ _, True) p (pipeline_read env msg p).1
| acting_timer now p : acting_step (λ a, a = Act_Close) p (pipeline_handle_timeout p now).1
| acting_transmit p : acting_step (λ _, False) p (pipeline_poll_transmit p).1.1
| acting_signal env request p :
    acting_step (λ a, a = Act_Invite) p
      (with_states p (handle_signaling_message env request (pl_states p)).1).

Lemma acting_step_simulates allowed p p' :
  acting_step allowed p p' → simulates allowed (pl_states p) (pl_states p').
Proof.
  intros [env msg q|now q|q|env request q].
  - apply read_simulates.
  - apply timeout_simulates.
  - apply transmit_simulates.
  - apply signal_simulates.
Qed.

Lemma pipeline_step_acting p p' : pipeline_step p p' ↔ ∃ allowed, acting_step allowed p p'.
Proof.
  split.
  - intros []; eexists; constructor.
  - intros (allowed & []); constructor.
Qed.

Lemma reachable_room p0 p :
  rtc pipeline_step p0 p → simulates (λ _, True) (pl_states p0) (pl_states p).
Proof.
  induction 1 as [|p1 p2 p3 (allowed & Hstep)%pipeline_step_acting _ IH]; [done|].
  etrans; [|exact IH]. intros r Hr.
  destruct (acting_step_simulates _ _ _ Hstep r Hr) as (r' & Hs & Hr'). exists r'.
  split; [|done]. by eapply room_steps_mono.
Qed.

(** C4. The server implements the room: every state it can reach stands for a
    room that the specification reaches from the empty one, in which nobody is
    connected, or holds an open invitation, who was not invited, and every
    member's session exists.  From there each action of the loop is matched by
    steps of its actors only: writing to the socket changes nothing, a timer
    only closes, signalling only invites, and a datagram may also connect. *)
Theorem server_refines_room config addr st now p :
  server_states_new config addr = Ok st →
  rtc pipeline_step (build_pipeline now addr st) p →
  ∃ r, room_steps (λ _, True) room_empty r ∧ represents (pl_states p) r ∧ room_safe r ∧
    ∀ allowed p', acting_step allowed p p' →
      ∃ r', room_steps allowed r r' ∧ represents (pl_states p') r' ∧ room_safe r'.
Proof.
  intros Hnew Hsteps. apply reachable_room in Hsteps.
  destruct (Hsteps room_empty) as (r & Hr & Hrep); [by eapply new_represents|].
  assert (Hsafe : room_safe r) by (by eapply room_steps_safe, room_empty_safe).
  exists r. split_and!; [done..|]. intros allowed p' Hstep.
  destruct (acting_step_simulates _ _ _ Hstep r Hrep) as (r' & Hr' & Hrep').
  exists r'. split_and!; [done..|]. by eapply room_steps_safe.
Qed.

End refinement.
