(* ===== verification/Runs.v ===== *)
(** * Properties of every run

    Three consequences of the interface of [Stable] and [Gateway]: the
    interceptor chain of every endpoint is the one its configuration asks for,
    a connection whose four tuple another endpoint takes over is never removed,
    and a connection that falls silent is closed in bounded time. *)

From Stdlib Require Import ZArith Lia.
From stdpp Require Import base numbers strings fin_maps gmap list.
From S2P Require Import Prelude RustStr Enums Types Sdp Codec ReceiverStream.
From S2P Require Import Interceptors MediaParse MediaConfig Config Endpoint.
From S2P Require Import Description Session ServerStates Stable Demux Gateway Srtp.
From S2P Require Import DataChannel InterceptorHandler Dtls Sctp Pipeline Room.

(** ** Interceptor chains *)

(** The number of sender-report interceptors in a chain; the default
    configuration of the server has one. *)
Fixpoint sender_reports (i : Interceptor) : nat :=
  match i with
  | NoOp | ReceiverReport _ _ _ None => 0
  | ReceiverReport _ _ _ (Some n) => sender_reports n
  | SenderReport None => 1
  | SenderReport (Some n) => S (sender_reports n)
  end.

Section chains.
Context `{O : SdpOps} `{CO : !ConfigOps} `{TO : !TransportOps} `{RO : !RtpOps} `{GO : !GatewayOps}
  `{SC : !StunCodec} `{SR : !SrtpOps} `{DC : !DcepOps} `{DO : !DtlsOps} `{SO : !SctpOps}
  `{HO : HashOrder}.
Implicit Types (st : ServerStates) (p : Pipeline).

Lemma sender_reports_build r now : sender_reports (registry_build r now) = sender_builders r.
Proof.
  induction r as [|b r IH]; [done|]. rewrite registry_build_cons. unfold sender_builders in *.
  destruct b as [[] iv]; simpl; by rewrite IH.
Qed.

Lemma sender_reports_step i i' : interceptor_step i i' → sender_reports i' = sender_reports i.
Proof.
  intros [j msg|j msg|j now fts];
    induction j as [|d eto m|d eto m n IH| |n IH] using Interceptor_chain_ind; simpl; try done;
    try (destruct (interceptor_read n msg); simpl in * );
    try (destruct (interceptor_write n msg); simpl in * );
    try (destruct (interceptor_handle_timeout n now fts); simpl in * ); congruence.
Qed.

Lemma interceptor_read_copies i msg :
  (interceptor_read i msg).2 = concat (replicate (sender_reports i) (sr_forward msg)).
Proof.
  induction i as [|d eto m|d eto m n IH| |n IH] using Interceptor_chain_ind; simpl; try done;
    rewrite ?app_nil_r; try done; destruct (interceptor_read n msg); simpl in *; by subst.
Qed.

(** A chain with [n] sender reports and no stream. *)
Definition chain_ok (n : nat) (i : Interceptor) : Prop := sender_reports i = n ∧ no_streams i.

Lemma chain_ok_step n i i' : interceptor_step i i' → chain_ok n i → chain_ok n i'.
Proof.
  intros Hstep [H1 H2]. split; [by rewrite (sender_reports_step i)|].
  by eapply interceptor_step_no_streams.
Qed.

(** Every interceptor of the server is the chain of the configuration. *)
Record chains_ok (config : ServerConfig) st : Prop := {
  ck_server : server_ok st;
  ck_config : st_server_config st = config;
  ck_chain sid s eid v : st_sessions st !! sid = Some s →
    (endpoint_view <$> ss_endpoints s) !! eid = Some v →
    chain_ok (sender_builders (mc_registry (media_config config))) v.1
}.

Lemma lookup_view s eid v :
  (endpoint_view <$> ss_endpoints s) !! eid = Some v ↔
  ∃ e, ss_endpoints s !! eid = Some e ∧ v = endpoint_view e.
Proof. rewrite lookup_fmap, fmap_Some. done. Qed.

#[local] Instance chains_ok_stable config : Stable (chains_ok config).
Proof.
  split.
  - intros st sid eid ft f Hf [H1 H2 H3]. split; [by apply stable_transport|done|].
    intros sid' s' eid' v. simpl. rewrite lookup_alter_Some.
    intros [(<- & s & Hs & ->)|[_ Hs']]; [|by eapply H3]. rewrite lookup_view. simpl.
    intros (e' & He' & ->). apply lookup_alter_Some in He' as [(<- & e & He & ->)|[_ He']].
    + apply (H3 _ _ eid (endpoint_view e) Hs), lookup_view. eauto.
    + apply (H3 _ _ eid' (endpoint_view e') Hs), lookup_view. eauto.
  - intros st f Hf [H1 H2 H3]. split; [by apply stable_transports|done|].
    intros sid' s' eid' v. simpl. rewrite lookup_fmap, fmap_Some. intros (s & Hs & ->).
    rewrite lookup_view. simpl. intros (e' & He' & ->).
    rewrite lookup_fmap, fmap_Some in He'. destruct He' as (e & He & ->).
    apply (H3 _ _ eid' (endpoint_view e) Hs), lookup_view. eauto.
  - intros st sid eid i Hi [H1 H2 H3]. split; [by apply stable_interceptor|done|].
    intros sid' s' eid' v. simpl. rewrite lookup_alter_Some.
    intros [(<- & s & Hs & ->)|[_ Hs']]; [|by eapply H3]. rewrite lookup_view. simpl.
    intros (e' & He' & ->). apply lookup_alter_Some in He' as [(<- & e & He & ->)|[_ He']].
    + eapply chain_ok_step; [by eapply Hi|].
      apply (H3 _ _ eid (endpoint_view e) Hs), lookup_view. eauto.
    + apply (H3 _ _ eid' (endpoint_view e') Hs), lookup_view. eauto.
  - intros st g Hg [H1 H2 H3]. split; [by apply stable_interceptors|done|].
    intros sid' s' eid' v. simpl. rewrite lookup_fmap, fmap_Some. intros (s & Hs & ->).
    rewrite lookup_view. simpl. intros (e' & He' & ->).
    rewrite lookup_fmap, fmap_Some in He'. destruct He' as (e & He & ->).
    eapply chain_ok_step; [by apply Hg|].
    apply (H3 _ _ eid' (endpoint_view e) Hs), lookup_view. eauto.
Qed.

(** Removing a transport adds no endpoint and changes no interceptor. *)
Lemma removed_interceptors st ft sid s' eid v' :
  st_sessions (st_remove_transport st ft) !! sid = Some s' →
  (endpoint_view <$> ss_endpoints s') !! eid = Some v' →
  ∃ s v, st_sessions st !! sid = Some s ∧ (endpoint_view <$> ss_endpoints s) !! eid = Some v ∧
         v'.1 = v.1.
Proof.
  unfold st_remove_transport. destruct (find_endpoint st ft) as [[sid0 eid0]|]; [|eauto].
  destruct (st_sessions st !! sid0) as [s|] eqn:Es; [|eauto].
  destruct (ss_endpoints s !! eid0) as [e|] eqn:Ee; [|eauto]. simpl.
  set (st1 := if bool_decide _ then _ else _). intros Hs'.
  assert (Hs1 : st_sessions st1 !! sid = Some s') by by (destruct (ep_transports e !! ft)).
  clear Hs'. revert Hs1. unfold st1. case_bool_decide; [case_bool_decide|]; simpl.
  - rewrite lookup_delete_Some. intros [_ ?]. eauto.
  - rewrite lookup_insert_Some. intros [[<- <-]|[_ ?]]; [|eauto]. simpl.
    rewrite fmap_delete, lookup_delete_Some. intros [_ Hv]. eauto.
  - rewrite lookup_insert_Some. intros [[<- <-]|[_ ?]]; [|eauto]. simpl.
    rewrite fmap_insert, lookup_insert_Some. intros [[<- <-]|[_ Hv]]; [|eauto].
    exists s, (endpoint_view e). split_and!; [done| |done]. apply lookup_view. eauto.
Qed.

#[local] Instance chains_ok_removable config : Removable (chains_ok config).
Proof.
  intros st ft [H1 H2 H3]. split; [by apply stable_remove| |].
  - unfold st_remove_transport. repeat (case_match; simplify_eq/=; try done).
  - intros sid s' eid v' Hs' Hv'.
    destruct (removed_interceptors _ _ _ _ _ _ Hs' Hv') as (s & v & Hs & Hv & ->). by eapply H3.
Qed.

#[local] Instance chains_ok_offer_stable config asked : OfferStable asked (chains_ok config).
Proof.
  split.
  - intros st sid Hn [H1 H2 H3]. split; [by eapply stable_create| |].
    + unfold create_or_get_mut_session. by case_match.
    + intros sid' s' eid v. unfold create_or_get_mut_session. case_match; simpl; [by eapply H3|].
      rewrite lookup_insert_Some. intros [[<- <-]|[_ ?]]; [|by eapply H3]. simpl.
      by rewrite fmap_empty, lookup_empty.
  - intros st sid s s' Hs Hch [H1 H2 H3]. split; [by eapply (stable_session (asked := asked))|done|].
    intros sid' s1 eid v. simpl. rewrite lookup_insert_Some.
    intros [[<- <-]|[_ ?]]; [|by eapply H3].
    apply session_change_view in Hch as [_ Hv]. rewrite Hv. by eapply H3.
  - intros st c Hs [H1 H2 H3]. split; [by apply (stable_invite (asked := asked))|done|done].
Qed.

#[local] Instance chains_ok_visited config ft : Visited ft (chains_ok config).
Proof.
  split.
  - intros st sid eid now Hf [H1 H2 H3]. split; [by eapply stable_touch|done|].
    intros sid' s' eid' v. simpl. rewrite lookup_alter_Some.
    intros [(<- & s & Hs & ->)|[_ Hs']]; [|by eapply H3]. rewrite lookup_view. simpl.
    intros (e' & He' & ->). apply lookup_alter_Some in He' as [(<- & e & He & ->)|[_ He']].
    + apply (H3 _ _ eid (endpoint_view e) Hs), lookup_view. eauto.
    + apply (H3 _ _ eid' (endpoint_view e') Hs), lookup_view. eauto.
  - intros env request u c tc st Hft Hu [H1 H2 H3]. split; [by eapply stable_admit| |].
    + unfold gw_add_endpoint, mbind, M_bind, getS, liftO, mret, M_ret, on_session.
      repeat (case_match; simplify_eq/=; try done).
    + unfold gw_add_endpoint, mbind, M_bind, getS, liftO, mret, M_ret.
      destruct (st_sessions st !! cand_session_id c) as [s|] eqn:Es; simpl; [|apply H3].
      destruct (match ss_endpoints s !! _ with Some _ => _ | None => _ end) as [ht new].
      destruct (negb _ || ht); [apply H3|]. unfold on_session. rewrite Es.
      pose proof (so_config _ _ _ (sv_sessions _ H1 _ _ Es)) as Hcfg.
      assert (Hadd : ∀ eid v, (endpoint_view <$> ss_endpoints (ss_add_endpoint (env_now env) c tc s).1)
        !! eid = Some v → chain_ok (sender_builders (mc_registry (media_config config))) v.1).
      { intros eid v. unfold ss_add_endpoint.
        destruct (ss_endpoints s !! cand_endpoint_id c) as [e|] eqn:Ee.
        - case_match; [by eapply H3|]. simpl. rewrite fmap_insert, lookup_insert_Some.
          intros [[<- <-]|[_ ?]]; [|by eapply H3].
          apply (H3 _ _ (cand_endpoint_id c) (endpoint_view e) Es), lookup_view. eauto.
        - simpl. rewrite fmap_insert, lookup_insert_Some. intros [[<- <-]|[_ ?]]; [|by eapply H3].
          rewrite Hcfg. simpl. rewrite H2. split; [apply sender_reports_build|apply registry_no_streams]. }
      destruct (ss_add_endpoint (env_now env) c tc s) as [s' []]; simpl in *;
        intros sid s1 eid v; rewrite lookup_insert_Some;
        (intros [[<- <-]|[_ ?]]; [by apply Hadd|by eapply H3]).
Qed.

(** The packets of an RTCP message that go beyond one hop: all but receiver
    reports and transport-wide feedback, in their order. *)
Definition end_to_end (ps : list RtcpPacket) : list RtcpPacket :=
  filter (λ r, rtcp_packet_type r ≠ Pt_ReceiverReport ∧
               rtcp_packet_type r ≠ Pt_TransportSpecificFeedback) ps.

Lemma filter_end_to_end ps : List.filter (λ r, negb (hop_by_hop r)) ps = end_to_end ps.
Proof.
  unfold end_to_end. induction ps as [|r ps IH]; [done|]. rewrite filter_cons, <- IH. simpl.
  unfold hop_by_hop. repeat case_bool_decide; case_decide; simpl; tauto.
Qed.

Lemma replicate_forward n msg :
  concat (replicate n (sr_forward msg)) =
  match tm_message msg with
  | Ev_Rtp (Rtp_Rtcp ps) =>
      if decide (end_to_end ps = []) then []
      else replicate n (Inbound {| tm_now := tm_now msg; tm_transport := tm_transport msg;
                                   tm_message := Ev_Rtp (Rtp_Rtcp (end_to_end ps)) |})
  | _ => []
  end.
Proof.
  unfold sr_forward. destruct (tm_message msg) as [| |[| |ps]]; try by induction n.
  rewrite filter_end_to_end. destruct (end_to_end ps) as [|q qs]; case_decide; try done;
    induction n as [|n IH]; simpl; by rewrite ?IH.
Qed.

(** C29. Every endpoint has the interceptors its configuration asks for: in
    every reachable state the chain of every endpoint treats an inbound RTCP
    message as follows, with [n] the number of sender-report builders of the
    server's registry (one where [configure_rtcp_reports] is called once).  Receiver reports and
    transport-wide feedback are taken out; when no packet is left, nothing is
    handed on; else the rest is handed on [n] times, with the time and the
    transport of the message.  For any other message the chain emits nothing,
    and its timers emit nothing: no report is ever generated. *)
Theorem reachable_interceptor_chains config addr st now p sid s eid e :
  server_states_new config addr = Ok st →
  rtc pipeline_step (build_pipeline now addr st) p →
  st_sessions (pl_states p) !! sid = Some s → ss_endpoints s !! eid = Some e →
  (∀ msg, (interceptor_read (ep_interceptor e) msg).2 =
     match tm_message msg with
     | Ev_Rtp (Rtp_Rtcp ps) =>
         if decide (end_to_end ps = []) then []
         else replicate (sender_builders (mc_registry (media_config config)))
                (Inbound {| tm_now := tm_now msg; tm_transport := tm_transport msg;
                            tm_message := Ev_Rtp (Rtp_Rtcp (end_to_end ps)) |})
     | _ => []
     end) ∧
  (∀ now fts, (interceptor_handle_timeout (ep_interceptor e) now fts).2 = []).
Proof.
  intros Hnew Hsteps Hs He.
  assert (Hst : chains_ok config (pl_states (build_pipeline now addr st))).
  { unfold server_states_new in Hnew. pose proof Hnew as Hok.
    apply bind_ok_inv in Hnew as (cert & _ & H). apply bind_ok_inv in H as (fp & _ & [= <-]).
    split; [by eapply server_states_new_ok|done|]. simpl. intros ? ? ? ?. by rewrite lookup_empty. }
  assert (Hp : chains_ok config (pl_states p)).
  { induction Hsteps as [|x y z Hxy _ IH]; [done|]. by apply IH, (pipeline_step_stable (chains_ok config) x). }
  destruct (ck_chain _ _ Hp sid s eid (endpoint_view e) Hs) as [Hn Hno]; [apply lookup_view; eauto|].
  split; [|intros; by apply no_streams_no_reports]. intros msg.
  rewrite <- replicate_forward, <- Hn. apply interceptor_read_copies.
Qed.

End chains.

(** ** Orphaned connections *)

Section orphans.
Context `{O : SdpOps} `{CO : !ConfigOps} `{TO : !TransportOps} `{RO : !RtpOps} `{GO : !GatewayOps}
  `{SC : !StunCodec} `{SR : !SrtpOps} `{DC : !DcepOps} `{DO : !DtlsOps} `{SO : !SctpOps}
  `{HO : HashOrder}.
Implicit Types (st : ServerStates) (p : Pipeline).

(** A connection, last active at [a], that the table does not lead to. *)
Definition orphaned (sid : SessionId) (eid : EndpointId) (ft : FourTuple) (a : Instant) st : Prop :=
  activity st sid eid ft = Some a ∧ find_endpoint st ft ≠ Some (sid, eid).

Lemma orphaned_same sid eid ft a st st' :
  activity st' sid eid ft = activity st sid eid ft → st_endpoints st' = st_endpoints st →
  orphaned sid eid ft a st → orphaned sid eid ft a st'.
Proof. unfold orphaned, find_endpoint. by intros -> ->. Qed.

#[local] Instance orphaned_stable sid eid ft a : Stable (orphaned sid eid ft a).
Proof.
  split.
  - intros st sid' eid' ft' f Hf. apply orphaned_same; [by apply activity_update_transport|done].
  - intros st f Hf. apply orphaned_same; [by apply activity_map_transports|done].
  - intros st sid' eid' i _. apply orphaned_same; [by apply activity_update_endpoint|done].
  - intros st g _. apply orphaned_same; [by apply activity_map_endpoints|done].
Qed.

#[local] Instance orphaned_removable sid eid ft a : Removable (orphaned sid eid ft a).
Proof.
  intros st ft0 [Ha Hf]. split; [|by intros H%find_endpoint_removed].
  unfold activity in *. rewrite connection_removed, decide_False; [done|]. naive_solver.
Qed.

#[local] Instance orphaned_offer_stable sid eid ft a asked : OfferStable asked (orphaned sid eid ft a).
Proof.
  split.
  - intros st sid' _. apply orphaned_same; [apply activity_create|].
    unfold create_or_get_mut_session. by case_match.
  - intros st sid' s s' Hs Hch%session_change_view.
    apply orphaned_same; [by eapply activity_change|done].
  - intros st c _. by apply orphaned_same.
Qed.

(** Media at the four tuple belongs to the endpoint in the table, and a request
    that would file the connection again is ignored because it is there. *)
#[local] Instance orphaned_visited sid eid ft a ft0 : Visited ft0 (orphaned sid eid ft a).
Proof.
  split.
  - intros st sid' eid' now Hf [Ha Hn]. split; [|done]. unfold activity in *.
    rewrite connection_update_transport, decide_False; [done|]. naive_solver.
  - intros env request u c tc st _ _ [Ha Hn].
    destruct (gw_add_endpoint env request c tc st) as [st' r] eqn:E. simpl.
    apply gw_add_endpoint_opens in E as [->|(_ & t & _ & _ & Hnew & Hconn & Htab & _)]; [done|].
    unfold orphaned, activity, find_endpoint in *. rewrite Hconn, Htab, lookup_insert_Some.
    case_decide as Hd; [destruct Hd as (-> & -> & ->); by rewrite Hnew in Ha|].
    split; [done|]. naive_solver.
Qed.

(** C36. A transport that shares its four tuple is never removed: when a request
    opens a transport at a four tuple that is still a transport of another
    endpoint, the table leads to the new endpoint, and from then on, whatever
    datagrams, idle timers and signalling requests follow and however much time
    passes, the older connection stays in its session, with the time of its
    last activity before, and the table never leads to it again. *)
Theorem reused_four_tuple_leaks st c ft t sid eid t0 p p' :
  opened st (pl_states p) c ft t → connection st sid eid ft = Some t0 →
  (sid, eid) ≠ (cand_session_id c, cand_endpoint_id c) →
  rtc pipeline_step p p' →
  ∃ t', connection (pl_states p') sid eid ft = Some t' ∧
    tr_last_activity t' = tr_last_activity t0 ∧
    find_endpoint (pl_states p') ft ≠ Some (sid, eid).
Proof.
  intros (_ & Hc & He & _) Hold Hne Hsteps.
  assert (H : orphaned sid eid ft (tr_last_activity t0) (pl_states p)).
  { unfold orphaned, activity, find_endpoint. rewrite Hc, He, lookup_insert_eq, decide_False, Hold
      by naive_solver. naive_solver. }
  assert (H' : orphaned sid eid ft (tr_last_activity t0) (pl_states p')).
  { clear -H Hsteps. induction Hsteps as [|x y z Hxy _ IH]; [done|].
    by apply IH, (pipeline_step_stable (orphaned _ _ _ _) x). }
  destruct H' as [Ha Hf]. apply fmap_Some in Ha as (t' & Ht & Hl). by exists t'.
Qed.

End orphans.

(** ** Silent connections *)

Section silence.
Context `{O : SdpOps} `{CO : !ConfigOps} `{TO : !TransportOps} `{RO : !RtpOps} `{GO : !GatewayOps}
  `{SC : !StunCodec} `{SR : !SrtpOps} `{DC : !DcepOps} `{DO : !DtlsOps} `{SO : !SctpOps}
  `{HO : HashOrder}.
Implicit Types (st : ServerStates) (p : Pipeline).

(** A connection that was last active at [a], or is closed. *)
Definition silent_since (sid : SessionId) (eid : EndpointId) (ft : FourTuple) (a : Instant) st : Prop :=
  activity st sid eid ft = None ∨
  activity st sid eid ft = Some a ∧ find_endpoint st ft = Some (sid, eid).

Lemma silent_same sid eid ft a st st' :
  activity st' sid eid ft = activity st sid eid ft → st_endpoints st' = st_endpoints st →
  silent_since sid eid ft a st → silent_since sid eid ft a st'.
Proof. unfold silent_since, find_endpoint. by intros -> ->. Qed.

#[local] Instance silent_stable sid eid ft a : Stable (silent_since sid eid ft a).
Proof.
  split.
  - intros st sid' eid' ft' f Hf. apply silent_same; [by apply activity_update_transport|done].
  - intros st f Hf. apply silent_same; [by apply activity_map_transports|done].
  - intros st sid' eid' i _. apply silent_same; [by apply activity_update_endpoint|done].
  - intros st g _. apply silent_same; [by apply activity_map_endpoints|done].
Qed.

Lemma removed_activity st ft0 sid eid ft :
  activity (st_remove_transport st ft0) sid eid ft =
  if decide (find_endpoint st ft0 = Some (sid, eid) ∧ ft = ft0) then None
  else activity st sid eid ft.
Proof. unfold activity. rewrite connection_removed. by case_decide. Qed.

#[local] Instance silent_removable sid eid ft a : Removable (silent_since sid eid ft a).
Proof.
  intros st ft0 Hs. unfold silent_since. rewrite removed_activity. case_decide as Hd; [by left|].
  destruct Hs as [->|[-> Hf]]; [by left|]. right. split; [done|].
  rewrite find_endpoint_removed_other; [done|]. naive_solver.
Qed.

#[local] Instance silent_offer_stable sid eid ft a asked : OfferStable asked (silent_since sid eid ft a).
Proof.
  split.
  - intros st sid' _. apply silent_same; [apply activity_create|].
    unfold create_or_get_mut_session. by case_match.
  - intros st sid' s s' Hs Hch%session_change_view.
    apply silent_same; [by eapply activity_change|done].
  - intros st c _. by apply silent_same.
Qed.

Lemma silent_visited sid eid ft a ft0 :
  ft0 ≠ ft → Visited ft0 (silent_since sid eid ft a).
Proof.
  intros Hne. split.
  - intros st sid' eid' now _. apply silent_same; [|done]. unfold activity.
    rewrite connection_update_transport, decide_False; [done|]. naive_solver.
  - intros env request u c tc st Htc _ Hs.
    destruct (gw_add_endpoint env request c tc st) as [st' r] eqn:E. simpl.
    apply gw_add_endpoint_opens in E as [->|(_ & t & _ & _ & _ & Hconn & Htab & _)]; [done|].
    unfold silent_since, activity, find_endpoint in *.
    rewrite Hconn, Htab, decide_False, lookup_insert_ne by naive_solver. done.
Qed.

(** A step of the loop that reads no datagram from the four tuple. *)
Inductive other_step (ft : FourTuple) : Pipeline → Pipeline → Prop :=
| other_datagram env msg p :
    four_tuple_of (tb_transport msg) ≠ ft → other_step ft p (pipeline_read env msg p).1
| other_timer now p : other_step ft p (pipeline_handle_timeout p now).1
| other_transmit p : other_step ft p (pipeline_poll_transmit p).1.1
| other_signal env request p :
    other_step ft p (with_states p (handle_signaling_message env request (pl_states p)).1).

(** *** The gateway's timer *)

(** Only the timer moves the gateway's timer. *)
Definition same_timer p p' : Prop :=
  gw_next_timeout (pl_gateway p') = gw_next_timeout (pl_gateway p) ∧
  gw_idle_timeout (pl_gateway p') = gw_idle_timeout (pl_gateway p).

#[local] Instance same_timer_preorder : PreOrder same_timer.
Proof. split; [done|]. intros p1 p2 p3 [] []. split; congruence. Qed.

Lemma run_effects_timer (next : TaggedMessageEvent → Pipeline → Pipeline * list Error) effects p :
  (∀ m q, same_timer q (next m q).1) → same_timer p (run_effects next effects p).1.
Proof.
  intros Hn. revert p. induction effects as [|[m|e] effects IH]; intros p; simpl; [done| |].
  - pose proof (Hn m p) as Hp. destruct (next m p) as [p1 e1]. specialize (IH p1).
    destruct (run_effects next effects p1). simpl in *. by etrans.
  - specialize (IH p). by destruct (run_effects next effects p).
Qed.

Lemma gateway_read_timer env m p : same_timer p (gateway_read env m p).1.
Proof.
  unfold gateway_read.
  assert (H : ∀ st, same_timer p (with_gateway p (gw_handle_read env (pl_gateway p) (pl_states p) m).1.1 st)).
  { intros st. unfold gw_handle_read. by destruct (gw_try_read env m (pl_states p)) as [? []]. }
  destruct (gw_handle_read _ _ _ _) as [[h st] r]. etrans; [apply (H st)|]. simpl.
  apply run_effects_timer. intros m' q. unfold exception_read. by apply run_effects_timer.
Qed.

Lemma pipeline_read_timer env msg p : same_timer p (pipeline_read env msg p).1.
Proof.
  unfold pipeline_read. apply run_effects_timer. clear. intros m p. unfold stun_stage.
  apply run_effects_timer. clear. intros m p. unfold dtls_stage.
  destruct (dtls_handle_read _ _ _) as [[h1 st1] r1]. etrans; [|apply run_effects_timer]; [done|].
  clear. intros m p. unfold sctp_stage. destruct (sctp_handle_read _ _ _) as [[h1 st1] r1].
  etrans; [|apply run_effects_timer]; [done|].
  clear. intros m p. unfold datachannel_stage. destruct (dc_handle_read _ _) as [h1 r1].
  etrans; [|apply run_effects_timer]; [done|].
  clear. intros m p. unfold srtp_stage. destruct (srtp_handle_read _ _) as [st1 r1].
  etrans; [|apply run_effects_timer]; [done|].
  clear. intros m p. unfold interceptor_stage. destruct (ih_handle_read _ _ _) as [[h1 st1] r1].
  etrans; [|apply run_effects_timer]; [done|]. clear. intros. apply gateway_read_timer.
Qed.

Lemma pipeline_poll_transmit_timer p : same_timer p (pipeline_poll_transmit p).1.1.
Proof.
  unfold pipeline_poll_transmit, media_poll, datagram_poll.
  assert (H : ∀ st, same_timer p (with_gateway p (gw_poll_write (pl_gateway p) (exception_poll_write None)).1 st)).
  { intros st. unfold gw_poll_write, same_timer. simpl. by destruct (gw_transmits (pl_gateway p)). }
  destruct (gw_poll_write _ _) as [h1 m1]. specialize (H (pl_states p)).
  destruct (ih_poll_write _ _ _) as [[[h2 st2] m2] e2].
  destruct (srtp_poll_write _ _) as [[st3 m3] e3]. destruct (dc_poll_write _ _) as [h4 m4].
  destruct (sctp_poll_write _ _ _) as [[[h5 st5] m5] e5].
  by destruct (dtls_poll_write _ _ _) as [[[h6 st6] m6] e6].
Qed.

#[local] Instance and_stable P Q `{!Stable P} `{!Stable Q} : Stable (λ st, P st ∧ Q st).
Proof.
  split.
  - intros st sid eid ft f Hf []. split; by apply stable_transport.
  - intros st f Hf []. split; by apply stable_transports.
  - intros st sid eid i Hi []. split; by apply stable_interceptor.
  - intros st g Hg []. split; by apply stable_interceptors.
Qed.

(** The timers of the other handlers run before that of the gateway. *)
Lemma handle_timeout_gateway P `{SP : !Stable P} p now :
  P (pl_states p) → ∃ st, P st ∧
    gw_handle_timeout (pl_gateway p) st now =
      (pl_gateway (pipeline_handle_timeout p now).1, pl_states (pipeline_handle_timeout p now).1).
Proof.
  intros Hp. unfold pipeline_handle_timeout.
  pose proof (dtls_handler_timeout_stable P (pl_dtls p) _ now Hp) as H1.
  destruct (dtls_handler_timeout _ _ _) as [h1 st1]. cbn [pl_sctp pl_states with_dtls] in *.
  pose proof (sctp_handler_timeout_stable P (pl_sctp p) _ now H1) as H2.
  destruct (sctp_handler_timeout _ _ _) as [h2 st2]. cbn [pl_interceptor pl_states with_sctp with_dtls] in *.
  pose proof (ih_handle_timeout_stable P (pl_interceptor p) _ now H2) as H3.
  destruct (ih_handle_timeout _ _ _) as [[h3 st3] es]. exists st3. split; [done|].
  cbn [pl_gateway pl_states with_interceptor with_sctp with_dtls].
  by destruct (gw_handle_timeout _ _ _) as [h4 st4].
Qed.

(** A silent connection whose idle time is over is closed when the gateway's
    timer fires. *)
Lemma gateway_closes_silent sid eid ft a gw st now :
  server_ok st → silent_since sid eid ft a st →
  (gw_next_timeout gw ≤ now)%Z → (a ≤ now - gw_idle_timeout gw)%Z →
  activity (gw_handle_timeout gw st now).2 sid eid ft = None.
Proof.
  intros Hok Hs Hnext Hidle. unfold gw_handle_timeout. rewrite (proj2 (Z.leb_le _ _) Hnext).
  simpl. unfold activity. rewrite remove_transports_exact. case_decide as Hd; [done|].
  destruct Hs as [Hn|[Ha Hf]]; [done|]. exfalso. apply Hd. split; [|done].
  apply elem_of_idle_four_tuples; [done|]. unfold activity in Ha.
  apply fmap_Some in Ha as (t & Hc & ->). exists sid, eid, t. done.
Qed.

(** The state of the wait for a silent connection: closed already, or the next
    firing of the timer is at most one idle time after the connection's own. *)
Record waiting (sid : SessionId) (eid : EndpointId) (ft : FourTuple) (a bound idle : Z) p : Prop := {
  wt_server : server_ok (pl_states p);
  wt_silent : silent_since sid eid ft a (pl_states p);
  wt_idle : gw_idle_timeout (pl_gateway p) = idle;
  wt_next : activity (pl_states p) sid eid ft = None ∨ (gw_next_timeout (pl_gateway p) ≤ bound)%Z
}.

(** Once closed it stays closed. *)
Lemma closed_stays sid eid ft p p' :
  other_step ft p p' → activity (pl_states p) sid eid ft = None →
  activity (pl_states p') sid eid ft = None.
Proof.
  intros Hstep Hn.
  assert (Hs : ∀ a, silent_since sid eid ft a (pl_states p')).
  { intros a. assert (Ha : silent_since sid eid ft a (pl_states p)) by by left.
    destruct Hstep as [env msg q Hne|now q|q|env request q].
    - pose proof (silent_visited sid eid ft a _ Hne).
      by apply (pipeline_read_stable (silent_since sid eid ft a) (tb_transport msg)).
    - by apply (pipeline_handle_timeout_stable (silent_since sid eid ft a)).
    - by apply (pipeline_poll_transmit_stable (silent_since sid eid ft a)).
    - by apply (handle_signaling_message_stable (λ _, True) (silent_since sid eid ft a)). }
  destruct (Hs 0%Z) as [?|[H0 _]]; [done|]. destruct (Hs 1%Z) as [?|[H1 _]]; [done|]. congruence.
Qed.

Lemma other_step_pipeline ft p p' : other_step ft p p' → pipeline_step p p'.
Proof. intros []; constructor. Qed.

Lemma waiting_timer sid eid ft a bound idle p now :
  (a + 2 * idle ≤ bound)%Z → waiting sid eid ft a bound idle p →
  waiting sid eid ft a bound idle (pipeline_handle_timeout p now).1.
Proof.
  intros Hb [H1 H2 H3 H4].
  pose proof (pipeline_handle_timeout_stable server_ok p now H1) as H1'.
  pose proof (pipeline_handle_timeout_stable (silent_since sid eid ft a) p now H2) as H2'.
  destruct (handle_timeout_gateway (λ st, server_ok st ∧ silent_since sid eid ft a st) p now
              (conj H1 H2)) as (st & [Hok Hs] & E).
  pose proof (gateway_closes_silent sid eid ft a (pl_gateway p) st now Hok Hs) as Hclose.
  rewrite E in Hclose. simpl in Hclose. unfold gw_handle_timeout in E.
  destruct (Z.leb_spec (gw_next_timeout (pl_gateway p)) now) as [Hle|Hgt];
    injection E as Eg Est; split; rewrite <- ?Eg; try done; simpl.
  - destruct (decide (a ≤ now - idle)%Z); [left; apply Hclose; lia|right; lia].
  - destruct H4 as [Hn|]; [|by right]. left. by eapply closed_stays; [apply other_timer|].
Qed.

Lemma waiting_step sid eid ft a bound idle p p' :
  (a + 2 * idle ≤ bound)%Z → other_step ft p p' → waiting sid eid ft a bound idle p →
  waiting sid eid ft a bound idle p'.
Proof.
  intros Hb Hstep Hw. destruct (decide (activity (pl_states p') sid eid ft = None)) as [Hn|Hn].
  { (* closed: only the bookkeeping is left *)
    destruct Hw as [H1 H2 H3 H4]. split; [| by left| |by left].
    - eapply (pipeline_step_stable server_ok); [by eapply other_step_pipeline|done].
    - rewrite <- H3. destruct Hstep as [env msg q Hne|now q|q|env request q]; [| | |done].
      + apply pipeline_read_timer.
      + destruct (handle_timeout_gateway server_ok q now H1) as (st & _ & E).
        unfold gw_handle_timeout in E. by case_match; injection E as <- _.
      + apply pipeline_poll_transmit_timer. }
  destruct Hstep as [env msg q Hne|now q|q|env request q]; [|by apply waiting_timer|..];
    destruct Hw as [H1 H2 H3 H4].
  - pose proof (silent_visited sid eid ft a _ Hne). destruct (pipeline_read_timer env msg q) as [E1 E2].
    split; [by apply (pipeline_read_stable server_ok (tb_transport msg))
           |by apply (pipeline_read_stable (silent_since sid eid ft a) (tb_transport msg))
           |congruence|].
    right. rewrite E1. destruct H4 as [H4|]; [|done]. destruct Hn.
    by eapply closed_stays; [apply other_datagram|].
  - destruct (pipeline_poll_transmit_timer q) as [E1 E2].
    split; [by apply (pipeline_poll_transmit_stable server_ok)
           |by apply (pipeline_poll_transmit_stable (silent_since sid eid ft a))|congruence|].
    right. rewrite E1. destruct H4 as [H4|]; [|done]. destruct Hn.
    by eapply closed_stays; [apply other_transmit|].
  - split; [by apply (handle_signaling_message_stable (λ _, True) server_ok)
           |by apply (handle_signaling_message_stable (λ _, True) (silent_since sid eid ft a))|done|].
    destruct H4 as [H4|]; [|by right]. destruct Hn. by eapply closed_stays; [apply other_signal|].
Qed.

(** A silent connection is closed in bounded time: take a connection the
    table knows, and any run of the loop, with whatever other datagrams, timers
    and requests, in which no datagram comes from its four tuple.  The first
    timer call that is both past the gateway's next timeout and two idle times
    past the connection's last activity finds the connection closed or closes
    it, and it stays closed until the peer is heard again. *)
Lemma silent_connection_closed sid eid ft t p p' now p'' :
  server_ok (pl_states p) → connection (pl_states p) sid eid ft = Some t →
  find_endpoint (pl_states p) ft = Some (sid, eid) →
  (0 ≤ gw_idle_timeout (pl_gateway p))%Z → rtc (other_step ft) p p' →
  (gw_next_timeout (pl_gateway p) ≤ now)%Z →
  (tr_last_activity t + 2 * gw_idle_timeout (pl_gateway p) ≤ now)%Z →
  rtc (other_step ft) (pipeline_handle_timeout p' now).1 p'' →
  connection (pl_states p'') sid eid ft = None.
Proof.
  intros Hok Hc Hf Hd Hrun Hnext Hnow Hrun'. set (idle := gw_idle_timeout (pl_gateway p)) in *.
  assert (Hw : waiting sid eid ft (tr_last_activity t) now idle p).
  { split; [done| |done|by right]. right. unfold activity. by rewrite Hc. }
  assert (Hw' : waiting sid eid ft (tr_last_activity t) now idle p').
  { clear Hnext Hrun' Hc Hf Hok. clearbody idle.
    induction Hrun as [|x y z Hxy _ IH]; [done|]. apply IH. by eapply waiting_step. }
  assert (Hclosed : activity (pl_states (pipeline_handle_timeout p' now).1) sid eid ft = None).
  { destruct Hw' as [H1 H2 H3 [H4|H4]]; [by eapply closed_stays; [apply other_timer|]|].
    destruct (handle_timeout_gateway (λ st, server_ok st ∧ silent_since sid eid ft (tr_last_activity t) st)
                p' now (conj H1 H2)) as (st & [Hst Hs] & E).
    pose proof (gateway_closes_silent sid eid ft _ (pl_gateway p') st now Hst Hs H4) as Hcl.
    rewrite E in Hcl. apply Hcl. lia. }
  assert (H : activity (pl_states p'') sid eid ft = None).
  { induction Hrun' as [|x y z Hxy _ IH]; [done|]. apply IH. by eapply closed_stays. }
  unfold activity in H. by apply fmap_None in H.
Qed.

End silence.
