(* ===== verification/Subscriptions.v ===== *)
(** * Who receives whose tracks

    The gateway forwards every packet to every peer; what a peer can play is
    what it was offered.  An endpoint that receives a track has a recvonly
    transceiver for it, and every other endpoint should have a sendonly one
    under the mid "<id>-<mid>".  Two operations establish this from different
    sides: an offer announces the new tracks of one endpoint to the others
    (session/mod.rs), and opening a data channel announces the tracks of the
    others to one endpoint (handlers/gateway.rs).  The theorem of this file is
    that together they leave no gap, in every state that the pipeline reaches
    with offers whose new sections are sendonly, as those of the example page
    are; two lemmas show what happens with other offers. *)

From Stdlib Require Import ZArith Lia.
From stdpp Require Import base numbers strings fin_maps gmap list.
From S2P Require Import Prelude RustStr Enums Types Sdp Codec ReceiverStream.
From S2P Require Import Interceptors MediaParse MediaConfig Config Endpoint.
From S2P Require Import Description Session ServerStates Stable Demux Gateway Srtp.
From S2P Require Import Renegotiation DataChannel InterceptorHandler Dtls Sctp Pipeline.

Section subscriptions.
Context `{O : SdpOps} `{CO : !ConfigOps} `{TO : !TransportOps} `{HO : HashOrder}.
Implicit Types (s : Session) (e : Endpoint).

(** The endpoint can be sent an offer: one of its transports has a channel. *)
Definition has_channel e : Prop :=
  ∃ ft t ah stream, ep_transports e !! ft = Some t ∧
    association_handle_and_stream_id t = (Some ah, Some stream).

(** Every endpoint with a channel has a sendonly transceiver for every track
    that another endpoint publishes. *)
Definition subscription_complete s : Prop :=
  ∀ a ea m t b eb,
    ss_endpoints s !! a = Some ea → ep_transceivers ea !! m = Some t → tv_direction t = Recvonly →
    b ≠ a → ss_endpoints s !! b = Some eb → has_channel eb →
    ∃ u, ep_transceivers eb !! other_mid a m = Some u ∧ tv_direction u = Sendonly.

(** ** Changes that open no gap *)

(** The directions of the transceivers of an endpoint. *)
Definition ep_directions e : gmap Mid RTCRtpTransceiverDirection :=
  tv_direction <$> ep_transceivers e.

(** [e'] is no more than [e]: same directions, a channel only if [e] had one;
    or a newcomer. *)
Definition no_more (oe : option Endpoint) e' : Prop :=
  match oe with
  | Some e => ep_directions e' = ep_directions e ∧ (has_channel e' → has_channel e)
  | None => ep_directions e' = ∅ ∧ ¬ has_channel e'
  end.
Definition opens_no_gap s s' : Prop :=
  ∀ eid e', ss_endpoints s' !! eid = Some e' → no_more (ss_endpoints s !! eid) e'.

Lemma ep_directions_lookup e m d :
  ep_directions e !! m = Some d ↔ ∃ t, ep_transceivers e !! m = Some t ∧ tv_direction t = d.
Proof.
  unfold ep_directions. rewrite lookup_fmap, fmap_Some. split; intros (t & ? & ?); by exists t.
Qed.

Lemma subscription_complete_mono s s' :
  opens_no_gap s s' → subscription_complete s → subscription_complete s'.
Proof.
  intros Hgap Hsub a ea m t b eb Ha Ht Hd Hab Hb Hch.
  pose proof (Hgap _ _ Ha) as Hna. pose proof (Hgap _ _ Hb) as Hnb. unfold no_more in Hna, Hnb.
  assert (Hta : ep_directions ea !! m = Some Recvonly) by (apply ep_directions_lookup; eauto).
  destruct (ss_endpoints s !! a) as [ea0|] eqn:Ha0; [|by rewrite (proj1 Hna) in Hta].
  destruct (ss_endpoints s !! b) as [eb0|] eqn:Hb0; [|by destruct Hnb].
  destruct Hna as [Hea _], Hnb as [Heb Hcb]. rewrite Hea in Hta.
  apply ep_directions_lookup in Hta as (t0 & Ht0 & Hd0).
  destruct (Hsub a ea0 m t0 b eb0) as (u & Hu & Hdu); [auto..|].
  apply ep_directions_lookup. rewrite Heb. apply ep_directions_lookup. eauto.
Qed.

Lemma opens_no_gap_refl s : opens_no_gap s s.
Proof. intros eid e' He. rewrite He. done. Qed.

Lemma opens_no_gap_insert s eid e' :
  no_more (ss_endpoints s !! eid) e' →
  opens_no_gap s (ss_with_endpoints s (<[eid := e']> (ss_endpoints s))).
Proof.
  intros He oid e1. simpl. rewrite lookup_insert_Some. intros [[<- <-]|[_ H]]; [done|].
  by rewrite H.
Qed.

Lemma subscription_complete_insert s eid e' :
  no_more (ss_endpoints s !! eid) e' → subscription_complete s →
  subscription_complete (ss_with_endpoints s (<[eid := e']> (ss_endpoints s))).
Proof. intros. by eapply subscription_complete_mono; [apply opens_no_gap_insert|]. Qed.

(** Answers change current directions only. *)
Lemma answer_media_subscribed f eid media s :
  subscription_complete s → subscription_complete (answer_media f eid media s).1.
Proof.
  intros Hs. destruct (answer_media f eid media s) as [s' r] eqn:E. simpl.
  apply answer_media_cases in E as [->|(k & dir & mid & e & t & _ & He & Ht & ->)]; [done|].
  apply subscription_complete_insert; [|done]. rewrite He. split; [|done].
  unfold ep_directions. simpl. rewrite fmap_insert. apply insert_id.
  by rewrite lookup_fmap, Ht.
Qed.

Lemma ss_set_local_description_subscribed eid local s :
  subscription_complete s → subscription_complete (ss_set_local_description eid local s).1.
Proof.
  intros Hs. unfold ss_set_local_description, mbind, M_bind, getS, throw, liftO.
  destruct (parsed local); [|done]. simpl. destruct (negb (has_endpoint s eid)); [done|].
  case_match; [|done]. apply (forM_inv subscription_complete); [|done].
  intros. by apply answer_media_subscribed.
Qed.

(** An authenticated peer brings neither a track nor a channel. *)
Lemma ss_add_endpoint_subscribed now c tc s :
  subscription_complete s → subscription_complete (ss_add_endpoint now c tc s).1.
Proof.
  intros Hs. unfold ss_add_endpoint.
  destruct (ss_endpoints s !! cand_endpoint_id c) as [e|] eqn:Ee.
  - case_match; [done|]. apply subscription_complete_insert; [|done]. rewrite Ee. split; [done|].
    intros (ft & t & ah & stream & Ht & Hch). simpl in Ht. apply lookup_insert_Some in Ht.
    destruct Ht as [[<- <-]|[_ Ht]]; [done|]. by exists ft, t, ah, stream.
  - apply subscription_complete_insert; [|done]. rewrite Ee. split; [done|].
    intros (ft & t & ah & stream & Ht & Hch). simpl in Ht. apply lookup_insert_Some in Ht.
    destruct Ht as [[<- <-]|[_ Ht]]; [done|]. by rewrite lookup_empty in Ht.
Qed.

(** ** An offer announces its new tracks *)

Lemma has_channel_transports e e' :
  ep_transports e' = ep_transports e → has_channel e' → has_channel e.
Proof. unfold has_channel. by intros ->. Qed.

(** A sendonly track makes every direction at its derived mid sendonly and
    changes no other. *)
Lemma propagate_track_directions eid tr oid e m t :
  oid ≠ eid → ep_transceivers (propagate_track eid Sendonly tr oid e) !! m = Some t →
  tv_direction t = Recvonly → ep_transceivers e !! m = Some t.
Proof.
  intros Hoid Ht Hd. destruct (decide (m = other_mid eid (tv_mid tr))) as [->|Hne].
  - destruct (propagate_track_sendonly eid tr oid e Hoid) as (u & Hu & Hdu & _). congruence.
  - by rewrite (proj1 (propagate_track_other eid Sendonly tr oid e m Hne)) in Ht.
Qed.

Lemma propagate_track_keeps_sendonly eid tr oid e m u :
  oid ≠ eid → ep_transceivers e !! m = Some u → tv_direction u = Sendonly →
  ∃ u', ep_transceivers (propagate_track eid Sendonly tr oid e) !! m = Some u' ∧
        tv_direction u' = Sendonly.
Proof.
  intros Hoid Hu Hd. destruct (decide (m = other_mid eid (tv_mid tr))) as [->|Hne].
  - destruct (propagate_track_sendonly eid tr oid e Hoid) as (u' & ? & ? & _). eauto.
  - rewrite (proj1 (propagate_track_other eid Sendonly tr oid e m Hne)). eauto.
Qed.

Lemma publish_track_subscribed s eid e tr :
  ss_endpoints s !! eid = Some e → ep_transceivers e !! tv_mid tr = None →
  subscription_complete s → subscription_complete (publish_track s eid e Sendonly tr).
Proof.
  intros He Hnew Hs a ea m t b eb. rewrite !lookup_publish_track. intros Ha Ht Hd Hab Hb Hch.
  destruct (decide (a = eid)) as [->|Hae].
  - rewrite decide_False in Hb by done. injection Ha as <-.
    apply fmap_Some in Hb as (eb0 & Hb & ->).
    apply has_channel_transports with (e := eb0) in Hch; [|apply ep_transports_propagate].
    simpl in Ht. apply lookup_insert_Some in Ht as [[<- <-]|[_ Ht]].
    { destruct (propagate_track_sendonly eid tr b eb0 Hab) as (u & ? & ? & _). eauto. }
    destruct (Hs eid e m t b eb0) as (u & Hu & Hdu); [auto..|].
    by eapply propagate_track_keeps_sendonly.
  - apply fmap_Some in Ha as (ea0 & Ha & ->). apply propagate_track_directions in Ht; [|done|done].
    case_decide as Hbe; subst.
    + injection Hb as <-. destruct (Hs a ea0 m t eid e) as (u & Hu & Hdu); [auto..|].
      exists u. simpl. rewrite lookup_insert_ne by congruence. done.
    + apply fmap_Some in Hb as (eb0 & Hb & ->).
      apply has_channel_transports with (e := eb0) in Hch; [|apply ep_transports_propagate].
      destruct (Hs a ea0 m t b eb0) as (u & Hu & Hdu); [auto..|].
      by eapply propagate_track_keeps_sendonly.
Qed.

(** The new sections of an offer of [eid] are sendonly. *)
Definition new_section_sendonly s (eid : EndpointId) (media : MediaDescription) : Prop :=
  ∀ k dir mid, negotiable media = Ok (Some (k, dir, mid)) → dir = Sendonly ∨ knows_mid s eid mid.
Definition publishes s (eid : EndpointId) (d : SessionDescription) : Prop :=
  Forall (new_section_sendonly s eid) (media_descriptions d).

Lemma remote_offer_media_subscribed s eid media :
  new_section_sendonly s eid media → subscription_complete s →
  subscription_complete (remote_offer_media eid media s).1.
Proof.
  intros Hpub Hs. destruct (remote_offer_media eid media s) as [s' r] eqn:E. simpl.
  apply remote_offer_media_cases in E as [->|(k & dir & mid & e & t & Hn & He & Hnew & Ht & ->)];
    [done|].
  apply remote_transceiver_ok in Ht as (Hm & _). rewrite <- Hm in Hnew.
  destruct (Hpub _ _ _ Hn) as [->|(e' & He' & Hk)]; [by apply publish_track_subscribed|].
  exfalso. rewrite He in He'. injection He' as <-. rewrite Hm in Hnew. rewrite Hnew in Hk.
  by destruct Hk.
Qed.

Lemma remote_offer_media_knows s eid media mid :
  knows_mid s eid mid → knows_mid (remote_offer_media eid media s).1 eid mid.
Proof.
  intros Hk. destruct (remote_offer_media eid media s) as [s' r] eqn:E. simpl.
  apply remote_offer_media_cases in E as [->|(k & dir & mid' & e & t & Hn & He & Hnew & Ht & ->)];
    [done|].
  destruct Hk as (e' & He' & Hk). rewrite He in He'. injection He' as <-.
  exists (push_transceiver e t). rewrite lookup_publish_track, decide_True by done.
  split; [done|]. simpl. rewrite lookup_insert. case_decide; [by eexists|done].
Qed.

Lemma ss_set_remote_description_subscribed s eid remote :
  (∀ d, parsed remote = Some d → sdp_type remote ≠ Answer → publishes s eid d) →
  subscription_complete s → subscription_complete (ss_set_remote_description eid remote s).1.
Proof.
  intros Hpub Hs. unfold ss_set_remote_description, mbind, M_bind, getS, throw, liftO.
  destruct (negb (has_endpoint s eid)); [done|].
  destruct (parsed remote) as [d|]; [|done]. simpl. case_bool_decide as Hans.
  - apply (forM_inv subscription_complete); [|done]. intros. by apply answer_media_subscribed.
  - specialize (Hpub d eq_refl Hans). unfold publishes in Hpub. rewrite Forall_forall in Hpub.
    apply (forM_inv (λ s', subscription_complete s' ∧
             ∀ mid, knows_mid s eid mid → knows_mid s' eid mid)); [|done].
    intros media s1 Hin [Hs1 Hk]. split.
    + apply remote_offer_media_subscribed; [|done]. intros k dir mid Hn.
      destruct (Hpub _ Hin _ _ _ Hn); auto.
    + intros mid Hm. by apply remote_offer_media_knows, Hk.
Qed.


End subscriptions.

(** ** Opening a channel announces the tracks of the others *)

Section gateway.
Context `{O : SdpOps} `{CO : !ConfigOps} `{TO : !TransportOps} `{GO : !GatewayOps}
  `{HO : HashOrder}.
Implicit Types (st : ServerStates) (s : Session) (e : Endpoint) (tc : TransportContext).

Lemma open_in_session_subscribed eid ft ah stream s :
  subscription_complete s → subscription_complete (open_in_session eid ft ah stream s).1.
Proof.
  intros Hs. unfold open_in_session, mbind, M_bind, getS, liftO, putS, mret, M_ret.
  destruct (ss_endpoints s !! eid) as [e|] eqn:Ee; [|done]. simpl.
  destruct (ep_transports e !! ft) as [tr|] eqn:Etr; [|done]. simpl.
  set (e0 := set_renegotiation_needed _ _).
  destruct (push_transceivers_media (tracks_of_others s eid) e0) as (_ & _ & _ & Hin & Hout).
  set (e1 := foldl push_transceiver e0 _) in *.
  intros a ea m t b eb. simpl. intros Ha Ht Hd Hab Hb Hch.
  apply lookup_insert_Some in Ha as [[<- <-]|[Hae Ha]].
  - rewrite lookup_insert_ne in Hb by done. apply (Hs eid e m t b eb); auto.
    destruct (decide (m ∈ map tv_mid (tracks_of_others s eid))) as [Hm|Hm];
      [|by rewrite Hout in Ht].
    exfalso. apply list_elem_of_fmap in Hm as (v & -> & Hv).
    destruct (Hin v Hv) as (w & Hw & Hwl). apply tracks_of_others_sendonly in Hwl. congruence.
  - apply lookup_insert_Some in Hb as [[<- <-]|[Hbe Hb]]; [|by apply (Hs a ea m t b eb)].
    destruct (Hin (tv_with_direction (tv_with_mid t (other_mid a m)) Sendonly)) as (u & Hu & Hul).
    { apply elem_of_tracks_of_others. eauto 10. }
    exists u. split; [done|]. by eapply tracks_of_others_sendonly.
Qed.

Lemma create_offer_in_session_subscribed eid ft s :
  subscription_complete s → subscription_complete (create_offer_in_session eid ft s).1.
Proof.
  intros Hs. unfold create_offer_in_session.
  unfold mbind at 1, M_bind at 1, getS at 1. unfold mbind at 1, M_bind at 1, liftO at 1.
  destruct (ss_endpoints s !! eid) as [e|] eqn:Ee; [|done]. simpl.
  apply M_bind_inv; [by apply subscription_complete_insert; [rewrite Ee|]|].
  clear s Hs Ee. intros _ s Hs. do 4 (apply M_bind_inv; [done|]; clear s Hs; intros ? s Hs).
  apply M_bind_inv; [by apply ss_set_local_description_subscribed|done].
Qed.

(** ** The rooms of the server *)

Definition rooms_complete st : Prop :=
  ∀ sid s, st_sessions st !! sid = Some s → subscription_complete s.

Lemma rooms_complete_insert st sid s :
  subscription_complete s → rooms_complete st →
  rooms_complete (st_with_sessions st (<[sid := s]> (st_sessions st))).
Proof.
  intros Hs Hst sid' s'. simpl. rewrite lookup_insert_Some. intros [[<- <-]|[_ ?]]; eauto.
Qed.

Lemma on_session_rooms {A} sid (m : M Session A) st :
  (∀ s, st_sessions st !! sid = Some s → subscription_complete s → subscription_complete (m s).1) →
  rooms_complete st → rooms_complete (on_session sid m st).1.
Proof.
  intros Hm Hst. unfold on_session. destruct (st_sessions st !! sid) as [s|] eqn:E; [|done].
  specialize (Hm s eq_refl (Hst _ _ E)). destruct (m s) as [s' r]. by apply rooms_complete_insert.
Qed.

(** A session that does not change. *)
Lemma on_session_pure_rooms {A} sid (f : Session → outcome A) st :
  rooms_complete st → rooms_complete (on_session sid (λ s, (s, f s)) st).1.
Proof. intros. by apply on_session_rooms. Qed.

Lemma create_or_get_mut_session_rooms sid st :
  rooms_complete st → rooms_complete (create_or_get_mut_session sid st).1.
Proof.
  intros Hst. unfold create_or_get_mut_session. case_match; [done|]. simpl.
  apply rooms_complete_insert; [|done]. intros a ea m t b eb Ha. simpl in Ha. by rewrite lookup_empty in Ha.
Qed.

(** An update of the endpoints of all sessions that opens no gap. *)
Lemma rooms_complete_mono st st' :
  (∀ sid s', st_sessions st' !! sid = Some s' →
     ∃ s, st_sessions st !! sid = Some s ∧ opens_no_gap s s') →
  rooms_complete st → rooms_complete st'.
Proof.
  intros H Hst sid s' Hs'. destruct (H _ _ Hs') as (s & Hs & Hgap).
  eapply subscription_complete_mono; eauto.
Qed.

Lemma update_endpoint_rooms st sid eid f :
  (∀ e, no_more (Some e) (f e)) → rooms_complete st → rooms_complete (update_endpoint st sid eid f).
Proof.
  intros Hf. apply rooms_complete_mono. intros sid' s'. simpl. rewrite lookup_alter.
  case_decide; subst; [|by eauto using opens_no_gap_refl].
  intros (s & Hs & ->)%fmap_Some. exists s.
  split; [done|]. intros oid e'. simpl. rewrite lookup_alter. case_decide; subst.
  - intros (e & He & ->)%fmap_Some. rewrite He. apply Hf.
  - intros He. by rewrite He.
Qed.

Lemma has_channel_alter f ft e :
  (∀ t, association_handle_and_stream_id (f t) = association_handle_and_stream_id t) →
  has_channel (ep_with_transports e (alter f ft (ep_transports e))) → has_channel e.
Proof.
  intros Hf (ft' & t & ah & stream & Ht & Hch). simpl in Ht. rewrite lookup_alter in Ht.
  case_decide; subst; [|by exists ft', t, ah, stream].
  apply fmap_Some in Ht as (t0 & Ht0 & ->). exists ft', t0, ah, stream. by rewrite <- Hf.
Qed.

#[export] Instance rooms_complete_stable `{RO : !RtpOps} : Stable rooms_complete.
Proof.
  split.
  - intros st sid eid ft f [_ _ Hf]. apply update_endpoint_rooms. intros e. split; [done|].
    by apply has_channel_alter.
  - intros st f [_ _ Hf]. apply rooms_complete_mono. intros sid s'. simpl.
    rewrite lookup_fmap, fmap_Some. intros (s & Hs & ->). exists s. split; [done|].
    intros eid e'. simpl. rewrite lookup_fmap, fmap_Some. intros (e & -> & ->). split; [done|].
    intros (ft & t & ah & stream & Ht & Hch). simpl in Ht.
    rewrite lookup_fmap, fmap_Some in Ht. destruct Ht as (t0 & Ht0 & ->).
    exists ft, t0, ah, stream. by rewrite <- Hf.
  - intros st sid eid i _. by apply update_endpoint_rooms.
  - intros st g _. apply rooms_complete_mono. intros sid s'. simpl.
    rewrite lookup_fmap, fmap_Some. intros (s & Hs & ->). exists s. split; [done|].
    intros eid e'. simpl. rewrite lookup_fmap, fmap_Some. by intros (e & -> & ->).
Qed.

#[export] Instance rooms_complete_removable : Removable rooms_complete.
Proof.
  intros st ft. apply rooms_complete_mono. intros sid s' Hs'. unfold st_remove_transport in Hs'.
  destruct (find_endpoint st ft) as [[sid0 eid0]|]; [|by eauto using opens_no_gap_refl].
  destruct (st_sessions st !! sid0) as [s|] eqn:Es; [|by eauto using opens_no_gap_refl].
  destruct (ss_endpoints s !! eid0) as [e|] eqn:Ee; [|by eauto using opens_no_gap_refl].
  simpl in Hs'. set (st1 := if bool_decide _ then _ else _) in Hs'.
  assert (H1 : st_sessions st1 !! sid = Some s') by (by destruct (ep_transports e !! ft)).
  clear Hs'. unfold st1 in H1. clear st1. simpl in H1. case_bool_decide; simpl in H1.
  - case_bool_decide; simpl in H1.
    + apply lookup_delete_Some in H1 as [_ H1]. eauto using opens_no_gap_refl.
    + apply lookup_insert_Some in H1 as [[<- <-]|[_ H1]]; [|by eauto using opens_no_gap_refl].
      exists s. split; [done|]. intros oid e'. simpl. rewrite lookup_delete_Some.
      intros [_ He]. by rewrite He.
  - apply lookup_insert_Some in H1 as [[<- <-]|[_ H1]]; [|by eauto using opens_no_gap_refl].
    exists s. split; [done|]. apply opens_no_gap_insert. rewrite Ee. split; [done|].
    intros (ft' & t & ah & stream & Ht & Hch). simpl in Ht.
    apply lookup_delete_Some in Ht as [_ Ht]. by exists ft', t, ah, stream.
Qed.

#[export] Instance rooms_complete_visited ft : Visited ft rooms_complete.
Proof.
  split.
  - intros st sid eid now _. apply update_endpoint_rooms. intros e. split; [done|].
    by apply has_channel_alter.
  - intros env request u c tc st _ _ Hst. unfold gw_add_endpoint.
    apply M_bind_inv; [done|]. clear st Hst. intros st0 st Hst.
    apply M_bind_inv; [done|]. clear st Hst. intros s st Hst.
    destruct (match ss_endpoints s !! _ with Some _ => _ | None => _ end) as [ht new].
    case_match; [done|].
    apply M_bind_inv; [apply on_session_rooms; [intros; by apply ss_add_endpoint_subscribed|done]|].
    clear st Hst. intros ? st Hst. apply M_bind_inv; [done|done].
Qed.

(** ** Signalling *)

(** An offer of endpoint [eid] in session [sid] whose new sections are
    sendonly, when it reaches the server in state [st]. *)
Definition offer_publishes st (sid : SessionId) (eid : EndpointId) (offer : RTCSessionDescription)
  : Prop :=
  ∀ s d, st_sessions st !! sid = Some s → desc_unmarshal offer = Ok d → publishes s eid d.

Lemma accept_offer_rooms now user pass sid eid ft offer st :
  offer_publishes st sid eid offer → rooms_complete st →
  rooms_complete (accept_offer now user pass sid eid ft offer st).1.
Proof.
  intros Hpub Hst. unfold accept_offer.
  unfold mbind at 1, M_bind at 1, liftO at 1. destruct (desc_unmarshal offer) as [d|?|] eqn:Ed; try done.
  unfold mbind at 1, M_bind at 1, liftO at 1. destruct (credentials_from_sdp d); try done.
  unfold mbind at 1, M_bind at 1, getS at 1. unfold mbind at 1, M_bind at 1, liftO at 1.
  destruct (unwrap (head _)); try done. unfold mbind at 1, M_bind at 1.
  pose proof (create_or_get_mut_session_rooms sid st Hst) as Hst1.
  destruct (create_or_get_mut_session sid st) as [st1 [s|?|]] eqn:Ec; try done. simpl in Hst1.
  destruct (has_endpoint s eid) eqn:Eh.
  - assert (Hs : st1 = st ∧ st_sessions st !! sid = Some s).
    { unfold create_or_get_mut_session in Ec. destruct (st_sessions st !! sid) as [s0|] eqn:E0.
      - by injection Ec as <- <-.
      - injection Ec as _ <-. unfold has_endpoint in Eh. simpl in Eh.
        rewrite lookup_empty in Eh. done. }
    destruct Hs as [-> Hs]. apply M_bind_inv.
    { apply on_session_rooms; [|done]. intros s0 Hs0 Hc. rewrite Hs in Hs0. injection Hs0 as <-.
      apply ss_set_remote_description_subscribed; [|done]. intros d' [= <-] _. by apply Hpub. }
    clear -Hst1. intros _ st' Hst'.
    do 2 (apply M_bind_inv; [by apply on_session_pure_rooms|]; clear st' Hst'; intros ? st' Hst').
    apply M_bind_inv; [|done].
    apply on_session_rooms; [intros; by apply ss_set_local_description_subscribed|done].
  - apply M_bind_inv; [by apply on_session_pure_rooms|]. intros ? st' Hst'.
    by apply M_bind_inv.
Qed.

Lemma accept_answer_rooms sid eid answer st :
  sdp_type answer = Answer → rooms_complete st →
  rooms_complete (accept_answer sid eid answer st).1.
Proof.
  intros Hty Hst. unfold accept_answer. apply M_bind_inv; [done|]. clear st Hst. intros d st Hst.
  apply M_bind_inv; [by apply create_or_get_mut_session_rooms|]. clear st Hst. intros s st Hst.
  case_match; [|done]. apply on_session_rooms; [|done]. intros.
  by apply ss_set_remote_description_subscribed.
Qed.

Lemma create_offer_message_event_rooms now tc ah stream st :
  rooms_complete st → rooms_complete (create_offer_message_event now tc ah stream st).1.
Proof.
  intros Hst. unfold create_offer_message_event.
  do 2 (apply M_bind_inv; [done|]; clear st Hst; intros ? st Hst). destruct a0 as [sid eid].
  apply M_bind_inv; [done|]. clear st Hst. intros ? st Hst.
  apply M_bind_inv; [|intros; by apply M_bind_inv].
  apply on_session_rooms; [intros; by apply create_offer_in_session_subscribed|done].
Qed.

Lemma offer_to_peers_rooms now peers st :
  rooms_complete st → rooms_complete (offer_to_peers now peers st).1.
Proof.
  revert st. induction peers as [|[[[tc ah] stream] []] peers IH]; intros st Hst; simpl; auto.
  apply M_bind_inv; [by apply create_offer_message_event_rooms|]. clear st Hst. intros m st Hst.
  apply M_bind_inv; [by apply IH|done].
Qed.

Lemma handle_datachannel_open_rooms now tc ah stream st :
  rooms_complete st → rooms_complete (handle_datachannel_open now tc ah stream st).1.
Proof.
  intros Hst. unfold handle_datachannel_open.
  do 2 (apply M_bind_inv; [done|]; clear st Hst; intros ? st Hst). destruct a0 as [sid eid].
  apply M_bind_inv; [done|]. clear st Hst. intros ? st Hst.
  apply M_bind_inv.
  { apply on_session_rooms; [intros; by apply open_in_session_subscribed|done]. }
  clear st Hst. intros [] st Hst; [|done].
  apply M_bind_inv; [by apply create_offer_message_event_rooms|done].
Qed.

(** A data-channel message whose offer, if it is one, publishes. *)
Definition message_publishes st tc (payload : bytes) : Prop :=
  ∀ text request sid eid, from_utf8 payload = Ok text → json_to_description text = inl request →
    find_endpoint st (four_tuple_of tc) = Some (sid, eid) → offer_publishes st sid eid request.

Lemma handle_datachannel_message_rooms env now tc ah stream payload st :
  message_publishes st tc payload → rooms_complete st →
  rooms_complete (handle_datachannel_message env now tc ah stream payload st).1.
Proof.
  intros Hpub Hst. unfold handle_datachannel_message.
  unfold mbind at 1, M_bind at 1, liftO at 1. destruct (from_utf8 payload) as [text|?|] eqn:Eu; try done.
  unfold mbind at 1, M_bind at 1, liftO at 1.
  destruct (json_to_description text) as [request|] eqn:Ej; [|done].
  unfold mbind at 1, M_bind at 1, getS at 1. unfold mbind at 1, M_bind at 1, liftO at 1.
  destruct (find_endpoint st (four_tuple_of tc)) as [[sid eid]|] eqn:Ef; [|done]. simpl.
  specialize (Hpub _ _ _ _ Eu Ej Ef).
  destruct (sdp_type request) eqn:Ety; [done| |done| |done].
  - apply M_bind_inv; [by apply accept_offer_rooms|]. clear -Hst. intros answer st' Hst'.
    do 3 (apply M_bind_inv; [done|]; clear st' Hst'; intros ? st' Hst').
    apply M_bind_inv; [by apply offer_to_peers_rooms|done].
  - apply M_bind_inv; [by apply accept_answer_rooms|done].
Qed.

End gateway.

(** ** Every reachable room *)

Section rooms.
Context `{O : SdpOps} `{CO : !ConfigOps} `{TO : !TransportOps} `{RO : !RtpOps} `{GO : !GatewayOps}
  `{SC : !StunCodec} `{SR : !SrtpOps} `{DC : !DcepOps} `{DO : !DtlsOps} `{SO : !SctpOps}
  `{HO : HashOrder}.
Implicit Types (st : ServerStates) (p : Pipeline).

(** A signalling request whose offer, if it is one, publishes. *)
Definition request_publishes st (request : SignalingProtocolMessage) : Prop :=
  match request with
  | Signal_Offer sid eid bs => ∀ text offer,
      from_utf8 bs = Ok text → json_to_description text = inl offer →
      offer_publishes st sid eid offer
  | _ => True
  end.

Lemma handle_signaling_message_rooms env request st :
  request_publishes st request → rooms_complete st →
  rooms_complete (handle_signaling_message env request st).1.
Proof.
  intros Hpub Hst. destruct request as [| |sid eid offer| |]; try done.
  change (rooms_complete (handle_offer_message env sid eid offer st).1).
  unfold handle_offer_message.
  assert (H : rooms_complete (try_handle_offer env sid eid offer st).1);
    [|by destruct (try_handle_offer _ _ _ _ _) as [? []]].
  unfold try_handle_offer. unfold mbind at 1, M_bind at 1, liftO at 1.
  destruct (from_utf8 offer) as [text|?|] eqn:Eu; try done.
  unfold mbind at 1, M_bind at 1, liftO at 1.
  destruct (json_to_description text) as [d|] eqn:Ej; [|done].
  apply M_bind_inv; [apply accept_offer_rooms; [by eapply Hpub|done]|].
  intros. by apply M_bind_inv.
Qed.

(** *** The calls of the gateway *)

(** The states and messages with which a datagram makes the pipeline call the
    gateway, in order: the stages of [pipeline_read], followed up to there. *)
Abbreviation Reader := (TaggedMessageEvent → Pipeline → Pipeline * list Error).
Abbreviation Observer := (TaggedMessageEvent → Pipeline → list (ServerStates * TaggedMessageEvent)).
Fixpoint seen_effects (next : Reader) (seen : Observer) (effects : list Effect) p
  : list (ServerStates * TaggedMessageEvent) :=
  match effects with
  | [] => []
  | FireRead m :: effects => seen m p ++ seen_effects next seen effects (next m p).1
  | FireException _ :: effects => seen_effects next seen effects p
  end.

Definition gateway_seen : Observer := λ msg p, [(pl_states p, msg)].
Definition interceptor_seen (env : Env) : Observer := λ msg p,
  let '(h, st, effects) := ih_handle_read (pl_interceptor p) (pl_states p) msg in
  seen_effects (gateway_read env) gateway_seen effects (with_interceptor p h st).
Definition srtp_seen (env : Env) : Observer := λ msg p,
  let '(st, effects) := srtp_handle_read (pl_states p) msg in
  seen_effects (interceptor_stage env) (interceptor_seen env) effects (with_states p st).
Definition datachannel_seen (env : Env) : Observer := λ msg p,
  let '(h, effects) := dc_handle_read (pl_datachannel p) msg in
  seen_effects (srtp_stage env) (srtp_seen env) effects (with_datachannel p h).
Definition sctp_seen (env : Env) : Observer := λ msg p,
  let '(h, st, effects) := sctp_handle_read (pl_sctp p) (pl_states p) msg in
  seen_effects (datachannel_stage env) (datachannel_seen env) effects (with_sctp p h st).
Definition dtls_seen (env : Env) : Observer := λ msg p,
  let '(h, st, effects) := dtls_handle_read (pl_dtls p) (pl_states p) msg in
  seen_effects (sctp_stage env) (sctp_seen env) effects (with_dtls p h st).
Definition stun_seen (env : Env) : Observer := λ msg,
  seen_effects (dtls_stage env) (dtls_seen env) (stun_handle_read msg).
Definition pipeline_seen (env : Env) (msg : TaggedBytesMut) p : list (ServerStates * TaggedMessageEvent) :=
  seen_effects (stun_stage env) (stun_seen env) (demux_handle_read msg) p.

(** A call of the gateway whose offer, if it has one, publishes. *)
Definition call_publishes (call : ServerStates * TaggedMessageEvent) : Prop :=
  match tm_message call.2 with
  | Ev_Dtls (Dtls_DataChannel message) =>
      match data_channel_event message with
      | DCE_Message payload => message_publishes call.1 (tm_transport call.2) payload
      | _ => True
      end
  | _ => True
  end.

(** The steps of the loop, when all offers publish. *)
Inductive publishing_step : Pipeline → Pipeline → Prop :=
| pb_datagram env msg p :
    Forall call_publishes (pipeline_seen env msg p) → publishing_step p (pipeline_read env msg p).1
| pb_timer now p : publishing_step p (pipeline_handle_timeout p now).1
| pb_transmit p : publishing_step p (pipeline_poll_transmit p).1.1
| pb_signal env request p :
    request_publishes (pl_states p) request →
    publishing_step p (with_states p (handle_signaling_message env request (pl_states p)).1).

(** A stage leaves no gap if the calls it leads to publish. *)
Definition stage_rooms (next : Reader) (seen : Observer) : Prop :=
  ∀ msg p, Forall call_publishes (seen msg p) → rooms_complete (pl_states p) →
           rooms_complete (pl_states (next msg p).1).

Lemma run_effects_rooms next seen : stage_rooms next seen → ∀ effects p,
  Forall call_publishes (seen_effects next seen effects p) → rooms_complete (pl_states p) →
  rooms_complete (pl_states (run_effects next effects p).1).
Proof.
  intros Hn effects. induction effects as [|[m|e] effects IH]; intros p Hs Hp; simpl in *; [done| |].
  - apply Forall_app in Hs as [Hs1 Hs2]. pose proof (Hn m p Hs1 Hp) as Hp1.
    destruct (next m p) as [p1 e1]. specialize (IH p1 Hs2 Hp1).
    by destruct (run_effects next effects p1).
  - specialize (IH p Hs Hp). by destruct (run_effects next effects p).
Qed.

Lemma gw_try_read_rooms env msg st :
  call_publishes (st, msg) → rooms_complete st → rooms_complete (gw_try_read env msg st).1.
Proof.
  intros Hc Hst. unfold gw_try_read, call_publishes in *. simpl in Hc.
  destruct (tm_message msg) as [[m|m]|[b|m|m]|[b|m|m]]; try done.
  - apply (handle_stun_message_stable rooms_complete); [apply _|done].
  - unfold handle_dtls_message. destruct (data_channel_event m) as [|payload|]; [|by apply handle_datachannel_message_rooms|done].
    by apply handle_datachannel_open_rooms.
  - apply (forward_media_stable rooms_complete); [apply _|done].
  - apply (forward_media_stable rooms_complete); [apply _|done].
Qed.

Lemma gateway_rooms env : stage_rooms (gateway_read env) gateway_seen.
Proof.
  intros msg p Hs Hp. apply Forall_cons in Hs as [Hs _]. unfold gateway_read.
  pose proof (gw_try_read_rooms env msg _ Hs Hp) as H. unfold gw_handle_read.
  destruct (gw_try_read env msg (pl_states p)) as [st [ms|e|]]; by rewrite exception_read_states.
Qed.

Lemma interceptor_rooms env : stage_rooms (interceptor_stage env) (interceptor_seen env).
Proof.
  intros msg p. unfold interceptor_stage, interceptor_seen. intros Hs Hp.
  pose proof (ih_handle_read_stable rooms_complete (pl_interceptor p) _ msg Hp) as H.
  destruct (ih_handle_read _ _ _) as [[h st] effects].
  by apply (run_effects_rooms _ _ (gateway_rooms env)).
Qed.

Lemma srtp_rooms env : stage_rooms (srtp_stage env) (srtp_seen env).
Proof.
  intros msg p. unfold srtp_stage, srtp_seen. intros Hs Hp.
  pose proof (srtp_handle_read_stable rooms_complete _ msg Hp) as H.
  destruct (srtp_handle_read _ _) as [st effects].
  by apply (run_effects_rooms _ _ (interceptor_rooms env)).
Qed.

Lemma datachannel_rooms env : stage_rooms (datachannel_stage env) (datachannel_seen env).
Proof.
  intros msg p. unfold datachannel_stage, datachannel_seen. intros Hs Hp.
  destruct (dc_handle_read _ _) as [h effects]. by apply (run_effects_rooms _ _ (srtp_rooms env)).
Qed.

Lemma sctp_rooms env : stage_rooms (sctp_stage env) (sctp_seen env).
Proof.
  intros msg p. unfold sctp_stage, sctp_seen. intros Hs Hp.
  pose proof (sctp_handle_read_stable rooms_complete (pl_sctp p) _ msg Hp) as H.
  destruct (sctp_handle_read _ _ _) as [[h st] effects].
  by apply (run_effects_rooms _ _ (datachannel_rooms env)).
Qed.

Lemma dtls_rooms env : stage_rooms (dtls_stage env) (dtls_seen env).
Proof.
  intros msg p. unfold dtls_stage, dtls_seen. intros Hs Hp.
  pose proof (dtls_handle_read_stable rooms_complete (pl_dtls p) _ msg Hp) as H.
  destruct (dtls_handle_read _ _ _) as [[h st] effects].
  by apply (run_effects_rooms _ _ (sctp_rooms env)).
Qed.

Lemma publishing_step_rooms p p' :
  publishing_step p p' → rooms_complete (pl_states p) → rooms_complete (pl_states p').
Proof.
  intros [env msg q Hs|now q|q|env request q Hr] Hp.
  - unfold pipeline_read. apply (run_effects_rooms _ (stun_seen env)); [|exact Hs|done].
    intros m q'. apply (run_effects_rooms _ _ (dtls_rooms env)).
  - by apply (pipeline_handle_timeout_stable rooms_complete).
  - by apply (pipeline_poll_transmit_stable rooms_complete).
  - by apply handle_signaling_message_rooms.
Qed.

(** C6. Nobody misses a track: whatever datagrams, timers, polls and
    signalling requests the pipeline of a new server handles, in whatever
    order and whatever fails on the way, with offers whose new sections are
    sendonly, each endpoint of a session with an open data channel has a
    sendonly transceiver "<id>-<mid>" for every track that another endpoint
    of it publishes. *)
Theorem reachable_rooms_complete config addr st now p sid s :
  server_states_new config addr = Ok st → rtc publishing_step (build_pipeline now addr st) p →
  st_sessions (pl_states p) !! sid = Some s → subscription_complete s.
Proof.
  intros Hnew Hsteps. revert sid s. change (rooms_complete (pl_states p)).
  assert (Hst : rooms_complete (pl_states (build_pipeline now addr st))).
  { unfold server_states_new in Hnew. apply bind_ok_inv in Hnew as (cert & _ & H).
    apply bind_ok_inv in H as (fp & _ & [= <-]). intros sid s. simpl. by rewrite lookup_empty. }
  clear Hnew. induction Hsteps as [|x y z Hxy _ IH]; [done|]. by apply IH, (publishing_step_rooms x).
Qed.

End rooms.

(** ** Other offers *)

Section gaps.
Context `{O : SdpOps} `{CO : !ConfigOps} `{TO : !TransportOps} `{HO : HashOrder}.
Implicit Types (s : Session) (e : Endpoint).

(** A track offered as sendrecv or inactive becomes a recvonly transceiver of
    its endpoint and is offered to whoever opens a data channel later
    ([open_in_session]), but those already present are not told: the room has
    a gap as soon as one of them lacks the derived mid. *)
Lemma sendrecv_track_leaves_gap s s' eid media k dir mid e oid eo :
  negotiable media = Ok (Some (k, dir, mid)) → dir ≠ Sendonly → dir ≠ Recvonly →
  ss_endpoints s !! eid = Some e → ep_transceivers e !! mid = None →
  oid ≠ eid → ss_endpoints s !! oid = Some eo → has_channel eo →
  ep_transceivers eo !! other_mid eid mid = None →
  remote_offer_media eid media s = (s', Ok ()) →
  ss_endpoints s' !! oid = Some eo ∧ ¬ subscription_complete s'.
Proof.
  intros Hn Hd1 Hd2 He Hnew Hoid Ho Hch Hnone H.
  unfold remote_offer_media, mbind, M_bind, liftO, getS, putS in H. rewrite Hn, He in H. simpl in H.
  rewrite bool_decide_eq_false_2 in H by (rewrite Hnew; by intros []).
  destruct (remote_transceiver media k dir mid) as [tr|?|] eqn:Et; try done. injection H as <-.
  apply remote_transceiver_ok in Et as (Hmid & _ & _ & Hdir).
  rewrite bool_decide_eq_false_2 in Hdir by done.
  assert (Ho' : ss_endpoints (publish_track s eid e dir tr) !! oid = Some eo).
  { rewrite lookup_publish_track, decide_False, Ho by done. simpl. unfold propagate_track.
    by rewrite bool_decide_eq_false_2, Hmid, Hnone, bool_decide_eq_false_2 by done. }
  split; [done|]. intros Hsub.
  destruct (Hsub eid (push_transceiver e tr) mid tr oid eo) as (u & Hu & _); try done.
  - by rewrite lookup_publish_track, decide_True.
  - simpl. by rewrite Hmid, lookup_insert_eq.
  - congruence.
Qed.

(** When an endpoint leaves, the others keep its tracks; when it comes back
    and publishes a track under an old mid, they are neither changed nor
    marked for renegotiation: they keep the sender of before. *)
Lemma returning_track_not_announced s eid e tr oid eo u :
  ss_endpoints s !! eid = Some e → oid ≠ eid → ss_endpoints s !! oid = Some eo →
  ep_transceivers eo !! other_mid eid (tv_mid tr) = Some u → tv_direction u = Sendonly →
  ss_endpoints (publish_track s eid e Sendonly tr) !! oid = Some eo.
Proof.
  intros He Hoid Ho Hu Hd. rewrite lookup_publish_track, decide_False, Ho by done. simpl.
  unfold propagate_track. rewrite bool_decide_eq_false_2 by done. rewrite Hu.
  rewrite Hd, bool_decide_eq_false_2 by auto. done.
Qed.

Lemma leaving_keeps_tracks s eid oid :
  oid ≠ eid → ss_endpoints (ss_remove_endpoint s eid) !! oid = ss_endpoints s !! oid.
Proof. intros Hne. simpl. by rewrite lookup_delete_ne. Qed.

End gaps.
