(* ===== verification/Loop.v ===== *)
(** * The run loop (examples/sync_signal/mod.rs)

    One round of [sync_run] with everything the outside decides as a record: the
    stop channel, which sends succeed, the signalling request at hand, the
    clock, and what the socket delivers.  The first theorem is that a round
    always ends; the second carries the timer's promise to the loop. *)

From Stdlib Require Import ZArith Lia.
From Stdlib Require Relation_Operators Lexicographic_Product.
From stdpp Require Import base numbers strings fin_maps gmap list.
From S2P Require Import Prelude RustStr Enums Types Sdp Codec ReceiverStream.
From S2P Require Import Interceptors MediaParse MediaConfig Config Endpoint.
From S2P Require Import Description Session ServerStates Stable Demux Gateway Srtp.
From S2P Require Import DataChannel InterceptorHandler Dtls Sctp Pipeline Room Runs.

(** What [socket.recv_from] returns. *)
Inductive Received : Type :=
| Recv_Datagram (peer_addr : SocketAddr) (data : bytes) (now : Instant)
| Recv_Timeout
| Recv_Error.

(** The size of the receive buffer. *)
Definition buf_len : nat := 2000.

(** Whether the loop goes on after a round. *)
Inductive Flow := Flow_Next | Flow_Break.

Section loop.
Context `{O : SdpOps} `{CO : !ConfigOps} `{TO : !TransportOps} `{RO : !RtpOps} `{GO : !GatewayOps}
  `{SC : !StunCodec} `{SR : !SrtpOps} `{DC : !DcepOps} `{DO : !DtlsOps} `{SO : !SctpOps}
  `{HO : HashOrder}.
Implicit Types (st : ServerStates) (p : Pipeline).

(** The outside of one round. [rd_signal] is the request in the channel and
    whether its sender still waits for the response. *)
Record Round := {
  rd_stop : bool;
  rd_send : TaggedBytesMut → bool;
  rd_env : Env;
  rd_signal : option (SignalingProtocolMessage * bool);
  rd_eto_now : Instant;
  rd_delay_now : Instant;
  rd_received : Received;
  rd_read_env : Env;
  rd_timer_now : Instant
}.

(** [read_socket_input]: a datagram longer than the buffer is cut; any error
    but a timeout panics. *)
Definition read_socket_input (local_addr : SocketAddr) (r : Received) : outcome (option TaggedBytesMut) :=
  match r with
  | Recv_Datagram peer_addr data now =>
      Ok (Some {| tb_now := now;
                  tb_transport := {| tc_local_addr := local_addr; tc_peer_addr := peer_addr;
                                     tc_ecn := None |};
                  tb_message := take buf_len data |})
  | Recv_Timeout => Ok None
  | Recv_Error => Panic
  end.

(** [write_socket_output] with sends that may fail: the pipeline, the datagrams
    sent and the result; [None] when [fuel] polls are not enough. *)
Fixpoint write_socket (fuel : nat) (send : TaggedBytesMut → bool) p
  : option (Pipeline * list TaggedBytesMut * outcome ()) :=
  match fuel with
  | 0 => None
  | S fuel =>
      match (pipeline_poll_transmit p).1 with
      | (p, None) => Some (p, [], Ok ())
      | (p, Some x) =>
          if send x then
            match write_socket fuel send p with
            | Some (p, sent, r) => Some (p, x :: sent, r)
            | None => None
            end
          else Some (p, [], Err (ErrOther "send_to"))
      end
  end.

(** The result of a round: the pipeline, the response sent to the signalling
    thread, and whether the loop goes on, or why it ended. *)
Definition RoundResult : Type := Pipeline * option SignalingProtocolMessage * outcome Flow.

(** The end of a round: wait for a datagram until the next timeout, at most 100
    milliseconds, and then drive the timers. *)
Definition serve_socket (local_addr : SocketAddr) (r : Round) (response : option SignalingProtocolMessage) p
  : RoundResult :=
  let eto := pipeline_poll_timeout p (rd_eto_now r + 100 * 1000000)%Z in
  if (eto <=? rd_delay_now r)%Z then
    ((pipeline_handle_timeout p (rd_timer_now r)).1, response, Ok Flow_Next)
  else
    match read_socket_input local_addr (rd_received r) with
    | Ok (Some input) =>
        let p := (pipeline_read (rd_read_env r) input p).1 in
        ((pipeline_handle_timeout p (rd_timer_now r)).1, response, Ok Flow_Next)
    | Ok None => ((pipeline_handle_timeout p (rd_timer_now r)).1, response, Ok Flow_Next)
    | Err e => (p, response, Err e)
    | Panic => (p, response, Panic)
    end.

(** The body of the loop. *)
Definition run_round (fuel : nat) (local_addr : SocketAddr) (r : Round) p : option RoundResult :=
  if rd_stop r then Some (p, None, Ok Flow_Break)
  else
    match write_socket fuel (rd_send r) p with
    | None => None
    | Some (p, _, Err e) => Some (p, None, Err e)
    | Some (p, _, Panic) => Some (p, None, Panic)
    | Some (p, _, Ok _) =>
        match rd_signal r with
        | Some (request, waiting) =>
            let '(st, res) := handle_signaling_message (rd_env r) request (pl_states p) in
            match res with
            | Ok response =>
                if waiting then Some (serve_socket local_addr r (Some response) (with_states p st))
                else Some (with_states p st, None, Ok Flow_Next)
            | Err e => Some (with_states p st, None, Ok Flow_Next)
            | Panic => Some (with_states p st, None, Panic)
            end
        | None => Some (serve_socket local_addr r None p)
        end
    end.

(** Several rounds, as long as the loop goes on. *)
Fixpoint run_rounds (fuel : nat) (local_addr : SocketAddr) (rs : list Round) p
  : option (Pipeline * outcome Flow) :=
  match rs with
  | [] => Some (p, Ok Flow_Next)
  | r :: rs =>
      match run_round fuel local_addr r p with
      | Some (p, _, Ok Flow_Next) => run_rounds fuel local_addr rs p
      | Some (p, _, flow) => Some (p, flow)
      | None => None
      end
  end.

(** [sync_run]: the state is created for the address of the socket, the
    pipeline built, and the rounds run. *)
Definition sync_run (fuel : nat) (config : ServerConfig) (local_addr : SocketAddr) (now : Instant)
    (rs : list Round) : option (outcome (Pipeline * outcome Flow)) :=
  match server_states_new config local_addr with
  | Ok st =>
      match run_rounds fuel local_addr rs (build_pipeline now local_addr st) with
      | Some res => Some (Ok res)
      | None => None
      end
  | Err e => Some (Err e)
  | Panic => Some Panic
  end.

(** ** A round is a sequence of steps of the pipeline *)

(** With sends that succeed the writing is [write_socket_output]. *)
Lemma write_socket_output_complete fuel p p' sent r :
  write_socket fuel (λ _, true) p = Some (p', sent, r) →
  r = Ok () ∧ write_socket_output fuel p = (p', sent).
Proof.
  unfold write_socket_output. revert p p' sent r.
  induction fuel as [|fuel IH]; intros p p' sent r H; [done|]. cbn [write_socket drain] in *.
  destruct (pipeline_poll_transmit p).1 as [p1 [x|]]; [|by injection H as <- <- <-].
  destruct (write_socket fuel _ p1) as [[[p2 sent2] r2]|] eqn:E; [|done].
  injection H as <- <- <-. apply IH in E as [-> ->]. done.
Qed.

(** The round's requester, if any, waits for the response; otherwise the loop
    starts the next round before it reads or drives the timers. *)
Definition serves_timer (r : Round) : Prop :=
  match rd_signal r with Some (_, false) => False | _ => True end.

(** A relation that has the steps the round takes. *)
Section steps.
Variable R : relation Pipeline.
Variables (addr : SocketAddr) (r : Round).
Hypothesis R_transmit : ∀ p, R p (pipeline_poll_transmit p).1.1.
Hypothesis R_timer : ∀ now p, R p (pipeline_handle_timeout p now).1.
Hypothesis R_signal : ∀ request waiting p, rd_signal r = Some (request, waiting) →
  R p (with_states p (handle_signaling_message (rd_env r) request (pl_states p)).1).
Hypothesis R_datagram : ∀ input p, read_socket_input addr (rd_received r) = Ok (Some input) →
  R p (pipeline_read (rd_read_env r) input p).1.

Lemma write_socket_steps fuel send p p' sent res :
  write_socket fuel send p = Some (p', sent, res) → rtc R p p'.
Proof.
  revert p p' sent res. induction fuel as [|fuel IH]; intros p p' sent res H; [done|].
  cbn [write_socket] in H. pose proof (R_transmit p) as Hs.
  destruct (pipeline_poll_transmit p).1 as [p1 [x|]]; [|injection H as <- <- <-; by apply rtc_once].
  destruct (send x); [|injection H as <- <- <-; by apply rtc_once].
  destruct (write_socket fuel send p1) as [[[p2 sent2] r2]|] eqn:E; [|done].
  injection H as <- <- <-. eapply rtc_l; [exact Hs|]. by eapply IH.
Qed.

(** The end of a round: the timers are the last to run, or the thread dies. *)
Lemma serve_socket_steps response p p' response' flow :
  serve_socket addr r response p = (p', response', flow) →
  flow = Ok Flow_Next ∧
    (∃ q, rtc R p q ∧ p' = (pipeline_handle_timeout q (rd_timer_now r)).1) ∨
  flow = Panic ∧ p' = p.
Proof.
  unfold serve_socket. intros H. case_match.
  { injection H as <- <- <-. left. split; [done|]. exists p. split; [apply rtc_refl|done]. }
  pose proof R_datagram as Hd. unfold read_socket_input in *.
  destruct (rd_received r); injection H as <- <- <-; [left..|by right];
    (split; [done|]); eexists; (split; [|reflexivity]); [by apply rtc_once, Hd|apply rtc_refl].
Qed.

Lemma run_round_cases fuel p p' response flow :
  run_round fuel addr r p = Some (p', response, flow) →
  rtc R p p' ∧
  (flow = Ok Flow_Next → serves_timer r →
   ∃ q, rtc R p q ∧ p' = (pipeline_handle_timeout q (rd_timer_now r)).1).
Proof.
  assert (Hserve : ∀ response0 q response', rtc R p q → serve_socket addr r response0 q = (p', response', flow) →
    rtc R p p' ∧ (flow = Ok Flow_Next → serves_timer r →
      ∃ q, rtc R p q ∧ p' = (pipeline_handle_timeout q (rd_timer_now r)).1)).
  { intros response0 q response' Hq Hs.
    apply serve_socket_steps in Hs as [(_ & q' & Hq' & ->)|[-> ->]]; [|done]. split.
    - etrans; [exact Hq|]. etrans; [exact Hq'|]. by apply rtc_once.
    - intros _ _. exists q'. split; [by etrans|done]. }
  unfold run_round. intros H. destruct (rd_stop r); [by injection H as <- <- <-|].
  destruct (write_socket fuel (rd_send r) p) as [[[p1 sent] res]|] eqn:Ew; [|done].
  apply write_socket_steps in Ew.
  destruct res; [|by injection H as <- <- <-..]. unfold serves_timer in *.
  destruct (rd_signal r) as [[request waiting]|] eqn:Esig; [|injection H as H; by eapply Hserve].
  pose proof (R_signal request waiting p1 eq_refl) as Hs.
  destruct (handle_signaling_message _ _ _) as [st res] eqn:Em. simpl in Hs.
  assert (Hs' : rtc R p (with_states p1 st)) by (etrans; [exact Ew|by apply rtc_once]).
  destruct res; [|injection H as <- <- <-..].
  - destruct waiting; [injection H as H; by eapply Hserve|]. by injection H as <- <- <-.
  - split; [done|]. exfalso. unfold handle_signaling_message, handle_offer_message in Em.
    destruct request; try discriminate Em. by destruct (try_handle_offer _ _ _ _ _) as [? []].
  - done.
Qed.
End steps.

Lemma run_round_steps fuel addr r p p' response flow :
  run_round fuel addr r p = Some (p', response, flow) → rtc pipeline_step p p'.
Proof.
  intros H. eapply (run_round_cases pipeline_step) in H as [H _]; [done|intros; constructor..].
Qed.

Lemma run_rounds_steps fuel addr rs p p' flow :
  run_rounds fuel addr rs p = Some (p', flow) → rtc pipeline_step p p'.
Proof.
  revert p. induction rs as [|r rs IH]; intros p H; cbn [run_rounds] in H; [by injection H as <- <-|].
  destruct (run_round fuel addr r p) as [[[p1 response] flow1]|] eqn:E; [|done].
  apply run_round_steps in E. etrans; [exact E|].
  destruct flow1 as [[]| |]; [by apply IH|by injection H as <- <-..].
Qed.

(** ** A round ends *)

(** The lengths of the handlers' queues, from the gateway outwards. *)
Definition backlog p : nat * (nat * (nat * (nat * nat))) :=
  (length (gw_transmits (pl_gateway p)),
   (length (ih_transmits (pl_interceptor p)),
    (length (dc_transmits (pl_datachannel p)),
     (length (sh_transmits (pl_sctp p)), length (dh_transmits (pl_dtls p)))))).

Definition lex {B} (R : relation B) : relation (nat * B) := Relation_Operators.slexprod nat B lt R.
Definition backlog_lt : relation (nat * (nat * (nat * (nat * nat)))) := lex (lex (lex (lex lt))).

Lemma backlog_wf : well_founded backlog_lt.
Proof. repeat apply Lexicographic_Product.wf_slexprod; apply lt_wf. Qed.

Lemma lex_lt {B} (R : relation B) n n' b b' : n' < n → lex R (n', b') (n, b).
Proof. apply Relation_Operators.left_slex. Qed.
Lemma lex_eq {B} (R : relation B) n n' b b' : n' = n → R b' b → lex R (n', b') (n, b).
Proof. intros ->. apply Relation_Operators.right_slex. Qed.

(** A message is polled out of a queue, or the handler has nothing and asks the
    next one. *)
Lemma media_poll_backlog p p' m e :
  media_poll p = (p', m, e) →
  pl_datachannel p' = pl_datachannel p ∧ pl_sctp p' = pl_sctp p ∧ pl_dtls p' = pl_dtls p ∧
  (length (gw_transmits (pl_gateway p')) < length (gw_transmits (pl_gateway p)) ∨
   gw_transmits (pl_gateway p') = gw_transmits (pl_gateway p) ∧
   (length (ih_transmits (pl_interceptor p')) < length (ih_transmits (pl_interceptor p)) ∨
    ih_transmits (pl_interceptor p') = ih_transmits (pl_interceptor p) ∧ m = None)).
Proof.
  unfold media_poll, gw_poll_write, exception_poll_write. intros H.
  destruct (gw_transmits (pl_gateway p)) as [|x q] eqn:Eg; cbn [ih_poll_write] in H.
  - destruct (ih_transmits (pl_interceptor p)) as [|y q] eqn:Ei; cbn in H; rewrite Ei in H.
    + cbn in H. injection H as <- <- <-. split_and!; [done..|]. right. cbn. rewrite Eg.
      split; [done|]. by right.
    + cbn -[srtp_poll_write] in H. destruct (srtp_poll_write _ _) as [[st' m'] e'].
      injection H as <- <- <-. split_and!; [done..|]. right. cbn. rewrite Eg. split; [done|].
      left. lia.
  - cbn -[srtp_poll_write ih_poll_write] in H.
    destruct (ih_poll_write _ _ _) as [[[h st] m1] e1].
    destruct (srtp_poll_write _ _) as [[st' m'] e']. injection H as <- <- <-.
    split_and!; [done..|]. left. cbn. lia.
Qed.

Lemma datagram_poll_backlog p p' m x e :
  datagram_poll p m = (p', x, e) →
  pl_gateway p' = pl_gateway p ∧ pl_interceptor p' = pl_interceptor p ∧
  (m = None → is_Some x →
   lex (lex lt)
     (length (dc_transmits (pl_datachannel p')),
      (length (sh_transmits (pl_sctp p')), length (dh_transmits (pl_dtls p'))))
     (length (dc_transmits (pl_datachannel p)),
      (length (sh_transmits (pl_sctp p)), length (dh_transmits (pl_dtls p))))).
Proof.
  unfold datagram_poll. intros H. destruct (dc_poll_write _ _) as [h1 m1] eqn:E1.
  destruct (sctp_poll_write _ _ _) as [[[h2 st2] m2] e2] eqn:E2.
  destruct (dtls_poll_write _ _ _) as [[[h3 st3] m3] e3] eqn:E3. injection H as <- <- <-.
  split_and!; [done..|]. intros -> [x Hx]. cbn [pl_datachannel pl_sctp pl_dtls with_dtls with_sctp with_datachannel] in *.
  unfold dc_poll_write in E1. rewrite app_nil_r in E1.
  destruct (dc_transmits (pl_datachannel p)) as [|y q]; injection E1 as <- <-;
    [|apply lex_lt; cbn; lia].
  apply lex_eq; [done|]. unfold sctp_poll_write in E2.
  destruct (sh_transmits (pl_sctp p)) as [|y q] eqn:Es; injection E2 as <- <- <- <-;
    [rewrite Es|apply lex_lt; cbn; lia].
  apply lex_eq; [done|]. unfold dtls_poll_write, dh_pop in E3.
  destruct (dh_transmits (pl_dtls p)) as [|y q] eqn:Ed; injection E3 as <- <- <- <-; [done|].
  cbn. lia.
Qed.

Lemma poll_transmit_backlog p p' x :
  (pipeline_poll_transmit p).1 = (p', Some x) → backlog_lt (backlog p') (backlog p).
Proof.
  unfold pipeline_poll_transmit. destruct (media_poll p) as [[p1 m] e1] eqn:E1.
  destruct (datagram_poll p1 m) as [[p2 y] e2] eqn:E2. intros [= -> ->].
  apply media_poll_backlog in E1 as (Hdc & Hsctp & Hdtls & Hq).
  apply datagram_poll_backlog in E2 as (Hgw & Hih & Hlow). unfold backlog. rewrite Hgw, Hih.
  destruct Hq as [Hq|[-> [Hq| [-> ->]]]]; [by apply lex_lt|apply lex_eq; [done|]; by apply lex_lt|].
  apply lex_eq; [done|]. apply lex_eq; [done|]. rewrite <- Hdc, <- Hsctp, <- Hdtls. by apply Hlow.
Qed.

Lemma write_socket_ends send p :
  ∃ n res, ∀ fuel, n ≤ fuel → write_socket fuel send p = Some res.
Proof.
  remember (backlog p) as b eqn:Hb. revert p Hb.
  induction (backlog_wf b) as [b _ IH]; intros p ->.
  destruct (pipeline_poll_transmit p).1 as [p1 [x|]] eqn:E.
  - destruct (send x) eqn:Es.
    + destruct (IH _ (poll_transmit_backlog _ _ _ E) p1 eq_refl) as (n & [[p2 sent] r] & Hn).
      exists (S n), (p2, x :: sent, r). intros [|fuel] Hf; [lia|]. cbn [write_socket].
      rewrite E, Es, Hn; [done|lia].
    + exists 1. eexists. intros [|fuel] Hf; [lia|]. cbn [write_socket]. by rewrite E, Es.
  - exists 1. eexists. intros [|fuel] Hf; [lia|]. cbn [write_socket]. by rewrite E.
Qed.

(** C13. Every round of the loop ends: whatever is queued in the handlers,
    whichever sends fail and whatever arrives, a number of polls is enough for
    the loop that writes to the socket, and the round has a result. *)
Theorem run_round_terminates addr r p :
  ∃ n res, ∀ fuel, n ≤ fuel → run_round fuel addr r p = Some res.
Proof.
  destruct (write_socket_ends (rd_send r) p) as (n & [[p1 sent] res] & Hn). exists n.
  unfold run_round. destruct (rd_stop r); [by eexists|].
  destruct res as [u|e|];
    [|exists (p1, None, Err e); intros fuel Hf; by rewrite (Hn fuel Hf)
     |exists (p1, None, Panic); intros fuel Hf; by rewrite (Hn fuel Hf)].
  destruct (rd_signal r) as [[request waiting]|].
  - destruct (handle_signaling_message (rd_env r) request (pl_states p1)) as [st res] eqn:Es.
    destruct res, waiting; eexists; intros fuel Hf; by rewrite (Hn fuel Hf), Es.
  - eexists. intros fuel Hf. by rewrite (Hn fuel Hf).
Qed.

(** ** Silent connections *)

(** Nothing comes from the peer of the four tuple in this round. *)
Definition silent_round (ft : FourTuple) (r : Round) : Prop :=
  match rd_received r with Recv_Datagram peer_addr _ _ => peer_addr ≠ ft_peer_addr ft | _ => True end.

Lemma run_round_silent ft fuel addr r p p' response flow :
  silent_round ft r → run_round fuel addr r p = Some (p', response, flow) →
  rtc (other_step ft) p p' ∧
  (flow = Ok Flow_Next → serves_timer r →
   ∃ q, rtc (other_step ft) p q ∧ p' = (pipeline_handle_timeout q (rd_timer_now r)).1).
Proof.
  intros Hr. apply run_round_cases; [intros; constructor..|].
  intros input q Hin. apply other_datagram. unfold silent_round, read_socket_input in *.
  destruct (rd_received r); [|done..]. injection Hin as <-. intros <-. by apply Hr.
Qed.

Lemma run_rounds_silent ft fuel addr rs p p' flow :
  Forall (silent_round ft) rs → run_rounds fuel addr rs p = Some (p', flow) →
  rtc (other_step ft) p p'.
Proof.
  intros Hrs. revert p. induction Hrs as [|r rs Hr _ IH]; intros p H; cbn [run_rounds] in H;
    [by injection H as <- <-|].
  destruct (run_round fuel addr r p) as [[[p1 response] flow1]|] eqn:E; [|done].
  apply (run_round_silent ft) in E as [E _]; [|done]. etrans; [exact E|].
  destruct flow1 as [[]| |]; [by apply IH|by injection H as <- <-..].
Qed.

Lemma run_rounds_app fuel addr rs rs' p p' :
  run_rounds fuel addr (rs ++ rs') p = Some (p', Ok Flow_Next) →
  ∃ q, run_rounds fuel addr rs p = Some (q, Ok Flow_Next) ∧
       run_rounds fuel addr rs' q = Some (p', Ok Flow_Next).
Proof.
  revert p. induction rs as [|r rs IH]; intros p H; [by exists p|]. cbn [app run_rounds] in *.
  destruct (run_round fuel addr r p) as [[[p1 response] [[]| |]]|]; try done. by apply IH.
Qed.

(** C8. A silent peer is disconnected in bounded time: take a connection the
    table knows and any rounds of the loop, with whatever other datagrams and
    requests, in which nothing comes from its peer.  A round that reaches its
    timers, at a time that is past the gateway's next timeout and two idle
    times past the connection's last activity, leaves the connection closed,
    and it stays closed as long as the peer is silent. *)
Theorem silent_peer_disconnected fuel addr rs r rs' sid eid ft t p p' :
  server_ok (pl_states p) → connection (pl_states p) sid eid ft = Some t →
  find_endpoint (pl_states p) ft = Some (sid, eid) →
  (0 ≤ gw_idle_timeout (pl_gateway p))%Z → Forall (silent_round ft) (rs ++ r :: rs') →
  serves_timer r → (gw_next_timeout (pl_gateway p) ≤ rd_timer_now r)%Z →
  (tr_last_activity t + 2 * gw_idle_timeout (pl_gateway p) ≤ rd_timer_now r)%Z →
  run_rounds fuel addr (rs ++ r :: rs') p = Some (p', Ok Flow_Next) →
  connection (pl_states p') sid eid ft = None.
Proof.
  intros Hok Hc Hf Hidle [Hrs [Hr Hrs']%Forall_cons]%Forall_app Hserve Hnext Hlast Hrun.
  apply run_rounds_app in Hrun as (p1 & H1 & H2). cbn [run_rounds] in H2.
  destruct (run_round fuel addr r p1) as [[[p2 response] [[]| |]]|] eqn:E; try done.
  apply (run_rounds_silent ft) in H1; [|done]. apply (run_rounds_silent ft) in H2; [|done].
  apply (run_round_silent ft) in E as [_ E]; [|done].
  destruct (E eq_refl Hserve) as (q & Hq & ->).
  eapply (silent_connection_closed sid eid ft t p q); [done..|by etrans|done|done|done].
Qed.

End loop.
