(* ===== verification/Signaling.v ===== *)
(** * Signalling (examples/sync_signal/mod.rs, examples/async_signal/mod.rs)

    The two HTTP front ends, the threads behind them, and the set-up of the two
    example programs (examples/sync_chat.rs, examples/async_chat.rs,
    examples/util/mod.rs).  A front end hands a request to the worker of the
    port its session belongs to; the worker is an argument of the front end. *)

From Stdlib Require Import ZArith Lia.
From Stdlib Require Strings.Byte.
From stdpp Require Import base numbers strings fin_maps gmap list sorting.
From S2P Require Import Prelude RustStr Enums Types Sdp Codec ReceiverStream.
From S2P Require Import Interceptors MediaParse MediaConfig Config Certificate Endpoint.
From S2P Require Import Description Session ServerStates Stable Demux Gateway Srtp.
From S2P Require Import DataChannel InterceptorHandler Dtls Sctp Pipeline Room Runs Loop.

(** ** Requests and responses *)

(** A request: the body is [None] when it cannot be read. *)
Record Request := { rq_method : string; rq_url : string; rq_data : option bytes }.
Record Response := { rs_status : Z; rs_content_type : string; rs_data : bytes }.

(** A response without a body. *)
Definition empty_response (status : Z) : Response :=
  {| rs_status := status; rs_content_type := ""; rs_data := [] |}.
Definition body_response (status : Z) (content_type : string) (data : bytes) : Response :=
  {| rs_status := status; rs_content_type := content_type; rs_data := data |}.

(** The messages of async_signal; an error's reason is kept as the error. *)
Inductive AsyncSignalingMessage : Type :=
| Async_Ok (session_id endpoint_id : Z)
| Async_Err (session_id endpoint_id : Z) (reason : Error)
| Async_Join (session_id : Z)
| Async_Offer (session_id endpoint_id : Z) (offer_sdp : bytes)
| Async_Answer (session_id endpoint_id : Z) (answer_sdp : bytes)
| Async_Trickle (session_id endpoint_id : Z) (trickle_sdp : bytes)
| Async_Leave (session_id endpoint_id : Z).

(** ** Routing *)

Section routing.
Context `{HO : HashOrder} {Sender : Type}.
Implicit Types m : gmap Z Sender.

(** [sorted_ports]. *)
Definition sorted_ports m : list Z := merge_sort Z.le (hm_keys m).

(** [sorted_ports[(session_id as usize) % sorted_ports.len()]]. *)
Definition select_port (ports : list Z) (session_id : Z) : option Z :=
  ports !! Z.to_nat (session_id mod Z.of_nat (length ports)).

Lemma sorted_ports_perm m : sorted_ports m ≡ₚ (map_to_list m).*1.
Proof.
  unfold sorted_ports, hm_keys. rewrite merge_sort_Permutation. by rewrite hm_list_perm.
Qed.

Lemma elem_of_sorted_ports m port : port ∈ sorted_ports m ↔ is_Some (m !! port).
Proof. unfold sorted_ports. by rewrite merge_sort_Permutation, elem_of_hm_keys. Qed.

Lemma sorted_ports_sorted m : StronglySorted Z.le (sorted_ports m).
Proof. apply (StronglySorted_merge_sort Z.le). Qed.

(** The ports do not depend on the order of the keys in the map. *)
Lemma sorted_ports_unique m l :
  StronglySorted Z.le l → l ≡ₚ (map_to_list m).*1 → sorted_ports m = l.
Proof.
  intros Hs Hl. apply (StronglySorted_unique Z.le); [apply sorted_ports_sorted|done|].
  by rewrite Hl, sorted_ports_perm.
Qed.

Lemma sorted_ports_NoDup m : NoDup (sorted_ports m).
Proof. rewrite sorted_ports_perm. apply NoDup_fst_map_to_list. Qed.

Lemma select_port_Some m session_id :
  m ≠ ∅ → ∃ port tx, select_port (sorted_ports m) session_id = Some port ∧ m !! port = Some tx.
Proof.
  intros Hm. destruct (map_choose m Hm) as (k & x & Hk).
  assert (Hin : k ∈ sorted_ports m) by (apply elem_of_sorted_ports; eauto).
  assert (Hlen : 0 < length (sorted_ports m)).
  { destruct (sorted_ports m); [by apply not_elem_of_nil in Hin|simpl; lia]. }
  pose proof (Z.mod_pos_bound session_id (Z.of_nat (length (sorted_ports m))) ltac:(lia)) as Hb.
  unfold select_port.
  destruct (lookup_lt_is_Some_2 (sorted_ports m)
    (Z.to_nat (session_id mod Z.of_nat (length (sorted_ports m))))) as [port Hport]; [lia|].
  apply list_elem_of_lookup_2 in Hport as Hp. apply elem_of_sorted_ports in Hp as [tx Htx]. eauto.
Qed.
End routing.

(** ** The front ends *)

Section front_ends.
Context `{HO : HashOrder} {Sender W : Type}.
Implicit Types m : gmap Z Sender.
(** The page, which the asynchronous server reads from a file. *)
Variable chat_html : bytes.
Variable open_chat_html : option bytes.
(** The text of an error. *)
Variable error_text : Error → bytes.
(** A worker: what sending it a message and waiting for the response does;
    [None] when the worker is gone or drops the request. *)
Variable ask : Sender → SignalingProtocolMessage → W → W * option SignalingProtocolMessage.
Variable ask_async : Sender → AsyncSignalingMessage → W → W * option AsyncSignalingMessage.

(** The offer branch of [web_request]. *)
Definition web_offer (tx : Sender) (session_id endpoint_id : Z) (offer_sdp : bytes) (w : W)
  : W * outcome Response :=
  let '(w, response) := ask tx (Signal_Offer session_id endpoint_id offer_sdp) w in
  (w, match response with
      | Some (Signal_Answer _ _ answer_sdp) => Ok (body_response 200 "application/json" answer_sdp)
      | Some _ => Ok (empty_response 404)
      | None => Panic
      end).

(** [web_request]. *)
Definition web_request (request : Request) m (w : W) : W * outcome Response :=
  if String.eqb (rq_method request) "GET"
  then (w, Ok (body_response 200 "text/html; charset=utf-8" chat_html))
  else
    match str_split ch_slash (rq_url request) with
    | [_; name; s; e] =>
        match parse_u64 s, parse_u64 e with
        | Ok session_id, Ok endpoint_id =>
            match select_port (sorted_ports m) session_id, rq_data request with
            | Some port, Some offer_sdp =>
                match m !! port with
                | Some tx =>
                    if String.eqb name "offer" then web_offer tx session_id endpoint_id offer_sdp w
                    else (w, Ok (empty_response 200))
                | None => (w, Ok (empty_response 406))
                end
            | _, _ => (w, Panic)
            end
        | _, _ => (w, Ok (empty_response 400))
        end
    | _ => (w, Ok (empty_response 400))
    end.

(** What the last lines of [remote_handler] answer. *)
Definition internal_error : Response := empty_response 500.

(** A reason becomes the body of an internal error. *)
Definition reason_response (reason : Error) : Response := body_response 500 "" (error_text reason).

(** The routes that [remote_handler] checks for an endpoint identifier. *)
Definition needs_endpoint (name : string) : bool :=
  String.eqb name "offer" || String.eqb name "answer" || String.eqb name "leave".

(** A route's exchange with the worker: [found] gives the response to a
    successful answer. *)
Definition exchange (tx : Sender) (request : AsyncSignalingMessage)
    (found : AsyncSignalingMessage → option Response) (w : W) : W * outcome Response :=
  let '(w, response) := ask_async tx request w in
  (w, Ok (match response with
          | Some r =>
              match found r with
              | Some response => response
              | None => match r with Async_Err _ _ reason => reason_response reason
                                   | _ => internal_error end
              end
          | None => internal_error
          end)).

(** What a route makes of the worker's answer. *)
Definition found_endpoint (r : AsyncSignalingMessage) : option Response :=
  match r with
  | Async_Ok _ endpoint_id => Some (body_response 200 "" (as_bytes (show_u endpoint_id)))
  | _ => None
  end.
Definition found_answer (r : AsyncSignalingMessage) : option Response :=
  match r with Async_Answer _ _ answer_sdp => Some (body_response 200 "" answer_sdp) | _ => None end.
Definition found_ok (r : AsyncSignalingMessage) : option Response :=
  match r with Async_Ok _ _ => Some (empty_response 200) | _ => None end.

(** The four routes.  A body that [hyper] fails to read leaves the handler with its error. *)
Definition with_body (request : Request) (k : bytes → W → W * outcome Response) (w : W)
  : W * outcome Response :=
  match rq_data request with
  | Some body => k body w
  | None => (w, Err (ErrOther "hyper"))
  end.

Definition route_join (tx : Sender) (session_id : Z) : W → W * outcome Response :=
  exchange tx (Async_Join session_id) found_endpoint.
Definition route_offer (request : Request) (tx : Sender) (session_id endpoint_id : Z)
  : W → W * outcome Response :=
  with_body request (λ offer_sdp,
    exchange tx (Async_Offer session_id endpoint_id offer_sdp) found_answer).
Definition route_answer (request : Request) (tx : Sender) (session_id endpoint_id : Z)
  : W → W * outcome Response :=
  with_body request (λ answer_sdp,
    exchange tx (Async_Answer session_id endpoint_id answer_sdp) found_ok).
Definition route_leave (tx : Sender) (session_id endpoint_id : Z) : W → W * outcome Response :=
  exchange tx (Async_Leave session_id endpoint_id) found_ok.

(** [match (req.method(), path[1])]. *)
Definition remote_route (request : Request) (tx : Sender) (name : string) (session_id endpoint_id : Z)
    (w : W) : W * outcome Response :=
  if negb (String.eqb (rq_method request) "POST") then (w, Ok (empty_response 404))
  else if String.eqb name "join" then route_join tx session_id w
  else if String.eqb name "offer" then route_offer request tx session_id endpoint_id w
  else if String.eqb name "answer" then route_answer request tx session_id endpoint_id w
  else if String.eqb name "leave" then route_leave tx session_id endpoint_id w
  else (w, Ok (empty_response 404)).

(** [remote_handler]. *)
Definition remote_handler (request : Request) m (w : W) : W * outcome Response :=
  if String.eqb (rq_method request) "GET"
     && (String.eqb (rq_url request) "/" || String.eqb (rq_url request) "/index.html")
  then (w, Ok (match open_chat_html with
               | Some page => body_response 200 "" page
               | None => empty_response 404
               end))
  else
    match str_split ch_slash (rq_url request) with
    | _ :: name :: s :: rest =>
        let endpoint := match rest with
                        | e :: _ => parse_u64 e
                        | [] => Err (ErrOther "missing")
                        end in
        match parse_u64 s with
        | Ok session_id =>
            if needs_endpoint name && negb (is_Ok endpoint) then (w, Ok (empty_response 400))
            else
              match select_port (sorted_ports m) session_id with
              | Some port =>
                  match m !! port with
                  | Some tx =>
                      remote_route request tx name session_id
                        (match endpoint with Ok e => e | _ => 0 end)%Z w
                  | None => (w, Panic)
                  end
              | None => (w, Panic)
              end
        | _ => (w, Ok (empty_response 400))
        end
    | _ => (w, Ok (empty_response 400))
    end.

End front_ends.

(** ** The asynchronous worker *)

Section async.
Context `{O : SdpOps} `{CO : !ConfigOps} `{TO : !TransportOps} `{RO : !RtpOps} `{GO : !GatewayOps}
  `{SC : !StunCodec} `{SR : !SrtpOps} `{DC : !DcepOps} `{DO : !DtlsOps} `{SO : !SctpOps}
  `{HO : HashOrder}.
Implicit Types (st : ServerStates).

(** [handle_offer_message] of async_signal, with its own closure [try_handle],
    [handle_answer_message] and [handle_leave_message]. *)
Definition async_try_handle_offer (env : Env) (session_id endpoint_id : Z) (offer : bytes)
  : M ServerStates bytes :=
  offer_str ← liftO (from_utf8 offer);
  offer_sdp ← liftO (match json_to_description offer_str with
                     | inl d => Ok d
                     | inr e => Err (ErrOther e)
                     end);
  answer ← accept_offer (env_now env) (env_user env) (env_pass env) session_id endpoint_id None
             offer_sdp;
  answer_str ← liftO (json_print answer);
  mret (as_bytes answer_str).

Definition async_handle_offer (env : Env) (session_id endpoint_id : Z) (offer : bytes) st
  : ServerStates * outcome AsyncSignalingMessage :=
  match async_try_handle_offer env session_id endpoint_id offer st with
  | (st, Ok answer_sdp) => (st, Ok (Async_Answer session_id endpoint_id answer_sdp))
  | (st, Err e) => (st, Ok (Async_Err session_id endpoint_id e))
  | (st, Panic) => (st, Panic)
  end.

Definition async_handle_answer (session_id endpoint_id : Z) (answer_sdp : bytes) st
  : ServerStates * outcome AsyncSignalingMessage :=
  match from_utf8 answer_sdp with
  | Ok _ => (st, Ok (Async_Ok session_id endpoint_id))
  | Err e => (st, Ok (Async_Err session_id endpoint_id e))
  | Panic => (st, Panic)
  end.

Definition async_handle_leave (session_id endpoint_id : Z) st
  : ServerStates * outcome AsyncSignalingMessage :=
  (st, Ok (Async_Ok session_id endpoint_id)).

(** [handle_signaling_message] of async_signal; [random_id] is the identifier
    drawn for a joining endpoint. *)
Definition async_handle_signaling_message (env : Env) (random_id : Z)
    (request : AsyncSignalingMessage) st : ServerStates * outcome AsyncSignalingMessage :=
  match request with
  | Async_Join session_id => (st, Ok (Async_Ok session_id random_id))
  | Async_Offer sid eid offer_sdp => async_handle_offer env sid eid offer_sdp st
  | Async_Answer sid eid answer_sdp => async_handle_answer sid eid answer_sdp st
  | Async_Leave sid eid => async_handle_leave sid eid st
  | Async_Ok sid eid | Async_Err sid eid _ | Async_Trickle sid eid _ =>
      (st, Ok (Async_Err sid eid (ErrOther "Invalid Request")))
  end.

(** One turn of the loop of a worker in async_chat: the worker with its state,
    or [None] when it has left the loop or panicked, and the response. *)
Inductive AsyncEvent := Async_Stop | Async_Recv (request : AsyncSignalingMessage) | Async_RecvError.

Definition async_turn (env : Env) (random_id : Z) (event : AsyncEvent) st
  : option ServerStates * option AsyncSignalingMessage :=
  match event with
  | Async_Stop | Async_RecvError => (None, None)
  | Async_Recv request =>
      match async_handle_signaling_message env random_id request st with
      | (st, Ok response) => (Some st, Some response)
      | (st, Err _) => (Some st, None)
      | (_, Panic) => (None, None)
      end
  end.

(** The workers by port, as far as signalling reaches them; the sender of a
    worker is its port. *)
Abbreviation AsyncWorkers := (gmap Z (option ServerStates)).

Definition async_worker_ask (env : Env) (random_id : Z) (port : Z) (request : AsyncSignalingMessage)
    (ws : AsyncWorkers) : AsyncWorkers * option AsyncSignalingMessage :=
  match ws !! port with
  | Some (Some st) =>
      let '(st, response) := async_turn env random_id (Async_Recv request) st in
      (<[port := st]> ws, response)
  | _ => (ws, None)
  end.

(** The signalling part of a round of [sync_run], on the same workers: the
    timers, reads and writes of the round are those of the file Loop. *)
Definition signal_turn (env : Env) (request : SignalingProtocolMessage) st
  : option ServerStates * option SignalingProtocolMessage :=
  match handle_signaling_message env request st with
  | (st, Ok response) => (Some st, Some response)
  | (st, Err _) => (Some st, None)
  | (_, Panic) => (None, None)
  end.

Definition signal_worker_ask (env : Env) (port : Z) (request : SignalingProtocolMessage)
    (ws : AsyncWorkers) : AsyncWorkers * option SignalingProtocolMessage :=
  match ws !! port with
  | Some (Some st) =>
      let '(st, response) := signal_turn env request st in (<[port := st]> ws, response)
  | _ => (ws, None)
  end.

(** What an offer for the worker of a port comes to: the workers afterwards and
    the text of the answer or the error; [None] when the worker is gone before
    or by it.  The body must be the JSON text of a description, which the
    server's state accepts. *)
Definition offer_served (env : Env) (port sid eid : Z) (body : bytes) (ws : AsyncWorkers)
  : AsyncWorkers * option (string + Error) :=
  match ws !! port with
  | Some (Some st) =>
      match from_utf8 body with
      | Ok text =>
          match json_to_description text with
          | inl offer =>
              let '(st', r) := accept_offer (env_now env) (env_user env) (env_pass env) sid eid
                                 None offer st in
              match r ≫= json_print with
              | Ok answer => (<[port := Some st']> ws, Some (inl answer))
              | Err e => (<[port := Some st']> ws, Some (inr e))
              | Panic => (<[port := None]> ws, None)
              end
          | inr e => (ws, Some (inr (ErrOther e)))
          end
      | Err e => (ws, Some (inr e))
      | Panic => (<[port := None]> ws, None)
      end
  | _ => (ws, None)
  end.

(** How the two front ends answer it. *)
Definition sync_reply (r : option (string + Error)) : outcome Response :=
  match r with
  | Some (inl answer) => Ok (body_response 200 "application/json" (as_bytes answer))
  | Some (inr _) => Ok (empty_response 404)
  | None => Panic
  end.
Definition async_reply (error_text : Error → bytes) (r : option (string + Error))
  : outcome Response :=
  match r with
  | Some (inl answer) => Ok (body_response 200 "" (as_bytes answer))
  | Some (inr e) => Ok (body_response 500 "" (error_text e))
  | None => Ok (empty_response 500)
  end.

Lemma signal_ask_offer env port sid eid body ws :
  signal_worker_ask env port (Signal_Offer sid eid body) ws =
  let '(ws', r) := offer_served env port sid eid body ws in
  (ws', match r with
        | Some (inl answer) => Some (Signal_Answer sid eid (as_bytes answer))
        | Some (inr e) => Some (Signal_Err sid eid e)
        | None => None
        end).
Proof.
  unfold signal_worker_ask, signal_turn, offer_served.
  destruct (ws !! port) as [[st|]|] eqn:Hw; [|done..]. simpl.
  unfold handle_offer_message, try_handle_offer. unfold mbind, M_bind, liftO.
  destruct (from_utf8 body) as [text| |]; simpl; [|by rewrite insert_id|done].
  destruct (json_to_description text) as [d|]; simpl; [|by rewrite insert_id].
  destruct (accept_offer _ _ _ _ _ _ _ _) as [st' [a| |]]; simpl; [|done..].
  by destruct (json_print a).
Qed.

Lemma async_ask_offer env random_id port sid eid body ws :
  async_worker_ask env random_id port (Async_Offer sid eid body) ws =
  let '(ws', r) := offer_served env port sid eid body ws in
  (ws', match r with
        | Some (inl answer) => Some (Async_Answer sid eid (as_bytes answer))
        | Some (inr e) => Some (Async_Err sid eid e)
        | None => None
        end).
Proof.
  unfold async_worker_ask, async_turn, offer_served.
  destruct (ws !! port) as [[st|]|] eqn:Hw; [|done..]. simpl.
  unfold async_handle_offer, async_try_handle_offer. unfold mbind, M_bind, liftO.
  destruct (from_utf8 body) as [text| |]; simpl; [|by rewrite insert_id|done].
  destruct (json_to_description text) as [d|]; simpl; [|by rewrite insert_id].
  destruct (accept_offer _ _ _ _ _ _ _ _) as [st' [a| |]]; simpl; [|done..].
  by destruct (json_print a).
Qed.

(** C22. Both servers serve a posted offer as [offer_served] says: a POST of an
    offer, with a path of four parts and a body, reaches the worker of the port
    that the session identifier selects, in whatever order the maps list the
    ports, and leaves the workers of both servers in the same state.  Both
    answer an accepted offer with 200 and the same SDP.  They differ on a
    failure, where the synchronous server answers 404 and the asynchronous one
    500 with the text of that error, and when the worker is gone, where the
    synchronous request thread panics and the asynchronous server answers 500.
    Identifiers that are no numbers give 400 on both. *)
Theorem async_offer_agrees (HO2 : HashOrder) chat_html page error_text env random_id request
    (m : gmap Z Z) ws a s e body :
  m ≠ ∅ → rq_method request = "POST" → str_split ch_slash (rq_url request) = [a; "offer"; s; e] →
  rq_data request = Some body →
  let sync := web_request (HO := HO) chat_html (signal_worker_ask env) request m ws in
  let async := remote_handler (HO := HO2) page error_text (async_worker_ask env random_id)
    request m ws in
  match parse_u64 s, parse_u64 e with
  | Ok sid, Ok eid => ∃ port tx,
      select_port (merge_sort Z.le (map_to_list m).*1) sid = Some port ∧ m !! port = Some tx ∧
      let '(ws', r) := offer_served env tx sid eid body ws in
      sync = (ws', sync_reply r) ∧ async = (ws', async_reply error_text r)
  | _, _ => sync = (ws, Ok (empty_response 400)) ∧ async = (ws, Ok (empty_response 400))
  end.
Proof.
  intros Hm Hpost Hpath Hbody. unfold web_request, remote_handler.
  assert (Hu : ∀ HO' : HashOrder, sorted_ports (HO := HO') m = merge_sort Z.le (map_to_list m).*1).
  { intros HO'. apply sorted_ports_unique; [apply (StronglySorted_merge_sort Z.le)|].
    apply merge_sort_Permutation. }
  pose proof (select_port_Some m) as Hsel. rewrite !Hu in *. rewrite Hpost, Hpath, Hbody. simpl.
  destruct (parse_u64 s) as [sid| |]; [|done..].
  destruct (parse_u64 e) as [eid| |]; simpl; [|done..].
  destruct (Hsel sid Hm) as (port & tx & Hp & Htx). exists port, tx. do 2 (split; [done|]).
  rewrite Hp, Htx. unfold remote_route, route_offer, with_body, exchange, web_offer.
  rewrite Hpost, Hbody, signal_ask_offer. simpl. rewrite async_ask_offer.
  by destruct (offer_served _ _ _ _ _ _) as [ws' [[]|]].
Qed.

End async.

(** ** The synchronous workers *)

(** A map filled in a loop. *)
Lemma lookup_foldl_insert {A} (f : Z → A) ports (m : gmap Z A) port :
  foldl (λ m port, <[port := f port]> m) m ports !! port =
  if decide (port ∈ ports) then Some (f port) else m !! port.
Proof.
  revert m. induction ports as [|x ports IH]; intros m; cbn [foldl].
  { by rewrite decide_False by apply not_elem_of_nil. }
  rewrite IH. destruct (decide (port ∈ ports)) as [H|H].
  - by rewrite decide_True by (by right).
  - destruct (decide (port = x)) as [->|Hne].
    + by rewrite decide_True, lookup_insert_eq by left.
    + rewrite lookup_insert_ne by done. rewrite decide_False; [done|].
      rewrite elem_of_cons. tauto.
Qed.

Section workers.
Context `{O : SdpOps} `{CO : !ConfigOps} `{TO : !TransportOps} `{RO : !RtpOps} `{GO : !GatewayOps}
  `{SC : !StunCodec} `{SR : !SrtpOps} `{DC : !DcepOps} `{DO : !DtlsOps} `{SO : !SctpOps}
  `{HO : HashOrder}.
Implicit Types (st : ServerStates) (p : Pipeline).

(** The threads by port, [None] when the thread has ended.  Each runs
    [sync_run] on its own socket, whose address is [addr_of] its port. *)
Abbreviation Workers := (gmap Z (option Pipeline)).
Variable addr_of : Z → SocketAddr.

(** The thread after a round. *)
Definition after_round (flow : outcome Flow) p : option Pipeline :=
  match flow with Ok Flow_Next => Some p | _ => None end.

(** A round in which a waiting request is in the channel. *)
Definition with_signal (r : Round) (request : SignalingProtocolMessage) : Round :=
  {| rd_stop := rd_stop r; rd_send := rd_send r; rd_env := rd_env r;
     rd_signal := Some (request, true); rd_eto_now := rd_eto_now r; rd_delay_now := rd_delay_now r;
     rd_received := rd_received r; rd_read_env := rd_read_env r; rd_timer_now := rd_timer_now r |}.

(** [tx.send(..)] and [response_rx.recv()]: the worker takes the request in its
    next round [r]. *)
Definition worker_ask (fuel : nat) (r : Round) (port : Z) (request : SignalingProtocolMessage)
    (ws : Workers) : Workers * option SignalingProtocolMessage :=
  match ws !! port with
  | Some (Some p) =>
      match run_round fuel (addr_of port) (with_signal r request) p with
      | Some (p, response, flow) => (<[port := after_round flow p]> ws, response)
      | None => (ws, None)
      end
  | _ => (ws, None)
  end.

(** [(cli.media_port_min..=cli.media_port_max).collect()]. *)
Definition media_ports (media_port_min media_port_max : Z) : list Z :=
  seqZ media_port_min (media_port_max - media_port_min + 1).

(** The threads and the map of their senders that [main] builds; a thread whose
    state cannot be created ends at once. *)
Definition start_worker (config : ServerConfig) (now : Instant) (port : Z) : option Pipeline :=
  match server_states_new config (addr_of port) with
  | Ok st => Some (build_pipeline now (addr_of port) st)
  | _ => None
  end.
Definition start_workers (config : ServerConfig) (now : Instant) (ports : list Z) : Workers :=
  foldl (λ ws port, <[port := start_worker config now port]> ws) ∅ ports.
Definition media_port_thread_map (ports : list Z) : gmap Z Z :=
  foldl (λ m port, <[port := port]> m) ∅ ports.

(** The program runs: a request is served, or a worker has a round without one. *)
Inductive system_step (chat_html : bytes) (m : gmap Z Z) : Workers → Workers → Prop :=
| sys_request fuel r request ws :
    system_step chat_html m ws (web_request chat_html (worker_ask fuel r) request m ws).1
| sys_round fuel r port p p' response flow ws :
    ws !! port = Some (Some p) → rd_signal r = None →
    run_round fuel (addr_of port) r p = Some (p', response, flow) →
    system_step chat_html m ws (<[port := after_round flow p']> ws).

(** ** Sharding *)

(** Every session a state knows satisfies [Q]: the sessions there are, the ones
    candidates were issued for, and the ones of the table. *)
Record sharded (Q : SessionId → Prop) st : Prop := {
  sh_sessions sid : is_Some (st_sessions st !! sid) → Q sid;
  sh_candidates u c : st_candidates st !! u = Some c → Q (cand_session_id c);
  sh_table ft sid eid : find_endpoint st ft = Some (sid, eid) → Q sid
}.

(** The session is known to the state. *)
Definition knows_session st (sid : SessionId) : Prop :=
  is_Some (st_sessions st !! sid) ∨
  (∃ u c, st_candidates st !! u = Some c ∧ cand_session_id c = sid) ∨
  (∃ ft eid, find_endpoint st ft = Some (sid, eid)).

Lemma sharded_knows Q st sid : sharded Q st → knows_session st sid → Q sid.
Proof. intros [H1 H2 H3] [?|[(u & c & Hc & <-)|(ft & eid & ?)]]; eauto. Qed.

Lemma sharded_smaller Q st st' :
  (∀ sid, is_Some (st_sessions st' !! sid) → is_Some (st_sessions st !! sid)) →
  st_candidates st' ⊆ st_candidates st → st_endpoints st' ⊆ st_endpoints st →
  sharded Q st → sharded Q st'.
Proof.
  intros Hs Hc He [H1 H2 H3]. split.
  - intros sid Hsid. by apply H1, Hs.
  - intros u c Hu. by eapply H2, lookup_weaken.
  - intros ft sid eid Hf. by eapply (H3 ft), lookup_weaken.
Qed.

#[local] Instance sharded_stable Q : Stable (sharded Q).
Proof.
  split.
  - intros st sid eid ft f _. apply sharded_smaller; [|done..]. intros sid'. simpl.
    rewrite lookup_alter. by case_decide; subst; rewrite ?fmap_is_Some.
  - intros st f _. apply sharded_smaller; [|done..]. intros sid'. simpl.
    by rewrite lookup_fmap, fmap_is_Some.
  - intros st sid eid i _. apply sharded_smaller; [|done..]. intros sid'. simpl.
    rewrite lookup_alter. by case_decide; subst; rewrite ?fmap_is_Some.
  - intros st g _. apply sharded_smaller; [|done..]. intros sid'. simpl.
    by rewrite lookup_fmap, fmap_is_Some.
Qed.

#[local] Instance sharded_removable Q : Removable (sharded Q).
Proof.
  intros st ft. apply sharded_smaller.
  - intros sid. destruct (removed_sessions st ft) as [H|[sid0 H]]; rewrite H; tauto.
  - destruct (removed_candidates st ft) as [->|[u ->]]; [done|apply delete_subseteq].
  - unfold st_remove_transport. repeat (case_match; simplify_eq/=; try done); apply delete_subseteq.
Qed.

Lemma sharded_offer_stable (asked : SessionId → Prop) Q :
  (∀ sid, asked sid → Q sid) → OfferStable asked (sharded Q).
Proof.
  intros Hq. split.
  - intros st sid Hn [H1 H2 H3]. assert (Hsid : Q sid).
    { destruct Hn as [?|(ft & eid & ?)]; eauto. }
    unfold create_or_get_mut_session. case_match; [done|]. split; [|done..]. simpl. intros sid'.
    rewrite lookup_insert. case_decide; [congruence|apply H1].
  - intros st sid s s' Hs _. apply sharded_smaller; [|done..]. intros sid'. simpl.
    by rewrite (session_changed_dom st sid s s').
  - intros st c Hc [H1 H2 H3]. split; [done| |done]. simpl. intros u c'.
    rewrite lookup_insert_Some. intros [[_ <-]|[_ ?]]; eauto.
Qed.

#[local] Instance sharded_visited Q ft : Visited ft (sharded Q).
Proof.
  split.
  - intros st sid eid now _. apply sharded_smaller; [|done..]. intros sid'. simpl.
    rewrite lookup_alter. by case_decide; subst; rewrite ?fmap_is_Some.
  - intros env request u c tc st Hft Hu [H1 H2 H3].
    destruct (gw_add_endpoint env request c tc st) as [st' r] eqn:E. simpl.
    pose proof (add_endpoint_sessions env request c tc st) as Hs. rewrite E in Hs.
    apply gw_add_endpoint_opens in E as [->|(_ & t & _ & _ & _ & _ & Htab & Hcand)]; [done|].
    split.
    + intros sid. rewrite Hs. apply H1.
    + rewrite Hcand. exact H2.
    + intros ft' sid eid. unfold find_endpoint. rewrite Htab, lookup_insert_Some.
      intros [[_ [= <- _]]|[_ Hf]]; [by eapply H2|by eapply H3].
Qed.

(** A worker that is asked about sessions of [Q] only knows such. *)
Lemma run_round_sharded Q fuel addr r p p' response flow :
  (∀ request waiting, rd_signal r = Some (request, waiting) → Q (request_session request)) →
  run_round fuel addr r p = Some (p', response, flow) →
  sharded Q (pl_states p) → sharded Q (pl_states p').
Proof.
  intros Hq Hrun. pose proof (sharded_offer_stable (λ _, False) Q (λ _ H, False_ind _ H)) as Hno.
  pose proof (sharded_offer_stable Q Q (λ _ H, H)) as Hyes.
  apply (run_round_cases (λ p p', sharded Q (pl_states p) → sharded Q (pl_states p'))) in Hrun as [H _].
  - induction H as [|x y z Hxy _ IH]; auto.
  - intros q. apply (pipeline_poll_transmit_stable (sharded Q)).
  - intros now q. apply (pipeline_handle_timeout_stable (sharded Q)).
  - intros request waiting q Hr. by eapply (handle_signaling_message_stable Q), Hq.
  - intros input q _. by apply (pipeline_read_stable (sharded Q) (tb_transport input)).
Qed.

(** Every worker knows only the sessions of its port. *)
Definition workers_sharded (ports : list Z) (ws : Workers) : Prop :=
  ∀ port p, ws !! port = Some (Some p) →
    sharded (λ sid, select_port ports sid = Some port) (pl_states p).

Lemma workers_sharded_update ports ws port q :
  workers_sharded ports ws →
  (∀ p, q = Some p → sharded (λ sid, select_port ports sid = Some port) (pl_states p)) →
  workers_sharded ports (<[port := q]> ws).
Proof.
  intros Hws Hq port' p. rewrite lookup_insert_Some. intros [[<- ->]|[_ Hp]]; [by apply Hq|by apply Hws].
Qed.

Lemma after_round_Some flow p q : after_round flow p = Some q → q = p.
Proof. destruct flow as [[]| |]; simpl; congruence. Qed.

Lemma worker_ask_sharded ports fuel r port request ws :
  select_port ports (request_session request) = Some port →
  workers_sharded ports ws → workers_sharded ports (worker_ask fuel r port request ws).1.
Proof.
  intros Hport Hws. unfold worker_ask. destruct (ws !! port) as [[p|]|] eqn:Ep; [|done..].
  destruct (run_round _ _ _ p) as [[[p' response] flow]|] eqn:Er; [|done]. simpl.
  apply workers_sharded_update; [done|]. intros q ->%after_round_Some.
  eapply run_round_sharded; [|exact Er|by apply Hws]. intros ? ? [= <- <-]. done.
Qed.

Lemma web_request_sharded chat_html fuel r request (m : gmap Z Z) ws :
  (∀ port tx, m !! port = Some tx → tx = port) → workers_sharded (sorted_ports m) ws →
  workers_sharded (sorted_ports m) (web_request chat_html (worker_ask fuel r) request m ws).1.
Proof.
  intros Hm Hws. unfold web_request. destruct (String.eqb (rq_method request) _); [done|].
  destruct (str_split _ _) as [|? [|name [|s [|e []]]]]; try done.
  destruct (parse_u64 s) as [sid| |], (parse_u64 e) as [eid| |]; try done.
  destruct (select_port (sorted_ports m) sid) as [port|] eqn:Ep, (rq_data request) as [b|]; try done.
  destruct (m !! port) as [tx|] eqn:Etx; [|done]. apply Hm in Etx as ->.
  destruct (String.eqb name _); [|done]. unfold web_offer.
  pose proof (worker_ask_sharded (sorted_ports m) fuel r port (Signal_Offer sid eid b) ws Ep Hws) as H.
  by destruct (worker_ask _ _ _ _ _).
Qed.

Lemma system_step_sharded chat_html (m : gmap Z Z) ws ws' :
  (∀ port tx, m !! port = Some tx → tx = port) → system_step chat_html m ws ws' →
  workers_sharded (sorted_ports m) ws → workers_sharded (sorted_ports m) ws'.
Proof.
  intros Hm [fuel r request ws0|fuel r port p p' response flow ws0 Hp Hr Hrun] Hws.
  - by apply web_request_sharded.
  - apply workers_sharded_update; [done|]. intros q ->%after_round_Some.
    eapply run_round_sharded; [|exact Hrun|by apply Hws]. intros ? ?. by rewrite Hr.
Qed.

Lemma start_worker_sharded config now port p Q :
  start_worker config now port = Some p → sharded Q (pl_states p).
Proof.
  unfold start_worker. destruct (server_states_new _ _) as [st| |] eqn:E; [|done..]. intros [= <-]. simpl.
  unfold server_states_new in E. apply bind_ok_inv in E as (cert & _ & E).
  apply bind_ok_inv in E as (fp & _ & [= <-]). split; simpl.
  - intros sid. rewrite lookup_empty. by intros [].
  - intros u c. by rewrite lookup_empty.
  - intros ft sid eid. unfold find_endpoint. simpl. by rewrite lookup_empty.
Qed.

(** A worker only ever knows the sessions of its own port. *)
Lemma session_on_one_port chat_html config now ports ws a b p q sid :
  rtc (system_step chat_html (media_port_thread_map ports)) (start_workers config now ports) ws →
  ws !! a = Some (Some p) → knows_session (pl_states p) sid →
  (ws !! b = Some (Some q) → knows_session (pl_states q) sid → a = b) ∧
  select_port (sorted_ports (media_port_thread_map ports)) sid = Some a.
Proof.
  intros Hrun Ha Hp. set (m := media_port_thread_map ports) in *.
  assert (Hm : ∀ port tx, m !! port = Some tx → tx = port).
  { intros port tx. unfold m, media_port_thread_map. rewrite (lookup_foldl_insert (λ port, port)).
    rewrite lookup_empty. case_decide; congruence. }
  assert (Hstart : workers_sharded (sorted_ports m) (start_workers config now ports)).
  { intros port p0. unfold start_workers. rewrite (lookup_foldl_insert (start_worker config now)).
    rewrite lookup_empty. case_decide; [|done]. intros [= Hw]. by eapply start_worker_sharded. }
  assert (Hws : workers_sharded (sorted_ports m) ws).
  { induction Hrun as [|x y z Hxy _ IH]; [done|]. by apply IH; [|eapply system_step_sharded]. }
  pose proof (sharded_knows _ _ _ (Hws _ _ Ha) Hp) as Hsa. split; [|done].
  intros Hb Hq. pose proof (sharded_knows _ _ _ (Hws _ _ Hb) Hq) as Hsb. simpl in *. congruence.
Qed.

End workers.

(** ** The example programs *)

(** [Level], and the filter of the [log] crate it stands for. *)
Inductive Level := Level_Error | Level_Warn | Level_Info | Level_Debug | Level_Trace.
Inductive LevelFilter := Filter_Off | Filter_Error | Filter_Warn | Filter_Info | Filter_Debug | Filter_Trace.
Definition level_filter (level : Level) : LevelFilter :=
  match level with
  | Level_Error => Filter_Error
  | Level_Warn => Filter_Warn
  | Level_Info => Filter_Info
  | Level_Debug => Filter_Debug
  | Level_Trace => Filter_Trace
  end.

(** The command line and its defaults. *)
Record Cli := {
  cli_host : string;
  cli_signal_port : Z;
  cli_media_port_min : Z;
  cli_media_port_max : Z;
  cli_force_local_loop : bool;
  cli_debug : bool;
  cli_level : Level
}.
Definition cli_default : Cli :=
  {| cli_host := "127.0.0.1"; cli_signal_port := 8080; cli_media_port_min := 3478;
     cli_media_port_max := 3495; cli_force_local_loop := false; cli_debug := false;
     cli_level := Level_Info |}%Z.

(** The command line of async_chat. *)
Record AsyncCli := {
  acli_host : string;
  acli_signal_port : Z;
  acli_media_port_min : Z;
  acli_media_port_max : Z;
  acli_debug : bool;
  acli_level : Level
}.
Definition async_cli_default : AsyncCli :=
  {| acli_host := "127.0.0.1"; acli_signal_port := 8080; acli_media_port_min := 3478;
     acli_media_port_max := 3495; acli_debug := false; acli_level := Level_Info |}%Z.
(** The same arguments given to async_chat. *)
Definition same_arguments (cli : Cli) : AsyncCli :=
  {| acli_host := cli_host cli; acli_signal_port := cli_signal_port cli;
     acli_media_port_min := cli_media_port_min cli; acli_media_port_max := cli_media_port_max cli;
     acli_debug := cli_debug cli; acli_level := cli_level cli |}.

(** [systemstat::IpAddr], with the addresses [select_host_address] passes over. *)
Inductive NetworkAddr := Net_V4 (bits : Z) | Net_Other.

Definition is_loopback (bits : Z) : bool := (Z.shiftr bits 24 =? 127)%Z.
Definition is_link_local (bits : Z) : bool := (Z.shiftr bits 16 =? 169 * 256 + 254)%Z.
Definition is_broadcast (bits : Z) : bool := (bits =? 2 ^ 32 - 1)%Z.

(** [select_host_address]: the addresses of each network in turn. *)
Fixpoint select_in_network (addrs : list NetworkAddr) : option IpAddr :=
  match addrs with
  | [] => None
  | Net_V4 v :: addrs =>
      if negb (is_loopback v) && negb (is_link_local v) && negb (is_broadcast v) then Some (IpV4 v)
      else select_in_network addrs
  | Net_Other :: addrs => select_in_network addrs
  end.
Fixpoint select_host_address (networks : list (list NetworkAddr)) : outcome IpAddr :=
  match networks with
  | [] => Panic
  | net :: networks =>
      match select_in_network net with
      | Some ip => Ok ip
      | None => select_host_address networks
      end
  end.

Section programs.
Context `{O : SdpOps} `{CO : !ConfigOps} `{TO : !TransportOps} `{RO : !RtpOps} `{GO : !GatewayOps}
  `{SC : !StunCodec} `{SR : !SrtpOps} `{DC : !DcepOps} `{DO : !DtlsOps} `{SO : !SctpOps}
  `{HO : HashOrder} `{KT : CertificateTypes}.

(** The configurations of the two programs, around a handshake configuration
    that [dtls::config::ConfigBuilder] built. *)
Definition sync_server_config (certificate : RTCCertificate) (dtls : HandshakeConfig) : ServerConfig :=
  with_idle_timeout
    (with_sctp_server_config
       (with_sctp_endpoint_config
          (with_dtls_handshake_config (server_config_new [certificate]) dtls)
          sctp_endpoint_config_default)
       sctp_server_config_default)
    (30 * 1000000000).
Definition async_server_config (certificate : RTCCertificate) (dtls : HandshakeConfig) : ServerConfig :=
  with_sctp_server_config
    (with_sctp_endpoint_config
       (with_dtls_handshake_config (server_config_new [certificate]) dtls)
       sctp_endpoint_config_default)
    sctp_server_config_default.

(** [format!("{host_addr}:{port}")] as an address. *)
Definition socket_of (host : IpAddr) (port : Z) : SocketAddr :=
  match host with IpV4 ip => SocketV4 ip port | IpV6 ip => SocketV6 ip port 0 0 end.

(** The outside of [main]: the networks of the host, [IpAddr::from_str], the
    generated key pair, the certificate and handshake configuration for it,
    which sockets can be bound, and the clock. *)
Record Host := {
  ho_networks : list (list NetworkAddr);
  ho_ip_from_str : string → outcome IpAddr;
  ho_key_pair : outcome KeyPair;
  ho_certificate : KeyPair → outcome RTCCertificate;
  ho_dtls_config : list DtlsCertificate → outcome HandshakeConfig;
  ho_bind : SocketAddr → bool;
  ho_now : Instant
}.

Definition host_address (cli : Cli) (host : Host) : outcome IpAddr :=
  if String.eqb (cli_host cli) "127.0.0.1" && negb (cli_force_local_loop cli)
  then select_host_address (ho_networks host)
  else ho_ip_from_str host (cli_host cli).

(** [main] of sync_chat up to the start of the signalling server: the map of
    senders and the workers. *)
Definition sync_main (cli : Cli) (host : Host) : outcome (gmap Z Z * gmap Z (option Pipeline)) :=
  host_addr ← host_address cli host;
  let ports := media_ports (cli_media_port_min cli) (cli_media_port_max cli) in
  key_pair ← ho_key_pair host;
  certificate ← ho_certificate host key_pair;
  dtls ← ho_dtls_config host [dtls_certificate certificate];
  let config := sync_server_config certificate dtls in
  if forallb (λ port, ho_bind host (socket_of host_addr port)) ports
  then Ok (media_port_thread_map ports, start_workers (socket_of host_addr) config (ho_now host) ports)
  else Panic.

(** A worker of async_chat: the thread panics without an address or a state, and
    returns when the socket cannot be bound. *)
Definition async_start_worker (addr_from_str : string → outcome SocketAddr) (cli : AsyncCli) (host : Host)
    (config : ServerConfig) (port : Z) : option Pipeline :=
  match addr_from_str (acli_host cli +:+ ":" +:+ show_u port) with
  | Ok local_addr =>
      match server_states_new config local_addr with
      | Ok st => if ho_bind host local_addr then Some (build_pipeline (ho_now host) local_addr st) else None
      | _ => None
      end
  | _ => None
  end.

(** [main] of async_chat up to the start of the signalling server. *)
Definition async_main (addr_from_str : string → outcome SocketAddr) (cli : AsyncCli) (host : Host)
  : outcome (gmap Z Z * gmap Z (option Pipeline)) :=
  let ports := media_ports (acli_media_port_min cli) (acli_media_port_max cli) in
  key_pair ← ho_key_pair host;
  certificate ← ho_certificate host key_pair;
  dtls ← ho_dtls_config host [dtls_certificate certificate];
  let config := async_server_config certificate dtls in
  Ok (media_port_thread_map ports,
      foldl (λ ws port, <[port := async_start_worker addr_from_str cli host config port]> ws) ∅ ports).

(** Both programs run the server with the same configuration. *)
Lemma server_configs_agree certificate dtls :
  sync_server_config certificate dtls = async_server_config certificate dtls.
Proof. done. Qed.

(** Where the host is given and every socket can be bound, they start the same
    workers. *)
Lemma mains_agree addr_from_str cli host host_addr :
  host_address cli host = Ok host_addr →
  (∀ port, addr_from_str (cli_host cli +:+ ":" +:+ show_u port) = Ok (socket_of host_addr port)) →
  (∀ addr, ho_bind host addr = true) →
  async_main addr_from_str (same_arguments cli) host = sync_main cli host.
Proof.
  intros Hhost Haddr Hbind. unfold sync_main, async_main. rewrite Hhost. simpl.
  destruct (ho_key_pair host) as [kp| |]; [|done..]. simpl.
  destruct (ho_certificate host kp) as [cert| |]; [|done..]. simpl.
  destruct (ho_dtls_config host _) as [dtls| |]; [|done..]. simpl.
  rewrite (proj2 (forallb_forall _ _)) by (intros; apply Hbind). f_equal. f_equal.
  unfold start_workers. apply map_eq. intros port.
  rewrite (lookup_foldl_insert (async_start_worker addr_from_str (same_arguments cli) host _)).
  rewrite (lookup_foldl_insert (start_worker (socket_of host_addr) _ (ho_now host))).
  unfold async_start_worker, start_worker. rewrite Haddr.
  change (sync_server_config cert dtls) with (async_server_config cert dtls).
  destruct (server_states_new _ _); by rewrite ?Hbind.
Qed.

Lemma select_host_address_usable networks ip :
  select_host_address networks = Ok ip →
  ∃ v, ip = IpV4 v ∧ Net_V4 v ∈ concat networks ∧
    is_loopback v = false ∧ is_link_local v = false ∧ is_broadcast v = false.
Proof.
  assert (Hnet : ∀ net ip, select_in_network net = Some ip → ∃ v, ip = IpV4 v ∧ Net_V4 v ∈ net ∧
    is_loopback v = false ∧ is_link_local v = false ∧ is_broadcast v = false).
  { induction net as [|[v|] net IH]; intros ip0; cbn [select_in_network]; [done| |].
    - destruct (is_loopback v) eqn:E1, (is_link_local v) eqn:E2, (is_broadcast v) eqn:E3; simpl;
        try (intros (v' & -> & Hin & H)%IH; exists v'; split; [done|split; [by right|done]]).
      intros [= <-]. exists v. split_and!; [done|left|done..].
    - intros (v' & -> & Hin & H)%IH. exists v'. split; [done|]. split; [by right|done]. }
  induction networks as [|net networks IH]; cbn [select_host_address concat]; [done|].
  destruct (select_in_network net) as [ip'|] eqn:E.
  - intros [= <-]. apply Hnet in E as (v & -> & Hin & H). exists v.
    split; [done|]. split; [apply elem_of_app; by left|done].
  - intros (v & -> & Hin & H)%IH. exists v. split; [done|]. split; [apply elem_of_app; by right|done].
Qed.

Lemma media_ports_spec a b port : port ∈ media_ports a b ↔ (a ≤ port ≤ b)%Z.
Proof. unfold media_ports. rewrite elem_of_seqZ. lia. Qed.

(** A leave is acknowledged, and nothing leaves: the workers are as before. *)
Lemma leave_changes_nothing {W} chat_html ask request (m : gmap Z Z) (w : W) a s e sid eid body :
  m ≠ ∅ → rq_method request = "POST" → str_split ch_slash (rq_url request) = [a; "leave"; s; e] →
  parse_u64 s = Ok sid → parse_u64 e = Ok eid → rq_data request = Some body →
  web_request chat_html ask request m w = (w, Ok (empty_response 200)).
Proof.
  intros Hm Hpost Hpath Hs He Hbody. unfold web_request. rewrite Hpost, Hpath, Hs, He, Hbody. simpl.
  by destruct (select_port_Some m sid Hm) as (port & tx & -> & ->).
Qed.

(** With an empty range of ports every well-formed request panics. *)
Lemma no_ports_panic {W} chat_html ask request a b (w : W) x name s e sid eid :
  (b < a)%Z → rq_method request = "POST" → str_split ch_slash (rq_url request) = [x; name; s; e] →
  parse_u64 s = Ok sid → parse_u64 e = Ok eid →
  web_request chat_html ask request (media_port_thread_map (media_ports a b)) w = (w, Panic).
Proof.
  intros Hlt Hpost Hpath Hs He. unfold web_request. rewrite Hpost, Hpath, Hs, He. simpl.
  assert (Hp : media_ports a b = []).
  { destruct (media_ports a b) as [|port l] eqn:E; [done|].
    assert (Hin : port ∈ media_ports a b) by (rewrite E; left).
    apply media_ports_spec in Hin. lia. }
  rewrite Hp. assert (Hl : sorted_ports (media_port_thread_map []) = []).
  { destruct (sorted_ports _) as [|port l] eqn:E; [done|].
    assert (Hin : port ∈ sorted_ports (media_port_thread_map [])) by (rewrite E; left).
    apply elem_of_sorted_ports in Hin as [? Hin]. unfold media_port_thread_map in Hin.
    simpl in Hin. by rewrite lookup_empty in Hin. }
  by rewrite Hl.
Qed.

(** C9. A session lives on one worker: from the workers that [main] starts, and
    however requests, datagrams and timers interleave, and in whatever order the
    hash maps are iterated, a worker only ever knows sessions (running, invited
    to or in its table) of its own port, so that the endpoints of a session
    always meet on one worker. *)
Theorem session_on_one_worker cli host host_addr m ws0 chat_html ws a b p q sid :
  host_address cli host = Ok host_addr → sync_main cli host = Ok (m, ws0) →
  rtc (system_step (socket_of host_addr) chat_html m) ws0 ws →
  ws !! a = Some (Some p) → knows_session (pl_states p) sid →
  (ws !! b = Some (Some q) → knows_session (pl_states q) sid → a = b) ∧
  (cli_media_port_min cli ≤ a ≤ cli_media_port_max cli)%Z.
Proof.
  intros Hhost Hmain Hrun Ha Hp. unfold sync_main in Hmain. rewrite Hhost in Hmain. simpl in Hmain.
  apply bind_ok_inv in Hmain as (kp & _ & Hmain). apply bind_ok_inv in Hmain as (cert & _ & Hmain).
  apply bind_ok_inv in Hmain as (dtls & _ & Hmain). case_match; [|done]. injection Hmain as <- <-.
  eapply (session_on_one_port _ _ _ _ _ ws a b p q sid) in Hrun as [H1 H2]; [|done..].
  split; [done|]. apply media_ports_spec. unfold select_port in H2.
  apply list_elem_of_lookup_2, elem_of_sorted_ports in H2 as [tx H2].
  unfold media_port_thread_map in H2. rewrite (lookup_foldl_insert (λ port, port)) in H2.
  rewrite lookup_empty in H2. by case_decide.
Qed.

End programs.
