(* ===== verification/Shutdown.v ===== *)
(** * Starting and stopping the example programs (examples/*.rs)

    [main] of sync_chat starts one worker thread per media port, the thread of
    the meter provider and the signalling server, and then waits for Ctrl-C.
    The stop channel is a bounded channel of one message with a receiver in
    every worker and one in [main]: the message that Ctrl-C sends reaches one
    of them, the others learn of it because the sender is dropped.  A step
    relation interleaves the threads; the theorem says that after Ctrl-C every
    schedule ends, in a known number of steps, with all of them finished.
    [main] of async_chat does the same with a broadcast channel, of which each
    receiver sees the message. *)

From Stdlib Require Import ZArith Lia.
From stdpp Require Import base numbers strings fin_maps gmap list relations.
From S2P Require Import Prelude RustStr Enums Types Sdp Codec ReceiverStream.
From S2P Require Import Interceptors MediaParse MediaConfig Config Certificate Endpoint.
From S2P Require Import Description Session ServerStates Stable Demux Gateway Srtp.
From S2P Require Import DataChannel InterceptorHandler Dtls Sctp Pipeline Room Runs Loop Signaling.

(** ** Channels *)

(** What [try_recv] answers; a blocking [recv] waits while it is [Empty]. *)
Inductive RecvResult := Received_Message | Recv_Empty | Recv_Disconnected.

(** One receiver's view of a channel of the [crossbeam_channel] or the
    [async_broadcast] crate: the unread messages and whether the sender is
    gone. *)
Class ChannelOps := {
  Chan : Type;
  chan_new : Chan;
  chan_send : Chan → Chan;
  chan_drop_sender : Chan → Chan;
  chan_try_recv : Chan → Chan * RecvResult;
  chan_unread : Chan → nat;
  chan_closed : Chan → bool
}.

(** Documented behaviour of a channel of capacity one. *)
Class ChannelLaws `{ChannelOps} : Prop := {
  chan_new_view : chan_unread chan_new = 0 ∧ chan_closed chan_new = false;
  chan_send_view c : chan_unread c = 0 → chan_closed c = false →
    chan_unread (chan_send c) = 1 ∧ chan_closed (chan_send c) = false;
  chan_drop_view c :
    chan_unread (chan_drop_sender c) = chan_unread c ∧ chan_closed (chan_drop_sender c) = true;
  chan_recv_view c :
    chan_closed (chan_try_recv c).1 = chan_closed c ∧
    chan_unread (chan_try_recv c).1 = Nat.pred (chan_unread c) ∧
    (chan_try_recv c).2 = match chan_unread c with
                          | S _ => Received_Message
                          | 0 => if chan_closed c then Recv_Disconnected else Recv_Empty
                          end
}.

(** [Ok(_) => break, Err(err) => if err.is_disconnected() { break }]. *)
Definition stops (r : RecvResult) : bool :=
  match r with Recv_Empty => false | _ => true end.

Section channel.
Context `{CH : ChannelOps} `{CL : !ChannelLaws}.

Lemma closed_stops c : chan_closed c = true → stops (chan_try_recv c).2 = true.
Proof.
  destruct (chan_recv_view c) as (_ & _ & ->). intros ->. by destruct (chan_unread c).
Qed.

Lemma unsignalled_goes_on c :
  chan_closed c = false → chan_unread c = 0 →
  stops (chan_try_recv c).2 = false ∧
  chan_closed (chan_try_recv c).1 = false ∧ chan_unread (chan_try_recv c).1 = 0.
Proof. destruct (chan_recv_view c) as (-> & -> & ->). by intros -> ->. Qed.
End channel.

(** ** Runs that count down *)

(** When every step keeps [I] and takes one off [remaining], and a step is
    possible while there is something remaining, then every run ends after
    exactly so many steps. *)
Section countdown.
Context {A : Type} (R : relation A) (I : A → Prop) (remaining : A → nat).
Hypothesis R_counts : ∀ x y, I x → R x y → I y ∧ remaining x = S (remaining y).
Hypothesis R_possible : ∀ x, I x → remaining x ≠ 0 → ∃ y, R x y.

Lemma countdown_steps n x y : I x → nsteps R n x y → I y ∧ remaining x = n + remaining y.
Proof.
  intros Hx H. induction H as [x|n x y z Hxy _ IH]; [done|].
  destruct (R_counts x y Hx Hxy) as [Hy Hr]. destruct (IH Hy) as [Hz Hr']. split; [done|lia].
Qed.

Lemma countdown_ends x y : I x → rtc R x y → (∀ z, ¬ R y z) → I y ∧ remaining y = 0.
Proof.
  intros Hx H Hend. apply rtc_nsteps in H as [n H].
  destruct (countdown_steps n x y Hx H) as [Hy _]. split; [done|].
  destruct (decide (remaining y = 0)) as [|Hr]; [done|].
  destruct (R_possible y Hy Hr) as [z Hz]. by destruct (Hend z).
Qed.
End countdown.

Section programs.
Context `{O : SdpOps} `{CO : !ConfigOps} `{TO : !TransportOps} `{RO : !RtpOps} `{GO : !GatewayOps}
  `{SC : !StunCodec} `{SR : !SrtpOps} `{DC : !DcepOps} `{DO : !DtlsOps} `{SO : !SctpOps}
  `{HO : HashOrder} `{KT : CertificateTypes} `{CH : ChannelOps} (addr_of : Z → SocketAddr).
Implicit Types (p : Pipeline).

(** ** sync_chat *)

(** A worker thread: in the loop of [sync_run], past its [worker.done()] after
    [sync_run] stopped or returned an error, or unwound by a panic before
    it. *)
Inductive Worker := Worker_Running (p : Pipeline) | Worker_Done | Worker_Failed | Worker_Panicked.

(** What [main] waits for: the stop signal, the wait group, the thread of the
    signalling server; then it returns. *)
Inductive MainState := Main_Recv | Main_Wait | Main_Join | Main_Exited.

Record Program := {
  pg_handler : bool;
  pg_stop : Chan;
  pg_meter_stop : Chan;
  pg_workers : gmap Z Worker;
  pg_meter_done : bool;
  pg_cancelled : bool;
  pg_signal_done : bool;
  pg_main : MainState
}.

(** After the loop over the ports. *)
Definition program_start (workers : gmap Z (option Pipeline)) : Program :=
  {| pg_handler := true; pg_stop := chan_new; pg_meter_stop := chan_new;
     pg_workers := (λ w, match w with Some p => Worker_Running p | None => Worker_Failed end) <$> workers;
     pg_meter_done := false; pg_cancelled := false; pg_signal_done := false; pg_main := Main_Recv |}.

(** The Ctrl-C handler: the senders are taken at the first call, used and
    dropped. *)
Definition ctrl_c (pg : Program) : Program :=
  if pg_handler pg then
    {| pg_handler := false;
       pg_stop := chan_drop_sender (chan_send (pg_stop pg));
       pg_meter_stop := chan_drop_sender (chan_send (pg_meter_stop pg));
       pg_workers := pg_workers pg; pg_meter_done := pg_meter_done pg;
       pg_cancelled := pg_cancelled pg; pg_signal_done := pg_signal_done pg; pg_main := pg_main pg |}
  else pg.

(** A worker after a round: [sync_run] returned, or not. *)
Definition worker_after (flow : outcome Flow) p : Worker :=
  match flow with
  | Ok Flow_Next => Worker_Running p
  | Ok Flow_Break => Worker_Done
  | Err _ => Worker_Failed
  | Panic => Worker_Panicked
  end.

Definition pg_with (pg : Program) (stop : Chan) (workers : gmap Z Worker) (main : MainState) : Program :=
  {| pg_handler := pg_handler pg; pg_stop := stop; pg_meter_stop := pg_meter_stop pg;
     pg_workers := workers; pg_meter_done := pg_meter_done pg;
     pg_cancelled := pg_cancelled pg; pg_signal_done := pg_signal_done pg; pg_main := main |}.
(** The signalling server: [signal_cancel_tx.send(())], and the end of its
    thread. *)
Definition pg_with_signal (pg : Program) (cancelled done : bool) (main : MainState) : Program :=
  {| pg_handler := pg_handler pg; pg_stop := pg_stop pg; pg_meter_stop := pg_meter_stop pg;
     pg_workers := pg_workers pg; pg_meter_done := pg_meter_done pg;
     pg_cancelled := cancelled; pg_signal_done := done; pg_main := main |}.

(** The workers the wait group counts: those that have not called [done]. *)
Definition unfinished (ws : gmap Z Worker) : gmap Z () :=
  omap (λ w, match w with Worker_Done | Worker_Failed => None | _ => Some () end) ws.
Definition wait_group_empty (pg : Program) : bool :=
  bool_decide (unfinished (pg_workers pg) = ∅) && pg_meter_done pg.

(** One step of one thread: a round of a worker, the meter thread woken from
    its [recv], the signalling server that a message on its channel stops,
    [main] woken from its [recv], its [wait] or its [join]. *)
Inductive program_step (pg : Program) : Program → Prop :=
| ps_worker port p fuel r p' response flow :
    pg_workers pg !! port = Some (Worker_Running p) →
    rd_stop r = stops (chan_try_recv (pg_stop pg)).2 →
    run_round fuel (addr_of port) r p = Some (p', response, flow) →
    program_step pg (pg_with pg (chan_try_recv (pg_stop pg)).1
                       (<[port := worker_after flow p']> (pg_workers pg)) (pg_main pg))
| ps_meter :
    pg_meter_done pg = false → stops (chan_try_recv (pg_meter_stop pg)).2 = true →
    program_step pg
      {| pg_handler := pg_handler pg; pg_stop := pg_stop pg;
         pg_meter_stop := (chan_try_recv (pg_meter_stop pg)).1; pg_workers := pg_workers pg;
         pg_meter_done := true; pg_cancelled := pg_cancelled pg;
         pg_signal_done := pg_signal_done pg; pg_main := pg_main pg |}
| ps_signal :
    pg_cancelled pg = true → pg_signal_done pg = false →
    program_step pg (pg_with_signal pg true true (pg_main pg))
| ps_main_recv :
    pg_main pg = Main_Recv → stops (chan_try_recv (pg_stop pg)).2 = true →
    program_step pg (pg_with pg (chan_try_recv (pg_stop pg)).1 (pg_workers pg) Main_Wait)
| ps_main_wait :
    pg_main pg = Main_Wait → wait_group_empty pg = true →
    program_step pg (pg_with_signal pg true (pg_signal_done pg) Main_Join)
| ps_main_join :
    pg_main pg = Main_Join → pg_signal_done pg = true →
    program_step pg (pg_with pg (pg_stop pg) (pg_workers pg) Main_Exited).

(** What is left to do. *)
Definition running (ws : gmap Z Worker) : gmap Z () :=
  omap (λ w, match w with Worker_Running _ => Some () | _ => None end) ws.
Definition main_left (m : MainState) : nat :=
  match m with Main_Recv => 3 | Main_Wait => 2 | Main_Join => 1 | Main_Exited => 0 end.
Definition steps_left (pg : Program) : nat :=
  size (running (pg_workers pg)) + (if pg_meter_done pg then 0 else 1) +
  (if pg_signal_done pg then 0 else 1) + main_left (pg_main pg).

(** The senders are gone and no worker panicked; the signalling server is told
    to stop before [main] waits for it. *)
Definition stopping (pg : Program) : Prop :=
  chan_closed (pg_stop pg) = true ∧ chan_closed (pg_meter_stop pg) = true ∧
  match pg_main pg with
  | Main_Join => pg_cancelled pg = true
  | Main_Exited => pg_signal_done pg = true
  | _ => True
  end ∧
  ∀ port, pg_workers pg !! port ≠ Some Worker_Panicked.

Section laws.
Context `{CL : !ChannelLaws}.

Lemma ctrl_c_stops pg :
  pg_handler pg = true → pg_main pg = Main_Recv →
  (∀ port, pg_workers pg !! port ≠ Some Worker_Panicked) →
  stopping (ctrl_c pg) ∧ steps_left (ctrl_c pg) = steps_left pg.
Proof.
  intros Hh Hm Hw. unfold ctrl_c. rewrite Hh. split; [|done].
  split_and!; [apply chan_drop_view..|simpl; by rewrite Hm|done].
Qed.

Lemma lookup_running ws port :
  running ws !! port = Some () ↔ ∃ p, ws !! port = Some (Worker_Running p).
Proof.
  unfold running. rewrite lookup_omap. destruct (ws !! port) as [[p| | |]|]; simpl; split; intros H; eauto; try done;
    by destruct H as (? & [=]).
Qed.

Lemma running_insert_done ws port p :
  ws !! port = Some (Worker_Running p) →
  size (running ws) = S (size (running (<[port := Worker_Done]> ws))).
Proof.
  intros H. assert (Hr : running ws !! port = Some ()) by (apply lookup_running; eauto).
  unfold running at 2. rewrite omap_insert_None by done. fold (running ws).
  rewrite map_size_delete, Hr. assert (size (running ws) ≠ 0); [|lia].
  rewrite map_size_ne_0_lookup. eauto.
Qed.

(** Once the senders are gone, every step finishes something. *)
Lemma stopping_step pg pg' :
  stopping pg → program_step pg pg' → stopping pg' ∧ steps_left pg = S (steps_left pg').
Proof.
  intros (Hs & Hm & Hca & Hp). destruct (chan_recv_view (pg_stop pg)) as (Hc1 & _ & _).
  destruct (chan_recv_view (pg_meter_stop pg)) as (Hc2 & _ & _).
  intros [port p fuel r p' response flow Hw Hr Hrun|Hd Hst|Hca' Hd|Hmain Hst|Hmain Hwait|Hmain Hd];
    unfold stopping, steps_left; simpl.
  - rewrite closed_stops in Hr by done. unfold run_round in Hrun. rewrite Hr in Hrun.
    injection Hrun as <- <- <-. simpl. split.
    + split_and!; [congruence|done|done|]. intros port'. rewrite lookup_insert. case_decide; [done|apply Hp].
    + rewrite (running_insert_done _ _ _ Hw). lia.
  - split; [split_and!; [done|congruence|done|done]|]. rewrite Hd. lia.
  - split; [split_and!; [done|done|by destruct (pg_main pg)|done]|]. rewrite Hd. lia.
  - split; [split_and!; [congruence|done|done|done]|]. rewrite Hmain. simpl. lia.
  - split; [by split_and!|]. rewrite Hmain. simpl. lia.
  - split; [by split_and!|]. rewrite Hmain. simpl. lia.
Qed.

(** A round that finds the stop signal. *)
Definition stop_round : Round :=
  {| rd_stop := true; rd_send := λ _, true; rd_env := {| env_now := 0; env_user := []; env_pass := [] |};
     rd_signal := None; rd_eto_now := 0; rd_delay_now := 0; rd_received := Recv_Timeout;
     rd_read_env := {| env_now := 0; env_user := []; env_pass := [] |}; rd_timer_now := 0 |}.

Lemma stopping_progress pg : stopping pg → steps_left pg ≠ 0 → ∃ pg', program_step pg pg'.
Proof.
  intros (Hs & Hm & Hca & Hp) Hleft.
  destruct (decide (running (pg_workers pg) = ∅)) as [Hrun|Hrun].
  2:{ apply map_choose in Hrun as (port & [] & (p & Hw)%lookup_running).
      eexists. eapply (ps_worker pg port p 0 stop_round); [done|by rewrite closed_stops|done]. }
  destruct (pg_meter_done pg) eqn:Hmd.
  2:{ eexists. apply ps_meter; [done|by apply closed_stops]. }
  destruct (pg_main pg) eqn:Hmain.
  - eexists. apply ps_main_recv; [done|by apply closed_stops].
  - eexists. apply ps_main_wait; [done|]. unfold wait_group_empty. rewrite Hmd, andb_true_r.
    apply bool_decide_eq_true. apply map_eq. intros port. rewrite lookup_empty.
    apply (f_equal (lookup port)) in Hrun. rewrite lookup_empty in Hrun.
    unfold running in Hrun. unfold unfinished. rewrite lookup_omap in *. specialize (Hp port).
    by destruct (pg_workers pg !! port) as [[]|].
  - destruct (pg_signal_done pg) eqn:Hsd; eexists; [by apply ps_main_join|].
    by apply ps_signal.
  - unfold steps_left in Hleft. rewrite Hrun, Hmd, Hmain in Hleft. simpl in Hleft.
    by rewrite map_size_empty, Hca in Hleft.
Qed.

(** A round leaves the loop at the stop signal only. *)
Lemma round_breaks_on_stop fuel addr r p p' response :
  run_round fuel addr r p = Some (p', response, Ok Flow_Break) → rd_stop r = true.
Proof.
  unfold run_round, serve_socket. intros H. destruct (rd_stop r); [done|].
  repeat case_match; simplify_eq.
Qed.

(** Until Ctrl-C: [main], the meter and the signalling server wait, and no
    worker has left its loop for the stop signal. *)
Record not_stopped (pg : Program) : Prop := {
  ns_stop : chan_closed (pg_stop pg) = false ∧ chan_unread (pg_stop pg) = 0;
  ns_meter_stop : chan_closed (pg_meter_stop pg) = false ∧ chan_unread (pg_meter_stop pg) = 0;
  ns_handler : pg_handler pg = true;
  ns_main : pg_main pg = Main_Recv;
  ns_meter : pg_meter_done pg = false;
  ns_signal : pg_cancelled pg = false ∧ pg_signal_done pg = false;
  ns_workers : ∀ port, pg_workers pg !! port ≠ Some Worker_Done
}.

Lemma program_start_not_stopped workers : not_stopped (program_start workers).
Proof.
  destruct chan_new_view as [H1 H2]. split; simpl; try done. intros port. rewrite lookup_fmap.
  by destruct (workers !! port) as [[]|].
Qed.

Lemma not_stopped_step pg pg' : not_stopped pg → program_step pg pg' → not_stopped pg'.
Proof.
  intros [[Hc Hu] [Hcm Hum] Hh Hmain Hmd [Hca Hsd] Hws].
  destruct (unsignalled_goes_on _ Hc Hu) as (Hst & Hc' & Hu').
  destruct (unsignalled_goes_on _ Hcm Hum) as (Hstm & _ & _).
  intros [port p fuel r p' response flow Hw Hr Hrun|Hd Hst'|Hca' Hd|Hm Hst'|Hm Hwait|Hm Hd];
    try congruence.
  split; simpl; try done. intros port'. rewrite lookup_insert. case_decide; [|done].
  intros [= Hf]. destruct flow as [[]|?|]; try done. apply round_breaks_on_stop in Hrun. congruence.
Qed.

(** C14. Stopping works.  From the start of sync_chat, as long as nobody presses
    Ctrl-C and however the threads run, [main], the meter thread and the
    signalling server wait, and a worker leaves its loop only with an error or
    a panic.  After Ctrl-C, if no worker has panicked, every schedule of the
    threads ends after exactly one step per running worker, one for the meter,
    one for the signalling server and three for [main] (no worker serves
    another round), and when no thread can go on, no worker runs, the meter
    and the signalling server are done and [main] has returned. *)
Theorem shutdown_completes workers pg :
  rtc program_step (program_start workers) pg →
  (pg_main pg = Main_Recv ∧ pg_meter_done pg = false ∧ pg_signal_done pg = false ∧
   ∀ port, pg_workers pg !! port ≠ Some Worker_Done) ∧
  ((∀ port, pg_workers pg !! port ≠ Some Worker_Panicked) →
   (∀ n pg', nsteps program_step n (ctrl_c pg) pg' → n + steps_left pg' = steps_left pg) ∧
   (∀ pg', rtc program_step (ctrl_c pg) pg' → (∀ pg'', ¬ program_step pg' pg'') →
      pg_main pg' = Main_Exited ∧ pg_meter_done pg' = true ∧ pg_signal_done pg' = true ∧
      ∀ port w, pg_workers pg' !! port = Some w → w = Worker_Done ∨ w = Worker_Failed)).
Proof.
  intros Hrun.
  assert (Hq : not_stopped pg).
  { pose proof (program_start_not_stopped workers) as H0.
    induction Hrun as [|x y z Hxy _ IH]; [done|]. by apply IH, (not_stopped_step x). }
  destruct Hq as [_ _ Hh Hmain Hmd [_ Hsd] Hws]. split; [done|]. intros Hp.
  destruct (ctrl_c_stops pg Hh Hmain Hp) as [Hstop Hleft]. rewrite <- Hleft. split.
  - intros n pg' Hn.
    destruct (countdown_steps program_step stopping steps_left stopping_step n _ _ Hstop Hn) as [_ ->].
    done.
  - intros pg' Hsteps Hend.
    destruct (countdown_ends program_step stopping steps_left stopping_step stopping_progress
      _ _ Hstop Hsteps Hend) as [(_ & _ & _ & Hp') H0].
    unfold steps_left in H0. destruct (pg_meter_done pg'); [|lia]. destruct (pg_signal_done pg'); [|lia].
    destruct (pg_main pg'); simpl in H0; try lia. split_and!; [done..|].
    intros port w Hw. assert (Hr : running (pg_workers pg') = ∅) by (apply map_size_empty_inv; lia).
    destruct w as [p| | |]; [|by left|by right|by destruct (Hp' port)]. exfalso.
    assert (Hl : running (pg_workers pg') !! port = Some ()) by (apply lookup_running; eauto).
    by rewrite Hr, lookup_empty in Hl.
Qed.

(** A worker that panicked has not called [worker.done()], so that the wait
    group never empties and [main] never returns. *)
Lemma panicked_worker_blocks pg pg' port :
  pg_workers pg !! port = Some Worker_Panicked → pg_main pg = Main_Recv ∨ pg_main pg = Main_Wait →
  rtc program_step pg pg' → pg_main pg' = Main_Recv ∨ pg_main pg' = Main_Wait.
Proof.
  intros Hw Hm Hsteps.
  enough (pg_workers pg' !! port = Some Worker_Panicked ∧
          (pg_main pg' = Main_Recv ∨ pg_main pg' = Main_Wait)) as [_ ?] by done.
  assert (H0 : pg_workers pg !! port = Some Worker_Panicked ∧
               (pg_main pg = Main_Recv ∨ pg_main pg = Main_Wait)) by done.
  clear Hw Hm. induction Hsteps as [|x y z Hxy _ IH]; [done|]. apply IH. clear IH.
  destruct H0 as [Hw Hm].
  destruct Hxy as [port' p fuel r p' response flow Hw' Hr Hrun|Hd Hst|Hca Hd|Hmain Hst|Hmain Hwait|Hmain Hd];
    simpl; try (split; [done|by auto]).
  - split; [|done]. rewrite lookup_insert_ne; [done|]. congruence.
  - exfalso. apply andb_true_iff in Hwait as [Hwait%bool_decide_eq_true _].
    apply (f_equal (lookup port)) in Hwait. unfold unfinished in Hwait.
    by rewrite lookup_omap, Hw, lookup_empty in Hwait.
  - destruct Hm; congruence.
Qed.
End laws.
End programs.
