(* ===== verification/AsyncShutdown.v ===== *)
(** * Stopping async_chat (examples/async_chat.rs, examples/async_signal/mod.rs)

    The stop channel of async_chat is a broadcast channel: the meter thread,
    every worker, the task of the signalling server and [main] own a receiver,
    and each sees the one message that Ctrl-C sends.  A worker waits for the
    stop channel and for its signalling channel at once ([tokio::select!]) and
    may still serve requests that were queued before it looks at the stop
    channel; the signalling thread waits for its server, then for the workers,
    and [main] for the signalling thread.  A step relation interleaves the
    threads, a second one what comes from outside: requests and traffic. *)

From Stdlib Require Import ZArith Lia.
From stdpp Require Import base numbers strings fin_maps gmap list relations.
From S2P Require Import Prelude RustStr Enums Types Sdp Codec ReceiverStream.
From S2P Require Import Interceptors MediaParse MediaConfig Config Certificate Endpoint.
From S2P Require Import Description Session ServerStates Stable Demux Gateway Srtp.
From S2P Require Import DataChannel InterceptorHandler Dtls Sctp Pipeline Room Runs Loop Signaling.
From S2P Require Import Shutdown.

(** ** Sums over a map *)

Section total.
Context {A : Type} (weight : A → nat).

Definition total (m : gmap Z A) : nat := map_fold (λ _ x n, weight x + n) 0 m.

Lemma total_delete m k x : m !! k = Some x → total m = weight x + total (delete k m).
Proof. intros H. unfold total.
  apply (map_fold_delete_L (λ _ x n, weight x + n) 0 k x m); [intros; lia|done]. Qed.

Lemma total_insert m k x y :
  m !! k = Some x → total (<[k := y]> m) + weight x = total m + weight y.
Proof.
  intros H. rewrite (total_delete m k x H), (total_delete (<[k := y]> m) k y) by apply lookup_insert_eq.
  rewrite delete_insert_eq. lia.
Qed.

Lemma total_zero m k x : total m = 0 → m !! k = Some x → weight x = 0.
Proof. intros H0 H. rewrite (total_delete m k x H) in H0. lia. Qed.

Lemma total_fmap m (f : A → A) : (∀ x, weight (f x) = weight x) → total (f <$> m) = total m.
Proof.
  intros Hf. induction m as [|k x m Hk IH] using map_ind; [by rewrite fmap_empty|].
  rewrite fmap_insert, (total_delete _ k (f x)), (total_delete (<[k := x]> m) k x) by apply lookup_insert_eq.
  by rewrite !delete_insert_id, Hf, IH by (by rewrite ?lookup_fmap, Hk).
Qed.

Lemma total_pos m : total m ≠ 0 → ∃ k x, m !! k = Some x ∧ weight x ≠ 0.
Proof.
  unfold total. revert m. apply (map_fold_weak_ind (λ n m, n ≠ 0 → ∃ k x, m !! k = Some x ∧ weight x ≠ 0)).
  - done.
  - intros k x m n Hm IH Hn. destruct (decide (weight x = 0)) as [Hx|Hx].
    + destruct IH as (k' & x' & Hk & Hw); [lia|]. exists k', x'. split; [|done].
      rewrite lookup_insert_ne; [done|]. intros ->. congruence.
    + exists k, x. by rewrite lookup_insert_eq.
Qed.
End total.

Section async.
Context `{O : SdpOps} `{CO : !ConfigOps} `{TO : !TransportOps} `{RO : !RtpOps} `{GO : !GatewayOps}
  `{SC : !StunCodec} `{SR : !SrtpOps} `{DC : !DcepOps} `{DO : !DtlsOps} `{SO : !SctpOps}
  `{HO : HashOrder} `{CH : ChannelOps}.
Implicit Types (p : Pipeline).

(** ** The threads *)

(** A worker: in its loop, with its receivers; past it until [graceful_stop]
    returns; returned; or failed, because it could not be bound or panicked.
    Its [_worker] is dropped when the closure returns or unwinds. *)
Inductive AsyncWorker :=
| AW_Running (stop : Chan) (p : Pipeline) (signaling : list AsyncSignalingMessage)
| AW_Stopping
| AW_Gone
| AW_Failed.

(** The signalling thread: at [done_rx.recv()], at [wait_group.wait()], past
    it. *)
Inductive SignalThread := Sig_Recv | Sig_Wait | Sig_Done.
Inductive AsyncMain := AMain_Recv | AMain_Join | AMain_Exited.

(** A receiver that waits is kept with its thread. *)
Record AsyncProgram := {
  ap_handler : bool;
  ap_workers : gmap Z AsyncWorker;
  ap_meter : option Chan;
  ap_server : option Chan;
  ap_done : Chan;
  ap_signal : SignalThread;
  ap_main_stop : Chan;
  ap_main : AsyncMain
}.

(** After the start of all threads; [bound] tells whether [Server::bind] found
    the address free, otherwise it panics and [done_tx] is dropped. *)
Definition async_start (workers : gmap Z (option Pipeline)) (bound : bool) : AsyncProgram :=
  {| ap_handler := true;
     ap_workers := (λ w, match w with Some p => AW_Running chan_new p [] | None => AW_Failed end) <$> workers;
     ap_meter := Some chan_new;
     ap_server := if bound then Some chan_new else None;
     ap_done := if bound then chan_new else chan_drop_sender chan_new;
     ap_signal := Sig_Recv; ap_main_stop := chan_new; ap_main := AMain_Recv |}.

(** The Ctrl-C handler: the message is broadcast and the sender dropped. *)
Definition broadcast_stop (c : Chan) : Chan := chan_drop_sender (chan_send c).
Definition async_ctrl_c (ap : AsyncProgram) : AsyncProgram :=
  if ap_handler ap then
    {| ap_handler := false;
       ap_workers := (λ w, match w with
                           | AW_Running stop p q => AW_Running (broadcast_stop stop) p q
                           | w => w
                           end) <$> ap_workers ap;
       ap_meter := broadcast_stop <$> ap_meter ap; ap_server := broadcast_stop <$> ap_server ap;
       ap_done := ap_done ap; ap_signal := ap_signal ap;
       ap_main_stop := broadcast_stop (ap_main_stop ap); ap_main := ap_main ap |}
  else ap.

Definition with_worker (ap : AsyncProgram) (port : Z) (w : AsyncWorker) : AsyncProgram :=
  {| ap_handler := ap_handler ap; ap_workers := <[port := w]> (ap_workers ap);
     ap_meter := ap_meter ap; ap_server := ap_server ap; ap_done := ap_done ap;
     ap_signal := ap_signal ap; ap_main_stop := ap_main_stop ap; ap_main := ap_main ap |}.
Definition with_main (ap : AsyncProgram) (signal : SignalThread) (main : AsyncMain) : AsyncProgram :=
  {| ap_handler := ap_handler ap; ap_workers := ap_workers ap;
     ap_meter := ap_meter ap; ap_server := ap_server ap; ap_done := ap_done ap;
     ap_signal := signal; ap_main_stop := ap_main_stop ap; ap_main := main |}.

(** The wait group holds a worker per media port and one for the meter. *)
Definition is_gone (w : AsyncWorker) : bool :=
  match w with AW_Gone | AW_Failed => true | _ => false end.
Definition async_wait_group_empty (ap : AsyncProgram) : bool :=
  bool_decide (map_Forall (λ _ w, is_gone w = true) (ap_workers ap)) &&
  match ap_meter ap with Some _ => false | None => true end.

(** What a turn of a worker leaves: the state with the rest of the queue, or
    nothing after a panic. *)
Definition worker_left (stop : Chan) p (q : list AsyncSignalingMessage) (st : option ServerStates)
  : AsyncWorker :=
  match st with Some st => AW_Running stop (with_states p st) q | None => AW_Failed end.

(** The meter thread past its [recv]: the provider is shut down and the
    thread's [_worker] dropped. *)
Definition meter_stopped (ap : AsyncProgram) : AsyncProgram :=
  {| ap_handler := ap_handler ap; ap_workers := ap_workers ap; ap_meter := None;
     ap_server := ap_server ap; ap_done := ap_done ap; ap_signal := ap_signal ap;
     ap_main_stop := ap_main_stop ap; ap_main := ap_main ap |}.
(** The future given to [with_graceful_shutdown], past its [recv]: it
    broadcasts on [done_tx] and drops it. *)
Definition server_stopped (ap : AsyncProgram) : AsyncProgram :=
  {| ap_handler := ap_handler ap; ap_workers := ap_workers ap; ap_meter := ap_meter ap;
     ap_server := None; ap_done := chan_drop_sender (chan_send (ap_done ap));
     ap_signal := ap_signal ap; ap_main_stop := ap_main_stop ap; ap_main := ap_main ap |}.

(** One step of one thread. *)
Inductive async_step (ap : AsyncProgram) : AsyncProgram → Prop :=
| as_worker_stop port stop p q :
    ap_workers ap !! port = Some (AW_Running stop p q) → stops (chan_try_recv stop).2 = true →
    async_step ap (with_worker ap port AW_Stopping)
| as_worker_serves port stop p request q env random_id :
    ap_workers ap !! port = Some (AW_Running stop p (request :: q)) →
    async_step ap (with_worker ap port
      (worker_left stop p q (async_turn env random_id (Async_Recv request) (pl_states p)).1))
| as_worker_senders_gone port stop p :
    ap_workers ap !! port = Some (AW_Running stop p []) → ap_signal ap = Sig_Done →
    async_step ap (with_worker ap port AW_Stopping)
| as_worker_returns port :
    ap_workers ap !! port = Some AW_Stopping → async_step ap (with_worker ap port AW_Gone)
| as_meter stop :
    ap_meter ap = Some stop → stops (chan_try_recv stop).2 = true →
    async_step ap (meter_stopped ap)
| as_server stop :
    ap_server ap = Some stop → stops (chan_try_recv stop).2 = true →
    async_step ap (server_stopped ap)
| as_signal_recv :
    ap_signal ap = Sig_Recv → stops (chan_try_recv (ap_done ap)).2 = true →
    async_step ap (with_main ap Sig_Wait (ap_main ap))
| as_signal_wait :
    ap_signal ap = Sig_Wait → async_wait_group_empty ap = true →
    async_step ap (with_main ap Sig_Done (ap_main ap))
| as_main_recv :
    ap_main ap = AMain_Recv → stops (chan_try_recv (ap_main_stop ap)).2 = true →
    async_step ap (with_main ap (ap_signal ap) AMain_Join)
| as_main_join :
    ap_main ap = AMain_Join → ap_signal ap = Sig_Done →
    async_step ap (with_main ap (ap_signal ap) AMain_Exited).

(** From outside: a request for a worker, queued on its channel, and the
    datagrams, timers and polls of its pipeline. *)
Inductive worker_traffic p : Pipeline → Prop :=
| wt_datagram env msg : worker_traffic p (pipeline_read env msg p).1
| wt_timer now : worker_traffic p (pipeline_handle_timeout p now).1
| wt_transmit : worker_traffic p (pipeline_poll_transmit p).1.1.

Inductive async_request (ap : AsyncProgram) : AsyncProgram → Prop :=
| ar_request port stop p q request :
    ap_workers ap !! port = Some (AW_Running stop p q) →
    async_request ap (with_worker ap port (AW_Running stop p (q ++ [request]))).
Inductive async_traffic (ap : AsyncProgram) : AsyncProgram → Prop :=
| at_traffic port stop p q p' :
    ap_workers ap !! port = Some (AW_Running stop p q) → worker_traffic p p' →
    async_traffic ap (with_worker ap port (AW_Running stop p' q)).

(** A run with [n] steps of the threads and [k] requests. *)
Inductive async_run (ap : AsyncProgram) : nat → nat → AsyncProgram → Prop :=
| run_refl : async_run ap 0 0 ap
| run_step n k ap1 ap2 : async_run ap n k ap1 → async_step ap1 ap2 → async_run ap (S n) k ap2
| run_request n k ap1 ap2 : async_run ap n k ap1 → async_request ap1 ap2 → async_run ap n (S k) ap2
| run_traffic n k ap1 ap2 : async_run ap n k ap1 → async_traffic ap1 ap2 → async_run ap n k ap2.

(** ** What is left to do *)

Definition worker_left_over (w : AsyncWorker) : nat :=
  match w with AW_Running _ _ q => 2 + length q | AW_Stopping => 1 | AW_Gone | AW_Failed => 0 end.
Definition async_left (ap : AsyncProgram) : nat :=
  total worker_left_over (ap_workers ap) + length (option_list (ap_meter ap)) +
  length (option_list (ap_server ap)) +
  match ap_signal ap with Sig_Recv => 2 | Sig_Wait => 1 | Sig_Done => 0 end +
  match ap_main ap with AMain_Recv => 2 | AMain_Join => 1 | AMain_Exited => 0 end.

(** The stop message has been sent to every receiver that waits for it. *)
Record async_stopping (ap : AsyncProgram) : Prop := {
  sp_workers : ∀ port stop p q, ap_workers ap !! port = Some (AW_Running stop p q) → chan_closed stop = true;
  sp_meter : ∀ stop, ap_meter ap = Some stop → chan_closed stop = true;
  sp_server : ∀ stop, ap_server ap = Some stop → chan_closed stop = true;
  sp_done : ap_server ap = None → chan_closed (ap_done ap) = true;
  sp_main : chan_closed (ap_main_stop ap) = true
}.

(** Nobody has pressed Ctrl-C. *)
Definition silent (c : Chan) : Prop := chan_closed c = false ∧ chan_unread c = 0.
Record async_waiting (bound : bool) (ap : AsyncProgram) : Prop := {
  aw_handler : ap_handler ap = true;
  aw_main_stop : silent (ap_main_stop ap);
  aw_main : ap_main ap = AMain_Recv;
  aw_signal : ap_signal ap ≠ Sig_Done;
  aw_bound : bound = true → is_Some (ap_server ap) ∧ ap_signal ap = Sig_Recv ∧ silent (ap_done ap);
  aw_meter : ∃ stop, ap_meter ap = Some stop ∧ silent stop;
  aw_done : ap_server ap = None → chan_closed (ap_done ap) = true;
  aw_server : ∀ stop, ap_server ap = Some stop → silent stop;
  aw_workers : ∀ port w, ap_workers ap !! port = Some w →
    match w with AW_Running stop _ _ => silent stop | AW_Failed => True | _ => False end
}.

Section laws.
Context `{CL : !ChannelLaws}.

Lemma silent_goes_on c : silent c → stops (chan_try_recv c).2 = false.
Proof. intros [H1 H2]. by apply unsignalled_goes_on. Qed.

Lemma broadcast_closed c : chan_closed (broadcast_stop c) = true.
Proof. apply chan_drop_view. Qed.

Lemma async_start_waiting workers bound : async_waiting bound (async_start workers bound).
Proof.
  destruct chan_new_view as [H1 H2]. split; simpl; try done.
  - intros ->. by split_and!.
  - by exists chan_new.
  - intros Hs. destruct bound; [done|]. apply chan_drop_view.
  - intros stop Hs. destruct bound; [|done]. by injection Hs as <-.
  - intros port w. rewrite lookup_fmap. by destruct (workers !! port) as [[p|]|]; intros [= <-].
Qed.

(** A step of a worker, as far as its neighbours see it. *)
Lemma waiting_with_worker bound ap port w :
  async_waiting bound ap →
  match w with AW_Running stop _ _ => silent stop | AW_Failed => True | _ => False end →
  async_waiting bound (with_worker ap port w).
Proof.
  intros [H1 H2 H3 H4 Hb H5 H6 H7 H8] Hw. split; simpl; try done. intros port' w'.
  rewrite lookup_insert. case_decide; [by intros [= <-]|apply H8].
Qed.

Lemma async_waiting_step bound ap ap' :
  async_waiting bound ap → async_step ap ap' → async_waiting bound ap'.
Proof.
  intros Hap Hs. pose proof Hap as [H1 H2 H3 H4 Hb (m & H5 & H5') H6 H7 H8].
  destruct Hs as [port stop p q Hw Hst|port stop p r q env id Hw|port stop p Hw Hg|port Hw|stop Hm Hst
    |stop Hm Hst|Hg Hst|Hg Hwg|Hm Hst|Hm Hg]; try congruence.
  - apply H8, silent_goes_on in Hw. congruence.
  - apply H8 in Hw. apply waiting_with_worker; [done|]. unfold worker_left. by destruct (async_turn _ _ _ _).1.
  - by apply H8 in Hw.
  - rewrite H5 in Hm. injection Hm as <-. apply silent_goes_on in H5'. congruence.
  - apply H7, silent_goes_on in Hm. congruence.
  - assert (Hnb : bound ≠ true).
    { intros (_ & _ & Hdone%silent_goes_on)%Hb. congruence. }
    split; simpl; eauto; done.
  - exfalso. apply andb_true_iff in Hwg as [_ Hwg]. by rewrite H5 in Hwg.
  - apply silent_goes_on in H2. congruence.
Qed.

Lemma async_waiting_run bound ap n k ap' :
  async_waiting bound ap → async_run ap n k ap' → async_waiting bound ap'.
Proof.
  intros H Hrun. induction Hrun as [|n k ap1 ap2 _ IH Hs|n k ap1 ap2 _ IH Hs|n k ap1 ap2 _ IH Hs]; [done|..].
  - by eapply async_waiting_step.
  - destruct Hs as [port stop p q request Hw]. apply waiting_with_worker; [done|].
    by apply (aw_workers _ _ IH) in Hw.
  - destruct Hs as [port stop p q p' Hw _]. apply waiting_with_worker; [done|].
    by apply (aw_workers _ _ IH) in Hw.
Qed.

(** Ctrl-C reaches every receiver and finishes nothing itself. *)
Lemma async_ctrl_c_stops bound ap :
  async_waiting bound ap → async_stopping (async_ctrl_c ap) ∧ async_left (async_ctrl_c ap) = async_left ap.
Proof.
  intros [H1 H2 H3 H4 _ (m & H5 & H5') H6 H7 H8]. unfold async_ctrl_c. rewrite H1. split.
  - split; simpl.
    + intros port stop p q. rewrite lookup_fmap.
      destruct (ap_workers ap !! port) as [[stop' p' q'| | |]|]; simpl; try done. intros [= <- <- <-].
      apply broadcast_closed.
    + rewrite H5. intros stop [= <-]. apply broadcast_closed.
    + destruct (ap_server ap); [|done]. intros stop [= <-]. apply broadcast_closed.
    + destruct (ap_server ap); [done|]. by intros _; apply H6.
    + apply broadcast_closed.
  - unfold async_left. simpl. rewrite H5. rewrite total_fmap by (by intros []).
    by destruct (ap_server ap).
Qed.

Lemma stopping_with_worker ap port w w' :
  async_stopping ap → ap_workers ap !! port = Some w →
  match w' with AW_Running stop _ _ => chan_closed stop = true | _ => True end →
  async_stopping (with_worker ap port w') ∧
  async_left (with_worker ap port w') + worker_left_over w = async_left ap + worker_left_over w'.
Proof.
  intros [H1 H2 H3 H4 H5] Hw Hw'. split.
  - split; simpl; try done. intros port' stop p q. rewrite lookup_insert.
    case_decide; [|apply H1]. intros [= ->]. done.
  - unfold async_left. simpl. pose proof (total_insert worker_left_over _ _ _ w' Hw). lia.
Qed.

(** After Ctrl-C every step finishes something. *)
Lemma async_stopping_step ap ap' :
  async_stopping ap → async_step ap ap' → async_stopping ap' ∧ async_left ap' < async_left ap.
Proof.
  intros Hap Hs. pose proof Hap as [H1 H2 H3 H4 H5].
  destruct Hs as [port stop p q Hw Hst|port stop p r q env id Hw|port stop p Hw Hg|port Hw|stop Hm Hst
    |stop Hm Hst|Hg Hst|Hg Hwg|Hm Hst|Hm Hg].
  - destruct (stopping_with_worker ap port _ AW_Stopping Hap Hw) as [? Hl]; [done|].
    split; [done|]. simpl in Hl. lia.
  - destruct (stopping_with_worker ap port _ (worker_left stop p q
      (async_turn env id (Async_Recv r) (pl_states p)).1) Hap Hw) as [? Hl].
    { unfold worker_left. destruct (async_turn _ _ _ _).1; [|done]. by eapply H1. }
    split; [done|]. revert Hl. unfold worker_left. destruct (async_turn _ _ _ _).1; simpl; lia.
  - destruct (stopping_with_worker ap port _ AW_Stopping Hap Hw) as [? Hl]; [done|].
    split; [done|]. simpl in Hl. lia.
  - destruct (stopping_with_worker ap port _ AW_Gone Hap Hw) as [? Hl]; [done|].
    split; [done|]. simpl in Hl. lia.
  - split; [by split|]. unfold async_left. simpl. rewrite Hm. simpl. lia.
  - split; [split; simpl; try done; intros _; apply chan_drop_view|].
    unfold async_left. simpl. rewrite Hm. simpl. lia.
  - split; [by split|]. unfold async_left. simpl. rewrite Hg. lia.
  - split; [by split|]. unfold async_left. simpl. rewrite Hg. lia.
  - split; [by split|]. unfold async_left. simpl. rewrite Hm. lia.
  - split; [by split|]. unfold async_left. simpl. rewrite Hm. lia.
Qed.

Lemma async_stopping_run ap n k ap' :
  async_stopping ap → async_run ap n k ap' → async_stopping ap' ∧ n + async_left ap' ≤ async_left ap + k.
Proof.
  intros H Hrun. induction Hrun as [|n k ap1 ap2 _ [IH Hl] Hs|n k ap1 ap2 _ [IH Hl] Hs|n k ap1 ap2 _ [IH Hl] Hs].
  - split; [done|lia].
  - destruct (async_stopping_step _ _ IH Hs). split; [done|lia].
  - destruct Hs as [port stop p q request Hw].
    destruct (stopping_with_worker ap1 port _ (AW_Running stop p (q ++ [request])) IH Hw) as [? Hl'];
      [by eapply (sp_workers _ IH)|]. split; [done|]. simpl in Hl'. rewrite length_app in Hl'. simpl in Hl'. lia.
  - destruct Hs as [port stop p q p' Hw _].
    destruct (stopping_with_worker ap1 port _ (AW_Running stop p' q) IH Hw) as [? Hl'];
      [by eapply (sp_workers _ IH)|]. split; [done|]. simpl in Hl'. lia.
Qed.

(** While something is left, some thread can go on. *)
Lemma async_stopping_progress ap :
  async_stopping ap → async_left ap ≠ 0 → ∃ ap', async_step ap ap'.
Proof.
  intros [H1 H2 H3 H4 H5] Hleft.
  destruct (decide (total worker_left_over (ap_workers ap) = 0)) as [Ht|Ht].
  2:{ apply total_pos in Ht as (port & [stop p q| | |] & Hw & Hn); [..|done|done].
      - eexists. eapply as_worker_stop; [done|]. eapply closed_stops, H1, Hw.
      - eexists. by apply (as_worker_returns ap port). }
  destruct (ap_meter ap) as [stop|] eqn:Hm.
  { eexists. eapply as_meter; [done|]. by apply closed_stops, H2. }
  destruct (ap_server ap) as [stop|] eqn:Hsv.
  { eexists. eapply as_server; [done|]. by apply closed_stops, H3. }
  destruct (ap_signal ap) eqn:Hsig.
  - eexists. apply as_signal_recv; [done|]. by apply closed_stops, H4.
  - eexists. apply as_signal_wait; [done|]. unfold async_wait_group_empty. rewrite Hm, andb_true_r.
    apply bool_decide_eq_true. intros port w Hw. pose proof (total_zero _ _ _ _ Ht Hw). by destruct w.
  - destruct (ap_main ap) eqn:Hmain.
    + eexists. apply as_main_recv; [done|]. by apply closed_stops.
    + eexists. by apply as_main_join.
    + unfold async_left in Hleft. by rewrite Ht, Hm, Hsv, Hsig, Hmain in Hleft.
Qed.

(** C15. Stopping async_chat works.  Without Ctrl-C, however the threads run and
    whatever comes in, [main] and the meter thread wait, a worker is in its
    loop unless it could not be bound or panicked, the signalling thread has
    not ended, and it waits for its server if that could bind its address.
    After Ctrl-C the threads take at most as many steps as was left plus one
    per request, and when none of them can go on, [main] has returned, the
    signalling thread and the meter have ended, and no worker is left, even if
    workers panicked or the signalling server could not bind its address. *)
Theorem async_shutdown_completes workers bound n0 k0 ap :
  async_run (async_start workers bound) n0 k0 ap →
  (ap_main ap = AMain_Recv ∧ is_Some (ap_meter ap) ∧ ap_signal ap ≠ Sig_Done ∧
   (bound = true → is_Some (ap_server ap) ∧ ap_signal ap = Sig_Recv) ∧
   ∀ port w, ap_workers ap !! port = Some w → w ≠ AW_Stopping ∧ w ≠ AW_Gone) ∧
  ∀ n k ap', async_run (async_ctrl_c ap) n k ap' →
    n ≤ async_left ap + k ∧
    ((∀ ap'', ¬ async_step ap' ap'') →
     ap_main ap' = AMain_Exited ∧ ap_signal ap' = Sig_Done ∧ ap_meter ap' = None ∧
     ∀ port w, ap_workers ap' !! port = Some w → w = AW_Gone ∨ w = AW_Failed).
Proof.
  intros Hrun. pose proof (async_waiting_run bound _ _ _ _ (async_start_waiting workers bound) Hrun) as Hw.
  split.
  { destruct Hw as [_ _ Hm Hsig Hb (m & Hme & _) _ _ Hws]. split_and!; [done|by eexists|done| |].
    - intros (? & ? & _)%Hb. done.
    - intros port w H%Hws. by destruct w. }
  destruct (async_ctrl_c_stops _ ap Hw) as [Hstop <-]. intros n k ap' Hrun'.
  destruct (async_stopping_run _ _ _ _ Hstop Hrun') as [Hstop' Hl]. split; [lia|]. intros Hend.
  assert (H0 : async_left ap' = 0).
  { destruct (decide (async_left ap' = 0)) as [|Hn]; [done|].
    destruct (async_stopping_progress _ Hstop' Hn) as [ap'' Hs]. by destruct (Hend ap''). }
  unfold async_left in H0. destruct (ap_main ap'); [lia..|]. destruct (ap_signal ap'); [lia..|].
  destruct (ap_meter ap'); [simpl in H0; lia|]. split_and!; [done..|]. intros port w Hpw.
  assert (Ht : total worker_left_over (ap_workers ap') = 0) by lia.
  pose proof (total_zero _ _ _ _ Ht Hpw). destruct w; simpl in *; auto; lia.
Qed.
End laws.
End async.
