(* ===== verification/Media.v ===== *)
(** * The path of media through the pipeline

    From an SRTP datagram of one participant to the SRTP datagrams for the
    others: the handlers of [Pipeline] composed, from [pipeline.read] to the
    loop of [write_socket_output]. *)

From Stdlib Require Import ZArith Lia.
From stdpp Require Import base numbers strings fin_maps gmap list.
From S2P Require Import Prelude RustStr Enums Types Sdp Codec ReceiverStream.
From S2P Require Import Interceptors MediaParse MediaConfig Config Endpoint.
From S2P Require Import Description Session ServerStates Demux Gateway Srtp.
From S2P Require Import DataChannel InterceptorHandler Dtls Sctp Pipeline Room Runs.

Section media.
Context `{O : SdpOps} `{CO : !ConfigOps} `{TO : !TransportOps} `{RO : !RtpOps} `{GO : !GatewayOps}
  `{SC : !StunCodec} `{SR : !SrtpOps} `{DC : !DcepOps} `{DO : !DtlsOps} `{SO : !SctpOps}
  `{HO : HashOrder}.
Implicit Types (st : ServerStates) (tc : TransportContext) (p : Pipeline).

(** ** Local contexts *)

(** The local SRTP context of a connection, if the connection exists. *)
Definition local_context st (sid : SessionId) (eid : EndpointId) (ft : FourTuple)
  : option (option SrtpContext) := tr_local_srtp_context <$> connection st sid eid ft.

(** The table and the local contexts are the same in both states. *)
Definition same_contexts st st' : Prop :=
  (∀ ft, find_endpoint st' ft = find_endpoint st ft) ∧
  ∀ sid eid ft, local_context st' sid eid ft = local_context st sid eid ft.

#[local] Instance same_contexts_preorder : PreOrder same_contexts.
Proof.
  split; [done|]. intros st1 st2 st3 [H1 H2] [K1 K2]. split; intros; by rewrite ?K1, ?H1, ?K2, ?H2.
Qed.

Lemma update_transport_contexts st sid eid ft f :
  (∀ t, tr_local_srtp_context (f t) = tr_local_srtp_context t) →
  same_contexts st (update_transport st sid eid ft f).
Proof.
  intros Hf. split; [done|]. intros. unfold local_context. rewrite connection_update_transport.
  case_decide; [|done]. destruct (connection st _ _ _); simpl; by rewrite ?Hf.
Qed.

Lemma connection_update_endpoint st sid0 eid0 f sid eid ft :
  (∀ e, ep_transports (f e) = ep_transports e) →
  connection (update_endpoint st sid0 eid0 f) sid eid ft = connection st sid eid ft.
Proof.
  intros Hf. unfold connection, transport_at. simpl. rewrite lookup_alter.
  case_decide as Hd; [subst sid|done]. destruct (st_sessions st !! sid0) as [s|]; [|done]. simpl.
  rewrite lookup_alter. case_decide as Hd; [subst eid|done].
  destruct (ss_endpoints s !! eid0) as [e|]; simpl; by rewrite ?Hf.
Qed.

Lemma set_local_context st sid0 eid0 ft0 t c sid eid ft :
  connection st sid0 eid0 ft0 = Some t →
  local_context (update_transport st sid0 eid0 ft0 (λ t, set_local_srtp_context t c)) sid eid ft =
  if decide (sid = sid0 ∧ eid = eid0 ∧ ft = ft0) then Some (Some c)
  else local_context st sid eid ft.
Proof.
  intros Ht. unfold local_context. rewrite connection_update_transport.
  case_decide as Hd; [|done]. destruct Hd as (-> & -> & ->). by rewrite Ht.
Qed.

(** A call on the interceptor of a connection's endpoint succeeds. *)
Lemma on_interceptor_connection st tc sid eid t f :
  find_endpoint st (four_tuple_of tc) = Some (sid, eid) →
  connection st sid eid (four_tuple_of tc) = Some t →
  ∃ s e st', st_sessions st !! sid = Some s ∧ ss_endpoints s !! eid = Some e ∧
    on_interceptor st tc f = (st', Ok (f (ep_interceptor e)).2) ∧
    (∀ ft, find_endpoint st' ft = find_endpoint st ft) ∧
    ∀ sid eid ft, connection st' sid eid ft = connection st sid eid ft.
Proof.
  intros Hf Hc. unfold on_interceptor, get_mut_endpoint. rewrite Hf.
  unfold connection, transport_at in Hc. cbn [mbind outcome_bind ok_or fst snd].
  destruct (st_sessions st !! sid) as [s|]; [|done]. cbn [mbind option_bind outcome_bind ok_or] in *.
  destruct (ss_endpoints s !! eid) as [e|] eqn:Ee; [|done].
  cbn [mbind option_bind outcome_bind ok_or] in *.
  exists s, e. destruct (f (ep_interceptor e)) as [i events] eqn:Ef. eexists.
  split_and!; [done|done|done|done|]. intros. by apply connection_update_endpoint.
Qed.

(** ** Writing *)

(** What the SRTP handler sends for a media message under a context. *)
Definition seal (m : MessageEvent) (c : SrtpContext) : SrtpContext * outcome bytes :=
  match m with
  | Ev_Rtp (Rtp_Rtp p) =>
      match rtp_marshal p with Ok b => encrypt_rtp c b | Err e => (c, Err e) | Panic => (c, Panic) end
  | Ev_Rtp (Rtp_Rtcp []) => (c, Err (ErrOther "empty rtcp_packets"))
  | Ev_Rtp (Rtp_Rtcp ps) =>
      match rtcp_marshal ps with Ok b => encrypt_rtcp c b | Err e => (c, Err e) | Panic => (c, Panic) end
  | Ev_Rtp (Rtp_Raw b) => (c, Ok b)
  | _ => (c, Err ErrClientTransportNotSet)
  end.

(** No handler between the gateway and the socket holds a message. *)
Definition settled p : Prop :=
  dh_transmits (pl_dtls p) = [] ∧ sh_transmits (pl_sctp p) = [] ∧
  dc_transmits (pl_datachannel p) = [] ∧ ih_transmits (pl_interceptor p) = [].
(** Nor does the gateway. *)
Definition quiet p : Prop := settled p ∧ gw_transmits (pl_gateway p) = [].

Lemma interceptor_write_nothing i msg : (interceptor_write i msg).2 = [].
Proof.
  induction i as [|d eto m|d eto m n IH| |n IH] using Interceptor_chain_ind; simpl; try done;
    by destruct (interceptor_write n msg).
Qed.

Lemma srtp_write_sealed st msg sid eid t c c' x :
  is_media (tm_message msg) = true →
  find_endpoint st (four_tuple_of (tm_transport msg)) = Some (sid, eid) →
  connection st sid eid (four_tuple_of (tm_transport msg)) = Some t →
  tr_local_srtp_context t = Some c → seal (tm_message msg) c = (c', Ok x) →
  srtp_poll_write st (Some msg) =
    (update_transport st sid eid (four_tuple_of (tm_transport msg))
       (λ t, set_local_srtp_context t c'),
     Some {| tm_now := tm_now msg; tm_transport := tm_transport msg;
             tm_message := Ev_Rtp (Rtp_Raw x) |}, []).
Proof.
  intros Hm Hf Hc Hl Hs. unfold srtp_poll_write, srtp_try_write, with_local_context.
  rewrite (proj2 (get_mut_transport_connection st _ sid eid t)) by done. rewrite Hl.
  destruct (tm_message msg) as [| |[|pkt|[|r ps]]]; try done; cbn [seal] in Hs.
  - destruct (rtp_marshal pkt); [|done..]. by rewrite Hs.
  - destruct (rtcp_marshal (r :: ps)); [|done..]. by rewrite Hs.
Qed.

(** A raw datagram passes the handlers below the SRTP handler. *)
Lemma datagram_poll_raw p now tc b :
  settled p →
  ∃ p', datagram_poll p (Some {| tm_now := now; tm_transport := tc;
                                 tm_message := Ev_Rtp (Rtp_Raw b) |}) =
    (p', Some {| tb_now := now; tb_transport := tc; tb_message := b |}, []) ∧
    settled p' ∧ pl_gateway p' = pl_gateway p ∧ pl_states p' = pl_states p.
Proof.
  intros (H1 & H2 & H3 & H4). unfold datagram_poll, dc_poll_write. rewrite H3.
  cbn [app dc_outbound tm_message]. unfold sctp_poll_write. cbn [tm_message].
  cbn [sh_push sh_transmits pl_sctp with_datachannel]. rewrite H2. cbn [app].
  unfold dtls_poll_write, dh_pop. cbn [tm_message dh_push dh_transmits pl_dtls with_sctp with_datachannel].
  rewrite H1. eexists. split; [done|]. by split_and!.
Qed.

(** One poll takes the first media message of the gateway to the socket. *)
Lemma poll_media p msg q sid eid c c' x :
  settled p → gw_transmits (pl_gateway p) = msg :: q → is_media (tm_message msg) = true →
  find_endpoint (pl_states p) (four_tuple_of (tm_transport msg)) = Some (sid, eid) →
  local_context (pl_states p) sid eid (four_tuple_of (tm_transport msg)) = Some (Some c) →
  seal (tm_message msg) c = (c', Ok x) →
  ∃ p', (pipeline_poll_transmit p).1 =
      (p', Some {| tb_now := tm_now msg; tb_transport := tm_transport msg; tb_message := x |}) ∧
    settled p' ∧ gw_transmits (pl_gateway p') = q ∧
    (∀ ft, find_endpoint (pl_states p') ft = find_endpoint (pl_states p) ft) ∧
    ∀ sid' eid' ft, local_context (pl_states p') sid' eid' ft =
      if decide (sid' = sid ∧ eid' = eid ∧ ft = four_tuple_of (tm_transport msg))
      then Some (Some c') else local_context (pl_states p) sid' eid' ft.
Proof.
  intros Hp Hq Hm Hf Hl Hs. unfold local_context in Hl. apply fmap_Some in Hl as (t & Hc & Hl).
  unfold pipeline_poll_transmit, media_poll, gw_poll_write, exception_poll_write. rewrite Hq.
  cbn [pl_interceptor pl_states with_gateway]. unfold ih_poll_write. rewrite Hm.
  destruct (on_interceptor_connection _ _ _ _ _ (λ i, interceptor_write i msg) Hf Hc)
    as (s & e & st' & _ & _ & -> & Hfe & Hco).
  destruct Hp as (Q1 & Q2 & Q3 & Q4). rewrite interceptor_write_nothing, Q4. cbn [outbound_of omap list_omap app].
  cbn [pl_states with_interceptor].
  erewrite (srtp_write_sealed st' msg sid eid t c c' x); [|done|by rewrite Hfe|by rewrite Hco|done|done].
  match goal with |- context [datagram_poll ?p0 _] =>
    destruct (datagram_poll_raw p0 (tm_now msg) (tm_transport msg) x) as (p' & -> & Hp' & Hg & Hst) end;
    [by split_and!|].
  exists p'. cbn [fst]. split_and!; [done|done| | |].
  - by rewrite Hg.
  - intros ft. by rewrite Hst, <-Hfe.
  - intros sid' eid' ft. rewrite Hst. cbn [pl_states with_states].
    rewrite (set_local_context _ _ _ _ t) by by rewrite Hco.
    unfold local_context. by rewrite Hco.
Qed.

(** A quiet pipeline sends nothing. *)
Lemma poll_quiet p :
  quiet p → ∃ p', (pipeline_poll_transmit p).1 = (p', None) ∧ quiet p' ∧
    pl_states p' = pl_states p.
Proof.
  intros ((Q1 & Q2 & Q3 & Q4) & Q5).
  unfold pipeline_poll_transmit, media_poll, gw_poll_write, exception_poll_write. rewrite Q5.
  unfold ih_poll_write. cbn [pl_interceptor pl_states with_gateway with_interceptor]. rewrite Q4.
  unfold srtp_poll_write, datagram_poll, dc_poll_write.
  cbn [pl_datachannel with_states with_gateway with_interceptor]. rewrite Q3. cbn [app].
  unfold sctp_poll_write. cbn [pl_sctp with_datachannel with_states with_gateway with_interceptor].
  rewrite Q2. unfold dtls_poll_write, dh_pop.
  cbn [pl_dtls with_sctp with_datachannel with_states with_gateway with_interceptor]. rewrite Q1.
  eexists. split; [done|]. by split_and!.
Qed.

(** The datagram for one target: the message sealed under its context. *)
Definition delivered st (sid : SessionId) (now : Instant) (ecn : option EcnCodepoint)
    (m : MessageEvent) (k : EndpointId * FourTuple) (d : TaggedBytesMut) : Prop :=
  ∃ c x, local_context st sid k.1 k.2 = Some (Some c) ∧ (seal m c).2 = Ok x ∧
    d = {| tb_now := now; tb_transport := context_of k.2 ecn; tb_message := x |}.

(** A connection the message can be sealed for. *)
Definition deliverable st (sid : SessionId) (m : MessageEvent) (k : EndpointId * FourTuple) : Prop :=
  find_endpoint st k.2 = Some (sid, k.1) ∧
  ∃ c x, local_context st sid k.1 k.2 = Some (Some c) ∧ (seal m c).2 = Ok x.

(** What the gateway queued for a list of targets is sent to them in order. *)
Lemma write_media targets m sid now ecn p fuel :
  is_media m = true → settled p →
  gw_transmits (pl_gateway p) =
    map (λ k, {| tm_now := now; tm_transport := context_of k.2 ecn; tm_message := m |}) targets →
  NoDup targets → Forall (deliverable (pl_states p) sid m) targets → length targets < fuel →
  ∃ p' out, write_socket_output fuel p = (p', out) ∧ quiet p' ∧
    Forall2 (delivered (pl_states p) sid now ecn m) targets out.
Proof.
  intros Hm. revert p fuel. induction targets as [|[oid ft] targets IH];
    intros p [|fuel] Hp Hq Hnd Hall Hfuel; try (simpl in Hfuel; lia); unfold write_socket_output; cbn [drain].
  - destruct (poll_quiet p) as (p' & -> & Hp' & _); [by split|]. exists p', []. split_and!; [done|done|constructor].
  - apply Forall_cons in Hall as [[Hf (c & x & Hl & Hs)] Hall].
    apply NoDup_cons in Hnd as [Hnin Hnd].
    destruct (seal m c) as [c' r] eqn:Es. simpl in Hs, Hf, Hl. subst r. simpl map in Hq.
    destruct (poll_media p _ _ sid oid c c' x Hp Hq) as (p1 & -> & Hp1 & Hq1 & Hf1 & Hl1);
      [done|by destruct ft|by destruct ft|done|].
    replace (four_tuple_of _) with ft in Hl1 by (by destruct ft).
    assert (Hsame : ∀ k, k ∈ targets →
              local_context (pl_states p1) sid k.1 k.2 = local_context (pl_states p) sid k.1 k.2).
    { intros k Hk. rewrite Hl1. rewrite decide_False; [done|]. intros (_ & <- & <-).
      by destruct k. }
    destruct (IH p1 fuel Hp1 Hq1 Hnd) as (p' & out & Hw & Hp' & Hout); [|simpl in Hfuel; lia|].
    { rewrite Forall_forall in *. intros k Hk. destruct (Hall k Hk) as [Hf2 Hl2].
      split; [by rewrite Hf1|]. by rewrite Hsame. }
    unfold write_socket_output in Hw. rewrite Hw. eexists p', _. split; [done|]. split; [done|].
    constructor; [by exists c, x; rewrite Es|].
    apply Forall2_same_length_lookup. apply Forall2_same_length_lookup in Hout as [Hlen Hout].
    split; [done|]. intros i k d Hk Hd. specialize (Hout i k d Hk Hd).
    unfold delivered in *. rewrite <-Hsame; [done|]. by eapply list_elem_of_lookup_2.
Qed.

(** ** Reading *)

(** The interceptors emit nothing for an RTP packet. *)
Lemma interceptor_read_rtp i msg pkt :
  tm_message msg = Ev_Rtp (Rtp_Rtp pkt) → (interceptor_read i msg).2 = [].
Proof.
  intros Hm. destruct (interceptor_read i msg).2 as [|e l] eqn:E; [done|exfalso].
  assert (He : e ∈ (interceptor_read i msg).2) by (rewrite E; left).
  apply interceptor_read_events in He. unfold sr_forward in He. rewrite Hm in He.
  by apply not_elem_of_nil in He.
Qed.

(** The targets of a sender: the transports of the other endpoints of its
    session that have a local SRTP context. *)
Definition targets_of st (sid : SessionId) (eid : EndpointId)
    (targets : list (EndpointId * FourTuple)) : Prop :=
  NoDup targets ∧
  ∀ oid ft, (oid, ft) ∈ targets ↔ oid ≠ eid ∧ ∃ c, local_context st sid oid ft = Some (Some c).

(** The gateway queues a media message for every target. *)
Lemma gateway_forwards env now tc m p sid eid t :
  is_media m = true → settled p →
  find_endpoint (pl_states p) (four_tuple_of tc) = Some (sid, eid) →
  connection (pl_states p) sid eid (four_tuple_of tc) = Some t →
  ∃ p' targets,
    gateway_read env {| tm_now := now; tm_transport := tc; tm_message := m |} p = (p', []) ∧
    settled p' ∧ same_contexts (pl_states p) (pl_states p') ∧
    targets_of (pl_states p) sid eid targets ∧
    gw_transmits (pl_gateway p') = gw_transmits (pl_gateway p) ++
      map (λ k, {| tm_now := now; tm_transport := context_of k.2 (tc_ecn tc); tm_message := m |})
          targets.
Proof.
  intros Hm Hp Hf Hc. unfold gateway_read, gw_handle_read.
  destruct (forward_media_targets env now tc m _ _ _ _ Hf Hc) as (targets & Hnd & Hin & Hfw).
  assert (Ht : gw_try_read env {| tm_now := now; tm_transport := tc; tm_message := m |} (pl_states p)
               = forward_media env now tc m (pl_states p)) by (by destruct m as [| |[]]).
  rewrite Ht, Hfw. cbn [run_effects]. eexists _, targets. split; [done|]. split; [done|].
  split; [by apply update_transport_contexts|]. split; [|done]. split; [done|].
  intros oid ft. rewrite Hin. unfold local_context, is_local_srtp_context_ready.
  destruct (connection (pl_states p) sid oid ft) as [t'|]; [|naive_solver]. simpl.
  split; intros (Ho & H); split; try done.
  - destruct H as (t1 & [= <-] & H). destruct (tr_local_srtp_context t'); [eauto|done].
  - destruct H as (c & [= H]). exists t'. by rewrite H.
Qed.

(** A raw media datagram passes the handlers below the SRTP handler. *)
Lemma pipeline_read_srtp env now tc b p :
  match_srtp b = true →
  pipeline_read env {| tb_now := now; tb_transport := tc; tb_message := b |} p =
  srtp_stage env {| tm_now := now; tm_transport := tc; tm_message := Ev_Rtp (Rtp_Raw b) |} p.
Proof.
  intros Hb. destruct b as [|b0 b]; [done|].
  assert (Hd : match_dtls (b0 :: b) = false).
  { apply not_true_is_false. intros Hd. apply match_range_spec in Hb, Hd. lia. }
  unfold pipeline_read, demux_handle_read. cbn [tb_message]. rewrite Hd, Hb.
  assert (Hone : ∀ next m q, run_effects next [FireRead m] q = next m q).
  { intros next m q. simpl. destruct (next m q) as [q' e]. by rewrite app_nil_r. }
  rewrite Hone. unfold stun_stage, stun_handle_read. cbn [tm_message tb_now tb_transport].
  rewrite Hone. unfold dtls_stage, dtls_handle_read. cbn [tm_message]. rewrite Hone.
  unfold sctp_stage, sctp_handle_read. cbn [tm_message]. rewrite Hone.
  unfold datachannel_stage, dc_handle_read. cbn [tm_message]. rewrite Hone. by destruct p.
Qed.

(** The packets that the remote context of a transport reads in a datagram. *)
Definition unsealed (t : Transport) (b : bytes) (m : MessageEvent) : Prop :=
  ∃ c d, tr_remote_srtp_context t = Some c ∧
    if is_rtcp b then (decrypt_rtcp c b).2 = Ok d ∧
      ∃ ps, rtcp_unmarshal d = Ok ps ∧ ps ≠ [] ∧ m = Ev_Rtp (Rtp_Rtcp ps)
    else (decrypt_rtp c b).2 = Ok d ∧
      ∃ pkt, rtp_unmarshal d = Ok pkt ∧ m = Ev_Rtp (Rtp_Rtp pkt).

(** The SRTP handler hands it on. *)
Lemma srtp_read_unsealed st now tc b sid eid t m :
  find_endpoint st (four_tuple_of tc) = Some (sid, eid) →
  connection st sid eid (four_tuple_of tc) = Some t → unsealed t b m →
  ∃ c', srtp_handle_read st {| tm_now := now; tm_transport := tc; tm_message := Ev_Rtp (Rtp_Raw b) |} =
    (update_transport st sid eid (four_tuple_of tc) (λ t, set_remote_srtp_context t c'),
     [FireRead {| tm_now := now; tm_transport := tc; tm_message := m |}]).
Proof.
  intros Hf Hc (c & d & Hr & Hd). unfold srtp_handle_read, srtp_try_read, with_remote_context.
  cbn [tm_message tm_transport tm_now].
  rewrite (proj2 (get_mut_transport_connection st _ sid eid t)) by done. rewrite Hr.
  destruct (is_rtcp b); destruct Hd as [Hd Hm].
  - destruct Hm as (ps & Hu & Hne & ->). destruct (decrypt_rtcp c b) as [c' r]. simpl in Hd. subst r.
    exists c'. cbn [mbind outcome_bind]. rewrite Hu. cbn [mbind outcome_bind]. by destruct ps.
  - destruct Hm as (pkt & Hu & ->). destruct (decrypt_rtp c b) as [c' r]. simpl in Hd. subst r.
    exists c'. cbn [mbind outcome_bind]. by rewrite Hu.
Qed.

(** What the others get of a media message: an RTP packet as it is, and the
    RTCP packets that concern more than one hop. *)
Definition relayed (m : MessageEvent) : option MessageEvent :=
  match m with
  | Ev_Rtp (Rtp_Rtcp ps) =>
      match end_to_end ps with
      | [] => None
      | ps => Some (Ev_Rtp (Rtp_Rtcp ps))
      end
  | m => Some m
  end.

(** The interceptor handler hands on what is to be relayed. *)
Lemma interceptor_relays env now tc m p sid eid t :
  is_media m = true → settled p →
  find_endpoint (pl_states p) (four_tuple_of tc) = Some (sid, eid) →
  connection (pl_states p) sid eid (four_tuple_of tc) = Some t →
  (∀ s e, st_sessions (pl_states p) !! sid = Some s → ss_endpoints s !! eid = Some e →
          sender_reports (ep_interceptor e) = 1) →
  ∃ p', interceptor_stage env {| tm_now := now; tm_transport := tc; tm_message := m |} p =
      run_effects (gateway_read env)
        (match relayed m with
         | Some m => [FireRead {| tm_now := now; tm_transport := tc; tm_message := m |}]
         | None => []
         end) p' ∧
    settled p' ∧ pl_gateway p' = pl_gateway p ∧
    (∀ ft, find_endpoint (pl_states p') ft = find_endpoint (pl_states p) ft) ∧
    ∀ sid eid ft, connection (pl_states p') sid eid ft = connection (pl_states p) sid eid ft.
Proof.
  intros Hm (Q1 & Q2 & Q3 & Q4) Hf Hc Hone. set (msg := {| tm_now := now |}).
  unfold interceptor_stage, ih_handle_read. change (tm_message msg) with m. rewrite Hm.
  change (tm_transport msg) with tc.
  destruct (on_interceptor_connection _ tc _ _ _ (λ i, interceptor_read i msg) Hf Hc)
    as (s & e & st' & Hs & He & -> & Hfe & Hco).
  rewrite interceptor_read_copies, (Hone s e Hs He), Q4. cbn [replicate concat]. rewrite app_nil_r.
  exists (with_interceptor p {| ih_transmits := [] |} st').
  split; [|by split_and!]. unfold sr_forward, relayed. change (tm_message msg) with m.
  destruct m as [| |[|pkt|ps]]; [done..|]. rewrite filter_end_to_end. by destruct (end_to_end ps).
Qed.

Lemma unsealed_media t b m : unsealed t b m → is_media m = true.
Proof.
  intros (c & d & _ & H). destruct (is_rtcp b); [by destruct H as (_ & ps & _ & _ & ->)|].
  by destruct H as (_ & pkt & _ & ->).
Qed.

Lemma relayed_media m m' : is_media m = true → relayed m = Some m' → is_media m' = true.
Proof.
  unfold relayed. destruct m as [| |[|pkt|ps]]; try done; [by intros _ [= <-]|].
  destruct (end_to_end ps); [done|]. by intros _ [= <-].
Qed.

Lemma same_contexts_targets st st' sid eid targets :
  same_contexts st st' → targets_of st' sid eid targets → targets_of st sid eid targets.
Proof. intros [_ Hs] [Hnd Hin]. split; [done|]. intros oid ft. by rewrite Hin, Hs. Qed.

(** The effects of a media datagram: what is relayed is queued for the
    targets. *)
Lemma media_read env now tc b m p sid eid t :
  quiet p → find_endpoint (pl_states p) (four_tuple_of tc) = Some (sid, eid) →
  match_srtp b = true →
  connection (pl_states p) sid eid (four_tuple_of tc) = Some t → unsealed t b m →
  (∀ s e, st_sessions (pl_states p) !! sid = Some s → ss_endpoints s !! eid = Some e →
          sender_reports (ep_interceptor e) = 1) →
  ∃ p1 targets,
    pipeline_read env {| tb_now := now; tb_transport := tc; tb_message := b |} p = (p1, []) ∧
    settled p1 ∧ targets_of (pl_states p) sid eid targets ∧
    same_contexts (pl_states p) (pl_states p1) ∧
    gw_transmits (pl_gateway p1) =
      match relayed m with
      | Some m => map (λ k, {| tm_now := now; tm_transport := context_of k.2 (tc_ecn tc);
                               tm_message := m |}) targets
      | None => []
      end.
Proof.
  intros [Hp Hg] Hf Hb Hc Hu Hone. pose proof (unsealed_media _ _ _ Hu) as Hm.
  rewrite (pipeline_read_srtp env now tc b p Hb). unfold srtp_stage.
  destruct (srtp_read_unsealed _ now tc b sid eid t m Hf Hc Hu) as [c' ->].
  set (st1 := update_transport _ _ _ _ _).
  assert (Hs1 : same_contexts (pl_states p) st1) by (by apply update_transport_contexts).
  assert (Hc1 : ∃ t1, connection st1 sid eid (four_tuple_of tc) = Some t1).
  { unfold st1. rewrite connection_update_transport, decide_True, Hc by done. by eexists. }
  destruct Hc1 as [t1 Hc1].
  destruct (interceptor_relays env now tc m (with_states p st1) sid eid t1 Hm)
    as (p2 & Hr & Hp2 & Hg2 & Hf2 & Hco2); [done|done|done| |].
  { intros s e. unfold st1. simpl. rewrite lookup_alter_eq.
    destruct (st_sessions (pl_states p) !! sid) as [s0|] eqn:Es0; [|done]. intros [= <-]. simpl.
    rewrite lookup_alter_eq. destruct (ss_endpoints s0 !! eid) as [e0|] eqn:Ee0; [|done].
    intros [= <-]. by apply (Hone s0 e0). }
  assert (Hs2 : same_contexts (pl_states p) (pl_states p2)).
  { etransitivity; [exact Hs1|]. split; [exact Hf2|]. intros. unfold local_context. by rewrite Hco2. }
  cbn [run_effects]. rewrite Hr.
  assert (Hfind2 : find_endpoint (pl_states p2) (four_tuple_of tc) = Some (sid, eid)) by (by rewrite Hf2).
  assert (Hconn2 : connection (pl_states p2) sid eid (four_tuple_of tc) = Some t1) by (by rewrite Hco2).
  change (pl_gateway p) with (pl_gateway (with_states p st1)) in Hg. rewrite <-Hg2 in Hg.
  clear Hr Hf2 Hco2 Hg2.
  destruct (gateway_forwards env now tc (default m (relayed m)) p2 sid eid t1)
    as (p3 & targets & Hread & Hp3 & Hs3 & Ht & Hq); [|done|done|done|].
  { destruct (relayed m) as [m'|] eqn:Em; [|done]. by eapply relayed_media. }
  apply (same_contexts_targets _ _ _ _ _ Hs2) in Ht.
  destruct (relayed m) as [m'|]; cbn [run_effects].
  - change (default m (Some m')) with m' in Hread. rewrite Hread. exists p3, targets.
    split_and!; [done|done|done|by etransitivity|]. by rewrite Hq, Hg.
  - by exists p2, targets.
Qed.

(** C1. Media end to end: when a connected participant sends an SRTP or SRTCP
    datagram that its transport decrypts, to a server that is idle and files
    every connection in its table, and the chain of its endpoint has one sender
    report and all encryptions succeed, then the server sends, to each transport
    of the other endpoints of the session that finished its handshake and to
    nothing else, exactly one datagram: the RTP packet, or the RTCP packets
    without receiver reports and transport-wide feedback, which concern one hop,
    encrypted under that transport's own context.  If only such RTCP packets
    came, nothing is sent.  The loop that writes to the socket ends by itself,
    and the server is idle again. *)
Theorem media_end_to_end env now tc b m p sid eid t :
  quiet p → table_ok (pl_states p) → match_srtp b = true →
  connection (pl_states p) sid eid (four_tuple_of tc) = Some t → unsealed t b m →
  (∀ s e, st_sessions (pl_states p) !! sid = Some s → ss_endpoints s !! eid = Some e →
          sender_reports (ep_interceptor e) = 1) →
  (∀ m' oid ft c, relayed m = Some m' → local_context (pl_states p) sid oid ft = Some (Some c) →
                  ∃ x, (seal m' c).2 = Ok x) →
  ∃ p1 targets,
    pipeline_read env {| tb_now := now; tb_transport := tc; tb_message := b |} p = (p1, []) ∧
    targets_of (pl_states p) sid eid targets ∧
    ∀ fuel, length targets < fuel →
      ∃ p2 out, write_socket_output fuel p1 = (p2, out) ∧ quiet p2 ∧
        match relayed m with
        | Some m' => Forall2 (delivered (pl_states p) sid now (tc_ecn tc) m') targets out
        | None => out = []
        end.
Proof.
  intros Hp Htab Hb Hc Hu Hone Hseal.
  assert (Hf : find_endpoint (pl_states p) (four_tuple_of tc) = Some (sid, eid)) by (by eapply Htab).
  destruct (media_read env now tc b m p sid eid t Hp Hf Hb Hc Hu Hone)
    as (p1 & targets & Hread & Hp1 & Ht & [Hsf Hsl] & Hq).
  exists p1, targets. split_and!; [done|done|]. intros fuel Hfuel.
  destruct (relayed m) as [m'|] eqn:Em.
  - destruct Ht as [Hnd Hin].
    assert (Hall : Forall (deliverable (pl_states p1) sid m') targets).
    { apply Forall_forall. intros [oid ft] Hk. apply Hin in Hk as (Ho & c & Hl).
      destruct (Hseal _ _ _ _ eq_refl Hl) as [x Hx]. split; [|exists c, x; by rewrite Hsl].
      unfold local_context in Hl. apply fmap_Some in Hl as (t' & Hc' & _).
      rewrite Hsf. by eapply Htab. }
    destruct (write_media targets m' sid now (tc_ecn tc) p1 fuel) as (p2 & out & Hw & Hp2 & Hout);
      try done; [eapply relayed_media; [by eapply unsealed_media|done]|].
    exists p2, out. split_and!; [done|done|]. eapply Forall2_impl; [exact Hout|].
    intros k d (c & x & Hl & Hx). exists c, x. by rewrite <-Hsl.
  - destruct fuel as [|fuel]; [lia|]. unfold write_socket_output. cbn [drain].
    destruct (poll_quiet p1) as (p2 & -> & Hp2 & _); [done|]. by exists p2, [].
Qed.

End media.
