(* ===== verification/Control.v ===== *)
(** * The path of negotiation through the pipeline

    From the DTLS datagram in which a peer opens its data channel or offers a
    track to the DTLS datagrams with the answer and the offers for the others:
    the handlers of [Pipeline] composed for data channels, as [Media] does for
    media.  A message of the gateway becomes one or several SCTP packets, each
    of them one or several DTLS datagrams; one poll of the pipeline takes one
    message and one packet down and one datagram out, so that the queues of
    three handlers fill up while the loop runs. *)

From Stdlib Require Import ZArith Lia.
From stdpp Require Import base numbers strings fin_maps gmap functions list.
From S2P Require Import Prelude RustStr Enums Types Sdp Codec ReceiverStream.
From S2P Require Import Interceptors MediaParse MediaConfig Config Endpoint.
From S2P Require Import Description Session ServerStates Stable Demux Gateway Srtp.
From S2P Require Import DataChannel InterceptorHandler Dtls Sctp Pipeline Room Runs Media.

Section control.
Context `{O : SdpOps} `{CO : !ConfigOps} `{TO : !TransportOps} `{RO : !RtpOps} `{GO : !GatewayOps}
  `{SC : !StunCodec} `{SR : !SrtpOps} `{DC : !DcepOps} `{DO : !DtlsOps} `{SO : !SctpOps}
  `{HO : HashOrder}.
Implicit Types (st : ServerStates) (tc : TransportContext) (p : Pipeline) (m : TaggedMessageEvent).

(** ** What the messages become *)

(** The transport of a four tuple, its associations and its DTLS endpoint. *)
Definition resolve st (ft : FourTuple) : option Transport :=
  k ← find_endpoint st ft; connection st k.1 k.2 ft.
Definition associations st (ft : FourTuple) : option (gmap Z SctpAssociation) :=
  tr_sctp_associations <$> resolve st ft.
Definition endpoints st (ft : FourTuple) : option DtlsEndpoint :=
  tr_dtls_endpoint <$> resolve st ft.

(** The packets that the associations make of messages one after the other;
    [None] if a message is refused or makes no packet.  Each packet is for a
    peer, the message for a transport. *)
Fixpoint sctp_sends (h : SctpHandler) (limit : Z) (v : FourTuple → option (gmap Z SctpAssociation))
    (ms : list TaggedMessageEvent) : option (list TaggedMessageEvent) :=
  match ms with
  | [] => Some []
  | m :: ms =>
      let ft := four_tuple_of (tm_transport m) in
      match tm_message m with
      | Ev_Dtls (Dtls_Sctp d) =>
          as_ ← v ft; c ← as_ !! dcm_association_handle d;
          if (limit <? Z.of_nat (length (dcm_payload d)))%Z then None else
          match write_association (tm_now m) d c with
          | (c, Ok xs) =>
              match flat_map (sctp_transmit_messages h) xs with
              | [] => None
              | packets => app packets <$>
                  sctp_sends h limit (<[ft := Some (<[dcm_association_handle d := c]> as_)]> v) ms
              end
          | _ => None
          end
      | _ => None
      end
  end.

Definition datagram_of (addr : SocketAddr) (t : DtlsTransmit) : TaggedBytesMut :=
  {| tb_now := dt_now t;
     tb_transport := {| tc_local_addr := addr; tc_peer_addr := dt_remote t; tc_ecn := dt_ecn t |};
     tb_message := dt_payload t |}.

(** The datagrams that the DTLS endpoints make of packets one after the other;
    [None] if a packet is refused or makes no datagram. *)
Fixpoint dtls_sends (addr : SocketAddr) (v : FourTuple → option DtlsEndpoint)
    (ms : list TaggedMessageEvent) : option (list TaggedBytesMut) :=
  match ms with
  | [] => Some []
  | m :: ms =>
      let ft := four_tuple_of (tm_transport m) in
      match tm_message m with
      | Ev_Dtls (Dtls_Raw raw) =>
          e ← v ft;
          match dtls_write e (tc_peer_addr (tm_transport m)) raw with
          | (e, Ok _) =>
              let '(e, ts) := dtls_drain e in
              match ts with
              | [] => None
              | _ => app (map (datagram_of addr) ts) <$> dtls_sends addr (<[ft := Some e]> v) ms
              end
          | _ => None
          end
      | _ => None
      end
  end.

(** What the data-channel handler makes a message of: only a text message of
    the gateway goes out. *)
Definition outgoing m : Prop := ∃ ah stream payload, tm_message m = Ev_Dtls (Dtls_DataChannel
  {| am_association_handle := ah; am_stream_id := stream; data_channel_event := DCE_Message payload |}).

Lemma insert_same {A} (v v' : FourTuple → A) k x :
  (∀ ft, v' ft = v ft) → ∀ ft, <[k := x]> v' ft = <[k := x]> v ft.
Proof.
  intros Hv ft. destruct (decide (ft = k)) as [->|Hne];
    [by rewrite !fn_lookup_insert|by rewrite !fn_lookup_insert_ne].
Qed.

Lemma sctp_sends_ext h h' limit ms : ∀ v v',
  sh_local_addr h' = sh_local_addr h → (∀ ft, v' ft = v ft) →
  sctp_sends h' limit v' ms = sctp_sends h limit v ms.
Proof.
  induction ms as [|m ms IH]; intros v v' Hh Hv; [done|]. simpl.
  destruct (tm_message m) as [|[|d|]|]; try done. rewrite Hv.
  destruct (v _) as [as_|]; [|done]. simpl. destruct (as_ !! _) as [c|]; [|done]. simpl.
  destruct (limit <? _)%Z; [done|]. destruct (write_association _ _ _) as [c' [xs|?|]]; try done.
  assert (Hx : flat_map (sctp_transmit_messages h') xs = flat_map (sctp_transmit_messages h) xs).
  { apply flat_map_ext. intros x. unfold sctp_transmit_messages. by rewrite Hh. }
  rewrite Hx. clear Hx.
  destruct (flat_map _ xs); [done|].
  by rewrite (IH _ _ Hh (insert_same v v' _ _ Hv)).
Qed.

Lemma dtls_sends_ext addr ms : ∀ v v',
  (∀ ft, v' ft = v ft) → dtls_sends addr v' ms = dtls_sends addr v ms.
Proof.
  induction ms as [|m ms IH]; intros v v' Hv; [done|]. simpl.
  destruct (tm_message m) as [|[raw|d|]|]; try done. rewrite Hv.
  destruct (v _) as [e|]; [|done]. simpl. destruct (dtls_write e _ raw) as [e1 [u|?|]]; try done.
  destruct (dtls_drain e1) as [e2 [|t ts]]; [done|].
  by rewrite (IH _ _ (insert_same v v' _ _ Hv)).
Qed.

(** ** Writing to one transport *)

Lemma resolve_get st ft t :
  resolve st ft = Some t →
  ∃ sid eid, get_mut_transport st ft = Ok (sid, eid, t) ∧
    ∀ f ft', resolve (update_transport st sid eid ft f) ft' =
             if decide (ft' = ft) then Some (f t) else resolve st ft'.
Proof.
  unfold resolve. destruct (find_endpoint st ft) as [[sid eid]|] eqn:Hf; [|done]. simpl. intros Hc.
  exists sid, eid. split; [by apply get_mut_transport_connection|]. intros f ft'.
  change (find_endpoint (update_transport st sid eid ft f) ft') with (find_endpoint st ft').
  case_decide as Hd.
  - subst. rewrite Hf. simpl. by rewrite connection_update_transport, decide_True, Hc.
  - destruct (find_endpoint st ft') as [k|]; [|done]. simpl. rewrite connection_update_transport.
    by rewrite decide_False by (by intros (_ & _ & ?)).
Qed.

(** The SCTP handler takes a message that its association accepts. *)
Lemma sctp_write_accepted h limit st m ms raws :
  sctp_max_message_size (sctp_server_config (st_server_config st)) = limit →
  sctp_sends h limit (associations st) (m :: ms) = Some raws →
  ∃ d st' xs packets raws',
    tm_message m = Ev_Dtls (Dtls_Sctp d) ∧
    sctp_try_write st (tm_now m) (tm_transport m) d = (st', Ok xs) ∧
    flat_map (sctp_transmit_messages h) xs = packets ∧ packets ≠ [] ∧ raws = packets ++ raws' ∧
    sctp_sends h limit (associations st') ms = Some raws' ∧
    st_server_config st' = st_server_config st ∧ ∀ ft, endpoints st' ft = endpoints st ft.
Proof.
  intros <-. simpl. destruct (tm_message m) as [|[|d|]|]; try done. set (ft := four_tuple_of _).
  change (associations st ft) with (tr_sctp_associations <$> resolve st ft). destruct (resolve st ft) as [t|] eqn:Ht; [|done]. simpl.
  destruct (tr_sctp_associations t !! _) as [c|] eqn:Ec; [|done]. simpl.
  destruct (resolve_get st ft t Ht) as (sid & eid & Hget & Hres).
  destruct (_ <? _)%Z eqn:El; [done|]. destruct (write_association _ _ _) as [c' [xs|?|]] eqn:Ew; try done.
  destruct (flat_map _ xs) as [|x packets] eqn:Ex; [done|]. intros H.
  apply fmap_Some in H as (raws' & Hr & ->).
  eexists d, _, xs, (x :: packets), raws'.
  split_and!; [done|unfold sctp_try_write; fold ft; by rewrite El, Hget, Ec, Ew|done|done|done| |done|].
  - rewrite <- Hr. apply sctp_sends_ext; [done|]. intros ft'. unfold associations. rewrite Hres.
    case_decide as Hd; [subst ft'; by rewrite fn_lookup_insert|by rewrite fn_lookup_insert_ne].
  - intros ft'. unfold endpoints. rewrite Hres. case_decide as Hd; [subst ft'; by rewrite Ht|done].
Qed.

(** The DTLS handler takes a packet that its endpoint accepts. *)
Lemma dtls_write_accepted h st m ms ds :
  dtls_sends (dh_local_addr h) (endpoints st) (m :: ms) = Some ds →
  ∃ raw st' t0 ts ds',
    tm_message m = Ev_Dtls (Dtls_Raw raw) ∧
    dtls_try_write h st (tm_transport m) raw =
      (dh_push h (map (dtls_transmit_message h) (t0 :: ts)), st', Ok ()) ∧
    ds = map (datagram_of (dh_local_addr h)) (t0 :: ts) ++ ds' ∧
    dtls_sends (dh_local_addr h) (endpoints st') ms = Some ds' ∧
    st_server_config st' = st_server_config st ∧ ∀ ft, associations st' ft = associations st ft.
Proof.
  simpl. destruct (tm_message m) as [|[raw|d|]|]; try done. set (ft := four_tuple_of _).
  change (endpoints st ft) with (tr_dtls_endpoint <$> resolve st ft). destruct (resolve st ft) as [t|] eqn:Ht; [|done]. simpl.
  destruct (resolve_get st ft t Ht) as (sid & eid & Hget & Hres).
  destruct (dtls_write _ _ _) as [e1 [u|?|]] eqn:Ew; try done.
  destruct (dtls_drain e1) as [e2 [|t0 ts]] eqn:Ed; [done|]. intros H. apply fmap_Some in H as (ds' & Hr & ->).
  eexists raw, _, t0, ts, ds'.
  split_and!; [done|unfold dtls_try_write; fold ft; by rewrite Hget, Ew, Ed|done| |done|].
  - rewrite <- Hr. apply dtls_sends_ext. intros ft'. unfold endpoints. rewrite Hres.
    case_decide as Hd; [subst ft'; by rewrite fn_lookup_insert|by rewrite fn_lookup_insert_ne].
  - intros ft'. unfold associations. rewrite Hres. case_decide as Hd; [subst ft'; by rewrite Ht|done].
Qed.

(** ** The work that is left *)

(** The bytes of a datagram in the queue of the DTLS handler. *)
Definition raw_of m : bytes :=
  match tm_message m with Ev_Dtls (Dtls_Raw b) => b | _ => [] end.
Definition is_raw m : Prop := tm_message m = Ev_Dtls (Dtls_Raw (raw_of m)).
Definition datagram_of_raw m : TaggedBytesMut :=
  {| tb_now := tm_now m; tb_transport := tm_transport m; tb_message := raw_of m |}.

(** The queues of the handlers, with a message [mo] on its way from the
    data-channel handler to the SCTP handler and a packet [no] on its way to
    the DTLS handler, will become the datagrams [out]. *)
Record work p (mo no : option TaggedMessageEvent) (out : list TaggedBytesMut) : Prop := {
  wk_interceptor : ih_transmits (pl_interceptor p) = [];
  wk_gateway : Forall outgoing (gw_transmits (pl_gateway p));
  wk_dtls : Forall is_raw (dh_transmits (pl_dtls p));
  wk_out : ∃ packets ds,
    sctp_sends (pl_sctp p)
      (sctp_max_message_size (sctp_server_config (st_server_config (pl_states p))))
      (associations (pl_states p))
      (option_list mo ++ dc_transmits (pl_datachannel p) ++
       flat_map dc_outbound (gw_transmits (pl_gateway p))) = Some packets ∧
    dtls_sends (dh_local_addr (pl_dtls p)) (endpoints (pl_states p))
      (option_list no ++ sh_transmits (pl_sctp p) ++ packets) = Some ds ∧
    out = map datagram_of_raw (dh_transmits (pl_dtls p)) ++ ds
}.

(** The last two calls of a poll. *)
Definition poll_dtls p (no : option TaggedMessageEvent) : Pipeline * option TaggedBytesMut :=
  let '(h, st, m, _) := dtls_poll_write (pl_dtls p) (pl_states p) no in
  (with_dtls p h st, demux_poll_write (stun_poll_write m)).
Definition poll_sctp p (mo : option TaggedMessageEvent) : Pipeline * option TaggedBytesMut :=
  let '(h, st, m, _) := sctp_poll_write (pl_sctp p) (pl_states p) mo in
  poll_dtls (with_sctp p h st) m.

(** From the gateway's queue to the SCTP handler: the message the data-channel
    handler lets go, if it or the gateway has one. *)
Lemma poll_to_sctp p out :
  work p None None out →
  ∃ p1 mo, (pipeline_poll_transmit p).1 = poll_sctp p1 mo ∧ work p1 mo None out ∧
    (mo = None → dc_transmits (pl_datachannel p1) = [] ∧ gw_transmits (pl_gateway p1) = []).
Proof.
  intros [Hi Hg Hd Ho]. destruct p as [dh sh [dcq] [ihq] gw st]. simpl in *. subst ihq.
  assert (Hpoll : ∃ gw1, ∃ q, gw_poll_write gw None = (gw1, q) ∧ Forall outgoing (gw_transmits gw1) ∧
    (q = None → gw_transmits gw1 = []) ∧
    (∀ m, q = Some m → outgoing m) ∧ gw_transmits gw = option_list q ++ gw_transmits gw1).
  { unfold gw_poll_write. destruct (gw_transmits gw) as [|m q] eqn:Eq.
    - exists gw, None. rewrite Eq. by split_and!.
    - apply Forall_cons in Hg as [Hm Hg]. eexists _, (Some m).
      split_and!; [done|done|done|by intros ? [= <-]|done]. }
  destruct Hpoll as (gw1 & q & Hpoll & Hg1 & Hnone & Hq & Heq). rewrite Heq in Ho.
  unfold pipeline_poll_transmit, media_poll, exception_poll_write. simpl. rewrite Hpoll.
  set (dcs := dcq ++ match q with Some m => dc_outbound m | None => [] end).
  set (p1 := {| pl_dtls := dh; pl_sctp := sh; pl_datachannel := {| dc_transmits := tail dcs |};
                pl_interceptor := {| ih_transmits := [] |}; pl_gateway := gw1; pl_states := st |}).
  exists p1, (head dcs). split_and!.
  - assert (Hdc : dc_poll_write {| dc_transmits := dcq |} q = ({| dc_transmits := tail dcs |}, head dcs)).
    { unfold dc_poll_write. cbn [dc_transmits]. fold dcs. clear -dcs. by destruct dcs. }
    assert (Hup : ih_poll_write {| ih_transmits := [] |} st q = ({| ih_transmits := [] |}, st, q, []) ∧
                  srtp_poll_write st q = (st, q, [])).
    { unfold ih_poll_write, srtp_poll_write. destruct q as [m|]; [|done].
      destruct (Hq m eq_refl) as (ah & stream & payload & Hm). by rewrite Hm. }
    destruct Hup as [-> Hup]. simpl. rewrite Hup. unfold datagram_poll, poll_sctp, poll_dtls. simpl.
    rewrite Hdc. simpl. destruct (sctp_poll_write _ _ _) as [[[? ?] ?] ?]. simpl.
    by destruct (dtls_poll_write _ _ _) as [[[? ?] ?] ?].
  - split; try done. simpl. rewrite flat_map_app in Ho.
    replace (option_list (head dcs) ++ tail dcs ++ _) with
      (dcq ++ flat_map dc_outbound (option_list q) ++ flat_map dc_outbound (gw_transmits gw1)); [done|].
    transitivity (dcs ++ flat_map dc_outbound (gw_transmits gw1)); [|by destruct dcs].
    unfold dcs. rewrite <- app_assoc. f_equal. f_equal. destruct q; simpl; by rewrite ?app_nil_r.
  - intros Hdcs. assert (Hnil : dcs = []) by (by destruct dcs). unfold p1. simpl. rewrite Hnil.
    split; [done|]. destruct q as [m|]; [|by apply Hnone].
    destruct (Hq m eq_refl) as (ah & stream & payload & Hm). unfold dcs, dc_outbound in Hnil.
    rewrite Hm in Hnil. simpl in Hnil. by destruct dcq.
Qed.

(** Through the SCTP handler. *)
Lemma poll_through_sctp p mo out :
  work p mo None out →
  ∃ p1 no, poll_sctp p mo = poll_dtls p1 no ∧ work p1 None no out ∧
    pl_datachannel p1 = pl_datachannel p ∧ pl_gateway p1 = pl_gateway p ∧
    (no = None → mo = None ∧ sh_transmits (pl_sctp p1) = []).
Proof.
  intros [Hi Hg Hd (packets & ds & Hs & Hds & Ho)]. simpl in Hds. unfold poll_sctp, sctp_poll_write.
  destruct mo as [m|]; simpl in Hs.
  - destruct (sctp_write_accepted _ _ _ _ _ _ eq_refl Hs)
      as (d & st' & xs & ps & raws' & Hm & Hw & Hx & Hne & -> & Hs' & Hcfg & He).
    rewrite Hm, Hw, Hx. simpl.
    destruct (sh_transmits (pl_sctp p) ++ ps) as [|x q] eqn:Eq; [by destruct (sh_transmits (pl_sctp p))|].
    eexists _, (Some x). split_and!; [done| |done|done|done].
    split; [done|done|done|]. exists raws', ds. cbn -[sctp_sends dtls_sends]. rewrite Hcfg.
    split_and!; [rewrite <- Hs'; by apply sctp_sends_ext| |done].
    by rewrite (dtls_sends_ext _ _ (endpoints (pl_states p))), <- Hds, (app_assoc (sh_transmits _)), Eq.
  - destruct (sh_transmits (pl_sctp p)) as [|x q] eqn:Eq; [exists p, None|eexists _, (Some x)];
      (split_and!; [by destruct p| |done|done|done]; split; [done|done|done|]; exists packets, ds;
       cbn -[sctp_sends dtls_sends]).
    + by rewrite Eq.
    + split_and!; [rewrite <- Hs; by apply sctp_sends_ext|done|done].
Qed.

(** Through the DTLS handler to the socket. *)
Lemma poll_through_dtls p no out :
  work p None no out →
  (no = None → dc_transmits (pl_datachannel p) = [] ∧ gw_transmits (pl_gateway p) = [] ∧
               sh_transmits (pl_sctp p) = []) →
  match out with
  | [] => ∃ p', poll_dtls p no = (p', None) ∧ quiet p'
  | x :: out' => ∃ p', poll_dtls p no = (p', Some x) ∧ work p' None None out'
  end.
Proof.
  intros [Hi Hg Hd (packets & ds & Hs & Hds & Ho)] Hno.
  assert (Hpop : ∀ h, Forall is_raw (dh_transmits h) →
    match dh_transmits h with
    | [] => dh_pop h = (h, None)
    | m :: q => ∃ h', dh_pop h = (h', Some m) ∧ dh_transmits h' = q ∧ Forall is_raw q ∧
                 dh_local_addr h' = dh_local_addr h ∧
                 demux_poll_write (stun_poll_write (Some m)) = Some (datagram_of_raw m)
    end).
  { intros h Hall. unfold dh_pop. destruct (dh_transmits h) as [|m q]; [done|].
    apply Forall_cons in Hall as [Hm Hq]. eexists. split_and!; [done|done|done|done|].
    unfold stun_poll_write. rewrite Hm. unfold demux_poll_write. by rewrite Hm. }
  unfold poll_dtls, dtls_poll_write. destruct no as [m|].
  - destruct (dtls_write_accepted _ _ _ _ _ Hds) as (raw & st' & t0 & ts & ds' & Hm & Hw & -> & Hs' & Hcfg & Ha).
    rewrite Hm, Hw. set (h1 := dh_push _ _). assert (Hall : Forall is_raw (dh_transmits h1)).
    { apply Forall_app. split; [done|]. by apply Forall_map, Forall_true. }
    specialize (Hpop h1 Hall).
    assert (Hmap : out = map datagram_of_raw (dh_transmits h1) ++ ds').
    { rewrite Ho, app_assoc. f_equal. unfold h1. cbn [dh_push dh_transmits]. by rewrite map_app, map_map. }
    destruct (dh_transmits h1) as [|x q] eqn:Eq.
    { exfalso. unfold h1 in Eq. simpl in Eq. by destruct (dh_transmits (pl_dtls p)). }
    destruct Hpop as (h' & -> & Hq' & Hraw & Haddr & Hx). rewrite Hmap. cbn [map app]. rewrite Hx. clear Ho Hmap.
    eexists. split; [done|]. split; cbn -[sctp_sends dtls_sends]; [done|done|by rewrite Hq'|].
    exists packets, ds'. rewrite Hcfg, Haddr, Hq'.
    rewrite (sctp_sends_ext (pl_sctp p) _ _ _ (associations (pl_states p))) by done. by split_and!.
  - destruct (Hno eq_refl) as (Hdc & Hgw & Hsh). rewrite Hdc, Hgw in Hs. injection Hs as <-.
    rewrite Hsh in Hds. injection Hds as <-. specialize (Hpop _ Hd). rewrite app_nil_r in Ho.
    destruct (dh_transmits (pl_dtls p)) as [|x q] eqn:Eq; simpl in Ho; subst out.
    + rewrite Hpop. eexists. split; [done|]. by split_and!.
    + destruct Hpop as (h' & -> & Hq' & Hraw & Haddr & Hx). rewrite Hx.
      eexists. split; [done|]. split; simpl; try done; [by rewrite Hq'|]. exists [], [].
      rewrite Hdc, Hgw, Hsh, Hq'. rewrite ?app_nil_r; by split_and!.
Qed.

(** A poll sends the next datagram, or finds that all is done. *)
Lemma poll_work p out :
  work p None None out →
  match out with
  | [] => ∃ p', (pipeline_poll_transmit p).1 = (p', None) ∧ quiet p'
  | x :: out' => ∃ p', (pipeline_poll_transmit p).1 = (p', Some x) ∧ work p' None None out'
  end.
Proof.
  intros H. destruct (poll_to_sctp _ _ H) as (p1 & mo & -> & H1 & Hmo).
  destruct (poll_through_sctp _ _ _ H1) as (p2 & no & -> & H2 & Hdc & Hgw & Hno).
  apply poll_through_dtls; [done|]. intros Hn. destruct (Hno Hn) as [Hm Hsh].
  rewrite Hdc, Hgw. by destruct (Hmo Hm).
Qed.

(** The loop sends everything, in order, and ends by itself. *)
Lemma write_work out : ∀ p fuel,
  work p None None out → length out < fuel →
  ∃ p', write_socket_output fuel p = (p', out) ∧ quiet p'.
Proof.
  induction out as [|x out IH]; intros p [|fuel] Hp Hf; try (simpl in Hf; lia);
    unfold write_socket_output; cbn [drain]; apply poll_work in Hp.
  - destruct Hp as (p' & -> & Hq). eauto.
  - destruct Hp as (p' & -> & Hp').
    destruct (IH _ fuel Hp') as (p2 & Hw & Hq); [simpl in Hf; lia|].
    unfold write_socket_output in Hw. rewrite Hw. eauto.
Qed.

(** ** Reading *)

(** The gateway answers a data-channel message with text messages only. *)
Lemma create_offer_outgoing now tc ah stream st st' m :
  create_offer_message_event now tc ah stream st = (st', Ok m) → outgoing m.
Proof.
  intros H. apply M_bind_ok_inv in H as (st0 & ? & _ & H).
  apply M_bind_ok_inv in H as ([sid eid] & ? & _ & H).
  apply M_bind_ok_inv in H as (? & ? & _ & H). apply M_bind_ok_inv in H as (? & ? & _ & H).
  apply M_bind_ok_inv in H as (? & ? & _ & [= <- <-]). by do 3 eexists.
Qed.

Lemma offer_to_peers_outgoing now peers : ∀ st st' ms,
  offer_to_peers now peers st = (st', Ok ms) → Forall outgoing ms.
Proof.
  induction peers as [|[[[tc ah] stream] [|]] peers IH]; intros st st' ms H; simpl in H; [..|by eauto].
  - injection H as <- <-. constructor.
  - apply M_bind_ok_inv in H as (m & st1 & Hm & H).
    apply M_bind_ok_inv in H as (ms1 & st2 & Hms & [= <- <-]).
    constructor; [by eapply create_offer_outgoing|by eapply IH].
Qed.

Lemma handle_dtls_outgoing env now tc am st st' ms :
  handle_dtls_message env now tc am st = (st', Ok ms) → Forall outgoing ms.
Proof.
  unfold handle_dtls_message. destruct (data_channel_event am) as [|payload|]; intros H.
  - apply M_bind_ok_inv in H as (? & ? & _ & H). apply M_bind_ok_inv in H as ([sid eid] & ? & _ & H).
    apply M_bind_ok_inv in H as (? & ? & _ & H). apply M_bind_ok_inv in H as ([|] & ? & _ & H).
    + apply M_bind_ok_inv in H as (m & ? & Hm & [= <- <-]).
      apply Forall_singleton. by eapply create_offer_outgoing.
    + injection H as <- <-. constructor.
  - apply M_bind_ok_inv in H as (? & ? & _ & H). apply M_bind_ok_inv in H as (request & ? & _ & H).
    apply M_bind_ok_inv in H as (? & ? & _ & H). apply M_bind_ok_inv in H as ([sid eid] & ? & _ & H).
    destruct (sdp_type request); try done.
    + apply M_bind_ok_inv in H as (? & ? & _ & H). apply M_bind_ok_inv in H as (? & ? & _ & H).
      apply M_bind_ok_inv in H as (? & ? & _ & H). apply M_bind_ok_inv in H as (? & ? & _ & H).
      apply M_bind_ok_inv in H as (offers & ? & Ho & [= <- <-]).
      constructor; [by do 3 eexists|by eapply offer_to_peers_outgoing].
    + apply M_bind_ok_inv in H as (? & ? & _ & [= <- <-]). constructor.
  - injection H as <- <-. constructor.
Qed.

Lemma run_one next m p : run_effects next [FireRead m] p = next m p.
Proof. simpl. destruct (next m p) as [p' e]. by rewrite app_nil_r. Qed.

(** The messages of the peer among those of an association. *)
Definition inbound_of (ms : list SctpMessage) : list DataChannelMessage :=
  omap (λ x, match x with Sctp_Inbound d => Some d | Sctp_Outbound _ => None end) ms.

(** A datagram [b] of [tc] that its transport decrypts to one packet, in which
    its associations find the data-channel message [d]: the state after both
    handlers, the datagrams [ts] of the DTLS endpoint and what the
    associations give. *)
Record delivers (buffer_len : Z) (now : Instant) tc (b : bytes) st (d : DataChannelMessage)
    st' (ts : list DtlsTransmit) (ms : list SctpMessage) : Prop := {
  ca_dtls : match_dtls b = true;
  ca_read : ∃ sid eid t e e' data t',
    find_endpoint st (four_tuple_of tc) = Some (sid, eid) ∧
    connection st sid eid (four_tuple_of tc) = Some t ∧
    dtls_read (tr_dtls_endpoint t) now (tc_peer_addr tc) (addr_ip (tc_local_addr tc)) (tc_ecn tc) b
      = (e, Ok [ApplicationData data]) ∧
    dtls_drain e = (e', ts) ∧
    sctp_read_transport buffer_len now tc data (set_dtls_endpoint t e') = (t', Ok ms) ∧
    inbound_of ms = [d] ∧
    st' = update_transport (update_transport st sid eid (four_tuple_of tc)
              (λ t, set_dtls_endpoint t e')) sid eid (four_tuple_of tc)
              (λ t, set_sctp t (tr_sctp_endpoint t') (tr_sctp_associations t'))
}.

Lemma inbound_effects msg ms :
  sctp_read_effects msg ms =
  map (λ d, FireRead {| tm_now := tm_now msg; tm_transport := tm_transport msg;
                        tm_message := Ev_Dtls (Dtls_Sctp d) |}) (inbound_of ms).
Proof. induction ms as [|[d|t] ms IH]; simpl; [done|by f_equal|done]. Qed.

(** Up to the data-channel handler. *)
Lemma pipeline_read_dtls env now tc b p d st' ts ms :
  delivers (sh_buffer_len (pl_sctp p)) now tc b (pl_states p) d st' ts ms →
  pipeline_read env {| tb_now := now; tb_transport := tc; tb_message := b |} p =
  datachannel_stage env
    {| tm_now := now; tm_transport := tc; tm_message := Ev_Dtls (Dtls_Sctp d) |}
    (with_sctp (with_dtls p (dh_push (pl_dtls p) (map (dtls_transmit_message (pl_dtls p)) ts)) st')
       (sh_push (pl_sctp p) (sctp_read_transmits (pl_sctp p) ms)) st').
Proof.
  intros [Hb (sid & eid & t & e & e' & data & t' & Hf & Hc & Hr & Hd & Hs & Hi & ->)].
  destruct b as [|b0 b]; [done|].
  unfold pipeline_read, demux_handle_read. cbn [tb_message]. rewrite Hb, run_one.
  unfold stun_stage, stun_handle_read. cbn [tm_message tb_now tb_transport]. rewrite run_one.
  unfold dtls_stage, dtls_handle_read. cbn [tm_message tm_now tm_transport]. unfold dtls_try_read.
  rewrite (proj2 (get_mut_transport_connection _ _ sid eid t)) by done. rewrite Hr.
  cbn [mbind outcome_bind dtls_events foldO fst snd app]. rewrite Hd. cbn [map]. rewrite run_one.
  set (st1 := update_transport (pl_states p) sid eid (four_tuple_of tc) _).
  assert (Hc1 : connection st1 sid eid (four_tuple_of tc) = Some (set_dtls_endpoint t e')).
  { unfold st1. by rewrite connection_update_transport, decide_True, Hc by done. }
  unfold sctp_stage, sctp_handle_read. cbn [tm_message tm_now tm_transport pl_sctp pl_states with_dtls].
  rewrite (proj2 (get_mut_transport_connection st1 _ sid eid _)) by done.
  rewrite Hs, inbound_effects, Hi. cbn [map tm_now tm_transport]. by rewrite run_one.
Qed.

(** From the data-channel handler to the gateway and its queue. *)
Lemma datachannel_stage_answers env now tc d am reply p st' msgs :
  dc_try_read d = Ok (Some am, reply) →
  handle_dtls_message env now tc am (pl_states p) = (st', Ok msgs) →
  ∃ p1, datachannel_stage env
      {| tm_now := now; tm_transport := tc; tm_message := Ev_Dtls (Dtls_Sctp d) |} p = (p1, []) ∧
    pl_dtls p1 = pl_dtls p ∧ pl_sctp p1 = pl_sctp p ∧ pl_interceptor p1 = pl_interceptor p ∧
    dc_transmits (pl_datachannel p1) = dc_transmits (pl_datachannel p) ++
      map (λ r, {| tm_now := now; tm_transport := tc; tm_message := Ev_Dtls (Dtls_Sctp r) |})
        (option_list reply) ∧
    gw_transmits (pl_gateway p1) = gw_transmits (pl_gateway p) ++ msgs ∧ pl_states p1 = st'.
Proof.
  intros Hd Hg. unfold datachannel_stage, dc_handle_read. cbn [tm_message tm_now tm_transport].
  rewrite Hd, run_one. unfold srtp_stage, srtp_handle_read. cbn [tm_message]. rewrite run_one.
  unfold interceptor_stage, ih_handle_read. cbn [tm_message is_media]. rewrite run_one.
  unfold gateway_read, gw_handle_read, gw_try_read. cbn [tm_message tm_now tm_transport].
  cbn [pl_states with_interceptor with_states with_datachannel]. rewrite Hg. cbn [run_effects].
  eexists. split; [done|]. simpl. split_and!; try done.
  destruct reply; simpl; by rewrite ?app_nil_r.
Qed.

(** C3. Negotiation end to end: when a participant of an idle server sends a
    DTLS datagram with one data-channel message and the gateway answers it,
    the loop that writes to the socket sends exactly the datagrams of the DTLS
    endpoint, then those of the packets of the association (its
    acknowledgements), of the reply of the data-channel handler and of each
    answer and offer of the gateway, in this order, as if each message were
    taken to the socket before the next; no message is lost or stays in a
    queue, the loop ends by itself and the server is idle again. *)
Theorem negotiation_end_to_end env now tc b p d st1 ts ms am reply st2 msgs packets ds :
  quiet p → delivers (sh_buffer_len (pl_sctp p)) now tc b (pl_states p) d st1 ts ms →
  dc_try_read d = Ok (Some am, reply) →
  handle_dtls_message env now tc am st1 = (st2, Ok msgs) →
  sctp_sends (pl_sctp p) (sctp_max_message_size (sctp_server_config (st_server_config st2)))
    (associations st2)
    (map (λ r, {| tm_now := now; tm_transport := tc; tm_message := Ev_Dtls (Dtls_Sctp r) |})
       (option_list reply) ++ flat_map dc_outbound msgs) = Some packets →
  dtls_sends (dh_local_addr (pl_dtls p)) (endpoints st2)
    (sctp_read_transmits (pl_sctp p) ms ++ packets) = Some ds →
  ∃ p1,
    pipeline_read env {| tb_now := now; tb_transport := tc; tb_message := b |} p = (p1, []) ∧
    pl_states p1 = st2 ∧
    ∀ fuel, length ts + length ds < fuel →
      ∃ p2, write_socket_output fuel p1 =
          (p2, map (datagram_of (dh_local_addr (pl_dtls p))) ts ++ ds) ∧ quiet p2.
Proof.
  intros ((Q1 & Q2 & Q3 & Q4) & Q5) Hca Hd Hg Hs Hds.
  rewrite (pipeline_read_dtls env now tc b p d st1 ts ms Hca).
  set (p0 := with_sctp _ _ _).
  destruct (datachannel_stage_answers env now tc d am reply p0 st2 msgs Hd Hg)
    as (p1 & -> & H1 & H2 & H3 & H4 & H5 & H6).
  exists p1. split_and!; [done|done|]. intros fuel Hfuel.
  apply write_work; [|by rewrite length_app, length_map]. split.
  - by rewrite H3.
  - rewrite H5. simpl. rewrite Q5. by eapply handle_dtls_outgoing.
  - rewrite H1. simpl. rewrite Q1. by apply Forall_map, Forall_true.
  - exists packets, ds. rewrite H1, H2, H4, H5, H6. cbn -[sctp_sends dtls_sends].
    rewrite Q1, Q2, Q3, Q5. split_and!; [|done|simpl app; by rewrite map_map].
    rewrite <- Hs. by apply sctp_sends_ext.
Qed.

(** The loop of [write_socket_output] takes a poll without a datagram for the
    end.  A message that its association refuses yields none: the loop stops
    and leaves what the gateway queued behind it to the next round. *)
Lemma refused_message_stops_loop p m q ah stream payload st' e fuel :
  settled p → gw_transmits (pl_gateway p) = m :: q →
  tm_message m = Ev_Dtls (Dtls_DataChannel
    {| am_association_handle := ah; am_stream_id := stream; data_channel_event := DCE_Message payload |}) →
  sctp_try_write (pl_states p) (tm_now m) (tm_transport m)
    {| dcm_association_handle := ah; dcm_stream_id := stream; data_message_type := DCM_Text;
       dcm_params := None; dcm_payload := payload |} = (st', Err e) →
  ∃ p', write_socket_output (S fuel) p = (p', []) ∧ settled p' ∧ gw_transmits (pl_gateway p') = q.
Proof.
  intros (Q1 & Q2 & Q3 & Q4) Hq Hm Hs. unfold write_socket_output. cbn [drain].
  unfold pipeline_poll_transmit, media_poll, gw_poll_write, exception_poll_write. rewrite Hq.
  unfold ih_poll_write. rewrite Hm. cbn [is_media pl_interceptor with_gateway]. rewrite Q4. simpl.
  unfold srtp_poll_write. rewrite Hm. unfold datagram_poll, dc_poll_write. simpl. rewrite Q3.
  unfold dc_outbound. rewrite Hm. simpl. unfold sctp_poll_write. simpl. rewrite Hs, Q2. simpl.
  unfold dtls_poll_write, dh_pop. rewrite Q1. eexists. split; [done|]. by split_and!.
Qed.

End control.
