(* ===== verification/Demo.v ===== *)
(** * A concrete instance of the interfaces

    Small implementations of the protocol crates' interfaces that satisfy the
    laws, and a room with two connected endpoints built with the operations of
    the server.  They show that the hypotheses of the theorems can hold. *)

From Stdlib Require Import ZArith Lia.
From Stdlib Require Strings.Byte.
From stdpp Require Import base numbers strings fin_maps gmap list.
From S2P Require Import Prelude RustStr Enums Types Sdp Codec ReceiverStream.
From S2P Require Import Interceptors MediaParse MediaConfig Config Endpoint.
From S2P Require Import Certificate.
From S2P Require Import Description Session ServerStates Stable Demux Gateway Srtp Metrics.
From S2P Require Import DataChannel InterceptorHandler Dtls Sctp Pipeline Media.
From S2P Require Import Shutdown.

(** ** Types *)

Record demo_stun := {
  ds_username : option string;
  ds_attributes : list StunAttribute;
  ds_authentic : bool;
  ds_transaction : Z
}.

(** An association with readable events, messages to read and packets to
    send. *)
Record demo_association := {
  da_peer : SocketAddr;
  da_events : nat;
  da_inbox : list bytes;
  da_outbox : list bytes
}.

Definition demo_types : ExtTypes :=
  {| EcnCodepoint := unit; SdpBandwidth := unit; OriginRest := unit; SdpRest := unit;
     StunMessage := demo_stun; TransactionId := Z; RtpPacket := Z * Z * Z;
     RtcpPacket := RtcpPacketType; HandshakeConfig := unit; DtlsEndpoint := list (SocketAddr * bytes);
     DtlsState := unit; DtlsCertificate := list bytes; SctpEndpointConfig := unit;
     SctpServerConfig := Z; SctpEndpoint := unit; SctpAssociation := demo_association;
     SctpAssociationEvent := bytes; SctpEndpointEvent := unit; SctpChunks := bytes;
     SrtpContext := Z |}.
#[export] Existing Instance demo_types.
#[export] Existing Instance demo_hash_order.

(** ** Operations *)

Definition demo_rtp : RtpOps (T := demo_types) :=
  {| rtp_ssrc := λ p, p.1.1; rtp_sequence_number := λ p, (p.1.2 mod 2 ^ 16)%Z;
     rtp_timestamp := λ p, (p.2 mod 2 ^ 32)%Z; rtcp_packet_type := λ p, p;
     rtcp_as_sender_report := λ p, None; rtcp_of_receiver_report := λ r, Pt_ReceiverReport |}.
#[export] Existing Instance demo_rtp.

#[export] Instance demo_rtp_laws : RtpLaws.
Proof. split; intros p; apply Z.mod_pos_bound; lia. Qed.

Definition demo_hex : HexOps := {| hex_decode := λ _, None |}.
#[export] Existing Instance demo_hex.

(** The section or the description with attributes appended. *)
Definition demo_append (m : MediaDescription) (l : list Attribute) : MediaDescription :=
  {| md_media_name := md_media_name m; md_media_title := md_media_title m;
     md_connection_information := md_connection_information m;
     md_bandwidth := md_bandwidth m; md_encryption_key := md_encryption_key m;
     md_attributes := md_attributes m ++ l |}.
Definition demo_sd_append (d : SessionDescription) (l : list Attribute) : SessionDescription :=
  {| sd_origin := sd_origin d; sd_attributes := sd_attributes d ++ l;
     media_descriptions := media_descriptions d; sd_rest := sd_rest d |}.
Definition demo_section (kind : string) (attributes : list Attribute) : MediaDescription :=
  {| md_media_name := {| mn_media := kind; mn_port := {| rp_value := 9; rp_range := None |};
                         mn_protos := ["UDP"]; mn_formats := [] |};
     md_media_title := None; md_connection_information := None; md_bandwidth := [];
     md_encryption_key := None; md_attributes := attributes |}%Z.
Definition demo_origin : Origin :=
  {| origin_session_id := 0; origin_session_version := 0; origin_rest := () |}%Z.
Definition demo_sd (l : list MediaDescription) : SessionDescription :=
  {| sd_origin := demo_origin; sd_attributes := []; media_descriptions := l; sd_rest := () |}.
Definition demo_attr (k v : string) : Attribute := {| attr_key := k; attr_value := Some v |}.
Definition demo_prop (k : string) : Attribute := {| attr_key := k; attr_value := None |}.

(** The first offer of a peer: a data section with its credentials. *)
Definition demo_data_of (ufrag : string) : MediaDescription :=
  demo_section "application"
    [demo_attr "mid" "0"; demo_attr "setup" "actpass"; demo_attr "ice-ufrag" ufrag;
     demo_attr "ice-pwd" "peerpasswordpeerpassword"; demo_attr "fingerprint" "sha-256 AB"].
Definition demo_data_section : MediaDescription := demo_data_of "peer".
(** A second offer that adds a sendonly video track. *)
Definition demo_video_section : MediaDescription :=
  demo_section "video"
    [demo_attr "mid" "1"; demo_prop "sendonly"; demo_attr "msid" "stream track";
     demo_attr "ssrc" "99 cname:peer"].

(** The texts the demo parser knows. *)
Definition demo_unmarshal (s : string) : SessionDescription + string :=
  if String.eqb s "data" then inl (demo_sd [demo_data_section])
  else if String.eqb s "video" then inl (demo_sd [demo_data_section; demo_video_section])
  else if String.eqb s "guest" then inl (demo_sd [demo_data_of "guest"])
  else inr "syntax error".

(** VP8 and its retransmissions. *)
Definition demo_codec (pt : Z) : SdpCodec + string :=
  let codec name fmtp :=
    inl {| sc_name := name; sc_clock_rate := 90000; sc_encoding_parameters := "";
           sc_fmtp := fmtp; sc_rtcp_feedback := [] |}%Z in
  if (pt =? 96)%Z then codec "VP8" ""
  else if (pt =? 97)%Z then codec "rtx" "apt=96"
  else inr "codec not found".

Definition demo_sdp : SdpOps :=
  {| md_new_jsep := λ kind _, demo_section kind [];
     md_with_value_attribute := λ m k v, demo_append m [demo_attr k v];
     md_with_property_attribute := λ m k, demo_append m [demo_prop k];
     md_with_ice_credentials := λ m u p,
       demo_append m [demo_attr "ice-ufrag" u; demo_attr "ice-pwd" p];
     md_with_fingerprint := λ m a v, demo_append m [demo_attr "fingerprint" (a +:+ " " +:+ v)];
     md_with_codec := λ m pt name rate ch fmtp,
       demo_append m [demo_attr "rtpmap" (show_u pt +:+ " " +:+ name)];
     md_with_extmap := λ m v uri, demo_append m [demo_attr "extmap" (show_u v +:+ " " +:+ uri)];
     md_with_media_source := λ m ssrc cname s t, demo_append m [demo_attr "ssrc" (show_u ssrc)];
     md_attribute := λ m k,
       attr_value <$> (list_find (λ a, attr_key a = k) (md_attributes m) ≫= λ p, Some p.2);
     sd_new_jsep := λ _, demo_sd []; sd_default := demo_sd []; origin_default := demo_origin;
     sd_with_media := λ d m,
       {| sd_origin := sd_origin d; sd_attributes := sd_attributes d;
          media_descriptions := media_descriptions d ++ [m]; sd_rest := sd_rest d |};
     sd_with_value_attribute := λ d k v, demo_sd_append d [demo_attr k v];
     sd_with_property_attribute := λ d k, demo_sd_append d [demo_prop k];
     sd_with_fingerprint := λ d a v, demo_sd_append d [demo_attr "fingerprint" (a +:+ " " +:+ v)];
     sd_attribute := λ d k, None;
     sd_marshal := λ d, "sdp"; sd_unmarshal := demo_unmarshal;
     sd_get_codec_for_payload_type := λ d pt, demo_codec pt;
     extmap_of_attribute := λ a, inr "no extmap";
     connection_role_to_string := λ r,
       match r with Conn_Active => "active" | Conn_Passive => "passive"
                  | Conn_Actpass => "actpass" | Conn_Unspecified => "Unspecified" end;
     url_parse := λ s, Ok s; TRANSPORT_CC_URI := "urn:twcc" |}.
#[export] Existing Instance demo_sdp.

#[export] Instance demo_sdp_laws : SdpLaws.
Proof.
  split; intros; try done; try (eexists; split; [reflexivity|]; split; [|done]);
    repeat constructor; by discriminate.
Qed.

(** Base64 by its length only, and a constant digest. *)
Fixpoint demo_text (n : nat) : string :=
  match n with 0 => EmptyString | S n => String (Ascii.ascii_of_nat 65) (demo_text n) end.
Lemma demo_text_length n : String.length (demo_text n) = n.
Proof. induction n; simpl; congruence. Qed.

Definition demo_config_ops : ConfigOps :=
  {| sha256 := λ _, replicate 32 Byte.x00;
     base64_encode := λ b, demo_text (4 * ((length b + 2) / 3));
     certificate_ders := λ c, c; sctp_endpoint_config_default := ();
     sctp_server_config_default := 65536; dtls_handshake_config_default := ();
     sctp_port := λ _, 5000; sctp_max_message_size := λ c, c |}%Z.
#[export] Existing Instance demo_config_ops.

#[export] Instance demo_config_laws : ConfigLaws.
Proof.
  split; intros b; [done|]. cbn [base64_encode demo_config_ops]. unfold str_len.
  rewrite demo_text_length.
  rewrite Nat2Z.inj_mul, Nat2Z.inj_div, Nat2Z.inj_add. done.
Qed.

(** Certificates whose keys carry nothing.  A byte is written as two letters, and
    a space ends a block. *)
#[export] Instance demo_certificate_types : CertificateTypes :=
  {| KeyPair := unit; RingKeyPair := unit; X509Certificate := unit; ParamsRest := unit |}.

Definition demo_letter (n : N) : Ascii.ascii := Ascii.ascii_of_N (65 + n).
Definition demo_digit (a : Ascii.ascii) : N := Ascii.N_of_ascii a - 65.
Fixpoint demo_encode (b : bytes) (tail : string) : string :=
  match b with
  | [] => String ch_space tail
  | x :: b => String (demo_letter (Byte.to_N x / 16))
                (String (demo_letter (Byte.to_N x mod 16)) (demo_encode b tail))
  end.
Fixpoint demo_decode (s : string) : option (bytes * string) :=
  match s with
  | String a s' =>
      if Ascii.eqb a ch_space then Some ([], s')
      else match s' with
           | String b s'' =>
               match demo_decode s'' with
               | Some (l, t) => Some (byte_of_Z (Z.of_N (16 * demo_digit a + demo_digit b)) :: l, t)
               | None => None
               end
           | EmptyString => None
           end
  | EmptyString => None
  end.
Fixpoint demo_decode_all (n : nat) (s : string) : list bytes :=
  match n with
  | 0 => []
  | S n => match demo_decode s with
           | Some (b, s) => b :: demo_decode_all n s
           | None => []
           end
  end.

Lemma demo_decode_encode b tail : demo_decode (demo_encode b tail) = Some (b, tail).
Proof.
  induction b as [|x b IH]; [done|]. cbn [demo_encode demo_decode]. rewrite IH.
  by destruct x.
Qed.

Lemma demo_encode_length b tail : String.length tail < String.length (demo_encode b tail).
Proof. induction b; simpl; lia. Qed.

Lemma demo_decode_all_encode l n :
  String.length (foldr demo_encode "" l) ≤ n → demo_decode_all n (foldr demo_encode "" l) = l.
Proof.
  revert n. induction l as [|b l IH]; intros n; simpl; [by destruct n|].
  pose proof (demo_encode_length b (foldr demo_encode "" l)). intros Hn.
  destruct n as [|n]; [lia|]. simpl. rewrite demo_decode_encode, IH; [done|lia].
Qed.

Lemma demo_encode_lines b tail :
  no_empty_line tail = true → no_empty_line (demo_encode b tail) = true.
Proof. intros Ht. induction b as [|x b IH]; [done|]. by destruct x; simpl. Qed.

Lemma capitals_line s : capitals s = true → no_empty_line (s +:+ String ch_newline "") = true.
Proof.
  induction s as [|a s IH]; [done|]. intros H. cbn [capitals] in H.
  apply andb_prop in H as [[H1%N.ltb_lt _]%andb_prop H]. rewrite append_String.
  cbn [no_empty_line]. rewrite IH by done. destruct (Ascii.eqb_spec a ch_newline) as [->|]; [|done].
  by vm_compute in H1.
Qed.

Lemma demo_encode_append b s t : demo_encode b s +:+ t = demo_encode b (s +:+ t).
Proof. induction b as [|x b IH]; cbn [demo_encode]; rewrite ?append_String; by rewrite ?IH. Qed.

Definition demo_certificate_ops : CertificateOps :=
  {| params_rest_default := (); params_not_after_default := 1000000000;
     is_compatible := λ _ _, true; serialize_key_der := λ _, [];
     ring_from_pkcs8 := λ _ _, inl (); x509_get_key_pair := λ _, ();
     x509_serialize_der := λ _, Ok [Byte.x30];
     dtls_certificate_new := λ l _, l;
     dtls_certificate_from_pem := λ s, Ok (demo_decode_all (String.length s) s);
     dtls_certificate_serialize_pem := λ c, foldr demo_encode "" c;
     pem_parse := λ s, match demo_decode s with
                       | Some (b, t) => inl {| pem_tag := t; pem_contents := b |}
                       | None => inr "malformed"
                       end;
     pem_encode := λ p, demo_encode (pem_contents p) (pem_tag p) +:+ String ch_newline "" |}%Z.
#[export] Existing Instance demo_certificate_ops.

#[export] Instance demo_certificate_laws : CertificateLaws.
Proof.
  split.
  - intros [tag b] H. exists (demo_encode b tag). split; [done|]. split.
    + rewrite demo_encode_append. by apply demo_encode_lines, capitals_line.
    + simpl. by rewrite demo_decode_encode.
  - done.
  - intros c. simpl. by rewrite demo_decode_all_encode.
Qed.

Definition demo_transport_ops : TransportOps (T := demo_types) :=
  {| dtls_endpoint_new := λ _, []; sctp_endpoint_new := λ _ _, () |}.
#[export] Existing Instance demo_transport_ops.

Definition demo_attribute_eqb (a b : StunAttribute) : bool :=
  match a, b with
  | ATTR_PRIORITY, ATTR_PRIORITY | ATTR_ICE_CONTROLLING, ATTR_ICE_CONTROLLING
  | ATTR_ICE_CONTROLLED, ATTR_ICE_CONTROLLED | ATTR_USE_CANDIDATE, ATTR_USE_CANDIDATE
  | ATTR_NETWORK_COST, ATTR_NETWORK_COST => true
  | _, _ => false
  end.

Definition demo_response (t : Z) : demo_stun :=
  {| ds_username := None; ds_attributes := []; ds_authentic := true; ds_transaction := t |}.

(** The JSON text of a description is its SDP, with its type known. *)
Definition demo_gateway : GatewayOps (T := demo_types) :=
  {| stun_username := ds_username;
     stun_contains := λ m a, existsb (demo_attribute_eqb a) (ds_attributes m);
     stun_transaction_id := ds_transaction;
     stun_check_integrity := λ p m, (m, if ds_authentic m then Ok () else Err (ErrLib 1));
     stun_binding_success := λ t ip port, Ok (demo_response t);
     stun_add_integrity := λ p m, Ok m; stun_add_fingerprint := λ m, Ok m;
     json_to_description := λ s,
       inl {| sdp_type := Offer; sdp := s; parsed := None |};
     json_of_description := λ d, inl (sdp d) |}%Z.
#[export] Existing Instance demo_gateway.

#[export] Instance demo_stun_laws : StunLaws.
Proof. by split. Qed.

(** An authenticated request with USE-CANDIDATE. *)
Definition demo_request (username : string) : @StunMessage demo_types :=
  {| ds_username := Some username;
     ds_attributes := [ATTR_PRIORITY; ATTR_ICE_CONTROLLING; ATTR_USE_CANDIDATE];
     ds_authentic := true; ds_transaction := 77 |}.

(** A STUN datagram carries its transaction in its second byte; one of three
    bytes is a request for the candidate of [demo_offer]. *)
Definition demo_stun_codec : StunCodec (T := demo_types) :=
  {| stun_decode := λ b, match b with
                         | [_; t] => Ok (demo_response (byte_Z t))
                         | [_; _; _] => Ok (demo_request (demo_text 12 +:+ ":peer"))
                         | _ => Err (ErrLib 2)
                         end;
     stun_encode := λ m, [Byte.x00; Byte.x01] |}%Z.
#[export] Existing Instance demo_stun_codec.

Definition demo_srtp : SrtpOps (T := demo_types) :=
  {| is_rtcp := λ b, match b with Byte.x81 :: _ => true | _ => false end;
     decrypt_rtp := λ c b, (c + 1, Ok b); decrypt_rtcp := λ c b, (c + 1, Ok b);
     encrypt_rtp := λ c b, (c + 1, Ok b); encrypt_rtcp := λ c b, (c + 1, Ok b);
     rtp_unmarshal := λ b, Ok (1, 2, 3); rtcp_unmarshal := λ b, Ok [Pt_SenderReport];
     rtp_marshal := λ p, Ok [Byte.x80]; rtcp_marshal := λ ps, Ok [Byte.x81] |}%Z.
#[export] Existing Instance demo_srtp.

Definition demo_dcep : DcepOps :=
  {| dcep_message_type := λ b, match b with Byte.x03 :: b => Ok (true, b) | _ => Ok (false, b) end;
     dcep_open_unmarshal := λ b,
       Ok {| dco_channel_type := Ch_PartialReliableRexmitUnordered; dco_reliability_parameter := 3 |};
     dcep_ack_marshal := Ok [Byte.x02] |}%Z.
#[export] Existing Instance demo_dcep.

(** An endpoint that answers every datagram by itself; an empty one is an
    alert, and one that starts with 23 holds application data. *)
Definition demo_dtls : DtlsOps (T := demo_types) :=
  {| dtls_read := λ e now peer ip ecn b,
       match b with
       | [] => (e, Err ErrAlertFatalOrClose)
       | Byte.x17 :: b => (e, Ok [ApplicationData b])
       | _ => (e ++ [(peer, b)], Ok [HandshakeComplete; ApplicationData b])
       end;
     dtls_connection_state := λ e peer, Some ();
     dtls_poll_transmit := λ e,
       match e with
       | [] => ([], None)
       | (peer, b) :: e => (e, Some {| dt_now := 0%Z; dt_remote := peer; dt_ecn := None;
                                       dt_payload := b |})
       end;
     dtls_write := λ e peer b, (e ++ [(peer, Byte.x17 :: b)], Ok ());
     dtls_handle_timeout := λ e _ _, e; dtls_poll_timeout := λ _ _ t, t;
     dtls_connections_keys := λ _, []; dtls_pending := length;
     dtls_srtp_profile := λ _, Srtp_Aead_Aes_128_Gcm;
     srtp_extract_keys := λ _, Ok {| local_master_key := []; local_master_salt := [];
                                     remote_master_key := []; remote_master_salt := [] |};
     srtp_context_new := λ _ _ _ w _, Ok (default 0%Z w) |}.
#[export] Existing Instance demo_dtls.

#[export] Instance demo_dtls_laws : DtlsLaws.
Proof. split. intros [|[peer b] e] e' t; simpl; [done|]. intros [= <- <-]. lia. Qed.

(** Packets of one chunk: 1 starts an association, any other is a message, a
    control message if it starts with 3; each message is acknowledged. *)
Definition demo_with (c : demo_association) (events : nat) (inbox outbox : list bytes)
  : demo_association :=
  {| da_peer := da_peer c; da_events := events; da_inbox := inbox; da_outbox := outbox |}.
Definition demo_sctp : SctpOps (T := demo_types) :=
  {| sctp_handle := λ e now peer ip ecn b,
       (e, match b with
           | [] => None
           | Byte.x01 :: _ =>
               Some (11%Z, NewAssociation {| da_peer := peer; da_events := 0; da_inbox := [];
                                             da_outbox := [[Byte.x02]] |})
           | _ => Some (11%Z, AssociationEvent b)
           end);
     sctp_handle_event := λ e _ _, e;
     assoc_handle_event := λ c b,
       demo_with c (S (da_events c)) (da_inbox c ++ [b]) (da_outbox c ++ [[Byte.x0c]]);
     assoc_handle_timeout := λ c _, c;
     assoc_poll := λ c, match da_events c with
       | 0 => (c, None)
       | S n => (demo_with c n (da_inbox c) (da_outbox c), Some (StreamReadable 1))
       end;
     assoc_poll_endpoint_event := λ c, (c, None);
     assoc_poll_transmit := λ now c, match da_outbox c with
       | [] => (c, None)
       | b :: l => (demo_with c (da_events c) (da_inbox c) l,
                    Some {| sx_now := now; sx_remote := da_peer c; sx_payload := RawEncode [b];
                            sx_ecn := None; sx_local_ip := None |})
       end;
     assoc_poll_timeout := λ _, None; assoc_stream := λ _ _, Ok ();
     stream_read_sctp := λ c _, match da_inbox c with
       | [] => (c, Ok None)
       | b :: l => (demo_with c (da_events c) l (da_outbox c), Ok (Some b))
       end;
     stream_set_reliability := λ c _ _ _ _, (c, Ok ());
     stream_write_with_ppi := λ c _ b _,
       (demo_with c (da_events c) (da_inbox c) (da_outbox c ++ [b]), Ok (Z.of_nat (length b)));
     chunks_read := λ b _, Ok b;
     chunks_ppi := λ b, match b with Byte.x03 :: _ => Ppi_Dcep | _ => Ppi_String end;
     assoc_pending := λ c, da_events c + length (da_inbox c) + length (da_outbox c) |}.
#[export] Existing Instance demo_sctp.

#[export] Instance demo_sctp_laws : SctpLaws.
Proof.
  split; intros; destruct c as [a n k m]; simpl in *; repeat case_match; simplify_eq/=; lia.
Qed.

(** ** A room *)

Definition demo_server_config : ServerConfig :=
  server_config_new [certificate_from_existing [[Byte.x30]] 0%Z].
Definition demo_addr : SocketAddr := SocketV4 2130706433 3478.
Definition demo_ft (port : Z) : FourTuple :=
  {| ft_local_addr := demo_addr; ft_peer_addr := SocketV4 2130706433 port |}.
Definition demo_tc (port : Z) : TransportContext := context_of (demo_ft port) None.
Definition demo_env (now : Z) : Env :=
  {| env_now := now; env_user := replicate 9 Byte.x00; env_pass := replicate 18 Byte.x00 |}.
Definition demo_offer (text : string) : RTCSessionDescription :=
  {| sdp_type := Offer; sdp := text; parsed := None |}.

Definition demo_empty : ServerStates :=
  {| st_server_config := demo_server_config; st_local_addr := demo_addr; st_sessions := ∅;
     st_endpoints := ∅; st_candidates := ∅ |}.

Example demo_empty_new : server_states_new demo_server_config demo_addr = Ok demo_empty.
Proof. reflexivity. Qed.

(** Instruments that keep a 64-bit sum and the last value. *)
Definition demo_meter : MeterOps :=
  {| Meter := (); Counter := N; ObservableGauge := option Z;
     u64_counter := λ _ _, 0%N; u64_observable_gauge := λ _ _ _, None;
     counter_add := λ c v, ((c + Z.to_N v) mod 2 ^ 64)%N;
     gauge_observe := λ _ v, Some v;
     counter_sum := Z.of_N; gauge_last := λ g, g |}.
#[export] Existing Instance demo_meter.

#[export] Instance demo_meter_laws : MeterLaws.
Proof.
  split; [done| |done]. intros c v Hv Hlt. simpl in *. rewrite N.mod_small by lia. lia.
Qed.

(** A channel as its two views. *)
Record demo_chan := { dch_unread : nat; dch_closed : bool }.
Definition demo_channels : ChannelOps :=
  {| Chan := demo_chan; chan_new := {| dch_unread := 0; dch_closed := false |};
     chan_send := λ c, {| dch_unread := 1; dch_closed := dch_closed c |};
     chan_drop_sender := λ c, {| dch_unread := dch_unread c; dch_closed := true |};
     chan_try_recv := λ c,
       ({| dch_unread := Nat.pred (dch_unread c); dch_closed := dch_closed c |},
        match dch_unread c with
        | S _ => Received_Message
        | 0 => if dch_closed c then Recv_Disconnected else Recv_Empty
        end);
     chan_unread := dch_unread; chan_closed := dch_closed |}.
#[export] Existing Instance demo_channels.

#[export] Instance demo_channel_laws : ChannelLaws.
Proof. by split. Qed.

(** Endpoint [eid] joins session 7 from port 5000 + [eid] at time [eid]: its
    offer is accepted, a STUN request opens its transport, and a DTLS datagram
    completes the handshake. *)
Definition demo_join (st : ServerStates) (eid : Z) : ServerStates :=
  let st := (accept_offer 0 (env_user (demo_env 0)) (env_pass (demo_env 0)) 7 eid None
               (demo_offer "data") st).1 in
  let st := (handle_stun_message (demo_env eid) 0 (demo_tc (5000 + eid))
               (demo_request (demo_text 12 +:+ ":peer")) st).1 in
  (dtls_handle_read (dtls_handler_new demo_addr) st
     {| tm_now := 0; tm_transport := demo_tc (5000 + eid);
        tm_message := Ev_Dtls (Dtls_Raw [Byte.x14]) |}).1.2.

Definition demo_room : ServerStates := demo_join (demo_join demo_empty 1) 2.

Lemma demo_empty_ok : server_ok demo_empty.
Proof. apply (server_states_new_ok demo_server_config demo_addr), demo_empty_new. Qed.

Lemma demo_join_ok st eid : server_ok st → server_ok (demo_join st eid).
Proof.
  intros Hst. apply (dtls_handle_read_stable server_ok), (handle_stun_message_stable server_ok); [apply _|].
  by apply (accept_offer_stable (λ _, True) server_ok); [left|].
Qed.

Lemma demo_room_ok : server_ok demo_room.
Proof. apply demo_join_ok, demo_join_ok, demo_empty_ok. Qed.

Example demo_room_connections :
  (is_local_srtp_context_ready <$> connection demo_room 7 1 (demo_ft 5001),
   tr_last_activity <$> connection demo_room 7 2 (demo_ft 5002),
   find_endpoint demo_room (demo_ft 5001), find_endpoint demo_room (demo_ft 5002))
  = (Some true, Some 2, Some (7, 1), Some (7, 2))%Z.
Proof. vm_compute. reflexivity. Qed.

(** The connections of a state, as a list. *)
Definition connections (st : ServerStates) : list (Z * Z * FourTuple) :=
  flat_map (λ p : Z * Session, flat_map (λ q : Z * Endpoint,
      map (λ r : FourTuple * Transport, (p.1, q.1, r.1)) (map_to_list (ep_transports q.2)))
    (map_to_list (ss_endpoints p.2))) (map_to_list (st_sessions st)).

Lemma elem_of_connections st sid eid ft t :
  connection st sid eid ft = Some t → (sid, eid, ft) ∈ connections st.
Proof.
  unfold connection, transport_at. destruct (st_sessions st !! sid) as [s|] eqn:Es; [|done]. simpl.
  destruct (ss_endpoints s !! eid) as [e|] eqn:Ee; [|done]. simpl. intros Et.
  unfold connections. apply list_elem_of_In, in_flat_map. exists (sid, s).
  split; [by apply list_elem_of_In, elem_of_map_to_list|]. apply in_flat_map. exists (eid, e).
  split; [by apply list_elem_of_In, elem_of_map_to_list|]. apply in_map_iff. exists (ft, t).
  split; [done|]. by apply list_elem_of_In, elem_of_map_to_list.
Qed.

Lemma demo_room_list : connections demo_room = [(7, 2, demo_ft 5002); (7, 1, demo_ft 5001)]%Z.
Proof. vm_compute. reflexivity. Qed.

Lemma demo_room_table : table_ok demo_room.
Proof.
  intros sid eid ft t Hc%elem_of_connections. rewrite demo_room_list in Hc.
  rewrite !elem_of_cons, elem_of_nil in Hc.
  destruct Hc as [[= -> -> ->]|[[= -> -> ->]|[]]]; vm_compute; reflexivity.
Qed.

(** The pipeline of the room, idle. *)
Definition demo_pipeline : Pipeline :=
  with_states (build_pipeline 0 demo_addr demo_empty) demo_room.
