(* ===== verification/Witnesses.v ===== *)
(** * Witnesses

    For every property with hypotheses, one closed statement that applies it
    to the concrete room of [Demo], with its hypotheses discharged by
    evaluation. *)

From Stdlib Require Import ZArith Lia.
From Stdlib Require Strings.Byte.
From stdpp Require Import base numbers strings fin_maps gmap list.
From S2P Require Import Prelude RustStr Enums Types Sdp Codec ReceiverStream.
From S2P Require Import Interceptors MediaParse MediaConfig Config Endpoint.
From S2P Require Import Description Session ServerStates Stable Demux Gateway Srtp.
From S2P Require Import DataChannel InterceptorHandler Dtls Sctp Pipeline Media Demo.
From S2P Require Import Negotiation Certificate Room Runs Loop Signaling.
From S2P Require Import Metrics Renegotiation Subscriptions.
From S2P Require Import Shutdown AsyncShutdown Control.

(** A value that evaluates to [Some _], and a call that evaluates to a pair with
    a successful result. *)
Ltac is_some o v H := assert (is_Some o) as [v H] by (vm_compute; eauto).
Ltac succeeds m s a H := assert (∃ s a, m = (s, Ok a)) as (s & a & H) by (vm_compute; eauto).

(** ** Reception statistics *)

(** The packet with a sequence number. *)
Definition demo_packet (q : Z) : RtpPacket (ExtTypes := demo_types) := (1, q, 0)%Z.

(** A stream that has seen packet 10 and nothing since. *)
Definition demo_stream : ReceiverStream :=
  (generate_report (process_rtp (receiver_stream_new 1 0 1 90000) 0 (demo_packet 10)) 5).1.
(** Packets with the given sequence numbers. *)
Definition demo_packets (l : list Z) : list (Z * RtpPacket) := map (λ q, (6%Z, demo_packet q)) l.

Lemma demo_stream_ok : stream_ok demo_stream.
Proof. apply generate_report_ok, process_rtp_ok, stream_ok_new. Qed.

Lemma receiver_stream_wf_witness :
  stream_ok (process_rtp demo_stream 6 (demo_packet 11)) ∧
  ∃ rec, rr_reports (generate_report demo_stream 6).2 = [rec] ∧
         (rec_last_sequence_number rec = 10)%Z.
Proof.
  destruct (receiver_stream_wf demo_stream 6 (demo_packet 11) {| sr_ssrc := 1; sr_ntp_time := 0 |}
              demo_stream_ok) as (H1 & _ & _ & rec & H2 & H3 & _).
  split; [done|]. exists rec. split; [done|]. rewrite H3. reflexivity.
Defined.

Lemma lost_count_exact_witness :
  lost_since_report (receive demo_stream (demo_packets [12; 15]%Z)) = 3%Z.
Proof.
  rewrite (lost_count_exact demo_stream (demo_packets [12; 15]%Z)).
  - vm_compute. reflexivity.
  - apply demo_stream_ok.
  - vm_compute. reflexivity.
  - vm_compute. reflexivity.
  - vm_compute. repeat split; reflexivity.
  - apply (bool_decide_unpack _). vm_compute. exact I.
Defined.

Lemma loss_hidden_by_short_history_witness :
  lost_since_report (receive demo_stream (demo_packets (seqZ 12 128))) = 0%Z.
Proof.
  apply (loss_hidden_by_short_history demo_stream (demo_packets (seqZ 12 128)));
    [apply demo_stream_ok|vm_compute; reflexivity..].
Defined.

(** Packets 65401 to 65528 arrive and the next 20 are lost. *)
Definition demo_high : ReceiverStream :=
  process_rtp (receiver_stream_new 1 0 1 90000) 0 (demo_packet 65400).

Lemma loss_hidden_at_wraparound_witness :
  lost_since_report
    (process_rtp (generate_report (receive demo_high (demo_packets (seqZ 65401 128))) 7).1 8
       (demo_packet 13)) = 0%Z.
Proof.
  destruct (loss_hidden_at_wraparound demo_high (demo_packets (seqZ 65401 128)) 7 8 (demo_packet 13)
              20 9) as (_ & _ & H & _).
  - apply process_rtp_ok, stream_ok_new.
  - reflexivity.
  - vm_compute. reflexivity.
  - split; [discriminate|reflexivity].
  - vm_compute. discriminate.
  - vm_compute. reflexivity.
  - exact H.
Defined.

(** ** Interceptors *)

Definition demo_rtcp (ps : list RtcpPacketType) : TaggedMessageEvent :=
  {| tm_now := 3; tm_transport := demo_tc 5001; tm_message := Ev_Rtp (Rtp_Rtcp ps) |}%Z.

(** ** Media configuration *)

Definition demo_media : MediaConfig :=
  (register_header_extension "urn:b" Video None
     (register_header_extension "urn:a" Video None media_config_default).1).1.

Lemma demo_media_reachable : rtc config_step media_config_default demo_media.
Proof. eapply rtc_l; [apply cs_extension|]. apply rtc_once, cs_extension. Qed.

Definition demo_extension (uri : string) : RTCRtpHeaderExtension :=
  {| he_uri := uri; he_is_audio := false; he_is_video := true; he_allowed_direction := None |}.

Lemma sdp_extension_ids_collide_witness :
  ∃ id, {| hep_uri := "urn:a"; hep_id := id |}
      ∈ rp_header_extensions (get_rtp_parameters_by_kind demo_media Video Sendrecv) ∧
    {| hep_uri := "urn:b"; hep_id := id |}
      ∈ rp_header_extensions (get_rtp_parameters_by_kind demo_media Video Sendrecv).
Proof.
  destruct (sdp_extension_ids_collide demo_media Video Sendrecv (demo_extension "urn:a")
              (demo_extension "urn:b") 1) as (id & _ & _ & H1 & H2).
  - reflexivity.
  - left.
  - right. left.
  - discriminate.
  - reflexivity.
  - reflexivity.
  - intros id h [H|H]; vm_compute in H; discriminate H.
  - intros id h [H|H]; vm_compute in H; discriminate H.
  - split; [discriminate|reflexivity].
  - reflexivity.
  - reflexivity.
  - exists id. split; [exact H1|exact H2].
Defined.

Lemma media_config_reachable_ok_witness : config_ok demo_media.
Proof. apply media_config_reachable_ok, demo_media_reachable. Defined.

(** A section that offers VP8 and its retransmissions to the default configuration
    with retransmissions registered. *)
Definition demo_codec_section : MediaDescription :=
  {| md_media_name := {| mn_media := "video"; mn_port := {| rp_value := 9; rp_range := None |};
                         mn_protos := ["UDP"]; mn_formats := ["96"; "97"] |};
     md_media_title := None; md_connection_information := None; md_bandwidth := [];
     md_encryption_key := None; md_attributes := [] |}%Z.
Definition demo_codec_config : MediaConfig :=
  (register_codec (mk_codec "video/rtx" 90000 0 "apt=96" 97) Video media_config_default).1.
Definition demo_negotiated : MediaConfig :=
  (update_from_remote_description (demo_sd [demo_data_section; demo_codec_section]) demo_codec_config).1.

Lemma negotiated_codecs_sound_witness :
  map payload_type (mc_negotiated_video_codecs demo_negotiated) = [96; 97]%Z ∧
  Forall (apt_among (mc_negotiated_video_codecs demo_negotiated))
    (mc_negotiated_video_codecs demo_negotiated).
Proof.
  destruct (negotiated_codecs_sound (demo_sd [demo_data_section; demo_codec_section]) demo_codec_config
              demo_negotiated Video [demo_data_section] demo_codec_section [])
    as (codecs & _ & [_ _ H _]).
  - vm_compute. reflexivity.
  - reflexivity.
  - discriminate.
  - reflexivity.
  - intros m Hm. apply list_elem_of_singleton in Hm as ->. discriminate.
  - vm_compute. reflexivity.
  - vm_compute. reflexivity.
  - split; [vm_compute; reflexivity|]. apply Forall_forall. intros k Hk. exact (H k Hk).
Defined.

(** ** Certificates *)

Definition demo_certificate : RTCCertificate :=
  {| dtls_certificate := [[Byte.x30; Byte.x0a]; []]; expires := 172800000000007 |}%Z.

Lemma certificate_pem_roundtrip_witness :
  ∃ text, certificate_serialize_pem demo_certificate = Ok text ∧
    certificate_from_pem text =
      Ok {| dtls_certificate := [[Byte.x30; Byte.x0a]; []]; expires := 172800000000000 |}%Z.
Proof. apply (certificate_pem_roundtrip demo_certificate). cbn [expires demo_certificate]. lia. Defined.

(** ** Session descriptions *)

Definition demo_session : Session := default (session_new (session_config_new demo_server_config demo_addr) 0)
  (st_sessions demo_room !! 7%Z).
Definition demo_ice : RTCIceParameters :=
  {| username_fragment := "local"; password := "localpasswordlocalpassword" |}.
Definition demo_described (t : RTCSdpType) (d : SessionDescription) : RTCSessionDescription :=
  {| sdp_type := t; sdp := "text"; parsed := Some d |}.
Definition demo_video_offer : RTCSessionDescription :=
  demo_described Offer (demo_sd [demo_data_section; demo_video_section]).
(** The session after endpoint 1 offered a video track. *)
Definition demo_published : Session := (ss_set_remote_description 1 demo_video_offer demo_session).1.

Lemma demo_published_directions eid : directions_specified (transceivers_of demo_published eid).
Proof.
  unfold transceivers_of.
  destruct (ss_endpoints demo_published !! eid) as [e|] eqn:E; [|apply map_Forall_empty].
  apply elem_of_map_to_list in E.
  assert (H : Forall (λ p : Z * Endpoint, map_Forall (λ _ t, tv_direction t ≠ Dir_Unspecified)
                        (ep_transceivers p.2)) (map_to_list (ss_endpoints demo_published))).
  { apply (bool_decide_unpack _). vm_compute. exact I. }
  rewrite Forall_forall in H. exact (H _ E).
Qed.

Lemma populate_sdp_sections_witness :
  ∃ d' medias, populate_sdp (demo_sd []) [] (session_config_new demo_server_config demo_addr) demo_ice
      Conn_Active [{| ms_mid := "0"; ms_data := true; ms_rid_map := ∅; ms_offered_direction := None |}]
      ∅ true = Ok d' ∧ media_descriptions d' = medias ∧ length medias = 1.
Proof.
  assert (∃ d', populate_sdp (demo_sd []) [] (session_config_new demo_server_config demo_addr) demo_ice
      Conn_Active [{| ms_mid := "0"; ms_data := true; ms_rid_map := ∅; ms_offered_direction := None |}]
      ∅ true = Ok d') as [d' H] by (vm_compute; eauto).
  destruct (populate_sdp_sections _ _ _ _ _ _ _ _ d' (map_Forall_empty _) H)
    as (medias & attrs & H1 & H2 & _).
  exists d', medias. split; [done|]. split; [exact H1|]. by rewrite <-(Forall2_length _ _ _ H2).
Defined.

Lemma demo_published_ok :
  ss_set_remote_description 1 demo_video_offer demo_session = (demo_published, Ok ()).
Proof. vm_compute. reflexivity. Qed.

Lemma offer_publishes_tracks_witness :
  knows_mid demo_published 1 "1" ∧ ∃ fresh, carries demo_published 1 "1" 2 fresh.
Proof.
  is_some (ss_endpoints demo_session !! 2%Z) e He.
  destruct (offer_publishes_tracks demo_session 1 demo_video_offer
              (demo_sd [demo_data_section; demo_video_section]) [demo_data_section]
              demo_video_section [] Video "1" 2 e demo_published) as [H1 H2].
  - reflexivity.
  - discriminate.
  - reflexivity.
  - vm_compute. reflexivity.
  - intros m Hm k d. apply list_elem_of_singleton in Hm as ->. vm_compute. discriminate.
  - assert (Hn : ss_endpoints demo_session !! 1%Z ≫= (λ e, ep_transceivers e !! "1") = None)
      by (vm_compute; reflexivity).
    intros (e' & He' & [t Ht]). rewrite He' in Hn. simpl in Hn. by rewrite Hn in Ht.
  - discriminate.
  - exact He.
  - apply demo_published_ok.
  - split; [done|]. eexists. exact H2.
Defined.

Lemma create_answer_mirrors_witness :
  ∃ ans d, create_answer demo_published 1 demo_video_offer demo_ice = Ok ans ∧
    parsed ans = Some d ∧ length (media_descriptions d) = 2.
Proof.
  assert (∃ ans, create_answer demo_published 1 demo_video_offer demo_ice = Ok ans) as [ans H]
    by (vm_compute; eauto).
  destruct (create_answer_mirrors demo_published 1 demo_video_offer
              (demo_sd [demo_data_section; demo_video_section]) demo_ice ans
              (demo_published_directions 1) eq_refl H) as (d & _ & Hd & _ & Hm).
  exists ans, d. split; [done|]. split; [done|]. by rewrite <-(Forall2_length _ _ _ Hm).
Defined.

Lemma create_offer_mids_witness :
  ∃ offer d, create_offer demo_published 2 (demo_described Offer (demo_sd [demo_data_section])) demo_ice
      = Ok offer ∧ parsed offer = Some d ∧
    map get_mid_value (media_descriptions d) = [Some "0"; Some "1-1"].
Proof.
  assert (∃ offer, create_offer demo_published 2 (demo_described Offer (demo_sd [demo_data_section]))
                     demo_ice = Ok offer) as [offer H] by (vm_compute; eauto).
  destruct (create_offer_mids demo_published 2 (demo_described Offer (demo_sd [demo_data_section]))
              (demo_sd [demo_data_section]) demo_ice offer (demo_published_directions 2) eq_refl H)
    as (d & _ & Hd & _ & Hm).
  exists offer, d. split; [done|]. split; [done|]. rewrite Hm. vm_compute. reflexivity.
Defined.

(** Endpoint 2 answers that it receives the track of endpoint 1. *)
Definition demo_answer_section : MediaDescription :=
  demo_section "video" [demo_attr "mid" "1-1"; demo_prop "recvonly"].
Definition demo_answer : RTCSessionDescription :=
  demo_described Answer (demo_sd [demo_data_section; demo_answer_section]).

Lemma remote_answer_sets_current_direction_witness :
  ∃ e s', ss_set_remote_description 2 demo_answer demo_published = (s', Ok ()) ∧
    s' = with_transceivers demo_published 2 e
           (map_imap (λ mid t, Some (after_answer reverse [demo_data_section; demo_answer_section] mid t))
              (ep_transceivers e)) ∧
    last_direction [demo_data_section; demo_answer_section] "1-1" = Some Recvonly.
Proof.
  is_some (ss_endpoints demo_published !! 2%Z) e He.
  succeeds (ss_set_remote_description 2 demo_answer demo_published) s' u Hs. destruct u.
  exists e, s'. split; [exact Hs|]. split; [|vm_compute; reflexivity].
  apply (remote_answer_sets_current_direction demo_published 2 demo_answer
           (demo_sd [demo_data_section; demo_answer_section]) e s').
  - reflexivity.
  - reflexivity.
  - exact He.
  - exact Hs.
Defined.

(** ** The server *)

Definition demo_user : bytes := env_user (demo_env 0).
Definition demo_pass : bytes := env_pass (demo_env 0).
(** Endpoint 3 offers to join the room. *)
Definition demo_pending : ServerStates :=
  (accept_offer 0 demo_user demo_pass 7 3 None (demo_offer "data") demo_room).1.

Lemma accept_offer_initial_witness :
  ∃ c, demo_pending = add_candidate (create_or_get_mut_session 7 demo_room).1 c ∧
    cand_endpoint_id c = 3%Z.
Proof.
  succeeds (accept_offer 0 demo_user demo_pass 7 3 None (demo_offer "data") demo_room) st' ans H.
  destruct (accept_offer_initial 0 demo_user demo_pass 7 3 None (demo_offer "data") demo_room st' ans)
    as (c & Hc & _ & He & _).
  - intros s Hs. assert (Hn : (λ s, has_endpoint s 3) <$> st_sessions demo_room !! 7%Z = Some false)
      by (vm_compute; reflexivity).
    rewrite Hs in Hn. by injection Hn.
  - reflexivity.
  - reflexivity.
  - exact H.
  - exists c. split; [|exact He]. unfold demo_pending. rewrite H. exact Hc.
Defined.

Definition demo_username : string := demo_text 12 +:+ ":peer".

Lemma stun_opens_only_authenticated_witness :
  ∃ st' r c t, handle_stun_message (demo_env 3) 0 (demo_tc 5003) (demo_request demo_username)
      demo_pending = (st', r) ∧
    opened demo_pending st' c (demo_ft 5003) t ∧ cand_username c = demo_username.
Proof.
  destruct (handle_stun_message (demo_env 3) 0 (demo_tc 5003) (demo_request demo_username)
              demo_pending) as [st' r] eqn:E.
  destruct (stun_opens_only_authenticated _ _ _ _ _ _ _ E)
    as [->|(u & c & t & [= <-] & Hc & _ & _ & _ & _ & _ & _ & Ho)].
  - exfalso. apply (f_equal (λ x, connection x.1 7 3 (demo_ft 5003))) in E.
    apply (f_equal (fmap (λ _, ()))) in E. vm_compute in E. discriminate.
  - exists st', r, c, t. split; [done|]. split; [exact Ho|].
    exact (sv_cands _ (accept_offer_stable (λ _, True) server_ok _ _ _ _ _ _ _ _ (or_introl I) demo_room_ok) _ _ Hc).
Defined.


Definition option_bool {A} (o : option A) : bool := match o with Some _ => true | None => false end.

(** A candidate of a state whose connection is new is opened. *)
Definition opens (env : Env) (request : StunMessage) (tc : TransportContext) (st : ServerStates)
    (sid eid : Z) (c : Candidate) : Z * Z * bool :=
  (cand_session_id c, cand_endpoint_id c,
   option_bool (connection (gw_add_endpoint env request c tc st).1 sid eid (four_tuple_of tc))).

Lemma opens_opened env request tc st sid eid o :
  opens env request tc st sid eid <$> o = Some (sid, eid, true) →
  connection st sid eid (four_tuple_of tc) = None →
  ∃ c t st', cand_session_id c = sid ∧ cand_endpoint_id c = eid ∧
    opened st st' c (four_tuple_of tc) t.
Proof.
  destruct o as [c|]; [|done]. unfold opens. simpl. intros [= Hs He Hgw] Hn.
  destruct (gw_add_endpoint env request c tc st) as [st' r] eqn:E.
  destruct (gw_add_endpoint_opens _ _ _ _ _ _ _ E) as [->|(_ & t & _ & _ & Ho)].
  - exfalso. simpl in Hgw. by rewrite Hn in Hgw.
  - by exists c, t, st'.
Qed.

(** Endpoint 3 connects from the four tuple of endpoint 1. *)
Lemma demo_reuse_opens :
  opens (demo_env 3) (demo_request demo_username) (demo_tc 5001) demo_pending 7 3 <$>
  find_candidate demo_pending demo_username = Some (7, 3, true)%Z.
Proof. vm_compute. reflexivity. Qed.

Lemma demo_reuse_new : connection demo_pending 7 3 (four_tuple_of (demo_tc 5001)) = None.
Proof. vm_compute. reflexivity. Qed.

(** However late the timers run, the connection of endpoint 1 stays. *)
Lemma reused_four_tuple_leaks_witness :
  ∃ p t0, connection demo_pending 7 1 (demo_ft 5001) = Some t0 ∧
    ∀ now, ∃ t', connection (pl_states (pipeline_handle_timeout p now).1) 7 1 (demo_ft 5001) = Some t' ∧
      tr_last_activity t' = tr_last_activity t0.
Proof.
  destruct (opens_opened _ _ _ _ _ _ _ demo_reuse_opens demo_reuse_new) as (c & t & st' & Hs & He & Ho).
  is_some (connection demo_pending 7 1 (demo_ft 5001)) t0 Ht0.
  exists (build_pipeline 0 demo_addr st'), t0. split; [exact Ht0|]. intros now.
  destruct (reused_four_tuple_leaks demo_pending c (demo_ft 5001) t 7 1 t0 (build_pipeline 0 demo_addr st')
              (pipeline_handle_timeout (build_pipeline 0 demo_addr st') now).1 Ho Ht0)
    as (t' & H1 & H2 & _).
  - rewrite Hs, He. discriminate.
  - apply rtc_once. constructor.
  - exists t'. split; [exact H1|exact H2].
Defined.

(** One endpoint is connected and another one is about to. *)
Definition demo_solo : ServerStates :=
  (accept_offer 0 demo_user demo_pass 7 2 None (demo_offer "guest") (demo_join demo_empty 1)).1.
Definition demo_guest : string := demo_text 12 +:+ ":guest".

Lemma demo_solo_list : connections demo_solo = [(7, 1, demo_ft 5001)]%Z.
Proof. vm_compute. reflexivity. Qed.

Lemma pending_candidate_refused_witness :
  (handle_stun_message (demo_env 3) 0 (demo_tc 5002) (demo_request demo_guest)
     (st_remove_transport demo_solo (demo_ft 5001))).2 = Err (ErrOther "session 7 not found").
Proof.
  is_some (connection demo_solo 7 1 (demo_ft 5001)) t Ht.
  assert (∃ req c, check_stun_message (st_remove_transport demo_solo (demo_ft 5001))
            (demo_request demo_guest) = (req, Ok (Some c)) ∧ cand_session_id c = 7%Z)
    as (req & c & Hreq & Hc) by (vm_compute; eexists _, _; split; reflexivity).
  rewrite (pending_candidate_refused demo_solo (demo_ft 5001) 7 1 t (demo_env 3) 0 (demo_tc 5002)
             (demo_request demo_guest) c req).
  - reflexivity.
  - vm_compute. reflexivity.
  - exact Ht.
  - intros eid ft Hne. destruct (connection demo_solo 7 eid ft) eqn:E; [|reflexivity].
    apply elem_of_connections in E. rewrite demo_solo_list in E.
    apply list_elem_of_singleton in E. injection E as -> ->. by destruct Hne.
  - apply (accept_offer_stable (λ _, True) server_ok); [by left|apply demo_join_ok, demo_empty_ok].
  - exact Hc.
  - exact Hreq.
Defined.

(** Endpoint 1 has published a track, which endpoint 2 was told about; now
    endpoint 2 opens its data channel. *)
Definition demo_track : ServerStates :=
  (accept_offer 0 demo_user demo_pass 7 1 (Some (demo_ft 5001)) (demo_offer "video") demo_room).1.

(** A connection and the session and endpoint it is in. *)
Lemma connection_parts st sid eid ft :
  option_bool (connection st sid eid ft) = true →
  ∃ s e t, st_sessions st !! sid = Some s ∧ ss_endpoints s !! eid = Some e ∧
           ep_transports e !! ft = Some t.
Proof.
  unfold connection, transport_at. destruct (st_sessions st !! sid) as [s|]; [|done]. simpl.
  destruct (ss_endpoints s !! eid) as [e|] eqn:Ee; [|done]. simpl.
  destruct (ep_transports e !! ft) as [t|] eqn:Et; [|done]. by exists s, e, t.
Qed.

Lemma demo_track_connected : option_bool (connection demo_track 7 2 (demo_ft 5002)) = true.
Proof. vm_compute. reflexivity. Qed.

Lemma demo_track_ok : server_ok demo_track.
Proof. by apply (accept_offer_stable (λ _, True) server_ok); [left|apply demo_room_ok]. Qed.

Lemma datachannel_open_subscribes_witness :
  ∃ s e t s' e' m, subscribed s 2 (demo_ft 5002) t 11 12 e e' ∧ ep_is_renegotiation_needed e' = false ∧
    offers_all 0 (demo_tc 5002) 11 12 (ep_transceivers e') m ∧
    st_sessions (handle_datachannel_open 0 (demo_tc 5002) 11 12 demo_track).1 !! 7%Z = Some s'.
Proof.
  destruct (connection_parts _ _ _ _ demo_track_connected) as (s & e & t & Hs & He & Ht).
  succeeds (handle_datachannel_open 0 (demo_tc 5002) 11 12 demo_track) st' msgs H.
  assert (Hn : (st_sessions demo_track !! 7%Z ≫= λ s, Some (length (tracks_of_others s 2))) = Some 1)
    by (vm_compute; reflexivity).
  rewrite Hs in Hn. apply (inj Some) in Hn.
  destruct (datachannel_open_subscribes 0 (demo_tc 5002) 11 12 demo_track st' msgs 7 2 s e t)
    as (s' & e' & H1 & H2 & H3 & H4 & H5).
  - exact demo_track_ok.
  - vm_compute. reflexivity.
  - exact Hs.
  - exact He.
  - exact Ht.
  - exact H.
  - destruct (decide (tracks_of_others s 2 = [])) as [Hd|_]; [by rewrite Hd in Hn|].
    destruct H5 as (m & _ & H5). exists s, e, t, s', e', m. split; [exact H3|]. split; [exact H4|].
    split; [exact H5|]. rewrite H. exact H1.
Defined.

Lemma announced_track_listed_twice_witness :
  ∃ e', ¬ NoDup (ep_mids e') ∧
    st_sessions (handle_datachannel_open 0 (demo_tc 5002) 11 12 demo_track).1 !! 7%Z
      ≫= (λ s, ss_endpoints s !! 2%Z) = Some e'.
Proof.
  destruct (connection_parts _ _ _ _ demo_track_connected) as (s & e & t & Hs & He & Ht).
  succeeds (handle_datachannel_open 0 (demo_tc 5002) 11 12 demo_track) st' msgs H.
  assert (Ho : (st_sessions demo_track !! 7%Z ≫= λ s, ss_endpoints s !! 1%Z ≫= λ o,
                tv_direction <$> ep_transceivers o !! "1") = Some Recvonly)
    by (vm_compute; reflexivity).
  apply bind_Some in Ho as (s0 & Hs0 & Ho). rewrite Hs in Hs0. apply (inj Some) in Hs0 as <-.
  apply bind_Some in Ho as (o & Ho & Hu). apply fmap_Some in Hu as (u & Hu & Hd).
  assert (Hm : (st_sessions demo_track !! 7%Z ≫= λ s, ep_mids <$> ss_endpoints s !! 2%Z) = Some ["1-1"])
    by (vm_compute; reflexivity).
  apply bind_Some in Hm as (s0 & Hs0 & Hm). rewrite Hs in Hs0. apply (inj Some) in Hs0 as <-.
  apply fmap_Some in Hm as (e0 & He0 & Hm). rewrite He in He0.
  destruct (announced_track_listed_twice 0 (demo_tc 5002) 11 12 demo_track st' msgs 7 2 s e t 1 o "1" u)
    as (s' & e' & H1 & H2 & H3 & _).
  - vm_compute. reflexivity.
  - exact Hs.
  - exact He.
  - exact Ht.
  - discriminate.
  - exact Ho.
  - exact Hu.
  - exact (eq_sym Hd).
  - apply (inj Some) in He0 as <-. rewrite <-Hm. left.
  - exact H.
  - exists e'. split; [exact H3|]. rewrite H. cbn [fst]. rewrite H1. exact H2.
Defined.

(** Both endpoints have opened their data channels; now endpoint 1 offers its
    video over its channel. *)
Definition demo_open : ServerStates :=
  (handle_datachannel_open 0 (demo_tc 5002) 21 22
     (handle_datachannel_open 0 (demo_tc 5001) 11 12 demo_room).1).1.
Definition demo_video_text : bytes := as_bytes "video".

Lemma demo_open_ok : server_ok demo_open.
Proof.
  by apply (handle_datachannel_open_stable (λ _, True) server_ok),
    (handle_datachannel_open_stable (λ _, True) server_ok), demo_room_ok.
Qed.

Lemma renegotiation_reaches_peers_witness :
  ∃ u m, tv_direction u = Sendonly ∧
    offers_track 0 (demo_tc 5002) 21 22 "1-1" u m ∧
    match (handle_datachannel_message (demo_env 0) 0 (demo_tc 5001) 11 12 demo_video_text demo_open).2 with
    | Ok msgs => m ∈ msgs
    | _ => False
    end.
Proof.
  assert (Hc : ∃ s e t, st_sessions demo_open !! 7%Z = Some s ∧ ss_endpoints s !! 2%Z = Some e ∧
                        ep_transports e !! demo_ft 5002 = Some t)
    by (apply connection_parts; vm_compute; reflexivity).
  destruct Hc as (s & e & t & Hs & He & Ht).
  assert (Hch : (connection demo_open 7 2 (demo_ft 5002)) ≫= (λ t, Some (association_handle_and_stream_id t))
                = Some (Some 21, Some 22)%Z) by (vm_compute; reflexivity).
  unfold connection, transport_at in Hch. rewrite Hs in Hch. simpl in Hch. rewrite He in Hch.
  simpl in Hch. rewrite Ht in Hch. simpl in Hch. injection Hch as Hc1 Hc2.
  assert (Hno : ∀ eid mid, (eid, mid) ∈ [(1, "1"); (2, "1-1")]%Z →
            st_sessions demo_open !! 7%Z ≫= (λ s, ss_endpoints s !! eid ≫= λ e, ep_transceivers e !! mid) = None).
  { intros eid mid. rewrite !elem_of_cons, elem_of_nil.
    intros [[= -> ->]|[[= -> ->]|[]]]; vm_compute; reflexivity. }
  succeeds (handle_datachannel_message (demo_env 0) 0 (demo_tc 5001) 11 12 demo_video_text demo_open) st' msgs H.
  destruct (renegotiation_reaches_peers (demo_env 0) 0 (demo_tc 5001) 11 12 demo_video_text "video"
              (demo_offer "video") (demo_sd [demo_data_section; demo_video_section])
              [demo_data_section] demo_video_section [] Video "1" demo_open st' msgs 7 1 s)
    as (answer & atext & offers & _ & _ & Hm & Hall).
  - exact demo_open_ok.
  - vm_compute. reflexivity.
  - exact Hs.
  - assert (Hh : (st_sessions demo_open !! 7%Z ≫= λ s, Some (has_endpoint s 1)) = Some true)
      by (vm_compute; reflexivity).
    rewrite Hs in Hh. simpl in Hh. by injection Hh as ->.
  - vm_compute. reflexivity.
  - reflexivity.
  - reflexivity.
  - vm_compute. reflexivity.
  - reflexivity.
  - vm_compute. reflexivity.
  - intros m Hin k d. apply list_elem_of_singleton in Hin as ->. vm_compute. discriminate.
  - intros (e1 & He1 & [t1 Ht1]). specialize (Hno 1%Z "1" ltac:(left)).
    rewrite Hs in Hno. simpl in Hno. rewrite He1 in Hno. simpl in Hno. congruence.
  - exact H.
  - destruct (Hall 2%Z e (demo_ft 5002) t 21%Z 22%Z) as (u & s' & e' & m & Hd & Hin & Ho & _).
    + discriminate.
    + exact He.
    + specialize (Hno 2%Z "1-1" ltac:(right; left)). rewrite Hs in Hno. simpl in Hno.
      rewrite He in Hno. exact Hno.
    + exact Ht.
    + unfold association_handle_and_stream_id. by rewrite Hc1, Hc2.
    + vm_compute. reflexivity.
    + exists u, m. split; [exact Hd|]. split; [exact Ho|]. rewrite H. cbn [snd]. rewrite Hm.
      by apply elem_of_cons; right.
Defined.

(** ** Handlers *)

Definition demo_event (e : MessageEvent) (port : Z) : TaggedMessageEvent :=
  {| tm_now := 4; tm_transport := demo_tc port; tm_message := e |}%Z.

Lemma srtp_writes_only_encrypted_witness :
  ∃ t c, connection demo_room 7 1 (demo_ft 5001) = Some t ∧ tr_local_srtp_context t = Some c ∧
    (encrypt_rtp c [Byte.x80]).2 = Ok [Byte.x80].
Proof.
  assert (∃ st' out effs, srtp_poll_write demo_room
            (Some (demo_event (Ev_Rtp (Rtp_Rtp (demo_packet 5))) 5001)) = (st', Some out, effs))
    as (st' & out & effs & H) by (vm_compute; eauto).
  destruct (srtp_writes_only_encrypted demo_room
              (demo_event (Ev_Rtp (Rtp_Rtp (demo_packet 5))) 5001) st' out effs)
    as (sid & eid & t & c & b & x & Hf & Hc & Hl & _ & Hb & Hx).
  - left. eexists. reflexivity.
  - exact H.
  - assert (Hid : find_endpoint demo_room (demo_ft 5001) = Some (7, 1)%Z) by (vm_compute; reflexivity).
    change (four_tuple_of _) with (demo_ft 5001) in Hf, Hc. rewrite Hid in Hf. injection Hf as <- <-.
    exists t, c. split; [exact Hc|]. split; [exact Hl|]. reflexivity.
Defined.

Definition demo_unmarshalled : @RtpPacket demo_types := (1, 2, 3)%Z.

Lemma srtp_reads_only_decrypted_witness :
  ∃ m c, FireRead m ∈ (srtp_handle_read demo_room (demo_event (Ev_Rtp (Rtp_Raw [Byte.x80])) 5001)).2 ∧
    (decrypt_rtp c [Byte.x80]).2 = Ok [Byte.x80].
Proof.
  assert (Hm : FireRead (demo_event (Ev_Rtp (Rtp_Rtp demo_unmarshalled)) 5001) ∈
               (srtp_handle_read demo_room (demo_event (Ev_Rtp (Rtp_Raw [Byte.x80])) 5001)).2)
    by (vm_compute; left).
  destruct (srtp_reads_only_decrypted demo_room (demo_event (Ev_Rtp (Rtp_Raw [Byte.x80])) 5001)
              [Byte.x80] eq_refl _ Hm) as (_ & _ & sid & eid & t & c & d & _ & _ & _ & Hd & _).
  exists (demo_event (Ev_Rtp (Rtp_Rtp demo_unmarshalled)) 5001), c. split; [exact Hm|reflexivity].
Defined.

(** A video packet in, one out, and a datagram from nowhere. *)
Definition demo_calls : list SrtpCall :=
  [Srtp_read (demo_event (Ev_Rtp (Rtp_Raw [Byte.x80])) 5001);
   Srtp_write (Some (demo_event (Ev_Rtp (Rtp_Rtp (demo_packet 5))) 5002)) 9;
   Srtp_read (demo_event (Ev_Rtp (Rtp_Raw [Byte.x80])) 5009)].

Lemma srtp_metrics_account_witness :
  let mt := (metered_calls (metrics_new (ME := demo_meter) ()) demo_room demo_calls).1.1 in
  counter_sum (rtp_packet_in_count mt) = 1%Z ∧ counter_sum (rtp_packet_out_count mt) = 1%Z ∧
  counter_sum (remote_srtp_context_not_set_count mt) = 0%Z.
Proof.
  pose proof (srtp_metrics_account (ME := demo_meter) () demo_room demo_calls) as H.
  destruct (metered_calls (metrics_new (ME := demo_meter) ()) demo_room demo_calls) as [[mt st'] results].
  destruct H as [_ H]; [vm_compute; reflexivity|]. cbn [fst].
  split; [|split]; [etransitivity; [exact (H Rtp_in)|]|etransitivity; [exact (H Rtp_out)|]|
    etransitivity; [exact (H Remote_not_set)|]]; vm_compute; reflexivity.
Defined.

(** A context with a replay window. *)
Definition demo_context (window : Z) : @SrtpContext demo_types := window.

Lemma dtls_handshake_installs_contexts_witness :
  ∃ h' st' effects t', dtls_handle_read (dtls_handler_new demo_addr) demo_room
      (demo_event (Ev_Dtls (Dtls_Raw [Byte.x16])) 5001) = (h', st', effects) ∧
    connection st' 7 1 (demo_ft 5001) = Some t' ∧ is_Some (tr_local_srtp_context t').
Proof.
  is_some (connection demo_room 7 1 (demo_ft 5001)) t Ht.
  destruct (dtls_handle_read (dtls_handler_new demo_addr) demo_room
              (demo_event (Ev_Dtls (Dtls_Raw [Byte.x16])) 5001)) as [[h' st'] effects] eqn:E.
  destruct (dtls_handshake_installs_contexts (dtls_handler_new demo_addr) demo_room 4 (demo_tc 5001)
              [Byte.x16] 7 1 t (tr_dtls_endpoint t ++ [(SocketV4 2130706433 5001, [Byte.x16])]%Z)
              [HandshakeComplete; ApplicationData [Byte.x16]] () (demo_context 0) (demo_context 64) h' st' effects)
    as (t' & H1 & H2 & _).
  - vm_compute. reflexivity.
  - exact Ht.
  - reflexivity.
  - left.
  - reflexivity.
  - reflexivity.
  - exact E.
  - exists h', st', effects, t'. split; [done|]. split; [exact H1|]. rewrite H2. eauto.
Defined.

Lemma dtls_alert_closes_connection_witness :
  ∃ h' st' effects, dtls_handle_read (dtls_handler_new demo_addr) demo_room
      (demo_event (Ev_Dtls (Dtls_Raw [])) 5001) = (h', st', effects) ∧
    connection st' 7 1 (demo_ft 5001) = None ∧
    connection st' 7 2 (demo_ft 5002) = connection demo_room 7 2 (demo_ft 5002) ∧
    ∃ u, st_candidates st' = delete u (st_candidates demo_room).
Proof.
  is_some (connection demo_room 7 1 (demo_ft 5001)) t Ht.
  destruct (dtls_handle_read (dtls_handler_new demo_addr) demo_room
              (demo_event (Ev_Dtls (Dtls_Raw [])) 5001)) as [[h' st'] effects] eqn:E.
  destruct (dtls_alert_closes_connection (dtls_handler_new demo_addr) demo_room 4 (demo_tc 5001)
              [] 7 1 t (tr_dtls_endpoint t) h' st' effects) as (_ & _ & Hcc & H).
  - vm_compute. reflexivity.
  - exact Ht.
  - reflexivity.
  - exact E.
  - exists h', st', effects. split; [done|]. rewrite !H. split_and!.
    + rewrite decide_True; [reflexivity|]. split; [reflexivity|]. split; reflexivity.
    + rewrite decide_False; [reflexivity|]. intros (_ & Heq & _). discriminate Heq.
    + eexists. exact (cc_candidates _ _ _ _ _ _ Hcc).
Defined.

(** ** The pipeline *)

Definition demo_datagram (b : bytes) (port : Z) : TaggedBytesMut :=
  {| tb_now := 4; tb_transport := demo_tc port; tb_message := b |}%Z.

Lemma reachable_server_ok_witness :
  server_ok (pl_states (pipeline_handle_timeout
    (pipeline_read (demo_env 1) (demo_datagram [Byte.x00; Byte.x05] 5001)
       (build_pipeline 0 demo_addr demo_empty)).1 10).1).
Proof.
  apply (reachable_server_ok demo_server_config demo_addr demo_empty 0); [exact demo_empty_new|].
  eapply rtc_l; [apply step_datagram|]. apply rtc_once, step_timer.
Defined.

Definition demo_data_text : bytes := [Byte.x64; Byte.x61; Byte.x74; Byte.x61].

(** A run in which endpoint 1 offers to join session 7, its STUN request
    arrives, and the timer is called. *)
Definition demo_invited : Pipeline :=
  let p := build_pipeline 0 demo_addr demo_empty in
  with_states p (handle_signaling_message (demo_env 0) (Signal_Offer 7 1 demo_data_text) (pl_states p)).1.
Definition demo_joined : Pipeline :=
  (pipeline_read (demo_env 1) (demo_datagram [Byte.x00; Byte.x05; Byte.x05] 5001) demo_invited).1.
Definition demo_running : Pipeline := (pipeline_handle_timeout demo_joined 10).1.

Lemma demo_running_reachable : rtc pipeline_step (build_pipeline 0 demo_addr demo_empty) demo_running.
Proof.
  eapply rtc_l; [apply step_signal|]. eapply rtc_l; [apply step_datagram|]. apply rtc_once, step_timer.
Qed.

Lemma demo_running_connected : option_bool (connection (pl_states demo_running) 7 1 (demo_ft 5001)) = true.
Proof. vm_compute. reflexivity. Qed.

(** A peer starts an association and opens its data channel. *)
Definition demo_opens (p : Pipeline) (port : Z) : Pipeline :=
  let p := (pipeline_read (demo_env 5) (demo_datagram [Byte.x17; Byte.x01] port) p).1 in
  let p := (write_socket_output 20 p).1 in
  let p := (pipeline_read (demo_env 6) (demo_datagram [Byte.x17; Byte.x03] port) p).1 in
  (write_socket_output 20 p).1.
(** Two endpoints enter, open their channels, and the first one publishes. *)
Definition demo_enters (p : Pipeline) (eid : Z) : Pipeline :=
  let p := with_states p
             (handle_signaling_message (demo_env 0) (Signal_Offer 7 eid demo_data_text) (pl_states p)).1 in
  let p := (pipeline_read (demo_env eid) (demo_datagram [Byte.x00; Byte.x05; Byte.x05] (5000 + eid)) p).1 in
  (pipeline_read (demo_env eid) (demo_datagram [Byte.x14] (5000 + eid)) p).1.
Definition demo_offered : bytes := Byte.x17 :: as_bytes "video".
Definition demo_lively : Pipeline :=
  (pipeline_read (demo_env 9) (demo_datagram demo_offered 5001)
     (demo_opens (demo_opens (demo_enters (demo_enters (build_pipeline 0 demo_addr demo_empty) 1) 2)
        5001) 5002)).1.

(** The texts the demo parser knows publish. *)
Lemma demo_offer_publishes st sid eid offer : offer_publishes st sid eid offer.
Proof.
  assert (Hd : ∀ u s, new_section_sendonly s eid (demo_data_of u))
    by (intros u s k dir mid; vm_compute; discriminate).
  assert (Hv : ∀ s, new_section_sendonly s eid demo_video_section)
    by (intros s k dir mid; vm_compute; intros [= <- <- <-]; by left).
  intros s d _ H. unfold desc_unmarshal in H. simpl in H. unfold demo_unmarshal in H.
  repeat case_match; try discriminate; injection H as <-; simplify_eq;
    repeat (apply Forall_cons_2; [apply Hd || apply Hv|]); apply Forall_nil_2.
Qed.

Lemma demo_reads env msg p : publishing_step p (pipeline_read env msg p).1.
Proof.
  apply pb_datagram, Forall_true. intros [st m]. unfold call_publishes.
  destruct (tm_message _) as [|[]|]; try exact I. destruct (data_channel_event _); try exact I.
  intros text request sid eid _ _ _. apply demo_offer_publishes.
Qed.

Lemma demo_writes n p : rtc publishing_step p (write_socket_output n p).1.
Proof.
  revert p. induction n as [|n IH]; intros p; [apply rtc_refl|].
  eapply rtc_l; [apply pb_transmit|]. unfold write_socket_output in *. cbn [drain].
  destruct (pipeline_poll_transmit p) as [[p1 [x|]] e]; [|apply rtc_refl]. cbn [fst].
  specialize (IH p1). by destruct (drain _ n p1).
Qed.

Lemma demo_lively_reachable :
  rtc publishing_step (build_pipeline 0 demo_addr demo_empty) demo_lively.
Proof.
  assert (Henter : ∀ eid p, rtc publishing_step p (demo_enters p eid)).
  { intros eid p. eapply rtc_l; [apply (pb_signal (demo_env 0) (Signal_Offer 7 eid demo_data_text))|].
    - intros text offer _ _. apply demo_offer_publishes.
    - eapply rtc_l; [apply demo_reads|]. apply rtc_once, demo_reads. }
  assert (Hopen : ∀ port p, rtc publishing_step p (demo_opens p port)).
  { intros port p. eapply rtc_l; [apply demo_reads|]. etrans; [apply (demo_writes 20)|].
    eapply rtc_l; [apply demo_reads|]. apply demo_writes. }
  etrans; [apply (Henter 1%Z)|]. etrans; [apply (Henter 2%Z)|].
  etrans; [apply (Hopen 5001%Z)|]. etrans; [apply (Hopen 5002%Z)|]. apply rtc_once, demo_reads.
Qed.

Lemma demo_lively_facts :
  ∃ s e t o v, st_sessions (pl_states demo_lively) !! 7%Z = Some s ∧ ss_endpoints s !! 2%Z = Some e ∧
    ep_transports e !! demo_ft 5002 = Some t ∧ association_handle_and_stream_id t = (Some 11, Some 1)%Z ∧
    ss_endpoints s !! 1%Z = Some o ∧ ep_transceivers o !! "1" = Some v ∧ tv_direction v = Recvonly.
Proof.
  assert (Hf : (s ← st_sessions (pl_states demo_lively) !! 7%Z;
                e ← ss_endpoints s !! 2%Z; t ← ep_transports e !! demo_ft 5002;
                o ← ss_endpoints s !! 1%Z; v ← ep_transceivers o !! "1";
                Some (association_handle_and_stream_id t, tv_direction v))
               = Some ((Some 11, Some 1)%Z, Recvonly)) by (vm_compute; reflexivity).
  apply bind_Some in Hf as (s & Hs & Hf). apply bind_Some in Hf as (e & He & Hf).
  apply bind_Some in Hf as (t & Ht & Hf). apply bind_Some in Hf as (o & Ho & Hf).
  apply bind_Some in Hf as (v & Hv & Hf). apply (inj Some) in Hf. apply pair_equal_spec in Hf as [Hch Hd].
  exists s, e, t, o, v. by split_and!.
Qed.

Lemma reachable_rooms_complete_witness :
  ∃ s e u, st_sessions (pl_states demo_lively) !! 7%Z = Some s ∧ ss_endpoints s !! 2%Z = Some e ∧
    ep_transceivers e !! "1-1" = Some u ∧ tv_direction u = Sendonly.
Proof.
  destruct demo_lively_facts as (s & e & t & o & v & Hs & He & Ht & Hch & Ho & Hv & Hd).
  destruct (reachable_rooms_complete demo_server_config demo_addr demo_empty 0 demo_lively 7 s
              demo_empty_new demo_lively_reachable Hs 1%Z o "1" v 2%Z e Ho Hv Hd) as (u & Hu & Hdu).
  - discriminate.
  - exact He.
  - exists (demo_ft 5002), t, 11%Z, 1%Z. split; [exact Ht|exact Hch].
  - exists s, e, u. split; [exact Hs|]. split; [exact He|]. split; [exact Hu|exact Hdu].
Defined.

Lemma server_refines_room_witness :
  ∃ r, room_steps (λ _, True) room_empty r ∧ room_safe r ∧ (7, 1, demo_ft 5001)%Z ∈ rm_members r.
Proof.
  destruct (server_refines_room demo_server_config demo_addr demo_empty 0 demo_running)
    as (r & H1 & H2 & H3 & _).
  - exact demo_empty_new.
  - exact demo_running_reachable.
  - exists r. split; [exact H1|]. split; [exact H3|]. apply (rp_members _ _ H2). unfold activity.
    pose proof demo_running_connected as H. by destruct (connection _ _ _ _).
Defined.

(** A sender report is handed on without the receiver report beside it, which
    is not handed on by itself. *)
Lemma reachable_interceptor_chains_witness :
  ∃ e, (interceptor_read (ep_interceptor e) (demo_rtcp [Pt_SenderReport; Pt_ReceiverReport])).2
       = [Inbound (demo_rtcp [Pt_SenderReport])] ∧
       (interceptor_read (ep_interceptor e) (demo_rtcp [Pt_ReceiverReport])).2 = [].
Proof.
  destruct (connection_parts _ _ _ _ demo_running_connected) as (s & e & t & Hs & He & _).
  exists e. destruct (reachable_interceptor_chains demo_server_config demo_addr demo_empty 0 demo_running
                        7 s 1 e demo_empty_new demo_running_reachable Hs He) as [H _].
  rewrite !H. vm_compute. split; reflexivity.
Defined.

(** ** The loop *)

(** A round in which nothing arrives until the timers are called at [now]. *)
Definition demo_round (now : Z) : Round :=
  {| rd_stop := false; rd_send := λ _, true; rd_env := demo_env now; rd_signal := None;
     rd_eto_now := now; rd_delay_now := now; rd_received := Recv_Timeout;
     rd_read_env := demo_env now; rd_timer_now := now |}.

(** Endpoint 1 is not heard of again. *)
Definition demo_rounds : list Round := [demo_round (10 ^ 9); demo_round (10 ^ 12)].

Lemma silent_peer_disconnected_witness :
  ∃ p', run_rounds 5 demo_addr demo_rounds demo_joined = Some (p', Ok Flow_Next) ∧
    connection (pl_states p') 7 1 (demo_ft 5001) = None.
Proof.
  assert (∃ p', run_rounds 5 demo_addr demo_rounds demo_joined = Some (p', Ok Flow_Next)) as [p' Hrun]
    by (vm_compute; eauto).
  assert (Ha : tr_last_activity <$> connection (pl_states demo_joined) 7 1 (demo_ft 5001) = Some 1%Z)
    by (vm_compute; reflexivity).
  destruct (connection (pl_states demo_joined) 7 1 (demo_ft 5001)) as [t|] eqn:Ht; [|discriminate Ha].
  injection Ha as Ha. exists p'. split; [exact Hrun|].
  apply (silent_peer_disconnected 5 demo_addr [demo_round (10 ^ 9)] (demo_round (10 ^ 12)) [] 7 1
           (demo_ft 5001) t demo_joined p').
  - apply (pipeline_read_stable server_ok (demo_tc 5001)); [reflexivity|].
    apply (handle_signaling_message_stable (λ _, True) server_ok); [exact I|exact demo_empty_ok].
  - exact Ht.
  - vm_compute. reflexivity.
  - vm_compute. discriminate.
  - repeat constructor.
  - exact I.
  - vm_compute. discriminate.
  - rewrite Ha. vm_compute. discriminate.
  - exact Hrun.
Defined.

(** Two workers, and Ctrl-C. *)
Definition demo_threads : gmap Z (option Pipeline) :=
  {[3478 := Some demo_pipeline; 3479 := Some demo_pipeline]}%Z.

Lemma shutdown_completes_witness :
  let addr_of port := SocketV4 2130706433 port in
  pg_main (program_start demo_threads) = Main_Recv ∧
  ∀ n pg', nsteps (program_step addr_of) n (ctrl_c (program_start demo_threads)) pg' →
           n + steps_left pg' = 7.
Proof.
  destruct (shutdown_completes (λ port, SocketV4 2130706433 port) demo_threads
              (program_start demo_threads) (rtc_refl _ _)) as [[H1 _] H2].
  split; [exact H1|]. destruct H2 as [H2 _].
  - intros port H. simpl in H. apply lookup_fmap_Some in H as ([p|] & H & _); discriminate H.
  - intros n pg' Hn. rewrite (H2 n pg' Hn). vm_compute. reflexivity.
Defined.

(** In async_chat one of them gets a request before Ctrl-C. *)
Lemma async_shutdown_completes_witness :
  let ap := with_worker (async_start demo_threads true) 3478
              (AW_Running chan_new demo_pipeline [Async_Leave 7 1]) in
  async_left ap = 11 ∧
  ∀ n k ap', async_run (async_ctrl_c ap) n k ap' → n ≤ 11 + k.
Proof.
  intros ap. assert (Hleft : async_left ap = 11) by (vm_compute; reflexivity). split; [exact Hleft|].
  intros n k ap' Hrun. rewrite <-Hleft.
  apply (async_shutdown_completes demo_threads true 0 1 ap) with (ap' := ap'); [|exact Hrun].
  apply (run_request _ 0 0 (async_start demo_threads true)); [apply run_refl|].
  apply (ar_request (async_start demo_threads true) 3478 chan_new demo_pipeline []). vm_compute. reflexivity.
Defined.

(** ** Signalling *)

Definition demo_post (url : string) : Request :=
  {| rq_method := "POST"; rq_url := url; rq_data := Some demo_data_text |}.
Definition demo_ports : gmap Z Z := media_port_thread_map [3479; 3478]%Z.
Definition demo_async_workers : gmap Z (option ServerStates) :=
  {[3478 := Some demo_empty; 3479 := Some demo_empty]}%Z.

Lemma demo_offer_served :
  match (offer_served (demo_env 0) 3479 7 1 demo_data_text demo_async_workers).2 with
  | Some (inl _) => True
  | _ => False
  end.
Proof. vm_compute. exact I. Qed.

Lemma async_offer_agrees_witness :
  let sync := web_request [] (signal_worker_ask (demo_env 0)) (demo_post "/offer/7/1") demo_ports
                demo_async_workers in
  let async := remote_handler None (λ _, []) (async_worker_ask (demo_env 0) 5) (demo_post "/offer/7/1")
                 demo_ports demo_async_workers in
  ∃ ws answer, sync = (ws, Ok (body_response 200 "application/json" answer)) ∧
    async = (ws, Ok (body_response 200 "" answer)).
Proof.
  intros sync async.
  pose proof (async_offer_agrees demo_hash_order [] None (λ _, []) (demo_env 0) 5
              (demo_post "/offer/7/1") demo_ports demo_async_workers "" "7" "1" demo_data_text) as H.
  cbv zeta in H. change (parse_u64 "7") with (Ok 7%Z) in H. change (parse_u64 "1") with (Ok 1%Z) in H.
  destruct H as (port & tx & Hp & Htx & H).
  - vm_compute. discriminate.
  - reflexivity.
  - vm_compute. reflexivity.
  - reflexivity.
  - vm_compute in Hp. injection Hp as <-. vm_compute in Htx. injection Htx as <-.
    pose proof demo_offer_served as Hs.
    destruct (offer_served (demo_env 0) 3479 7 1 demo_data_text demo_async_workers)
      as [ws [[answer|]|]]; simpl in Hs; [|destruct Hs..].
    exists ws, (as_bytes answer). exact H.
Defined.

Definition demo_cli : Cli :=
  {| cli_host := "127.0.0.1"; cli_signal_port := 8080; cli_media_port_min := 3478;
     cli_media_port_max := 3480; cli_force_local_loop := true; cli_debug := false;
     cli_level := Level_Info |}%Z.
Definition demo_host : Host :=
  {| ho_networks := []; ho_ip_from_str := λ _, Ok (IpV4 2130706433); ho_key_pair := Ok ();
     ho_certificate := λ _, Ok (certificate_from_existing [[Byte.x30]] 0%Z);
     ho_dtls_config := λ _, Ok (); ho_bind := λ _, true; ho_now := 0%Z |}.
Definition demo_started : gmap Z Z * gmap Z (option Pipeline) :=
  match sync_main demo_cli demo_host with Ok x => x | _ => (∅, ∅) end.
(** The workers after an offer for session 7. *)
Definition demo_served : gmap Z (option Pipeline) :=
  (web_request [] (worker_ask (socket_of (IpV4 2130706433)) 5 (demo_round 0)) (demo_post "/offer/7/1")
     demo_started.1 demo_started.2).1.

Lemma session_on_one_worker_witness :
  ∃ p, demo_served !! 3479%Z = Some (Some p) ∧ is_Some (st_sessions (pl_states p) !! 7%Z) ∧
    (3478 ≤ 3479 ≤ 3480)%Z.
Proof.
  assert (Hs : option_bool (mjoin (demo_served !! 3479%Z) ≫= λ p, st_sessions (pl_states p) !! 7%Z) = true)
    by (vm_compute; reflexivity).
  destruct (demo_served !! 3479%Z) as [[p|]|] eqn:Hp; [|discriminate Hs..]. exists p.
  simpl in Hs. split; [reflexivity|].
  assert (Hk : is_Some (st_sessions (pl_states p) !! 7%Z)) by (destruct (st_sessions _ !! _); [eauto|done]).
  split; [exact Hk|].
  apply (session_on_one_worker demo_cli demo_host (IpV4 2130706433) demo_started.1 demo_started.2 []
           demo_served 3479 3479 p p 7); [reflexivity| | |exact Hp|left; exact Hk].
  - vm_compute. reflexivity.
  - apply rtc_once. apply (sys_request (socket_of (IpV4 2130706433)) [] demo_started.1 5 (demo_round 0)).
Defined.

Lemma demo_room_sender :
  (st_sessions demo_room !! 7%Z ≫= λ s, (λ e, sender_reports (ep_interceptor e)) <$> ss_endpoints s !! 1%Z)
  = Some 1.
Proof. vm_compute. reflexivity. Qed.

Lemma demo_room_contexts :
  tr_remote_srtp_context <$> connection demo_room 7 1 (demo_ft 5001) = Some (Some (demo_context 64)).
Proof. vm_compute. reflexivity. Qed.

(** Endpoint 1 sends a packet: endpoint 2 gets it, and nobody else anything. *)
Lemma media_end_to_end_witness :
  ∃ p1 p2 out, pipeline_read (demo_env 4) (demo_datagram [Byte.x80] 5001) demo_pipeline = (p1, []) ∧
    write_socket_output 5 p1 = (p2, out) ∧ quiet p2 ∧ length out = 1.
Proof.
  pose proof demo_room_contexts as Hctx. apply fmap_Some in Hctx as (t & Ht & Hr).
  destruct (media_end_to_end (demo_env 4) 4 (demo_tc 5001) [Byte.x80]
              (Ev_Rtp (Rtp_Rtp demo_unmarshalled)) demo_pipeline 7 1 t)
    as (p1 & targets & Hread & [Hnd Hin] & Hw).
  - repeat split.
  - exact demo_room_table.
  - reflexivity.
  - exact Ht.
  - exists (demo_context 64), [Byte.x80]. split; [exact (eq_sym Hr)|]. split; [reflexivity|].
    exists demo_unmarshalled. split; reflexivity.
  - intros s e Hs He. pose proof demo_room_sender as H. change (pl_states demo_pipeline) with demo_room in Hs.
    rewrite Hs in H. cbn [mbind option_bind] in H. rewrite He in H. by injection H.
  - intros m' oid ft c [= <-] _. exists [Byte.x80]. reflexivity.
  - assert (Hlen : targets = [(2%Z, demo_ft 5002)]).
    { apply Permutation_singleton_r, NoDup_Permutation; [done|apply NoDup_singleton|].
      intros [oid ft]. rewrite Hin, list_elem_of_singleton. split.
      - intros (Ho & c & Hc). unfold local_context in Hc. apply fmap_Some in Hc as (t' & Hc & _).
        apply elem_of_connections in Hc. change (pl_states demo_pipeline) with demo_room in Hc.
        rewrite demo_room_list in Hc. rewrite !elem_of_cons, elem_of_nil in Hc.
        destruct Hc as [[= -> ->]|[[= -> ->]|[]]]; [done|by destruct Ho].
      - intros [= -> ->]. split; [discriminate|]. exists (demo_context 0). vm_compute. reflexivity. }
    subst targets. destruct (Hw 5 ltac:(simpl; lia)) as (p2 & out & H1 & H2 & H3).
    exists p1, p2, out. split; [exact Hread|]. split; [exact H1|]. split; [exact H2|].
    cbn [relayed] in H3. by rewrite <-(Forall2_length _ _ _ H3).
Defined.

(** ** Negotiation *)

(** Both peers of the room have done so. *)
Definition demo_wired : Pipeline := demo_opens (demo_opens demo_pipeline 5001) 5002.

(** Each step of the way succeeds; the datagrams go to these ports. *)
Definition demo_steps (ports : list Z) (t : Transport) : bool :=
  let ft := demo_ft 5001 in
  let tc := demo_tc 5001 in
  let st := pl_states demo_wired in
  let sh := pl_sctp demo_wired in
  match dtls_read (tr_dtls_endpoint t) 4 (tc_peer_addr tc) (addr_ip (tc_local_addr tc)) (tc_ecn tc)
          demo_offered with
  | (e, Ok [ApplicationData data]) =>
      let '(e', ts) := dtls_drain e in
      match sctp_read_transport (sh_buffer_len sh) 4 tc data (set_dtls_endpoint t e') with
      | (t', Ok ms) =>
          match inbound_of ms with
          | [d] =>
              match dc_try_read d with
              | Ok (Some am, reply) =>
                  let st1 := update_transport (update_transport st 7 1 ft
                      (λ t, set_dtls_endpoint t e')) 7 1 ft
                      (λ t, set_sctp t (tr_sctp_endpoint t') (tr_sctp_associations t')) in
                  match handle_dtls_message (demo_env 9) 4 tc am st1 with
                  | (st2, Ok msgs) =>
                      match sctp_sends sh
                              (sctp_max_message_size (sctp_server_config (st_server_config st2)))
                              (associations st2)
                              (map (λ r, {| tm_now := 4%Z; tm_transport := tc;
                                            tm_message := Ev_Dtls (Dtls_Sctp r) |})
                                 (option_list reply) ++ flat_map dc_outbound msgs) with
                      | Some packets =>
                          match dtls_sends (dh_local_addr (pl_dtls demo_wired)) (endpoints st2)
                                  (sctp_read_transmits sh ms ++ packets) with
                          | Some ds => bool_decide (length ts = 0) &&
                              bool_decide (map (λ x, tc_peer_addr (tb_transport x)) ds =
                                           map (SocketV4 2130706433) ports)
                          | None => false
                          end
                      | None => false
                      end
                  | _ => false
                  end
              | _ => false
              end
          | _ => false
          end
      | _ => false
      end
  | _ => false
  end.
Lemma demo_steps_ok :
  find_endpoint (pl_states demo_wired) (demo_ft 5001) = Some (7, 1)%Z ∧
  demo_steps [5001; 5001; 5002]%Z <$> connection (pl_states demo_wired) 7 1 (demo_ft 5001) = Some true.
Proof. split; vm_compute; reflexivity. Qed.
Lemma negotiation_end_to_end_witness :
  ∃ p1 p2 out, pipeline_read (demo_env 9) (demo_datagram demo_offered 5001) demo_wired = (p1, []) ∧
    write_socket_output 20 p1 = (p2, out) ∧ quiet p2 ∧
    map (λ x, tc_peer_addr (tb_transport x)) out = map (SocketV4 2130706433) [5001; 5001; 5002]%Z.
Proof.
  destruct demo_steps_ok as [Hf H]. apply fmap_Some in H as (t & Hc & H). symmetry in H.
  unfold demo_steps in H.
  destruct (dtls_read _ _ _ _ _ _) as [e [[|[|data] [|]]|?|]] eqn:Hr; try discriminate H.
  destruct (dtls_drain e) as [e' ts] eqn:Hd.
  destruct (sctp_read_transport _ _ _ _ _) as [t' [ms|?|]] eqn:Hs; try discriminate H.
  destruct (inbound_of ms) as [|d [|]] eqn:Hi; try discriminate H.
  destruct (dc_try_read d) as [[[am|] reply]|?|] eqn:Htry; try discriminate H.
  destruct (handle_dtls_message _ _ _ _ _) as [st2 [msgs|?|]] eqn:Hg; try discriminate H.
  destruct (sctp_sends _ _ _ _) as [packets|] eqn:Hp; [|discriminate H].
  destruct (dtls_sends _ _ _) as [ds|] eqn:Hds; [|discriminate H].
  apply andb_true_iff in H as [Hts Hports]. apply bool_decide_eq_true in Hts, Hports.
  apply length_zero_iff_nil in Hts as ->.
  match type of Hg with handle_dtls_message _ _ _ _ ?st1 = _ =>
    destruct (negotiation_end_to_end (demo_env 9) 4 (demo_tc 5001) demo_offered demo_wired d st1 [] ms am
                reply st2 msgs packets ds) as (p1 & H1 & _ & H2); [| |exact Htry|exact Hg|exact Hp|exact Hds|]
  end.
  - vm_compute. repeat split.
  - split; [reflexivity|]. exists 7%Z, 1%Z, t, e, e', data, t'. repeat (split; [eassumption|]). reflexivity.
  - assert (Hlen : length ds = 3) by (rewrite <-(length_map (λ x, tc_peer_addr (tb_transport x))), Hports; reflexivity).
    destruct (H2 20) as (p2 & H3 & H4); [rewrite Hlen; simpl; lia|].
    exists p1, p2, ds. split; [exact H1|]. split; [exact H3|]. split; [exact H4|exact Hports].
Defined.
